(* ===== verification/_CoqProject ===== *)
-Q . S2P
Prelude.v
RustStd.v
Diag.v
Order.v
NetAddr.v
Protocol.v
Net.v
PinnedHttp.v
Crypto.v
Samples.v
Rendezvous.v
UdpPacket.v
UdpSession.v
UdpChannel.v
UdpListener.v
UdpExposure.v
UdpDelivery.v
Relay.v
RelayServer.v
Registry.v
ControlPlane.v
Queries.v
Netstack.v
MediumSession.v
TcpStack.v
AndroidConnect.v
Android.v
HomeNode.v
HttpProxy.v
NodeLinks.v
RelayConnectors.v
UdpBridge.v
Invites.v
Disk.v
ClientApi.v
Http.v
Server.v
HttpSamples.v
EndToEnd.v
Install.v
Doctor.v
NodeAgent.v
Deployment.v
CliArgs.v
Cli.v
