(* ===== verification/Prelude.v ===== *)
(** * Medium: a verification development (root file)

    Medium lets a user reach services on machines behind NATs: a _control plane_ keeps a
    registry of nodes and their services, grants sessions and issues certificates; a _home
    node_ registers, keeps sockets open to a _relay_, and lets authorized sessions through to
    its services; a _client_ (a command-line tool, or a network stack on Android) asks for a
    session and reaches the node directly over TCP, over a reliable stream on UDP, or through
    the relay, over TCP or a WebSocket.  This library models that code, file by file, and
    proves what makes it correct, or, where it is not, what goes wrong.

    ** How to read it

    Definitions keep the names of the Rust functions and their order in the source.  Text is
    [string] (its UTF-8 bytes) and byte slices are [list byte]; integers are [Z] with the wrap
    or the failure of their width written out; time is [Z], in nanoseconds.  Fallible code returns [result] (this file); code with
    effects is a function of the state it runs in, in the monad [eff] of [Net.v]: a state goes
    in, and an outcome and the state it leaves come out, on errors too.  A state of the outside
    ([net], [dialer], [disk], [world]) is a script: what each receive, connect or command will
    give, in order, with what was sent so far.  So every theorem that quantifies over such a
    state quantifies over everything the outside may do up to any moment; a script is finite,
    so what an endless stream of arrivals would do is a statement about every length of it.

    Code that is not in the repository is a parameter, with the laws the program relies on
    as the fields of a class: [JsonOk] (serde_json reads back what it wrote), [TokenOk] (HMAC
    is a function, base64 reads back), [AeadOk] (decryption inverts encryption), [Sha256Ok],
    [SmoltcpOk], [FormUrlencodedOk], [UrlsOk], [UrlPathsOk], [StateJsonOk],
    [HyperOk] and [AxumOk] (an HTTP/1.1 server reads the requests it is sent; routes and
    extractors), [NodeTomlOk].  The main theorems, numbered C1 to C40 in their comments by importance, come with a lemma ending
    in [_witness] where they have hypotheses, which applies them to concrete values with
    stand-ins for these parameters ([Samples.v], [HttpSamples.v], [toy_aead] and others).

    ** The files and the code

    - [Prelude.v] (this file): errors, results, big-endian integers, bytes and lists.
    - [RustStd.v], [Order.v], [NetAddr.v]: strings, stable sorting and socket addresses of the
      Rust standard library.
    - [Diag.v]: crates/overlay-transport/src/p2p_diag.rs, the diagnostic lines.
    - [Protocol.v]: crates/overlay-protocol/src/messages.rs and overlay-transport/src/session.rs,
      the messages and the hello lines.
    - [PinnedHttp.v]: overlay-transport/src/pinned_http.rs, pins and the HTTP client;
      [Http.v]: the server's end of its requests, hyper's, as an interface.
    - [Crypto.v]: crates/overlay-crypto/src/lib.rs, session tokens and identities.
    - [Net.v]: the monad of effects and UDP sockets; [Rendezvous.v]:
      overlay-transport/src/udp_rendezvous.rs.
    - [UdpPacket.v], [UdpSession.v], [UdpListener.v]: overlay-transport/src/udp_session.rs, the
      packets, the reliable stream, and the handshake with the listener's thread and its log;
      [UdpChannel.v]: two ends of the stream as programs that read and write;
      [UdpExposure.v]: the history of an inbox, and what the handshake gives away;
      [UdpDelivery.v]: a write, from the client's socket through the listener to the reader.
    - [Relay.v], [RelayServer.v]: services/relay/src/, the UDP rendezvous server and the pools
      of waiting nodes; the TCP and WebSocket servers, and main.
    - [Registry.v], [ControlPlane.v], [Queries.v], [Server.v]: services/control-plane/src/, the
      database, the handlers, the handlers that make several queries, query by query, and the
      router, the TLS configuration and main.
    - [Netstack.v], [TcpStack.v]: crates/medium-netstack/src/lib.rs, host names, addresses and
      DNS, and the TCP side over smoltcp.
    - [MediumSession.v]: crates/medium-session/src/lib.rs, how a client connects.
    - [AndroidConnect.v], [Android.v]: crates/medium-android-netstack/src/lib.rs, the backends
      and their connections with their copies of the client's helpers, and the loop of the TUN
      device with the runner that Java starts and stops.
    - [HomeNode.v], [HttpProxy.v], [NodeLinks.v], [RelayConnectors.v], [UdpBridge.v], [NodeAgent.v]:
      services/home-node/src/: the configuration, the registration and the checks of a
      session; the HTTP side of the proxy; the sockets to the relays, the accepting loops and
      the agent; the tasks that keep those sockets open; the bridge of a UDP session; main and
      the start of the servers.
    - [Invites.v], [Disk.v], [ClientApi.v], [Install.v], [Doctor.v], [CliArgs.v], [Cli.v]:
      apps/medium-cli/src/: invites, the file system, the client's state and calls,
      installation, the doctor, the command line, and the commands.
    - [EndToEnd.v], [Deployment.v]: no code of their own; what the parts do together, from a
      node's registration to a client's session, and from an installation to its clients and
      nodes.

    ** How the parts meet

    The files require each other as the crates do.  The places where one part relies on
    another are theorems over both: a grant of [ControlPlane.v] matches the rows of
    [Registry.v] and its token is one that [Crypto.v] verifies; what [MediumSession.v] writes
    on a connection is what [Relay.v] and [HomeNode.v] read
    ([EndToEnd.node_services_are_reachable_over_the_control_plane], which follows one session
    from the registration of the node and the grant, both as requests to the control plane's
    server, over every kind of candidate, to the service); the requests of the pinned client
    are the ones the router dispatches to the handlers, and their replies are read back
    ([EndToEnd.pinned_clients_are_answered]); what [init-control] and [init-node] leave on
    two hosts starts a control plane, a relay and a node that accept each other
    ([Deployment.v]); what one end of a UDP session writes the other reads
    ([UdpChannel.acknowledged_writes_reach_the_peer]), through the handshake and the listener
    ([UdpDelivery.writes_reach_the_reader_through_the_listener]); a session on UDP is handed to the same
    checks as one on TCP ([UdpBridge.udp_sessions_are_checked_like_tcp]); the Android copies of
    the connecting functions behave as the client's
    ([AndroidConnect.android_connects_like_the_client]); the files [Install.v] writes are read
    back by the control plane, by the doctor and by the report of the registry, and the
    invites it prints by the client and the node ([Install.initialised_control_accepts_its_invites],
    [Invites.invites_read_back]); the command line that [medium ssh] builds is parsed by the
    [medium] that OpenSSH then runs ([CliArgs.ssh_proxies_the_named_device]).  Between a
    component and the ones it is written against there are classes: [StreamStack] and
    [BackendIo] for the Android loop, with the laws [BackendIoOk] that the program's
    connections are proved to keep ([Android.active_backend_io_ok]), [Smoltcp] for the TCP stack, [Aead] for the UDP stream,
    [TokenEnv], [Json] and [Urls].

    Concurrency is modelled as transition systems or as sequences of steps: the tasks of the
    relay ([relay_step], one critical section each, under the accepting loops of [acceptor] and
    of the control plane's server), the rounds of the UDP listener and of the
    loop that accepts from it ([udp_step]), the two threads of a UDP bridge ([bridge_step],
    one critical section on the state their streams share; the threads' code is shown to
    take these steps), the polls of the bridge of a WebSocket ([poll_bridge]), the queries of a
    request with the registrations of others that commit before each ([shared_db]).

    ** What the theorems show

    - Safety of data: what a UDP stream delivers is a prefix of what its peer sent, whatever
      the network does, and holds every write that was acknowledged; its inbox holds its peer's
      packets until another hello comes from the same address; all this against a network that does not have the session's
      key, which the handshake gives to who sees it; the bytes of the WebSocket streams, of the HTTP proxy, of the
      Android stack and of the terminal's proxy are kept and in order.
    - Authorization: a token is accepted only with a signature of the shared secret and
      within its time; a session reaches a service only if its token names that node and
      service; a relay, over TCP or WebSockets, pairs clients only with authenticated nodes of
      the requested name; a client that joined with an invite talks only to the certificate
      the invite pins, and the control plane an installation starts has it; and what the
      routes without authentication give away.
    - Function: registration, grants, DNS answers, host names, candidate order, the HTTP
      proxy, the installer's files and the commands do what their callers expect.
    - Composition: the control plane's server runs as its registry and its relay; installed
      nodes and clients join the control plane they were invited by; nodes get their
      certificates.
    - Round trips: packets, tokens, invites, command lines, diagnostic lines.
    - Types and invariants: the schema of the database, reachable relays, the stream protocol of the TCP stack, the tables of the
      Android backends, the listener's inboxes.
    - Refinements and equivalences: a request that makes several queries reads one moment of the
      registry unless a node it reads of registers meanwhile; connecting takes the first success of a flat plan of
      attempts; the threads of a UDP bridge take the steps of the interleaved bridge; Android
      connects like the client.
    - Liveness: writes of a UDP stream survive up to four losses each; a connector
      of a node is never without a socket to its relay, or an attempt for one, for longer than half
      a second, and a node never has more than four.
    - Termination, errors and bounds: an operation on a UDP stream lasts as long as packets
      arrive, and one timeout more, five for a write; a malformed hello
      stops a node's UDP sessions; a UDP session's thread never ends, and its other thread
      ends at the first acknowledgement that takes more than 100 ms; networks have at most
      201 services, each with its own address.

    Faults of the code are stated as theorems about what it does, with a comment that says
    what goes wrong; the definitions are never corrected.

    ** Fuel and bounds

    Loops that Rust runs until something happens have fuel.  The receiving loops of the UDP
    stream have no bound and no deadline in the code: they go on while packets arrive.  In the
    model they take [S (budget w)]: each round uses up a datagram, an inbox entry or a wake-up
    of the script, so the fuel is never used up and the model is the code on that script, of
    whatever length; [operations_last_while_packets_arrive] says how long an operation takes
    and that it does take that long, and [write_all_terminates] bounds the rounds of a whole
    write.  The loops of the Android stack over a backend, which end when it would block, take
    what it can still give ([backend_read_budget], [backend_write_budget]), which
    [flush_loop_in_fuel] and [read_loop_in_fuel] show to be enough.  Loops over frames, candidates or records are structural.  The TLS
    handshake has a round for each scripted event and for each 105 ms to the deadline
    ([handshake_fuel]).  The parsers of [NetAddr.v] and the string searches of [RustStd.v] take
    the length of their input.  The copying threads ([copy_blocking] of [UdpBridge.v]) and the
    TUN loop run for as many rounds as asked, and their theorems hold for every number of
    rounds: a Rust loop that never ends is one whose every number of rounds is used up.
    The thread that keeps a node registered for UDP runs for as many rounds as asked too, and
    a connector for as many attempts as its script has.
    16 KiB bounds a hello line, 1100 bytes a chunk of a UDP stream, 1500 bytes a datagram, as
    in the code.

    ** Not modelled

    - The raw file descriptor and the JVM of the Android stack.
    - Interleavings inside the server of [Server.v]: there a request is one step.  What can
      come between the queries of a request is in [Queries.v].
    - Logging ([tracing]; the text of the diagnostic lines is in [Diag.v]) and the messages
      printed under [--verbose].
    - TLS records, X.509, HMAC, SHA-256, ChaCha20-Poly1305, base64, JSON, TOML, URL parsing,
      SQL, smoltcp, tungstenite, tokio's [copy_bidirectional], reqwest, ssh-keygen, OpenSSH and
      systemctl: other code than the repository's, parameters where the program's results
      depend on them.  OpenSSH's expansion of a ProxyCommand and the shell's reading of it are
      specified in [CliArgs.v].
    - The UniFFI bindings, the Swift and Kotlin applications, packages and scripts. *)

From stdpp Require Export base tactics list gmap strings numbers.
From Stdlib Require Import ZArith Lia.
From Stdlib Require Export Strings.Byte.
From Stdlib Require Export Strings.Ascii.

#[global] Open Scope Z_scope.

(** Appending computes on a constructor, as it does outside stdpp. *)
#[global] Arguments String.append : simpl nomatch.

(** ** Errors and fallible code

    The Rust code returns [anyhow::Result] or [std::io::Result].  An error value
    is a message, an I/O error with its kind, or an error value made by code
    outside the repository (of which only the origin is known). *)

Inductive io_kind :=
  | WouldBlock
  | TimedOut
  | Interrupted
  | UnexpectedEof
  | WriteZero
  | OtherIo.

Inductive error :=
  | EMsg (m : string)
  | EIo (k : io_kind)
  | EExt (origin : string).

Inductive result (A : Type) :=
  | Ok (a : A)
  | Err (e : error).
Arguments Ok {_} _.
Arguments Err {_} _.

#[global] Instance io_kind_eq_dec : EqDecision io_kind.
Proof. solve_decision. Defined.
#[global] Instance error_eq_dec : EqDecision error.
Proof. solve_decision. Defined.
#[global] Instance result_eq_dec {A} `{EqDecision A} : EqDecision (result A).
Proof. solve_decision. Defined.

#[global] Instance result_ret : MRet result := fun A a => Ok a.
#[global] Instance result_bind : MBind result := fun A B f m =>
  match m with Ok a => f a | Err e => Err e end.
#[global] Instance result_fmap : FMap result := fun A B f m =>
  match m with Ok a => Ok (f a) | Err e => Err e end.

(** Where the fuel of a loop would end: the fuel given is shown to be enough, or it is the
    number of rounds asked for.  A panic ends the thread. *)
Definition out_of_fuel : error := EExt "out of fuel".
Definition panic : error := EExt "panic".

(** [ok_or_else] / [context] on an option. *)
Definition ok_or {A} (e : error) (o : option A) : result A :=
  match o with Some a => Ok a | None => Err e end.

(** [Result::ok]. *)
Definition result_ok {A} (r : result A) : option A :=
  match r with Ok a => Some a | Err _ => None end.

Definition is_ok {A} (r : result A) : bool :=
  match r with Ok _ => true | Err _ => false end.

(** [if cond { bail!(e) }]. *)
Definition bail_if (b : bool) (e : error) : result unit :=
  if b then Err e else Ok tt.

(** [error.kind() == WouldBlock || error.kind() == TimedOut], the test the
    blocking code makes on every receive. *)
Definition is_retry_kind (e : error) : bool :=
  match e with EIo WouldBlock | EIo TimedOut => true | _ => false end.

Fixpoint result_map {A B} (f : A -> result B) (l : list A) : result (list B) :=
  match l with
  | [] => Ok []
  | a :: l' => b ← f a; bs ← result_map f l'; Ok (b :: bs)
  end.

(** ** Notations *)

Declare Scope medium_scope.
Delimit Scope medium_scope with medium.
Notation "s =?s t" := (bool_decide (s = t)) (at level 70, no associativity) : medium_scope.
#[global] Open Scope medium_scope.

(** ** Tactics *)

(** Case analysis on the head matches of the goal and hypotheses, with the
    contradictory and trivial branches closed. *)
Ltac break := repeat (case_match; simplify_eq/=; try done).
(** Unfolds the result monad's operations. *)
Ltac unfold_result :=
  unfold mbind, mret, fmap, result_bind, result_ret, result_fmap in *; simpl in *.
Create HintDb medium discriminated.
Create Rewrite HintDb medium_rw.

(** ** Facts about [result] *)

Lemma bind_ok {A B} (m : result A) (f : A -> result B) b :
  mbind f m = Ok b <-> exists a, m = Ok a /\ f a = Ok b.
Proof. destruct m; unfold mbind, result_bind; naive_solver. Qed.

Lemma bind_Ok {A B} (a : A) (f : A -> result B) : mbind f (Ok a) = f a.
Proof. done. Qed.
Lemma ok_or_ok {A} e (o : option A) a : ok_or e o = Ok a <-> o = Some a.
Proof. destruct o; simpl; naive_solver. Qed.

Lemma bail_if_ok b e : bail_if b e = Ok tt <-> b = false.
Proof. destruct b; simpl; naive_solver. Qed.

(** Inverts a chain of binds that returned [Ok]. *)
Ltac inv_result :=
  repeat match goal with
  | H : mbind _ _ = Ok _ |- _ =>
      let E := fresh "E" in apply bind_ok in H as (? & E & H)
  | H : bail_if _ _ = Ok ?u |- _ => destruct u; apply bail_if_ok in H
  | H : ok_or _ _ = Ok _ |- _ => apply ok_or_ok in H
  | H : Ok _ = Ok _ |- _ => injection H as H; subst
  | H : Err _ = Ok _ |- _ => discriminate H
  | H : mret _ = Ok _ |- _ => unfold mret, result_ret in H
  | p : (_ * _)%type |- _ => destruct p
  end.

Lemma result_map_ok {A B} (f : A -> result B) l l' :
  result_map f l = Ok l' <-> Forall2 (fun a b => f a = Ok b) l l'.
Proof.
  revert l'; induction l as [|a l IH]; intros l'; simpl.
  { split; [intros [= <-]; constructor | intros H; inversion H; done]. }
  rewrite bind_ok; setoid_rewrite bind_ok; split.
  - intros (b & Hb & bs & Hbs & [= <-]). constructor; [done|by apply IH].
  - intros H; inversion H; subst. eexists; split; [done|]. eexists; split; [by apply IH|done].
Qed.

(** ** Bytes as integers *)

Definition u8 (b : byte) : Z := Z.of_N (Byte.to_N b).
Definition byte_of_Z (z : Z) : byte :=
  match Byte.of_N (Z.to_N (z mod 256)) with Some b => b | None => x00 end.

#[global] Instance byte_eq_dec : EqDecision byte := Byte.byte_eq_dec.

Lemma u8_range b : 0 <= u8 b < 256.
Proof. unfold u8. pose proof (Byte.to_N_bounded b). lia. Qed.

Lemma byte_of_u8 b : byte_of_Z (u8 b) = b.
Proof.
  unfold byte_of_Z. rewrite Z.mod_small by apply u8_range.
  unfold u8. rewrite N2Z.id, Byte.of_to_N. done.
Qed.

Lemma u8_byte_of_Z z : u8 (byte_of_Z z) = z mod 256.
Proof.
  unfold byte_of_Z, u8. pose proof (Z.mod_pos_bound z 256).
  destruct (Byte.of_N _) eqn:E.
  - apply Byte.to_of_N in E. rewrite E. lia.
  - apply Byte.of_N_None_iff in E. lia.
Qed.

Lemma u8_inj a b : u8 a = u8 b -> a = b.
Proof. intros H. by rewrite <- (byte_of_u8 a), <- (byte_of_u8 b), H. Qed.

(** Big-endian encoding on [n] bytes: [to_be_bytes] / [from_be_bytes]. *)
Fixpoint to_be (n : nat) (z : Z) : list byte :=
  match n with
  | O => []
  | S m => byte_of_Z (z / 256 ^ Z.of_nat m) :: to_be m z
  end.

Definition from_be (bs : list byte) : Z :=
  fold_left (fun acc b => acc * 256 + u8 b) bs 0.

Lemma length_to_be n z : length (to_be n z) = n.
Proof. induction n; simpl; auto. Qed.

Lemma from_be_acc bs acc :
  fold_left (fun acc b => acc * 256 + u8 b) bs acc
  = acc * 256 ^ Z.of_nat (length bs) + from_be bs.
Proof.
  unfold from_be. revert acc; induction bs as [|b bs IH]; intros acc; simpl.
  - lia.
  - rewrite (IH (acc * 256 + u8 b)).
    change (fold_left _ bs _) with (fold_left (fun acc b => acc * 256 + u8 b) bs (u8 b)) at 2.
    rewrite (IH (u8 b)), Nat2Z.inj_succ, Z.pow_succ_r by lia. ring.
Qed.

Lemma from_be_cons b bs : from_be (b :: bs) = u8 b * 256 ^ Z.of_nat (length bs) + from_be bs.
Proof. unfold from_be at 1; simpl. apply from_be_acc. Qed.

Lemma from_be_bound bs : 0 <= from_be bs < 256 ^ Z.of_nat (length bs).
Proof.
  induction bs as [|b bs IH]; [done|].
  rewrite from_be_cons. simpl length. rewrite Nat2Z.inj_succ, Z.pow_succ_r by lia.
  pose proof (u8_range b). nia.
Qed.

Lemma to_be_mod n z k : (n <= k)%nat -> to_be n (z mod 256 ^ Z.of_nat k) = to_be n z.
Proof.
  induction n as [|n IH]; intros Hle; [done|]; simpl. f_equal; [|apply IH; lia].
  apply u8_inj. rewrite !u8_byte_of_Z.
  replace (Z.of_nat k) with (Z.of_nat n + (1 + Z.of_nat (k - S n))) by lia.
  rewrite Z.pow_add_r by lia.
  rewrite Z.rem_mul_r by (try apply Z.pow_nonzero; try apply Z.pow_pos_nonneg; lia).
  rewrite Z.mul_comm, Z.div_add, Z.div_small by
    (try apply Z.pow_nonzero; try (apply Z.mod_pos_bound, Z.pow_pos_nonneg); lia).
  rewrite Z.add_0_l, Z.pow_add_r, Z.pow_1_r, Z.rem_mul_r by
    (try apply Z.pow_pos_nonneg; lia).
  rewrite Z.mul_comm, Z.mod_add, Z.mod_mod by lia. done.
Qed.

Lemma from_to_be n z : 0 <= z < 256 ^ Z.of_nat n -> from_be (to_be n z) = z.
Proof.
  revert z; induction n as [|n IH]; intros z Hz; [simpl in *; unfold from_be; simpl; lia|].
  simpl to_be. rewrite from_be_cons, length_to_be, u8_byte_of_Z.
  rewrite Nat2Z.inj_succ, Z.pow_succ_r in Hz by lia.
  assert (0 < 256 ^ Z.of_nat n) by (apply Z.pow_pos_nonneg; lia).
  rewrite Z.mod_small by (split; [apply Z.div_pos; lia | apply Z.div_lt_upper_bound; lia]).
  rewrite <- (to_be_mod n z n) by lia.
  rewrite IH by (apply Z.mod_pos_bound; lia).
  rewrite (Z.div_mod z (256 ^ Z.of_nat n)) at 3 by lia. lia.
Qed.

Lemma to_from_be bs : to_be (length bs) (from_be bs) = bs.
Proof.
  induction bs as [|b bs IH]; [done|]. simpl length. simpl to_be.
  rewrite from_be_cons.
  assert (0 < 256 ^ Z.of_nat (length bs)) by (apply Z.pow_pos_nonneg; lia).
  pose proof (from_be_bound bs). f_equal.
  - rewrite Z.add_comm, Z.div_add, Z.div_small by lia. apply byte_of_u8.
  - rewrite <- (to_be_mod _ _ (length bs)) by lia.
    rewrite Z.add_comm, Z.mod_add, Z.mod_small by lia. done.
Qed.

Lemma to_from_be_len n bs : length bs = n -> to_be n (from_be bs) = bs.
Proof. intros <-. apply to_from_be. Qed.

#[export] Hint Rewrite length_to_be : medium_rw.
#[export] Hint Resolve u8_range from_be_bound : medium.

(** ** Bytes and strings *)

(** A Rust [str] is its UTF-8 bytes; [as_bytes] and its inverse. *)
Definition bytes_of (s : string) : list byte := String.list_byte_of_string s.
Definition string_of (bs : list byte) : string := String.string_of_list_byte bs.

Lemma string_of_bytes_of s : string_of (bytes_of s) = s.
Proof. apply String.string_of_list_byte_of_string. Qed.
Lemma bytes_of_string_of bs : bytes_of (string_of bs) = bs.
Proof. apply String.list_byte_of_string_of_list_byte. Qed.
Lemma bytes_of_inj s t : bytes_of s = bytes_of t -> s = t.
Proof. intros H. by rewrite <- (string_of_bytes_of s), <- (string_of_bytes_of t), H. Qed.
Lemma bytes_of_app s t : bytes_of (s +:+ t) = bytes_of s ++ bytes_of t.
Proof.
  unfold bytes_of, String.list_byte_of_string.
  induction s as [|c s IH]; [done|]. simpl. by rewrite IH.
Qed.

(** The double-quote character as a string. *)
Definition dquote : string := String (Ascii.ascii_of_nat 34) EmptyString.
Definition newline : byte := x0a.

(** ** Lists *)

(** Splitting at the end of a known prefix: the wire decoders' shared step. *)
Lemma take_app_eq {A} (l1 l2 : list A) n : n = length l1 -> take n (l1 ++ l2) = l1.
Proof. intros ->. apply take_app_length. Qed.
Lemma drop_app_eq {A} (l1 l2 : list A) n : n = length l1 -> drop n (l1 ++ l2) = l2.
Proof. intros ->. apply drop_app_length. Qed.
Lemma Forall_filter_keep {A} (P Q : A -> Prop) `{!forall x, Decision (Q x)} (l : list A) :
  Forall P l -> Forall P (filter Q l).
Proof.
  intros Hl. apply list.Forall_forall. intros x Hx. apply list_elem_of_filter in Hx as [_ Hx].
  by eapply list.Forall_forall in Hx.
Qed.
