(* ===== verification/RustStd.v ===== *)
(** * Strings of the Rust standard library

    The operations on [str] the program uses, on a [str]'s UTF-8 bytes: searching
    ([split_once], [rsplit_once], [split], [lines]), trimming, ASCII case,
    integer parsing ([FromStr] of the unsigned types, [from_str_radix]) and
    decimal/hexadecimal formatting.  Also UTF-8 decoding ([chars]) and
    validation ([str::from_utf8]). *)

From S2P Require Import Prelude.

(** ** Characters *)

Definition code (c : ascii) : Z := Z.of_N (Ascii.N_of_ascii c).
Definition ascii_of_Z (z : Z) : ascii := Ascii.ascii_of_N (Z.to_N (z mod 256)).
Definition in_range (lo hi : Z) (z : Z) : bool := (lo <=? z) && (z <=? hi).

Definition is_ascii_upper (c : ascii) : bool := in_range 65 90 (code c).
Definition is_ascii_lower (c : ascii) : bool := in_range 97 122 (code c).
Definition is_ascii_digit (c : ascii) : bool := in_range 48 57 (code c).
Definition is_ascii_alphanumeric (c : ascii) : bool :=
  is_ascii_upper c || is_ascii_lower c || is_ascii_digit c.
(** [u8::is_ascii_graphic]: U+0021 to U+007E. *)
Definition is_ascii_graphic (c : ascii) : bool := in_range 33 126 (code c).

Definition ascii_lower (c : ascii) : ascii :=
  if is_ascii_upper c then ascii_of_Z (code c + 32) else c.

Fixpoint string_map (f : ascii -> ascii) (s : string) : string :=
  match s with
  | EmptyString => EmptyString
  | String c s' => String (f c) (string_map f s')
  end.

Fixpoint string_all (p : ascii -> bool) (s : string) : bool :=
  match s with
  | EmptyString => true
  | String c s' => p c && string_all p s'
  end.

Definition to_ascii_lowercase (s : string) : string := string_map ascii_lower s.
Definition eq_ignore_ascii_case (s t : string) : bool :=
  to_ascii_lowercase s =?s to_ascii_lowercase t.

Definition str_len (s : string) : Z := Z.of_nat (String.length s).
Definition is_empty (s : string) : bool := s =?s EmptyString.

(** ** Searching *)

(** [str::strip_prefix] with a [&str] pattern. *)
Fixpoint strip_prefix (pat s : string) : option string :=
  match pat, s with
  | EmptyString, _ => Some s
  | String p pat', String c s' => if bool_decide (p = c) then strip_prefix pat' s' else None
  | String _ _, EmptyString => None
  end.

Definition starts_with (pat s : string) : bool := match strip_prefix pat s with Some _ => true | None => false end.

Fixpoint string_rev_app (s acc : string) : string :=
  match s with
  | EmptyString => acc
  | String c s' => string_rev_app s' (String c acc)
  end.
Definition string_rev (s : string) : string := string_rev_app s EmptyString.

Definition ends_with (pat s : string) : bool := starts_with (string_rev pat) (string_rev s).

(** [str::split_once] with a [&str] pattern: at the first occurrence. *)
Fixpoint split_once (pat s : string) : option (string * string) :=
  match strip_prefix pat s with
  | Some rest => Some (EmptyString, rest)
  | None =>
      match s with
      | EmptyString => None
      | String c s' =>
          match split_once pat s' with
          | Some (before, after) => Some (String c before, after)
          | None => None
          end
      end
  end.

(** [str::rsplit_once] with a [char] pattern: at the last occurrence. *)
Fixpoint rsplit_once (d : ascii) (s : string) : option (string * string) :=
  match s with
  | EmptyString => None
  | String c s' =>
      match rsplit_once d s' with
      | Some (before, after) => Some (String c before, after)
      | None => if bool_decide (c = d) then Some (EmptyString, s') else None
      end
  end.

(** [str::split] with a [char] pattern, collected. *)
Fixpoint split_on (d : ascii) (s : string) : list string :=
  match s with
  | EmptyString => [EmptyString]
  | String c s' =>
      if bool_decide (c = d) then EmptyString :: split_on d s'
      else match split_on d s' with
           | [] => [String c EmptyString]
           | piece :: rest => String c piece :: rest
           end
  end.

(** [str::contains] with a [&str] pattern. *)
Definition contains (pat s : string) : bool := match split_once pat s with Some _ => true | None => false end.

(** [str::contains] / membership of a byte. *)
Fixpoint char_in (d : ascii) (s : string) : bool :=
  match s with
  | EmptyString => false
  | String c s' => bool_decide (c = d) || char_in d s'
  end.

(** [str::replace] of a single character. *)
Fixpoint replace_char (d : ascii) (r s : string) : string :=
  match s with
  | EmptyString => EmptyString
  | String c s' => (if bool_decide (c = d) then r else String c EmptyString) +:+ replace_char d r s'
  end.

(** [slice::join]. *)
Definition join (sep : string) (l : list string) : string := String.concat sep l.

Definition lf : ascii := Ascii.ascii_of_nat 10.
Definition cr : ascii := Ascii.ascii_of_nat 13.
Definition crlf : string := String cr (String lf EmptyString).

(** [str::lines]: split at LF, a final empty piece dropped, one trailing CR of
    each line that was ended by an LF removed. *)
Definition strip_cr (s : string) : string :=
  match string_rev s with
  | String c r => if bool_decide (c = cr) then string_rev r else s
  | EmptyString => s
  end.
Fixpoint lines_of (pieces : list string) : list string :=
  match pieces with
  | [] => []
  | [last] => if is_empty last then [] else [last]
  | p :: rest => strip_cr p :: lines_of rest
  end.
Definition lines (s : string) : list string := lines_of (split_on lf s).

(** ** Trimming *)

Fixpoint trim_start_by (p : ascii -> bool) (s : string) : string :=
  match s with
  | String c s' => if p c then trim_start_by p s' else s
  | EmptyString => EmptyString
  end.
Definition trim_end_by (p : ascii -> bool) (s : string) : string :=
  string_rev (trim_start_by p (string_rev s)).
Definition trim_matches (p : ascii -> bool) (s : string) : string :=
  trim_end_by p (trim_start_by p s).
(** [str::trim_end_matches] with a [char]. *)
Definition trim_end_matches (d : ascii) (s : string) : string :=
  trim_end_by (fun c => bool_decide (c = d)) s.

(** UTF-8 encodings of the characters with the Unicode property White_Space. *)
Definition bytes_str (l : list Z) : string :=
  fold_right (fun z s => String (ascii_of_Z z) s) EmptyString l.
Definition white_space : list string :=
  map bytes_str
    ([[9]; [10]; [11]; [12]; [13]; [32]; [194; 133]; [194; 160]; [225; 154; 128]] ++
     map (fun z => [226; 128; z]) [128; 129; 130; 131; 132; 133; 134; 135; 136; 137; 138; 168; 169; 175] ++
     [[226; 129; 159]; [227; 128; 128]]).

Fixpoint strip_any (pats : list string) (s : string) : option string :=
  match pats with
  | [] => None
  | p :: rest => match strip_prefix p s with Some r => Some r | None => strip_any rest s end
  end.
Fixpoint strip_many (fuel : nat) (pats : list string) (s : string) : string :=
  match fuel with
  | O => s
  | S n => match strip_any pats s with Some r => strip_many n pats r | None => s end
  end.
Definition trim_start (s : string) : string := strip_many (String.length s) white_space s.
Definition trim_end (s : string) : string :=
  string_rev (strip_many (String.length s) (map string_rev white_space) (string_rev s)).
(** [str::trim]. *)
Definition trim (s : string) : string := trim_end (trim_start s).

(** [str::split_whitespace], collected; [cur] is the current word, reversed. *)
Fixpoint split_ws (fuel : nat) (cur s : string) : list string :=
  match fuel with
  | O => []
  | S n =>
      let flush := if is_empty cur then [] else [string_rev cur] in
      match strip_any white_space s with
      | Some r => flush ++ split_ws n EmptyString r
      | None =>
          match s with
          | String c s' => split_ws n (String c cur) s'
          | EmptyString => flush
          end
      end
  end.
Definition split_whitespace (s : string) : list string :=
  split_ws (S (String.length s)) EmptyString s.

(** ** Integers *)

Definition digit_value (radix : Z) (c : ascii) : option Z :=
  let z := code c in
  let d := if in_range 48 57 z then Some (z - 48)
           else if in_range 97 122 z then Some (z - 87)
           else if in_range 65 90 z then Some (z - 55)
           else None in
  match d with
  | Some v => if v <? radix then Some v else None
  | None => None
  end.

Fixpoint parse_digits (radix max acc : Z) (s : string) : option Z :=
  match s with
  | EmptyString => Some acc
  | String c s' =>
      match digit_value radix c with
      | Some v =>
          let acc' := acc * radix + v in
          if acc' <=? max then parse_digits radix max acc' s' else None
      | None => None
      end
  end.

(** [from_str_radix] of an unsigned type with maximum [max]: an optional leading
    plus sign, then at least one digit, overflow refused. *)
Definition from_str_radix (radix max : Z) (s : string) : option Z :=
  match s with
  | EmptyString => None
  | String c s' =>
      if bool_decide (c = "+"%char)
      then (if is_empty s' then None else parse_digits radix max 0 s')
      else parse_digits radix max 0 s
  end.

Definition u16_max : Z := 65535.
Definition u32_max : Z := 2 ^ 32 - 1.
Definition usize_max : Z := 2 ^ 64 - 1.
Definition parse_u16 : string -> option Z := from_str_radix 10 u16_max.
Definition parse_u32 : string -> option Z := from_str_radix 10 u32_max.
Definition parse_usize : string -> option Z := from_str_radix 10 usize_max.

Definition digit_char (v : Z) : ascii :=
  ascii_of_Z (if v <? 10 then 48 + v else 87 + v).

(** Digits of [z], most significant first, in front of [acc]. *)
Fixpoint radix_digits (fuel : nat) (radix z : Z) (acc : string) : string :=
  match fuel with
  | O => acc
  | S n =>
      let acc' := String (digit_char (z mod radix)) acc in
      if z <? radix then acc' else radix_digits n radix (z / radix) acc'
  end.
Definition radix_fuel (z : Z) : nat := S (Z.to_nat (Z.log2_up (z + 1))).
(** [Display] of an unsigned integer, and [{:x}]. *)
Definition dec (z : Z) : string := radix_digits (radix_fuel z) 10 z EmptyString.
Definition hex (z : Z) : string := radix_digits (radix_fuel z) 16 z EmptyString.
(** [Display] of a signed integer. *)
Definition dec_signed (z : Z) : string :=
  if z <? 0 then String "-" (dec (- z)) else dec z.
(** [{:02x}] of a byte. *)
Definition hex2 (z : Z) : string :=
  String (digit_char (z / 16)) (String (digit_char (z mod 16)) EmptyString).
(** [{:02X}] of a byte. *)
Definition digit_char_upper (v : Z) : ascii :=
  ascii_of_Z (if v <? 10 then 48 + v else 55 + v).
Definition hex2_upper (z : Z) : string :=
  String (digit_char_upper (z / 16)) (String (digit_char_upper (z mod 16)) EmptyString).

(** ** UTF-8 *)

Definition is_cont (z : Z) : bool := in_range 128 191 z.

(** The scalar values of a UTF-8 string; [None] on an ill-formed sequence (the
    table of well-formed sequences of the Unicode standard, which
    [str::from_utf8] accepts exactly). *)
Fixpoint utf8_chars (s : string) : option (list Z) :=
  match s with
  | EmptyString => Some []
  | String c0 s1 =>
    let b0 := code c0 in
    if b0 <? 128 then cons b0 <$> utf8_chars s1 else
    match s1 with
    | EmptyString => None
    | String c1 s2 =>
      let b1 := code c1 in
      if in_range 194 223 b0 then
        if is_cont b1 then cons ((b0 - 192) * 64 + (b1 - 128)) <$> utf8_chars s2 else None
      else
      match s2 with
      | EmptyString => None
      | String c2 s3 =>
        let b2 := code c2 in
        if in_range 224 239 b0 then
          if in_range (if b0 =? 224 then 160 else 128) (if b0 =? 237 then 159 else 191) b1
             && is_cont b2
          then cons ((b0 - 224) * 4096 + (b1 - 128) * 64 + (b2 - 128)) <$> utf8_chars s3
          else None
        else
        match s3 with
        | EmptyString => None
        | String c3 s4 =>
          let b3 := code c3 in
          if in_range 240 244 b0
             && in_range (if b0 =? 240 then 144 else 128) (if b0 =? 244 then 143 else 191) b1
             && is_cont b2 && is_cont b3
          then cons ((b0 - 240) * 262144 + (b1 - 128) * 4096 + (b2 - 128) * 64 + (b3 - 128))
                 <$> utf8_chars s4
          else None
        end
      end
    end
  end.

(** [std::str::from_utf8]. *)
Definition from_utf8 (bs : list byte) : option string :=
  let s := string_of bs in
  match utf8_chars s with Some _ => Some s | None => None end.

(** The value's characters; a [str] is well formed, so the default is not used
    on a Rust string. *)
Definition chars (s : string) : list Z := default [] (utf8_chars s).

(** ** Facts about characters *)

Lemma code_range c : 0 <= code c < 256.
Proof. unfold code. pose proof (Ascii.N_ascii_bounded c). lia. Qed.

Lemma ascii_of_code c : ascii_of_Z (code c) = c.
Proof.
  unfold ascii_of_Z. rewrite Z.mod_small by apply code_range.
  unfold code. by rewrite N2Z.id, Ascii.ascii_N_embedding.
Qed.

Lemma code_ascii_of_Z z : code (ascii_of_Z z) = z mod 256.
Proof.
  unfold ascii_of_Z, code. pose proof (Z.mod_pos_bound z 256).
  rewrite Ascii.N_ascii_embedding by lia. lia.
Qed.

Lemma code_inj a b : code a = code b -> a = b.
Proof. intros H. by rewrite <- (ascii_of_code a), <- (ascii_of_code b), H. Qed.

(** A property of all characters follows from its check on the 256 codes. *)
Definition all_ascii : list ascii := map ascii_of_Z (seqZ 0 256).
Lemma all_ascii_complete c : c ∈ all_ascii.
Proof.
  unfold all_ascii. apply list_elem_of_fmap. exists (code c).
  split; [by rewrite ascii_of_code|]. apply elem_of_seqZ. pose proof (code_range c). lia.
Qed.
Lemma ascii_forallb (p : ascii -> bool) : forallb p all_ascii = true -> forall c, p c = true.
Proof.
  intros H c. rewrite forallb_forall in H. apply H, list_elem_of_In, all_ascii_complete.
Qed.

Lemma ascii_lower_idemp c : ascii_lower (ascii_lower c) = ascii_lower c.
Proof.
  pattern c. apply (bool_decide_eq_true_1 _).
  revert c. apply ascii_forallb. vm_compute. done.
Qed.

(** ** Facts about strings *)

Lemma string_app_nil_r (s : string) : s +:+ EmptyString = s.
Proof. induction s as [|c s IH]; [done|]. simpl. by rewrite IH. Qed.
Lemma string_app_assoc (a b c : string) : a +:+ (b +:+ c) = (a +:+ b) +:+ c.
Proof. induction a as [|x a IH]; [done|]. simpl. by rewrite IH. Qed.
Lemma string_app_cons c (a b : string) : String c a +:+ b = String c (a +:+ b).
Proof. done. Qed.
Lemma string_length_app (a b : string) : String.length (a +:+ b) = (String.length a + String.length b)%nat.
Proof. induction a as [|x a IH]; [done|]. simpl. by rewrite IH. Qed.
Lemma char_in_app d (a b : string) : char_in d (a +:+ b) = char_in d a || char_in d b.
Proof. induction a as [|x a IH]; [done|]. simpl. by rewrite IH, orb_assoc. Qed.
Lemma string_all_app p (a b : string) : string_all p (a +:+ b) = string_all p a && string_all p b.
Proof. induction a as [|x a IH]; [done|]. simpl. by rewrite IH, andb_assoc. Qed.
Lemma string_all_char_in p d s : string_all p s = true -> p d = false -> char_in d s = false.
Proof.
  induction s as [|c s IH]; [done|]. simpl. intros [Hc Hs]%andb_true_iff Hd.
  rewrite IH by done. case_bool_decide; [congruence|done].
Qed.
Lemma to_ascii_lowercase_idemp s : to_ascii_lowercase (to_ascii_lowercase s) = to_ascii_lowercase s.
Proof.
  unfold to_ascii_lowercase. induction s as [|c s IH]; [done|]. simpl.
  by rewrite ascii_lower_idemp, IH.
Qed.
Lemma bytes_of_cons c s : bytes_of (String c s) = Ascii.byte_of_ascii c :: bytes_of s.
Proof. done. Qed.
Lemma length_bytes_of s : length (bytes_of s) = String.length s.
Proof. unfold bytes_of, String.list_byte_of_string. induction s as [|c s IH]; [done|]. simpl. by rewrite IH. Qed.

Lemma strip_prefix_some pat s r : strip_prefix pat s = Some r <-> s = pat +:+ r.
Proof.
  revert s; induction pat as [|p pat IH]; intros s; simpl; [naive_solver|].
  destruct s as [|c s]; [naive_solver|]. case_bool_decide; naive_solver.
Qed.
Lemma strip_prefix_app pat r : strip_prefix pat (pat +:+ r) = Some r.
Proof. by apply strip_prefix_some. Qed.

Lemma split_once_sound pat s a b : split_once pat s = Some (a, b) -> s = a +:+ pat +:+ b.
Proof.
  revert a b; induction s as [|c s IH]; intros a b.
  - simpl. destruct (strip_prefix _ _) eqn:E; [|done].
    intros [= <- <-]. by apply strip_prefix_some in E.
  - simpl. destruct (strip_prefix pat (String c s)) eqn:E.
    { intros [= <- <-]. by apply strip_prefix_some in E. }
    destruct (split_once pat s) as [[x y]|] eqn:E2; [|done].
    intros [= <- <-]. simpl. f_equal. by apply IH.
Qed.

Lemma split_once_here pat r : split_once pat (pat +:+ r) = Some (EmptyString, r).
Proof. pose proof (strip_prefix_app pat r) as Hp. destruct (pat +:+ r); cbn [split_once]; by rewrite Hp. Qed.
Lemma split_once_skip d pat s :
  strip_prefix pat (String d s) = None ->
  split_once pat (String d s) = match split_once pat s with Some (a, b) => Some (String d a, b) | None => None end.
Proof. intros Hs. simpl. by rewrite Hs. Qed.

(** The two forms in which the program builds and cuts delimited text. *)
Lemma split_once_char d a b :
  char_in d a = false -> split_once (String d EmptyString) (a +:+ String d b) = Some (a, b).
Proof.
  induction a as [|c a IH]; simpl; intros H.
  - by rewrite bool_decide_eq_true_2 by done.
  - apply orb_false_iff in H as [Hc Ha]. apply bool_decide_eq_false in Hc.
    rewrite bool_decide_eq_false_2 by done. by rewrite IH.
Qed.
Lemma split_once_char_none d a :
  char_in d a = false -> split_once (String d EmptyString) a = None.
Proof.
  induction a as [|c a IH]; simpl; [done|]. intros [Hc Ha]%orb_false_iff.
  apply bool_decide_eq_false in Hc. rewrite bool_decide_eq_false_2 by done. by rewrite IH.
Qed.
Lemma rsplit_once_none d s : rsplit_once d s = None <-> char_in d s = false.
Proof.
  induction s as [|c s IH]; simpl; [done|].
  destruct (rsplit_once d s) as [[x y]|] eqn:E.
  - destruct (char_in d s) eqn:E2; [by rewrite orb_true_r|].
    by destruct IH as [_ IH2]; specialize (IH2 eq_refl).
  - rewrite (proj1 IH eq_refl), orb_false_r. by case_bool_decide.
Qed.
Lemma rsplit_once_char d a b :
  char_in d b = false -> rsplit_once d (a +:+ String d b) = Some (a, b).
Proof.
  intros Hb. induction a as [|c a IH]; simpl.
  - rewrite (proj2 (rsplit_once_none d b) Hb). by rewrite bool_decide_eq_true_2.
  - by rewrite IH.
Qed.
Lemma split_on_ne d s : split_on d s <> [].
Proof. destruct s as [|c s]; simpl; [done|]. case_bool_decide; [done|]. by destruct (split_on d s). Qed.
Lemma split_on_none d a : char_in d a = false -> split_on d a = [a].
Proof.
  induction a as [|c a IH]; simpl; [done|]. intros [Hc Ha]%orb_false_iff.
  apply bool_decide_eq_false in Hc. rewrite bool_decide_eq_false_2 by done. by rewrite IH.
Qed.
Lemma split_on_app d a b :
  char_in d a = false -> split_on d (a +:+ String d b) = a :: split_on d b.
Proof.
  induction a as [|c a IH]; simpl; intros H.
  - by rewrite bool_decide_eq_true_2.
  - apply orb_false_iff in H as [Hc Ha]. apply bool_decide_eq_false in Hc.
    rewrite bool_decide_eq_false_2 by done. by rewrite IH.
Qed.

(** ** Number formatting and parsing are inverse *)

(** A decidable statement about a concrete list, by evaluation. *)
Ltac by_enum :=
  refine (proj1 (list.Forall_forall _ _) _); apply (bool_decide_eq_true_1 _); vm_compute; reflexivity.

Lemma digit_value_char radix v :
  0 <= v < radix -> radix <= 16 -> digit_value radix (digit_char v) = Some v.
Proof.
  intros Hv Hr.
  assert (v ∈ seqZ 0 16) as Hin by (apply elem_of_seqZ; lia).
  assert (digit_value 16 (digit_char v) = Some v) as H.
  { clear Hv. revert v Hin. by_enum. }
  revert H. unfold digit_value. destruct (if in_range _ _ _ then _ else _) as [w|]; [|done].
  repeat case_match; naive_solver lia.
Qed.

Lemma digit_char_not_plus v : 0 <= v < 16 -> digit_char v <> "+"%char.
Proof.
  intros Hv E. pose proof (digit_value_char 16 v Hv ltac:(lia)) as H.
  rewrite E in H. vm_compute in H. done.
Qed.

Lemma radix_digits_head n radix z acc :
  2 <= radix -> 0 <= z ->
  exists v rest, 0 <= v < radix /\ radix_digits (S n) radix z acc = String (digit_char v) rest.
Proof.
  intros Hr. revert z acc; induction n as [|n IH]; intros z acc Hz; simpl.
  - pose proof (Z.mod_pos_bound z radix). destruct (z <? radix); eauto with lia.
  - destruct (z <? radix) eqn:E.
    + exists (z mod radix). eexists. split; [apply Z.mod_pos_bound; lia|done].
    + apply (IH (z / radix)). apply Z.div_pos; lia.
Qed.

Lemma parse_radix_digits fuel radix max z tail :
  2 <= radix <= 16 -> 0 <= z <= max -> z < radix ^ Z.of_nat fuel -> (0 < fuel)%nat ->
  parse_digits radix max 0 (radix_digits fuel radix z tail) = parse_digits radix max z tail.
Proof.
  intros Hr. revert z tail; induction fuel as [|fuel IH]; intros z tail Hz Hf Hpos; [lia|].
  assert (0 <= z mod radix < radix) by (apply Z.mod_pos_bound; lia).
  simpl. destruct (z <? radix) eqn:E; [apply Z.ltb_lt in E|apply Z.ltb_ge in E].
  - rewrite Z.mod_small by lia. simpl. rewrite digit_value_char by lia.
    by rewrite (proj2 (Z.leb_le _ _)) by lia.
  - rewrite Nat2Z.inj_succ, Z.pow_succ_r in Hf by lia.
    assert (z / radix < radix ^ Z.of_nat fuel) by (apply Z.div_lt_upper_bound; lia).
    assert (0 <= z / radix <= z) by (split; [apply Z.div_pos|apply Z.div_le_upper_bound]; nia).
    destruct fuel as [|fuel'].
    { simpl in Hf. lia. }
    rewrite IH by lia. simpl. rewrite digit_value_char by lia.
    replace (z / radix * radix + z mod radix) with z by (pose proof (Z.div_mod z radix); lia).
    by rewrite (proj2 (Z.leb_le _ _)) by lia.
Qed.

Lemma radix_fuel_enough radix z : 2 <= radix -> 0 <= z -> z < radix ^ Z.of_nat (radix_fuel z).
Proof.
  intros Hr Hz. unfold radix_fuel.
  assert (0 <= Z.log2_up (z + 1)) by apply Z.log2_up_nonneg.
  rewrite Nat2Z.inj_succ, Z2Nat.id, Z.pow_succ_r by lia.
  assert (z + 1 <= 2 ^ Z.log2_up (z + 1)).
  { destruct (decide (z = 0)) as [->|]; [done|]. apply Z.log2_up_spec. lia. }
  assert (2 ^ Z.log2_up (z + 1) <= radix ^ Z.log2_up (z + 1)) by (apply Z.pow_le_mono_l; lia).
  nia.
Qed.

Lemma from_str_radix_digits radix max z :
  2 <= radix <= 16 -> 0 <= z <= max ->
  from_str_radix radix max (radix_digits (radix_fuel z) radix z EmptyString) = Some z.
Proof.
  intros Hr Hz. unfold from_str_radix, radix_fuel.
  destruct (radix_digits_head (Z.to_nat (Z.log2_up (z + 1))) radix z EmptyString)
    as (v & rest & Hv & Heq); [lia|lia|].
  rewrite Heq. rewrite bool_decide_eq_false_2 by (apply digit_char_not_plus; lia).
  rewrite <- Heq. change (S _) with (radix_fuel z).
  rewrite parse_radix_digits; [done|lia|lia|by apply radix_fuel_enough; lia|unfold radix_fuel; lia].
Qed.

Lemma parse_u16_dec z : 0 <= z <= u16_max -> parse_u16 (dec z) = Some z.
Proof. intros. apply from_str_radix_digits; lia. Qed.
Lemma parse_u32_dec z : 0 <= z <= u32_max -> parse_u32 (dec z) = Some z.
Proof. intros. apply from_str_radix_digits; lia. Qed.

Lemma radix_digits_all p n radix z acc :
  2 <= radix -> 0 <= z -> (forall v, 0 <= v < radix -> p (digit_char v) = true) ->
  string_all p acc = true -> string_all p (radix_digits n radix z acc) = true.
Proof.
  intros Hr Hz Hp. revert z Hz acc; induction n as [|n IH]; intros z Hz acc Hacc; simpl; [done|].
  assert (string_all p (String (digit_char (z mod radix)) acc) = true) as Hs.
  { simpl. rewrite Hp by (apply Z.mod_pos_bound; lia). done. }
  destruct (z <? radix); [done|]. apply IH; [apply Z.div_pos; lia|done].
Qed.

Lemma dec_digits z : 0 <= z -> string_all is_ascii_digit (dec z) = true.
Proof.
  intros Hz. apply radix_digits_all; [lia|done| |done].
  intros v Hv. assert (v ∈ seqZ 0 10) as Hin by (apply elem_of_seqZ; lia).
  clear Hv. revert v Hin. by_enum.
Qed.

Lemma hex_digits z : 0 <= z -> string_all (fun c => is_ascii_lower c || is_ascii_digit c) (hex z) = true.
Proof.
  intros Hz. apply radix_digits_all; [lia|done| |done].
  intros v Hv. assert (v ∈ seqZ 0 16) as Hin by (apply elem_of_seqZ; lia).
  clear Hv. revert v Hin. by_enum.
Qed.
Lemma ascii_utf8 s : string_all (fun c => code c <? 128) s = true -> is_Some (utf8_chars s).
Proof.
  induction s as [|c s IH]; [by eexists|]. cbn. intros [Hc Hs]%andb_true_iff. rewrite Hc.
  destruct (IH Hs) as [l ->]. by eexists.
Qed.
Lemma string_all_impl (p q : ascii -> bool) s :
  (forall c, p c = true -> q c = true) -> string_all p s = true -> string_all q s = true.
Proof.
  intros Hpq. induction s as [|c s IH]; [done|]. cbn. intros [Hc Hs]%andb_true_iff.
  apply andb_true_iff. auto.
Qed.
Lemma dec_not_in d z : 0 <= z -> is_ascii_digit d = false -> char_in d (dec z) = false.
Proof. intros Hz Hd. eapply string_all_char_in; [by apply dec_digits|done]. Qed.

Lemma dec_not_empty z : 0 <= z -> is_empty (dec z) = false.
Proof.
  intros Hz. unfold dec, radix_fuel.
  destruct (radix_digits_head (Z.to_nat (Z.log2_up (z + 1))) 10 z EmptyString)
    as (v & rest & _ & ->); [lia|lia|done].
Qed.

(** [{:02x}] of a byte reads back in base 16. *)
Lemma hex2_parse z : 0 <= z <= 255 -> from_str_radix 16 255 (hex2 z) = Some z.
Proof.
  intros Hz. assert (z ∈ seqZ 0 256) as Hin by (apply elem_of_seqZ; lia).
  clear Hz. revert z Hin. by_enum.
Qed.
Lemma hex2_utf8 z : 0 <= z <= 255 -> is_Some (utf8_chars (hex2 z)).
Proof.
  intros Hz. assert (z ∈ seqZ 0 256) as Hin by (apply elem_of_seqZ; lia).
  clear Hz. revert z Hin. by_enum.
Qed.

#[export] Hint Rewrite string_app_nil_r strip_prefix_app split_once_char rsplit_once_char : medium_rw.

(** ** Reversal, trimming and joining *)

Lemma string_rev_app_spec s acc : string_rev_app s acc = string_rev s +:+ acc.
Proof.
  unfold string_rev. revert acc; induction s as [|c s IH]; intros acc; simpl; [done|].
  rewrite IH, (IH (String c EmptyString)), <- string_app_assoc. done.
Qed.
Lemma string_rev_cons c s : string_rev (String c s) = string_rev s +:+ String c EmptyString.
Proof. unfold string_rev at 1; simpl. by rewrite string_rev_app_spec. Qed.
Lemma string_rev_snoc s c : string_rev (s +:+ String c EmptyString) = String c (string_rev s).
Proof.
  induction s as [|x s IH]; [done|]. rewrite string_app_cons, !string_rev_cons, IH. done.
Qed.
Lemma string_rev_involutive s : string_rev (string_rev s) = s.
Proof. induction s as [|c s IH]; [done|]. by rewrite string_rev_cons, string_rev_snoc, IH. Qed.
Lemma string_map_app f a b : string_map f (a +:+ b) = string_map f a +:+ string_map f b.
Proof. induction a as [|c a IH]; [done|]. simpl. by rewrite IH. Qed.
Lemma string_map_rev f s : string_map f (string_rev s) = string_rev (string_map f s).
Proof.
  induction s as [|c s IH]; [done|]. rewrite string_rev_cons, string_map_app, IH. simpl.
  by rewrite string_rev_cons.
Qed.

Lemma trim_start_by_idemp p s : trim_start_by p (trim_start_by p s) = trim_start_by p s.
Proof. induction s as [|c s IH]; [done|]. simpl. destruct (p c) eqn:E; [done|]. simpl. by rewrite E. Qed.
Lemma trim_end_by_idemp p s : trim_end_by p (trim_end_by p s) = trim_end_by p s.
Proof. unfold trim_end_by. by rewrite string_rev_involutive, trim_start_by_idemp. Qed.
Lemma trim_end_by_map p f s :
  (forall c, p (f c) = p c) -> trim_end_by p (string_map f s) = string_map f (trim_end_by p s).
Proof.
  intros Hf. unfold trim_end_by. rewrite <- string_map_rev, string_map_rev with (s := trim_start_by _ _).
  f_equal. induction (string_rev s) as [|c r IH]; [done|]. simpl. rewrite Hf. by destruct (p c).
Qed.
(** No pattern starts with the character. *)
Definition starts_none (pats : list string) (c : ascii) : bool :=
  forallb (fun p => match p with String c' _ => negb (bool_decide (c' = c)) | EmptyString => false end) pats.
Lemma strip_any_none pats c r : starts_none pats c = true -> strip_any pats (String c r) = None.
Proof.
  induction pats as [|p pats IH]; [done|]. cbn. intros [Hp Hpats]%andb_true_iff. rewrite IH by done.
  destruct p as [|c' p]; [done|]. cbn. by apply negb_true_iff in Hp as ->.
Qed.
Lemma strip_many_none fuel pats c r : starts_none pats c = true -> strip_many fuel pats (String c r) = String c r.
Proof. intros Hc. destruct fuel; [done|]. cbn [strip_many]. by rewrite strip_any_none. Qed.
(** Nothing to trim after a last character that the pattern refuses. *)
Lemma trim_end_by_last p s c : p c = false -> trim_end_by p (s +:+ String c EmptyString) = s +:+ String c EmptyString.
Proof.
  intros Hc. unfold trim_end_by. rewrite string_rev_snoc. simpl. rewrite Hc.
  by rewrite string_rev_cons, string_rev_involutive.
Qed.
Lemma trim_end_by_drop p s c : p c = true -> trim_end_by p (s +:+ String c EmptyString) = trim_end_by p s.
Proof. intros Hc. unfold trim_end_by. rewrite string_rev_snoc. simpl. by rewrite Hc. Qed.

Lemma join_cons sep x l : l <> [] -> join sep (x :: l) = x +:+ sep +:+ join sep l.
Proof. destruct l; [done|]. done. Qed.
Lemma join_snoc sep l w : l <> [] -> join sep (l ++ [w]) = join sep l +:+ sep +:+ w.
Proof.
  induction l as [|x l IH]; [done|]. intros _. destruct l as [|y l]; [done|].
  change ((x :: y :: l) ++ [w]) with (x :: ((y :: l) ++ [w])).
  rewrite join_cons by done. rewrite IH by done. rewrite (join_cons sep x) by done.
  by rewrite !string_app_assoc.
Qed.
Lemma join_split_on d s : join (String d EmptyString) (split_on d s) = s.
Proof.
  induction s as [|c s IH]; [done|]. simpl. case_bool_decide as Hc.
  - subst. rewrite join_cons by apply split_on_ne. by rewrite IH.
  - pose proof (split_on_ne d s) as Hne. destruct (split_on d s) as [|p rest]; [done|].
    destruct rest; simpl in *; by rewrite IH.
Qed.
Lemma split_on_join d l :
  l <> [] -> Forall (fun piece => char_in d piece = false) l -> split_on d (join (String d EmptyString) l) = l.
Proof.
  induction l as [|x l IH]; [done|]. intros _ Hl. inversion Hl as [|? ? Hx Hrest]; subst.
  destruct l as [|y l]; [by apply split_on_none|].
  rewrite join_cons by done. change (String d EmptyString +:+ ?s) with (String d s).
  rewrite split_on_app by done. f_equal. by apply IH.
Qed.
Lemma split_on_no_sep d s : Forall (fun piece => char_in d piece = false) (split_on d s).
Proof.
  induction s as [|c s IH]; simpl; [repeat constructor|]. case_bool_decide as Hc; [by constructor|].
  pose proof (split_on_ne d s) as Hne. destruct (split_on d s) as [|p rest]; [done|].
  inversion IH; subst. constructor; [|done]. simpl. by rewrite bool_decide_eq_false_2.
Qed.

Lemma ascii_lower_dot c : bool_decide (ascii_lower c = "."%char) = bool_decide (c = "."%char).
Proof.
  assert (Bool.eqb (bool_decide (ascii_lower c = "."%char)) (bool_decide (c = "."%char)) = true) as H.
  { revert c. apply ascii_forallb. vm_compute. done. }
  by apply Bool.eqb_prop in H.
Qed.
