(* ===== verification/Diag.v ===== *)
(** * Diagnostic lines

    [crates/overlay-transport/src/p2p_diag.rs]: the log lines on peer-to-peer connections,
    whose values come from the network (node and service names, tokens' fields) and are
    quoted when they are not plain words.

    A Rust [char] that is escaped is ASCII, so escaping works on the UTF-8 bytes. *)

From S2P Require Import Prelude RustStd.

Definition backslash : ascii := ascii_of_nat 92.
Definition quote_char : ascii := ascii_of_nat 34.
Definition plain (c : ascii) : bool :=
  is_ascii_graphic c && negb (bool_decide (c = quote_char)) && negb (bool_decide (c = backslash)).

Definition escape_char (c : ascii) : string :=
  if bool_decide (c = backslash) then String backslash (String backslash EmptyString)
  else if bool_decide (c = quote_char) then String backslash (String quote_char EmptyString)
  else if bool_decide (c = ascii_of_nat 10) then String backslash "n"
  else if bool_decide (c = ascii_of_nat 13) then String backslash "r"
  else if bool_decide (c = ascii_of_nat 9) then String backslash "t"
  else String c EmptyString.
Fixpoint escape (s : string) : string :=
  match s with EmptyString => EmptyString | String c rest => escape_char c +:+ escape rest end.
Definition format_value (value : string) : string :=
  if negb (is_empty value) && string_all plain value then value
  else String quote_char (escape value +:+ String quote_char EmptyString).

Fixpoint push_fields (output : string) (fields : list (string * string)) : string :=
  match fields with
  | [] => output
  | (key, value) :: rest => push_fields (output +:+ " " +:+ key +:+ "=" +:+ format_value value) rest
  end.
Definition line (phase result : string) (fields : list (string * string)) : string :=
  push_fields ("p2p_diag phase=" +:+ format_value phase +:+ " result=" +:+ format_value result) fields.

(** ** A reader of these lines *)

(** The text of a quoted value up to its closing quote, and what follows. *)
Fixpoint read_quoted (s : string) : option (string * string) :=
  match s with
  | EmptyString => None
  | String c rest =>
      if bool_decide (c = quote_char) then Some (EmptyString, rest)
      else if bool_decide (c = backslash) then
        match rest with
        | EmptyString => None
        | String d rest =>
            '(value, after) ← read_quoted rest;
            let d := if bool_decide (d = "n"%char) then ascii_of_nat 10
                     else if bool_decide (d = "r"%char) then ascii_of_nat 13
                     else if bool_decide (d = "t"%char) then ascii_of_nat 9 else d in
            Some (String d value, after)
        end
      else '(value, after) ← read_quoted rest; Some (String c value, after)
  end.
(** The longest prefix of characters that satisfy [p]. *)
Fixpoint span (p : ascii -> bool) (s : string) : string * string :=
  match s with
  | EmptyString => (EmptyString, EmptyString)
  | String c rest => if p c then let '(a, b) := span p rest in (String c a, b) else (EmptyString, s)
  end.
Definition read_value (s : string) : option (string * string) :=
  match s with
  | String c rest => if bool_decide (c = quote_char) then read_quoted rest else Some (span plain s)
  | EmptyString => None
  end.
Definition key_char (c : ascii) : bool := plain c && negb (bool_decide (c = "="%char)).
(** One [ key=value]. *)
Definition read_field (s : string) : option (string * string * string) :=
  rest ← strip_prefix " " s;
  let '(key, rest) := span key_char rest in
  rest ← strip_prefix "=" rest;
  '(value, rest) ← read_value rest;
  Some (key, value, rest).
Fixpoint read_all (fuel : nat) (s : string) : option (list (string * string)) :=
  match s, fuel with
  | EmptyString, _ => Some []
  | _, O => None
  | _, S f => '(key, value, rest) ← read_field s; fields ← read_all f rest; Some ((key, value) :: fields)
  end.
Definition read_diag (s : string) : option (list (string * string)) :=
  rest ← strip_prefix "p2p_diag" s; read_all (String.length rest) rest.

(** ** Lemmas *)

Lemma read_escaped c s :
  read_quoted (escape_char c +:+ s) = ('(value, after) ← read_quoted s; Some (String c value, after)).
Proof.
  unfold escape_char. repeat case_bool_decide; try (subst c; reflexivity).
  change (String c EmptyString +:+ s) with (String c s). cbn [read_quoted].
  by rewrite !bool_decide_eq_false_2.
Qed.
Lemma read_quoted_escape value rest :
  read_quoted (escape value +:+ String quote_char rest) = Some (value, rest).
Proof.
  induction value as [|c value IH]; [done|]. cbn [escape]. rewrite <- string_app_assoc, read_escaped, IH. done.
Qed.

(** What may follow a value: nothing, or another field. *)
Definition ends_value (rest : string) : Prop := rest = EmptyString \/ exists r, rest = String " " r.
Lemma span_all p s rest :
  string_all p s = true -> match rest with EmptyString => True | String c _ => p c = false end ->
  span p (s +:+ rest) = (s, rest).
Proof.
  intros Hs Hr. induction s as [|c s IH].
  - destruct rest as [|c rest]; [done|]. cbn. by rewrite Hr.
  - simpl in Hs. apply andb_true_iff in Hs as [Hc Hs]. rewrite string_app_cons. cbn. by rewrite Hc, IH.
Qed.
Lemma read_format value rest : ends_value rest -> read_value (format_value value +:+ rest) = Some (value, rest).
Proof.
  intros Hr. unfold format_value. destruct (negb (is_empty value) && string_all plain value) eqn:E.
  - apply andb_true_iff in E as [Hne Hp]. destruct value as [|c value]; [done|].
    rewrite string_app_cons. cbn [read_value]. simpl in Hp. pose proof Hp as Hc. apply andb_true_iff in Hc as [Hc _].
    rewrite bool_decide_eq_false_2 by (intros ->; discriminate Hc). rewrite <- string_app_cons.
    rewrite span_all; [done|done|]. by destruct Hr as [->|[r ->]].
  - rewrite string_app_cons, <- string_app_assoc. change (String quote_char EmptyString +:+ rest) with (String quote_char rest).
    cbn [read_value]. rewrite bool_decide_eq_true_2 by done. apply read_quoted_escape.
Qed.
Lemma read_one_field key value rest :
  string_all key_char key = true -> ends_value rest ->
  read_field (" " +:+ key +:+ "=" +:+ format_value value +:+ rest) = Some (key, value, rest).
Proof.
  intros Hk Hr. unfold read_field. rewrite strip_prefix_app. cbn [mbind option_bind].
  rewrite (span_all key_char key) by done. rewrite strip_prefix_app. cbn [mbind option_bind]. by rewrite read_format.
Qed.

(** The fields as one text. *)
Fixpoint fields_text (fields : list (string * string)) : string :=
  match fields with
  | [] => EmptyString
  | (key, value) :: rest => " " +:+ key +:+ "=" +:+ format_value value +:+ fields_text rest
  end.
Lemma push_fields_text output fields : push_fields output fields = output +:+ fields_text fields.
Proof.
  revert output; induction fields as [|[key value] fields IH]; intros output; cbn [push_fields fields_text].
  - by rewrite string_app_nil_r.
  - rewrite IH. by rewrite <- !string_app_assoc.
Qed.
Lemma fields_text_ends fields : ends_value (fields_text fields).
Proof. destruct fields as [|[key value] fields]; [by left|right]. cbn [fields_text]. by eexists. Qed.
Lemma read_fields_text fuel fields :
  Forall (fun f => string_all key_char f.1 = true) fields -> (length fields <= fuel)%nat ->
  read_all fuel (fields_text fields) = Some fields.
Proof.
  revert fuel; induction fields as [|[key value] fields IH]; intros fuel Hk Hlen; [by destruct fuel|].
  apply list.Forall_cons in Hk as [Hkey Hk]. destruct fuel as [|fuel]; [simpl in Hlen; lia|].
  pose proof (read_one_field key value (fields_text fields) Hkey (fields_text_ends fields)) as Hf.
  cbn [fields_text]. change (" " +:+ ?x) with (String " " x) in *. cbn [read_all]. rewrite Hf. cbn [mbind option_bind].
  by rewrite IH by (done || simpl in Hlen; lia).
Qed.
Lemma fields_text_length fields : (length fields <= String.length (fields_text fields))%nat.
Proof.
  induction fields as [|[key value] fields IH]; [done|]. cbn [fields_text length].
  rewrite !string_length_app. simpl. lia.
Qed.
Lemma line_text phase result fields :
  line phase result fields = "p2p_diag" +:+ fields_text (("phase", phase) :: ("result", result) :: fields).
Proof. unfold line. rewrite push_fields_text. cbn [fields_text]. by rewrite <- !string_app_assoc. Qed.

Definition line_feed : ascii := ascii_of_nat 10.
Lemma escape_no_line_feed value : char_in line_feed (escape value) = false.
Proof.
  induction value as [|c value IH]; [done|]. cbn [escape].
  rewrite char_in_app, IH, orb_false_r. unfold escape_char. repeat case_bool_decide; try done.
  simpl. by rewrite bool_decide_eq_false_2.
Qed.
Lemma fields_no_line_feed fields :
  Forall (fun f => string_all key_char f.1 = true) fields -> char_in line_feed (fields_text fields) = false.
Proof.
  induction 1 as [|[key value] fields Hk _ IH]; [done|]. cbn [fields_text]. simpl in Hk.
  rewrite !char_in_app, IH, orb_false_r. rewrite (string_all_char_in key_char line_feed key) by done.
  cbn [orb char_in]. unfold format_value. destruct (negb (is_empty value) && string_all plain value) eqn:E.
  - apply andb_true_iff in E as [_ Hp]. by apply (string_all_char_in plain).
  - cbn [char_in]. by rewrite char_in_app, escape_no_line_feed.
Qed.

(** ** Properties *)

(** A diagnostic line is one line, and the values in it read back, whatever they hold: no value
    can end the line, forge a field or be taken for another. *)
Theorem diag_lines_read_back (phase result : string) (fields : list (string * string))
    (Hkeys : Forall (fun f => string_all key_char f.1 = true) fields) :
  read_diag (line phase result fields) = Some (("phase", phase) :: ("result", result) :: fields) /\
  char_in line_feed (line phase result fields) = false.
Proof.
  assert (Forall (fun f => string_all key_char f.1 = true) (("phase", phase) :: ("result", result) :: fields)) as Hall
    by (apply list.Forall_cons; split; [done|]; by apply list.Forall_cons).
  rewrite line_text. split.
  - unfold read_diag. rewrite strip_prefix_app. cbn [mbind option_bind].
    apply read_fields_text; [done|apply fields_text_length].
  - by rewrite char_in_app, fields_no_line_feed.
Qed.

(** ** Witnesses *)

Definition hostile : string := "a b" +:+ String line_feed "p2p_diag phase=ok" +:+ dquote.
Lemma diag_lines_read_back_witness :
  read_diag (line "session_hello_received" "ok" [("service_id", hostile)])
    = Some (("phase", "session_hello_received") :: ("result", "ok") :: [("service_id", hostile)]) /\
  char_in line_feed (line "session_hello_received" "ok" [("service_id", hostile)]) = false.
Proof.
  refine (@diag_lines_read_back "session_hello_received" "ok" [("service_id", hostile)] _).
  repeat constructor.
Defined.
