(* ===== verification/Order.v ===== *)
(** * Orders and stable sorting

    The byte-wise order of Rust strings (and of SQLite's binary collation), and
    [slice::sort_by], which is stable: elements that compare equal keep their order. *)

From Stdlib Require Import Sorted.
From S2P Require Import Prelude RustStd.

(** ** Text order *)

Fixpoint text_leb (s t : string) : bool :=
  match s, t with
  | EmptyString, _ => true
  | String _ _, EmptyString => false
  | String a s', String b t' => (code a <? code b) || ((code a =? code b) && text_leb s' t')
  end.
Definition text_le (s t : string) : Prop := text_leb s t = true.
#[global] Instance text_le_dec : RelDecision text_le.
Proof. intros s t. unfold text_le. apply _. Defined.

(** ** [sort_by] *)

Section SortBy.
Context {A : Type} (leb : A -> A -> bool).

Fixpoint insert_by (x : A) (l : list A) : list A :=
  match l with
  | [] => [x]
  | y :: rest => if leb x y then x :: l else y :: insert_by x rest
  end.
Definition sort_by (l : list A) : list A := foldr insert_by [] l.
End SortBy.

(** ** Lemmas *)

Lemma text_leb_refl s : text_leb s s = true.
Proof. induction s as [|c s IH]; simpl; [done|]. by rewrite Z.ltb_irrefl, Z.eqb_refl. Qed.
#[global] Instance text_le_total : Total text_le.
Proof.
  intros s. unfold text_le. induction s as [|a s IH]; intros [|b t]; simpl; auto.
  destruct (Z.lt_trichotomy (code a) (code b)) as [H|[H|H]].
  - left. by rewrite (proj2 (Z.ltb_lt _ _) H).
  - rewrite H, Z.ltb_irrefl, Z.eqb_refl. apply IH.
  - right. by rewrite (proj2 (Z.ltb_lt _ _) H).
Qed.
#[global] Instance text_le_trans : Transitive text_le.
Proof.
  intros s. unfold text_le. induction s as [|a s IH]; intros [|b t] [|c u]; simpl; try done.
  rewrite !orb_true_iff, !andb_true_iff, !Z.ltb_lt, !Z.eqb_eq.
  intros [?|[? ?]] [?|[? ?]]; try (left; lia). right. split; [lia|eauto].
Qed.
#[global] Instance text_le_antisym : AntiSymm (=) text_le.
Proof.
  intros s. unfold text_le. induction s as [|a s IH]; intros [|b t]; simpl; try done.
  rewrite !orb_true_iff, !andb_true_iff, !Z.ltb_lt, !Z.eqb_eq.
  intros [?|[Hab ?]] [?|[Hba ?]]; try lia. apply code_inj in Hab as ->. f_equal. auto.
Qed.

Section SortByFacts.
Context {A : Type} (leb : A -> A -> bool).
Context (leb_total : forall x y, leb x y = true \/ leb y x = true).
Context (leb_trans : forall x y z, leb x y = true -> leb y z = true -> leb x z = true).

Lemma insert_by_perm x l : insert_by leb x l ≡ₚ x :: l.
Proof.
  clear. induction l as [|y l IH]; simpl; [done|]. destruct (leb x y); [done|].
  rewrite IH. constructor.
Qed.
Lemma sort_by_perm l : sort_by leb l ≡ₚ l.
Proof. clear. induction l as [|x l IH]; simpl; [done|]. by rewrite insert_by_perm, IH. Qed.

Lemma insert_by_sorted x l :
  StronglySorted (fun a b => leb a b = true) l -> StronglySorted (fun a b => leb a b = true) (insert_by leb x l).
Proof.
  induction l as [|y l IH]; intros Hs; simpl; [repeat constructor|].
  apply StronglySorted_inv in Hs as [Hs Hall]. destruct (leb x y) eqn:E.
  - constructor; [by constructor|]. constructor; [done|]. rewrite list.Forall_forall in *. eauto.
  - constructor; [by apply IH|]. rewrite insert_by_perm. constructor; [|done].
    by destruct (leb_total x y) as [H|H]; [congruence|].
Qed.
Lemma sort_by_sorted l : StronglySorted (fun a b => leb a b = true) (sort_by leb l).
Proof. induction l as [|x l IH]; simpl; [constructor|]. by apply insert_by_sorted. Qed.

(** Stability: a class of elements that compare equal keeps its order. *)
Lemma insert_by_stable (p : A -> bool) x l :
  (forall a b, p a = true -> p b = true -> leb a b = true) ->
  List.filter p (insert_by leb x l) = List.filter p (x :: l).
Proof.
  clear leb_total leb_trans. intros Hp. induction l as [|y l IH]; [done|]. simpl insert_by. destruct (leb x y) eqn:E; [done|].
  simpl in *. rewrite IH. destruct (p x) eqn:Ex, (p y) eqn:Ey; try done. by rewrite Hp in E.
Qed.
Lemma sort_by_stable (p : A -> bool) l :
  (forall a b, p a = true -> p b = true -> leb a b = true) ->
  List.filter p (sort_by leb l) = List.filter p l.
Proof.
  clear leb_total leb_trans. intros Hp. induction l as [|x l IH]; [done|]. simpl sort_by.
  rewrite insert_by_stable by done. simpl. by rewrite IH.
Qed.
End SortByFacts.
