(* ===== verification/NetAddr.v ===== *)
(** * IP and socket addresses of the Rust standard library

    [std::net]: the address types, their predicates, [FromStr] and [Display].
    The parsers follow [core::net::parser]: groups of digits with the limits and
    the leading-zero rule of the standard library, IPv6 with one [::] and an
    optional embedded IPv4 tail, the whole input consumed. *)

From S2P Require Import Prelude RustStd.

(** ** Data *)

Record ipv4 := Ipv4 { oct0 : Z; oct1 : Z; oct2 : Z; oct3 : Z }.
(** Eight 16-bit segments. *)
Definition ipv6 : Type := list Z.

Inductive ip_addr := IpV4 (a : ipv4) | IpV6 (a : ipv6).
Inductive socket_addr :=
  | SockV4 (a : ipv4) (port : Z)
  | SockV6 (a : ipv6) (port flowinfo scope_id : Z).

#[global] Instance ipv4_eq_dec : EqDecision ipv4.
Proof. solve_decision. Defined.
#[global] Instance ip_addr_eq_dec : EqDecision ip_addr.
Proof. solve_decision. Defined.
#[global] Instance socket_addr_eq_dec : EqDecision socket_addr.
Proof. solve_decision. Defined.

#[global] Instance ipv4_countable : Countable ipv4.
Proof.
  refine (inj_countable' (fun a => (oct0 a, oct1 a, oct2 a, oct3 a))
    (fun '(a, b, c, d) => Ipv4 a b c d) _). by intros [].
Defined.
#[global] Instance socket_addr_countable : Countable socket_addr.
Proof.
  refine (inj_countable'
    (fun s => match s with
              | SockV4 a p => inl (a, p)
              | SockV6 a p f i => inr (a, p, f, i)
              end)
    (fun x => match x with
              | inl (a, p) => SockV4 a p
              | inr (a, p, f, i) => SockV6 a p f i
              end) _). by intros [].
Defined.

Definition sock_ip (s : socket_addr) : ip_addr :=
  match s with SockV4 a _ => IpV4 a | SockV6 a _ _ _ => IpV6 a end.
Definition sock_port (s : socket_addr) : Z :=
  match s with SockV4 _ p => p | SockV6 _ p _ _ => p end.

(** ** Predicates *)

Definition v4_is_unspecified (a : ipv4) : bool := bool_decide (a = Ipv4 0 0 0 0).
Definition v4_is_loopback (a : ipv4) : bool := oct0 a =? 127.
Definition v4_is_private (a : ipv4) : bool :=
  (oct0 a =? 10) || ((oct0 a =? 172) && in_range 16 31 (oct1 a)) ||
  ((oct0 a =? 192) && (oct1 a =? 168)).
Definition v4_is_link_local (a : ipv4) : bool := (oct0 a =? 169) && (oct1 a =? 254).

Definition seg (i : nat) (a : ipv6) : Z := nth i a 0.
Definition v6_is_unspecified (a : ipv6) : bool := bool_decide (a = [0; 0; 0; 0; 0; 0; 0; 0]).
Definition v6_is_loopback (a : ipv6) : bool := bool_decide (a = [0; 0; 0; 0; 0; 0; 0; 1]).
Definition v6_is_unicast_link_local (a : ipv6) : bool := Z.land (seg 0 a) 65472 =? 65152.
Definition v6_is_multicast (a : ipv6) : bool := Z.shiftr (seg 0 a) 8 =? 255.

Definition ip_is_unspecified (a : ip_addr) : bool :=
  match a with IpV4 a => v4_is_unspecified a | IpV6 a => v6_is_unspecified a end.
Definition ip_is_loopback (a : ip_addr) : bool :=
  match a with IpV4 a => v4_is_loopback a | IpV6 a => v6_is_loopback a end.

(** ** Display *)

Definition show_v4 (a : ipv4) : string :=
  join "." [dec (oct0 a); dec (oct1 a); dec (oct2 a); dec (oct3 a)].

(** The first longest run of zero segments: start and length. *)
Fixpoint zero_run (i : nat) (segs : list Z) (cur best : nat * nat) : nat * nat :=
  match segs with
  | [] => best
  | z :: rest =>
      if z =? 0 then
        let cur' := (if Nat.eqb cur.2 0 then i else cur.1, S cur.2) in
        zero_run (S i) rest cur' (if Nat.ltb best.2 cur'.2 then cur' else best)
      else zero_run (S i) rest (O, O) best
  end.
Definition show_segs (segs : list Z) : string := join ":" (map hex segs).
Definition show_v6 (a : ipv6) : string :=
  match a with
  | [0; 0; 0; 0; 0; 65535; ab; cd] =>
      "::ffff:" +:+ show_v4 (Ipv4 (ab / 256) (ab mod 256) (cd / 256) (cd mod 256))
  | _ =>
      let run := zero_run O a (O, O) (O, O) in
      if Nat.ltb 1 run.2
      then show_segs (take run.1 a) +:+ "::" +:+ show_segs (drop (run.1 + run.2) a)
      else show_segs a
  end.
Definition show_ip (a : ip_addr) : string :=
  match a with IpV4 a => show_v4 a | IpV6 a => show_v6 a end.
Definition show_sock (s : socket_addr) : string :=
  match s with
  | SockV4 a p => show_v4 a +:+ ":" +:+ dec p
  | SockV6 a p _ scope =>
      if scope =? 0 then "[" +:+ show_v6 a +:+ "]:" +:+ dec p
      else "[" +:+ show_v6 a +:+ "%" +:+ dec scope +:+ "]:" +:+ dec p
  end.

(** ** Parsers

    A parser returns the value and the rest of the input. *)

Definition parser (A : Type) : Type := string -> option (A * string).

(** The leading digits, at most [limit] of them (a further digit fails). *)
Fixpoint read_digits (radix : Z) (limit : nat) (acc : Z) (count : nat) (s : string)
    : option (Z * nat * string) :=
  match s with
  | String c s' =>
      match digit_value radix c with
      | Some v =>
          match limit with
          | O => None
          | S l => read_digits radix l (acc * radix + v) (S count) s'
          end
      | None => Some (acc, count, s)
      end
  | EmptyString => Some (acc, count, s)
  end.

Definition read_number (radix : Z) (max_digits : option nat) (allow_zero_prefix : bool)
    (max : Z) : parser Z := fun s =>
  let limit := default (String.length s) max_digits in
  match read_digits radix limit 0 0 s with
  | Some (v, count, rest) =>
      if Nat.eqb count 0 then None
      else if negb allow_zero_prefix && starts_with "0" s && Nat.ltb 1 count then None
      else if v <=? max then Some (v, rest) else None
  | None => None
  end.

Definition read_char (c : ascii) : parser unit := fun s =>
  match s with
  | String c' rest => if bool_decide (c' = c) then Some (tt, rest) else None
  | EmptyString => None
  end.

(** [read_separator]: the separator is read before every item but the first. *)
Definition read_separator {A} (sep : ascii) (index : nat) (p : parser A) : parser A := fun s =>
  match index with
  | O => p s
  | S _ => '(_, rest) ← read_char sep s; p rest
  end.

Definition read_v4 : parser ipv4 := fun s =>
  let octet (i : nat) := read_separator "." i (read_number 10 (Some 3%nat) false 255) in
  '(a, s1) ← octet 0%nat s; '(b, s2) ← octet 1%nat s1;
  '(c, s3) ← octet 2%nat s2; '(d, s4) ← octet 3%nat s3;
  Some (Ipv4 a b c d, s4).

(** Up to [remaining] groups from index [i] ([limit] in all); the flag says an
    embedded IPv4 address ended them. *)
Fixpoint read_groups (remaining : nat) (limit i : nat) (s : string) : list Z * bool * string :=
  match remaining with
  | O => ([], false, s)
  | S r =>
      let group :=
        match read_separator ":" i (read_number 16 (Some 4%nat) true 65535) s with
        | Some (g, s') => let '(gs, v4, s'') := read_groups r limit (S i) s' in (g :: gs, v4, s'')
        | None => ([], false, s)
        end in
      if Nat.ltb i (limit - 1) then
        match read_separator ":" i read_v4 s with
        | Some (a, s') => ([oct0 a * 256 + oct1 a; oct2 a * 256 + oct3 a], true, s')
        | None => group
        end
      else group
  end.

Definition read_v6 : parser ipv6 := fun s =>
  let '(head, head_v4, s1) := read_groups 8 8 0 s in
  if Nat.eqb (length head) 8 then Some (head, s1)
  else if head_v4 then None
  else
    '(_, s2) ← read_char ":" s1; '(_, s3) ← read_char ":" s2;
    let limit := (8 - (length head + 1))%nat in
    let '(tail, _, s4) := read_groups limit limit 0 s3 in
    Some (head ++ replicate (8 - length head - length tail) 0 ++ tail, s4).

Definition read_port : parser Z := fun s =>
  '(_, s1) ← read_char ":" s; read_number 10 None true u16_max s1.
Definition read_scope : parser Z := fun s =>
  '(_, s1) ← read_char "%" s; read_number 10 None true u32_max s1.

Definition read_sock_v4 : parser socket_addr := fun s =>
  '(a, s1) ← read_v4 s; '(p, s2) ← read_port s1; Some (SockV4 a p, s2).
Definition read_sock_v6 : parser socket_addr := fun s =>
  '(_, s1) ← read_char "[" s; '(a, s2) ← read_v6 s1;
  let '(scope, s3) := match read_scope s2 with Some x => x | None => (0, s2) end in
  '(_, s4) ← read_char "]" s3; '(p, s5) ← read_port s4;
  Some (SockV6 a p 0 scope, s5).

Definition parse_all {A} (p : parser A) (s : string) : option A :=
  match p s with Some (a, EmptyString) => Some a | _ => None end.
Definition orelse {A} (p q : parser A) : parser A := fun s =>
  match p s with Some x => Some x | None => q s end.

(** [str::parse::<IpAddr>] and [str::parse::<SocketAddr>]. *)
Definition parse_ip (s : string) : option ip_addr :=
  parse_all (orelse (fun s => '(a, r) ← read_v4 s; Some (IpV4 a, r))
                    (fun s => '(a, r) ← read_v6 s; Some (IpV6 a, r))) s.
Definition parse_sock (s : string) : option socket_addr :=
  parse_all (orelse read_sock_v4 read_sock_v6) s.

Definition ipv4_ok (a : ipv4) : Prop :=
  0 <= oct0 a <= 255 /\ 0 <= oct1 a <= 255 /\ 0 <= oct2 a <= 255 /\ 0 <= oct3 a <= 255.

(** ** The textual form of an IPv4 socket address parses back *)

(** How many digits [radix_digits] writes. *)
Fixpoint num_digits (fuel : nat) (radix z : Z) : nat :=
  match fuel with
  | O => O
  | S n => if z <? radix then 1%nat else S (num_digits n radix (z / radix))
  end.

Lemma num_digits_bound fuel radix z l :
  2 <= radix -> 0 <= z < radix ^ Z.of_nat l -> (1 <= l)%nat -> (num_digits fuel radix z <= l)%nat.
Proof.
  intros Hr. revert z l; induction fuel as [|fuel IH]; intros z l Hz Hl; simpl; [lia|].
  destruct (z <? radix) eqn:E; [lia|]. apply Z.ltb_ge in E.
  destruct l as [|[|l]]; [lia|simpl in Hz; lia|].
  rewrite (Nat2Z.inj_succ (S l)), Z.pow_succ_r in Hz by lia.
  apply le_n_S, IH; [split; [apply Z.div_pos; lia|apply Z.div_lt_upper_bound; lia]|lia].
Qed.

Lemma read_digits_radix fuel radix z l count tail :
  2 <= radix <= 16 -> 0 <= z < radix ^ Z.of_nat fuel -> (0 < fuel)%nat ->
  read_digits radix (num_digits fuel radix z + l) 0 count (radix_digits fuel radix z tail)
  = read_digits radix l z (count + num_digits fuel radix z) tail.
Proof.
  intros Hr. revert z l count tail; induction fuel as [|fuel IH]; intros z l count tail Hz Hf; [lia|].
  assert (0 <= z mod radix < radix) by (apply Z.mod_pos_bound; lia).
  simpl. destruct (z <? radix) eqn:E; [apply Z.ltb_lt in E|apply Z.ltb_ge in E].
  - rewrite Z.mod_small by lia. simpl. rewrite digit_value_char by lia.
    by rewrite Nat.add_1_r.
  - rewrite Nat2Z.inj_succ, Z.pow_succ_r in Hz by lia.
    assert (0 <= z / radix < radix ^ Z.of_nat fuel)
      by (split; [apply Z.div_pos; lia|apply Z.div_lt_upper_bound; lia]).
    destruct fuel as [|fuel']; [simpl in Hz; lia|].
    rewrite Nat.add_succ_comm, IH by lia. simpl. rewrite digit_value_char by lia.
    replace (z / radix * radix + z mod radix) with z by (pose proof (Z.div_mod z radix); lia).
    f_equal; lia.
Qed.

(** No leading zero: a number written with several digits starts with another one. *)
Lemma radix_digits_no_zero fuel radix z tail :
  2 <= radix <= 16 -> 0 <= z < radix ^ Z.of_nat fuel -> (1 < num_digits fuel radix z)%nat ->
  starts_with "0" (radix_digits fuel radix z tail) = false.
Proof.
  intros Hr. revert z tail; induction fuel as [|fuel IH]; intros z tail Hz; simpl; [lia|].
  destruct (z <? radix) eqn:E; [lia|]. apply Z.ltb_ge in E. intros Hn.
  rewrite Nat2Z.inj_succ, Z.pow_succ_r in Hz by lia.
  assert (0 <= z / radix < radix ^ Z.of_nat fuel)
    by (split; [apply Z.div_pos; lia|apply Z.div_lt_upper_bound; lia]).
  destruct (decide (1 < num_digits fuel radix (z / radix))%nat) as [Hd|Hd]; [by apply IH|].
  destruct fuel as [|fuel]; [simpl in *; lia|]. simpl in Hd |- *.
  destruct (z / radix <? radix) eqn:E2.
  - apply Z.ltb_lt in E2. rewrite (Z.mod_small (z / radix)) by lia.
    assert (1 <= z / radix) by (apply Z.div_le_lower_bound; lia).
    unfold starts_with. simpl. case_bool_decide as Heq; [|done]. exfalso.
    pose proof (digit_value_char 16 (z / radix) ltac:(lia) ltac:(lia)) as Hv.
    rewrite <- Heq in Hv. change (Some 0 = Some (z / radix)) in Hv. injection Hv as Hv. lia.
  - exfalso. destruct fuel as [|fuel]; simpl in Hd; [|repeat case_match; lia].
    apply Z.ltb_ge in E2. simpl in *. lia.
Qed.

(** Where a number ends: at the end of the input or at a non-digit. *)
Definition number_end (radix : Z) (s : string) : Prop :=
  match s with EmptyString => True | String c _ => digit_value radix c = None end.

Lemma read_digits_end radix l acc count s :
  number_end radix s -> read_digits radix l acc count s = Some (acc, count, s).
Proof. destruct l, s as [|c s]; simpl; intros H; rewrite ?H; done. Qed.

Lemma radix_digits_app fuel radix z tail :
  radix_digits fuel radix z EmptyString +:+ tail = radix_digits fuel radix z tail.
Proof.
  enough (forall acc, radix_digits fuel radix z acc +:+ tail = radix_digits fuel radix z (acc +:+ tail)) as H
    by apply H.
  revert z; induction fuel as [|fuel IH]; intros z acc; simpl; [done|].
  destruct (z <? radix); [done|]. by rewrite IH.
Qed.

(** [{}] (or [{:x}]) followed by a non-digit reads back, within the limits. *)
Lemma read_number_radix radix md az max z tail :
  2 <= radix <= 16 -> 0 <= z <= max ->
  match md with Some l => (1 <= l)%nat /\ z < radix ^ Z.of_nat l | None => True end ->
  number_end radix tail ->
  read_number radix md az max (radix_digits (radix_fuel z) radix z EmptyString +:+ tail)
  = Some (z, tail).
Proof.
  intros Hr Hz Hmd Htail. rewrite radix_digits_app.
  pose proof (radix_fuel_enough radix z ltac:(lia) ltac:(lia)) as Hfuel.
  assert (0 < radix_fuel z)%nat as Hpos by (unfold radix_fuel; lia).
  set (n := num_digits (radix_fuel z) radix z).
  assert (1 <= n)%nat as Hn1.
  { subst n. destruct (radix_fuel z); simpl; [lia|]. destruct (z <? radix); lia. }
  unfold read_number.
  set (limit := default (String.length _) md).
  assert (n <= limit)%nat as Hlim.
  { destruct md as [l|]; subst limit; cbn [default from_option].
    - destruct Hmd as [Hl Hlt]. apply num_digits_bound; [lia|split; [lia|exact Hlt]|exact Hl].
    - subst n. clear. generalize (radix_fuel z). intros f.
      enough (forall t, (num_digits f radix z + String.length t
                         <= String.length (radix_digits f radix z t))%nat) as H
        by (specialize (H tail); lia).
      revert z; induction f as [|f IH]; intros z t; simpl; [lia|].
      destruct (z <? radix); simpl; [lia|]. specialize (IH (z / radix) (String (digit_char (z mod radix)) t)).
      simpl in IH. lia. }
  replace limit with (n + (limit - n))%nat by lia.
  subst n. rewrite read_digits_radix by lia. rewrite read_digits_end by done.
  rewrite Nat.add_0_l. destruct (Nat.eqb_spec (num_digits (radix_fuel z) radix z) 0); [lia|].
  destruct (Nat.ltb 1 (num_digits (radix_fuel z) radix z)) eqn:E.
  - apply Nat.ltb_lt in E. rewrite radix_digits_no_zero by lia.
    rewrite andb_false_r. simpl. by rewrite (proj2 (Z.leb_le _ _)) by lia.
  - rewrite andb_false_r. by rewrite (proj2 (Z.leb_le _ _)) by lia.
Qed.

Lemma read_octet z tail :
  0 <= z <= 255 -> number_end 10 tail ->
  read_number 10 (Some 3%nat) false 255 (dec z +:+ tail) = Some (z, tail).
Proof. intros. apply read_number_radix; [lia|lia|split; [lia|simpl; lia]|done]. Qed.

Lemma read_v4_show a tail :
  ipv4_ok a -> number_end 10 tail -> read_v4 (show_v4 a +:+ tail) = Some (a, tail).
Proof.
  destruct a as [a b c d]. intros (Ha & Hb & Hc & Hd) Ht. simpl in *.
  unfold read_v4, show_v4, join. simpl.
  rewrite <- !string_app_assoc.
  rewrite read_octet by done. simpl.
  do 3 (rewrite <- ?string_app_assoc; simpl; rewrite read_octet by done; simpl). done.
Qed.

Lemma parse_sock_show_v4 a p :
  ipv4_ok a -> 0 <= p <= u16_max -> parse_sock (show_sock (SockV4 a p)) = Some (SockV4 a p).
Proof.
  intros Ha Hp. unfold parse_sock, parse_all, orelse, show_sock, read_sock_v4.
  rewrite read_v4_show by done. simpl. unfold read_port. simpl.
  rewrite <- (string_app_nil_r (dec p)).
  unfold dec. rewrite read_number_radix; [done|lia|done|done|done].
Qed.

Lemma parse_ip_show_v4 a : ipv4_ok a -> parse_ip (show_v4 a) = Some (IpV4 a).
Proof.
  intros Ha. unfold parse_ip, parse_all, orelse.
  rewrite <- (string_app_nil_r (show_v4 a)). by rewrite read_v4_show.
Qed.

(** IPv6 forms, evaluated. *)
Example parse_v6_loopback : parse_sock "[::1]:80" = Some (SockV6 [0;0;0;0;0;0;0;1] 80 0 0).
Proof. vm_compute. done. Qed.
Example parse_v6_full :
  parse_ip "2001:db8:0:0:8:800:200c:417a"
  = Some (IpV6 [8193; 3512; 0; 0; 8; 2048; 8204; 16762]).
Proof. vm_compute. done. Qed.
Example show_v6_compressed : show_v6 [8193; 3512; 0; 0; 8; 2048; 8204; 16762] = "2001:db8::8:800:200c:417a".
Proof. vm_compute. done. Qed.
Example parse_v4_leading_zero : parse_ip "127.0.0.01" = None.
Proof. vm_compute. done. Qed.
Example parse_v6_mapped : parse_ip "::ffff:1.2.3.4" = Some (IpV6 [0;0;0;0;0;65535;258;772]).
Proof. vm_compute. done. Qed.
