(* ===== verification/Protocol.v ===== *)
(** * Protocol messages

    [crates/overlay-protocol/src/messages.rs]: the values the control plane, the
    nodes and the clients exchange, with the wire name of each enumeration, and
    the session hellos of [crates/overlay-transport/src/session.rs].

    JSON is written and read by the serde_json crate, which is not part of the
    repository: [Json] is the interface the program uses, [JsonOk] the documented
    behaviour it relies on (reading back what was written; compact output is not
    empty and holds no raw line feed). *)

From S2P Require Import Prelude RustStd.

(** ** The JSON interface *)

Class Json (A : Type) := {
  to_vec : A -> result (list byte);
  from_slice : list byte -> result A
}.

Class JsonOk (A : Type) `{!Json A} := {
  json_roundtrip (a : A) p : to_vec a = Ok p -> from_slice p = Ok a;
  json_no_newline (a : A) p : to_vec a = Ok p -> newline ∉ p;
  json_not_empty (a : A) p : to_vec a = Ok p -> p <> []
}.

(** ** Instants

    [chrono::DateTime<Utc>] as nanoseconds since the epoch; [Duration]s in the
    same unit. *)
Definition millis (n : Z) : Z := n * 1000000.
Definition secs (n : Z) : Z := n * 1000000000.
Definition minutes (n : Z) : Z := secs (n * 60).

(** ** Enumerations *)

Inductive service_kind := KHttp | KHttps | KSsh.
Definition service_kind_str (k : service_kind) : string :=
  match k with KHttp => "http" | KHttps => "https" | KSsh => "ssh" end.

Inductive endpoint_kind := TcpProxy | IceUdp.
Definition endpoint_kind_str (k : endpoint_kind) : string :=
  match k with TcpProxy => "tcp_proxy" | IceUdp => "ice_udp" end.

Inductive candidate_kind := DirectTcp | RelayTcp | WssRelay.
Definition candidate_kind_str (k : candidate_kind) : string :=
  match k with DirectTcp => "direct_tcp" | RelayTcp => "relay_tcp" | WssRelay => "wss_relay" end.

Inductive ice_candidate_kind := Host | Srflx | Relay.
Definition ice_kind_str (k : ice_candidate_kind) : string :=
  match k with Host => "host" | Srflx => "srflx" | Relay => "relay" end.

#[global] Instance service_kind_eq_dec : EqDecision service_kind.
Proof. solve_decision. Defined.
#[global] Instance endpoint_kind_eq_dec : EqDecision endpoint_kind.
Proof. solve_decision. Defined.
#[global] Instance candidate_kind_eq_dec : EqDecision candidate_kind.
Proof. solve_decision. Defined.
#[global] Instance ice_kind_eq_dec : EqDecision ice_candidate_kind.
Proof. solve_decision. Defined.

(** ** Registration *)

Record published_service := PublishedService {
  ps_id : string;
  ps_kind : service_kind;
  ps_schema_version : Z;
  ps_label : option string;
  ps_target : string;
  ps_user_name : option string
}.

Record node_endpoint := NodeEndpoint {
  ne_kind : endpoint_kind;
  ne_schema_version : Z;
  ne_addr : string;
  ne_priority : Z
}.

Record register_node_request := RegisterNodeRequest {
  rn_node_id : string;
  rn_node_label : string;
  rn_endpoints : list node_endpoint;
  rn_services : list published_service
}.

(** ** Devices *)

Record ssh_endpoint := SshEndpoint {
  se_service_id : string;
  se_host : string;
  se_port : Z;
  se_user : string
}.

Record device_record := DeviceRecord {
  dr_id : string;
  dr_name : string;
  dr_ssh : option ssh_endpoint;
  dr_services : list published_service
}.

(** ** Sessions *)

Record session_open_request := SessionOpenRequest {
  so_service_id : string;
  so_requester_device_id : string;
  so_node_id : option string
}.

Record peer_candidate := PeerCandidate {
  pc_kind : candidate_kind;
  pc_addr : string;
  pc_priority : Z
}.

Record ice_candidate := IceCandidate {
  ic_foundation : string;
  ic_component : Z;
  ic_transport : string;
  ic_priority : Z;
  ic_addr : string;
  ic_port : Z;
  ic_kind : ice_candidate_kind;
  ic_related_addr : option string;
  ic_related_port : option Z
}.

Record ice_credentials := IceCredentials {
  cr_ufrag : string;
  cr_pwd : string;
  cr_expires_at : Z
}.

Record ice_session_grant := IceSessionGrant {
  ig_credentials : ice_credentials;
  ig_candidates : list ice_candidate
}.

Record session_authorization := SessionAuthorization {
  sa_token : string;
  sa_expires_at : Z;
  sa_candidates : list peer_candidate;
  sa_ice : option ice_session_grant
}.

Record session_open_grant := SessionOpenGrant {
  sg_session_id : string;
  sg_service_id : string;
  sg_node_id : string;
  sg_relay_hint : option string;
  sg_authorization : session_authorization
}.

(** ** Certificates and invites *)

Record service_certificate_request := ServiceCertificateRequest {
  sc_node_id : string;
  sc_hostnames : list string;
  sc_shared_secret : string
}.
Record service_certificate_response := ServiceCertificateResponse {
  scr_cert_pem : string;
  scr_key_pem : string
}.
Record ssh_certificate_request := SshCertificateRequest {
  sr_service_id : string;
  sr_node_id : option string;
  sr_requester_device_id : string;
  sr_public_key : string;
  sr_client_secret : string
}.
Record ssh_certificate_response := SshCertificateResponse {
  srr_certificate : string;
  srr_user_name : string;
  srr_valid_seconds : Z
}.
Record bootstrap_invite_response := BootstrapInviteResponse {
  bi_code : string;
  bi_invite : string;
  bi_bootstrap_token : string;
  bi_security : string;
  bi_control_pin : string;
  bi_expires_at : option string
}.

#[global] Instance published_service_eq_dec : EqDecision published_service.
Proof. solve_decision. Defined.
#[global] Instance node_endpoint_eq_dec : EqDecision node_endpoint.
Proof. solve_decision. Defined.
#[global] Instance ssh_endpoint_eq_dec : EqDecision ssh_endpoint.
Proof. solve_decision. Defined.
#[global] Instance device_record_eq_dec : EqDecision device_record.
Proof. solve_decision. Defined.
#[global] Instance peer_candidate_eq_dec : EqDecision peer_candidate.
Proof. solve_decision. Defined.
#[global] Instance ice_candidate_eq_dec : EqDecision ice_candidate.
Proof. solve_decision. Defined.
#[global] Instance ice_credentials_eq_dec : EqDecision ice_credentials.
Proof. solve_decision. Defined.
#[global] Instance ice_session_grant_eq_dec : EqDecision ice_session_grant.
Proof. solve_decision. Defined.
#[global] Instance session_authorization_eq_dec : EqDecision session_authorization.
Proof. solve_decision. Defined.
#[global] Instance session_open_grant_eq_dec : EqDecision session_open_grant.
Proof. solve_decision. Defined.

(** ** Session hellos ([overlay-transport/src/session.rs]) *)

Inductive relay_hello :=
  | RelayNode (node_id shared_secret : string)
  | RelayClient (node_id : string).

Record session_hello := SessionHello {
  sh_token : string;
  sh_service_id : string;
  sh_transport : option string
}.

#[global] Instance relay_hello_eq_dec : EqDecision relay_hello.
Proof. solve_decision. Defined.
#[global] Instance session_hello_eq_dec : EqDecision session_hello.
Proof. solve_decision. Defined.

(** The 16 KiB limit on a hello line. *)
Definition hello_limit : nat := 16 * 1024.

(** [write_json_line]: the bytes written to the stream. *)
Definition write_json_line {A} `{Json A} (value : A) : result (list byte) :=
  payload ← to_vec value;
  Ok (payload ++ [newline]).

(** The reading loop of [read_json_line] on the bytes that arrive on the stream:
    the line and the bytes left unread.  The end of the stream is the
    [UnexpectedEof] of [read_u8]. *)
Fixpoint read_line (line : list byte) (input : list byte) : result (list byte * list byte) :=
  match input with
  | [] => Err (EIo UnexpectedEof)
  | b :: rest =>
      if bool_decide (b = newline) then Ok (line, rest)
      else
        let line' := line ++ [b] in
        if Nat.ltb hello_limit (length line') then Err (EMsg "session hello too large")
        else read_line line' rest
  end.

Definition read_json_line {A} `{Json A} (input : list byte) : result (A * list byte) :=
  '(line, rest) ← read_line [] input;
  _ ← bail_if (Nat.eqb (length line) 0) (EMsg "missing session hello");
  value ← from_slice line;
  Ok (value, rest).

(** ** Facts *)

Lemma read_line_app line p rest :
  newline ∉ p -> (length line + length p <= hello_limit)%nat ->
  read_line line (p ++ newline :: rest) = Ok (line ++ p, rest).
Proof.
  revert line; induction p as [|b p IH]; intros line Hnl Hlen; cbn [read_line app].
  - rewrite bool_decide_eq_true_2 by done. by rewrite app_nil_r.
  - apply not_elem_of_cons in Hnl as [Hb Hp].
    rewrite bool_decide_eq_false_2 by congruence.
    rewrite length_app. simpl length in *.
    destruct (Nat.ltb_spec hello_limit (length line + 1)); [lia|].
    rewrite IH by (try rewrite length_app; simpl; lia || done).
    by rewrite <- app_assoc.
Qed.

Lemma read_line_too_long line p :
  newline ∉ p -> (length line <= hello_limit < length line + length p)%nat ->
  read_line line p = Err (EMsg "session hello too large").
Proof.
  revert line; induction p as [|b p IH]; intros line Hnl Hlen; cbn [read_line].
  - simpl in Hlen. lia.
  - apply not_elem_of_cons in Hnl as [Hb Hp].
    rewrite bool_decide_eq_false_2 by congruence.
    rewrite length_app. simpl length in *.
    destruct (Nat.ltb_spec hello_limit (length line + 1)); [done|].
    apply IH; [done|]. rewrite length_app. simpl. lia.
Qed.

(** What the reader consumes never exceeds the limit. *)
Lemma read_line_bound line input line' rest :
  (length line <= hello_limit)%nat -> read_line line input = Ok (line', rest) ->
  (length line' <= hello_limit)%nat /\ line ++ input = line' ++ newline :: rest.
Proof.
  revert line; induction input as [|b input IH]; intros line Hlen; cbn [read_line]; [done|].
  case_bool_decide as Hb; [intros [= <- <-]; by subst|].
  destruct (Nat.ltb_spec hello_limit (length (line ++ [b]))); [done|].
  intros Hr. apply IH in Hr as [H1 H2]; [|lia]. split; [done|].
  by rewrite <- H2, <- app_assoc.
Qed.

(** A written line is read back, and what follows it stays unread. *)
Lemma read_json_line_written {A} `{JsonOk A} (value : A) payload rest :
  write_json_line value = Ok payload -> (length payload <= S hello_limit)%nat ->
  read_json_line (payload ++ rest) = Ok (value, rest).
Proof.
  unfold write_json_line. unfold_result. destruct (to_vec value) as [p|e] eqn:Hp; [|done].
  intros [= <-]. rewrite length_app. simpl. intros Hlen.
  pose proof (json_no_newline _ _ Hp) as Hnl. pose proof (json_not_empty _ _ Hp) as Hne.
  unfold read_json_line. rewrite <- app_assoc. simpl. rewrite read_line_app by (done || simpl; lia).
  unfold_result. destruct p as [|b p]; [done|]. simpl. by rewrite (json_roundtrip _ _ Hp).
Qed.

Lemma read_json_line_inv {A} `{Json A} input (value : A) rest :
  read_json_line input = Ok (value, rest) ->
  exists line, input = line ++ newline :: rest /\ (length line <= hello_limit)%nat /\ from_slice line = Ok value.
Proof.
  unfold read_json_line. intros Hr. apply bind_ok in Hr as ([line r] & Hline & Hr).
  apply bind_ok in Hr as ([] & _ & Hr). apply bind_ok in Hr as (v & Hv & Hr). injection Hr as -> ->.
  apply read_line_bound in Hline as [Hlen Heq]; [|simpl; lia]. exists line. done.
Qed.

(** ** A JSON interface for the witnesses

    A value is written as the bits of stdpp's encoding of it. *)

Fixpoint pos_bytes (p : positive) : list byte :=
  match p with
  | xH => [x01]
  | xO p => x02 :: pos_bytes p
  | xI p => x03 :: pos_bytes p
  end.
Fixpoint bytes_pos (bs : list byte) : option positive :=
  match bs with
  | [x01] => Some xH
  | x02 :: rest => xO <$> bytes_pos rest
  | x03 :: rest => xI <$> bytes_pos rest
  | _ => None
  end.
Lemma bytes_pos_bytes p : bytes_pos (pos_bytes p) = Some p.
Proof. induction p as [p IH|p IH|]; simpl; [by rewrite IH|by rewrite IH|done]. Qed.
Lemma pos_bytes_no_newline p : newline ∉ pos_bytes p.
Proof. induction p; simpl; apply not_elem_of_cons; (split; [done|]); set_solver. Qed.

Definition countable_json {A} `{Countable A} : Json A := {|
  to_vec a := Ok (pos_bytes (encode a));
  from_slice bs := ok_or (EExt "json") (bytes_pos bs ≫= decode)
|}.
Lemma countable_json_ok {A} `{Countable A} : @JsonOk A countable_json.
Proof.
  constructor; intros a p [= <-].
  - simpl. rewrite bytes_pos_bytes. simpl. by rewrite decode_encode.
  - apply pos_bytes_no_newline.
  - by destruct (encode a).
Qed.
