(* ===== verification/Net.v ===== *)
(** * Effects: a state-and-error monad, and UDP sockets

    Blocking code over a socket is a function of the world it runs in: [eff S A]
    takes a state and returns a result with the state it leaves, on errors too (what
    was sent stays sent).  A [net] is one UDP socket as its process sees it: what each
    [recv_from] will return, with the time it takes; what each [send_to] will answer;
    the datagrams sent so far; the clock.  When nothing more arrives a receive times
    out after the socket's read timeout. *)

From S2P Require Import Prelude NetAddr.

(** ** The monad *)

Definition eff (S A : Type) : Type := S -> result A * S.

#[global] Instance eff_ret S : MRet (eff S) := fun A a s => (Ok a, s).
#[global] Instance eff_bind S : MBind (eff S) := fun A B f m s =>
  match m s with
  | (Ok a, s') => f a s'
  | (Err e, s') => (Err e, s')
  end.

Definition throw {S A} (e : error) : eff S A := fun s => (Err e, s).
Definition lift {S A} (r : result A) : eff S A := fun s => (r, s).
Definition gets {S A} (f : S -> A) : eff S A := fun s => (Ok (f s), s).
Definition modify {S} (f : S -> S) : eff S unit := fun s => (Ok tt, f s).
(** A [match] on a fallible call: its outcome as a value. *)
Definition attempt {S A} (m : eff S A) : eff S (result A) := fun s =>
  let '(r, s') := m s in (Ok r, s').
(** An operation on a part of the state. *)
Definition zoom {S T A} (get : S -> T) (set : T -> S -> S) (m : eff T A) : eff S A := fun s =>
  let '(r, t) := m (get s) in (r, set t s).

(** ** UDP sockets *)

Inductive received :=
  | Got (payload : list byte) (addr : socket_addr)
  | Failed (k : io_kind).
Record recv_event := RecvEvent { ev_elapsed : Z; ev_result : received }.

Record net := Net {
  n_recv : list recv_event;
  n_send : list (option io_kind);
  n_sent : list (socket_addr * list byte);
  n_now : Z;
  n_read_timeout : Z
}.

Definition quiet (recv : list recv_event) : net :=
  {| n_recv := recv; n_send := []; n_sent := []; n_now := 0; n_read_timeout := 0 |}.

(** [socket.send_to]: past the end of the script every send succeeds. *)
Definition send_to (addr : socket_addr) (payload : list byte) : eff net unit := fun n =>
  let sent := n_sent n ++ [(addr, payload)] in
  match n_send n with
  | [] => (Ok tt, Net (n_recv n) [] sent (n_now n) (n_read_timeout n))
  | None :: rest => (Ok tt, Net (n_recv n) rest sent (n_now n) (n_read_timeout n))
  | Some k :: rest => (Err (EIo k), Net (n_recv n) rest (n_sent n) (n_now n) (n_read_timeout n))
  end.

(** [socket.recv_from] into a buffer of [size] bytes: a longer datagram is cut. *)
Definition recv_from (size : nat) : eff net (list byte * socket_addr) := fun n =>
  match n_recv n with
  | [] =>
      (Err (EIo WouldBlock),
       Net [] (n_send n) (n_sent n) (n_now n + n_read_timeout n) (n_read_timeout n))
  | ev :: rest =>
      let r := match ev_result ev with
               | Got payload addr => Ok (take size payload, addr)
               | Failed k => Err (EIo k)
               end in
      (r, Net rest (n_send n) (n_sent n) (n_now n + ev_elapsed ev) (n_read_timeout n))
  end.

Definition sleep (d : Z) : eff net unit :=
  modify (fun n => Net (n_recv n) (n_send n) (n_sent n) (n_now n + d) (n_read_timeout n)).
Definition set_read_timeout (d : Z) : eff net unit :=
  modify (fun n => Net (n_recv n) (n_send n) (n_sent n) (n_now n) d).
Definition now : eff net Z := gets n_now.

(** ** Lemmas *)

Lemma eff_bind_ok {S A B} (m : eff S A) (f : A -> eff S B) s b s' :
  mbind f m s = (Ok b, s') <-> exists a s1, m s = (Ok a, s1) /\ f a s1 = (Ok b, s').
Proof. unfold mbind, eff_bind. destruct (m s) as [[a|e] s1]; naive_solver. Qed.

Lemma eff_bind_eq {S A B} (m : eff S A) (f : A -> eff S B) s a s1 :
  m s = (Ok a, s1) -> mbind f m s = f a s1.
Proof. unfold mbind, eff_bind. by intros ->. Qed.
Lemma eff_bind_err {S A B} (m : eff S A) (f : A -> eff S B) s e s1 :
  m s = (Err e, s1) -> mbind f m s = (Err e, s1).
Proof. unfold mbind, eff_bind. by intros ->. Qed.
Lemma attempt_eq {S A} (m : eff S A) s r s' : m s = (r, s') -> attempt m s = (Ok r, s').
Proof. unfold attempt. by intros ->. Qed.

(** Inverts a run of [eff] code that returned [Ok]. *)
Ltac inv_eff :=
  repeat match goal with
  | H : mbind _ _ _ = (Ok _, _) |- _ =>
      let E := fresh "E" in apply eff_bind_ok in H as (? & ? & E & H)
  | H : lift _ _ = (_, _) |- _ => unfold lift in H
  | H : gets _ _ = (_, _) |- _ => unfold gets in H
  | H : modify _ _ = (_, _) |- _ => unfold modify in H
  | H : mret _ _ = (_, _) |- _ => unfold mret, eff_ret in H
  | H : throw _ _ = (Ok _, _) |- _ => discriminate H
  | H : attempt _ _ = (Ok _, _) |- _ => unfold attempt in H
  | H : (_, _) = (_, _) |- _ => injection H as H; subst
  | H : Err _ = Ok _ |- _ => discriminate H
  | H : Ok _ = Ok _ |- _ => injection H as H; subst
  end.

(** A send succeeds when the rest of the script holds no failure. *)
Definition sends_ok (n : net) : Prop := n_send n = [].
(** [n] after [sent] more datagrams and [dt] more nanoseconds. *)
Definition sent_more (sent : list (socket_addr * list byte)) (dt : Z) (n : net) : net :=
  Net (n_recv n) [] (n_sent n ++ sent) (n_now n + dt) (n_read_timeout n).

Lemma send_to_ok addr p n : sends_ok n -> send_to addr p n = (Ok tt, sent_more [(addr, p)] 0 n).
Proof. destruct n; unfold sends_ok, sent_more; simpl; intros ->. by rewrite Z.add_0_r. Qed.
Lemma sends_ok_more l dt n : sends_ok (sent_more l dt n).
Proof. done. Qed.
Lemma sent_more_more l1 d1 l2 d2 n :
  sent_more l2 d2 (sent_more l1 d1 n) = sent_more (l1 ++ l2) (d1 + d2) n.
Proof. unfold sent_more; simpl. by rewrite app_assoc, Z.add_assoc. Qed.
Lemma sleep_more d l dt n : sleep d (sent_more l dt n) = (Ok tt, sent_more l (dt + d) n).
Proof. unfold sleep, modify, sent_more. simpl. by rewrite Z.add_assoc. Qed.

(** Sending does not receive. *)
Lemma send_to_recv addr p n r n' : send_to addr p n = (r, n') -> n_recv n' = n_recv n.
Proof. unfold send_to. destruct (n_send n) as [|[k|] rest]; by intros [= <- <-]. Qed.

#[export] Hint Resolve sends_ok_more : medium.

(** ** Invariants of effectful code

    [preserves P m]: whatever [m] returns, an error included, it leaves a state of [P]
    from a state of [P]. *)

Definition preserves {S A} (P : S -> Prop) (m : eff S A) : Prop :=
  forall s r s', P s -> m s = (r, s') -> P s'.

Lemma preserves_ret {S A} (P : S -> Prop) (a : A) : preserves P (mret a).
Proof. intros s r s' Hs [= <- <-]. done. Qed.
Lemma preserves_throw {S A} (P : S -> Prop) e : preserves P (throw (A:=A) e).
Proof. intros s r s' Hs [= <- <-]. done. Qed.
Lemma preserves_lift {S A} (P : S -> Prop) (r : result A) : preserves P (lift r).
Proof. intros s r' s' Hs [= <- <-]. done. Qed.
Lemma preserves_gets {S A} (P : S -> Prop) (f : S -> A) : preserves P (gets f).
Proof. intros s r s' Hs [= <- <-]. done. Qed.
Lemma preserves_modify {S} (P : S -> Prop) f : (forall s, P s -> P (f s)) -> preserves P (modify f).
Proof. intros Hf s r s' Hs [= <- <-]. auto. Qed.
Lemma preserves_attempt {S A} (P : S -> Prop) (m : eff S A) : preserves P m -> preserves P (attempt m).
Proof.
  intros Hm s r s' Hs. unfold attempt. destruct (m s) as [r1 s1] eqn:E. intros [= <- <-]. eauto.
Qed.
Lemma preserves_bind {S A B} (P : S -> Prop) (m : eff S A) (f : A -> eff S B) :
  preserves P m -> (forall a, preserves P (f a)) -> preserves P (mbind f m).
Proof.
  intros Hm Hf s r s' Hs. unfold mbind, eff_bind. destruct (m s) as [[a|e] s1] eqn:E.
  - intros Hr. eapply Hf; [|done]. eauto.
  - intros [= <- <-]. eauto.
Qed.
(** What a successful run returns, from a state of [P]. *)
Definition returns {S A} (P : S -> Prop) (m : eff S A) (Q : A -> Prop) : Prop :=
  forall s a s', P s -> m s = (Ok a, s') -> Q a.
Lemma preserves_bind_post {S A B} (P : S -> Prop) (Q : A -> Prop) (m : eff S A) (f : A -> eff S B) :
  preserves P m -> returns P m Q -> (forall a, Q a -> preserves P (f a)) -> preserves P (mbind f m).
Proof.
  intros Hm Hq Hf s r s' Hs. unfold mbind, eff_bind. destruct (m s) as [[a|e] s1] eqn:E.
  - intros Hr. eapply Hf; [..|done]; eauto.
  - intros [= <- <-]. eauto.
Qed.
Lemma returns_bind {S A B} (P : S -> Prop) (Q : B -> Prop) (m : eff S A) (f : A -> eff S B) :
  preserves P m -> (forall a, returns P (f a) Q) -> returns P (mbind f m) Q.
Proof. intros Hm Hf s b s' Hs Hr. apply eff_bind_ok in Hr as (a & s1 & H1 & H2).
  eapply Hf; [|exact H2]. eapply Hm; [|exact H1]. done.
Qed.
Lemma preserves_zoom {S T A} (get : S -> T) (set : T -> S -> S) (P : S -> Prop) (m : eff T A) :
  (forall s t, P s -> (exists r, m (get s) = (r, t)) -> P (set t s)) -> preserves P (zoom get set m).
Proof.
  intros Hset s r s' Hs. unfold zoom. destruct (m (get s)) as [r1 t] eqn:E. intros [= <- <-].
  eauto.
Qed.

Create HintDb preserves discriminated.
#[export] Hint Resolve preserves_ret preserves_throw preserves_lift preserves_gets
  preserves_attempt preserves_bind : preserves.
#[export] Hint Constants Opaque : preserves.
