(* ===== verification/PinnedHttp.v ===== *)
(** * Pinned TLS and the HTTP client

    [crates/overlay-transport/src/pinned_http.rs]: certificate pins
    ([sha256:] followed by 64 hexadecimal digits), the certificate verifier of the
    pinned TLS client, the HTTP/1.1 request the client writes and the response it
    reads.

    SHA-256, URL parsing and the TLS exchange are other crates' code: parameters. *)

From S2P Require Import Prelude RustStd NetAddr Protocol Net.

(** SHA-256 of the sha2 crate. *)
Class Sha256 := { sha256 : list byte -> list byte }.
Class Sha256Ok `{!Sha256} := { sha256_length bs : length (sha256 bs) = 32%nat }.

(** What the program reads of a [url::Url]. *)
Record url := Url {
  url_scheme : string;
  url_host : option string;
  url_port : option Z;
  url_known_port : option Z;   (* port_or_known_default *)
  url_path : string;
  url_query : option string
}.

(** ** Pins *)

Fixpoint hex_lower (bs : list byte) : string :=
  match bs with
  | [] => EmptyString
  | b :: rest => hex2 (u8 b) +:+ hex_lower rest
  end.

Definition sha256_pin `{Sha256} (bs : list byte) : string :=
  "sha256:" +:+ hex_lower (sha256 bs).

(** The [chunks_exact(2)] loop. *)
Fixpoint parse_hex_pairs (s : string) : result (list byte) :=
  match s with
  | String a (String b rest) =>
      let pair := String a (String b EmptyString) in
      _ ← ok_or (EExt "utf8") (utf8_chars pair);
      v ← ok_or (EMsg ("invalid control pin hex byte " +:+ pair)) (from_str_radix 16 255 pair);
      vs ← parse_hex_pairs rest;
      Ok (byte_of_Z v :: vs)
  | _ => Ok []
  end.

Definition parse_sha256_pin (pin : string) : result (list byte) :=
  hex ← ok_or (EMsg "control pin must start with sha256:") (strip_prefix "sha256:" pin);
  _ ← bail_if (negb (str_len hex =? 64)) (EMsg "control pin sha256 digest must be 64 hex characters");
  parse_hex_pairs hex.

(** [PinnedCertVerifier]: only the digest of the presented certificate counts. *)
Record pinned_cert_verifier := PinnedCertVerifier { expected_pin : list byte }.

Definition verify_server_cert `{Sha256} (v : pinned_cert_verifier) (end_entity : list byte)
    : result unit :=
  let actual := sha256 end_entity in
  if bool_decide (actual = expected_pin v) then Ok tt
  else Err (EMsg ("control TLS pin mismatch: expected sha256:" +:+ hex_lower (expected_pin v)
                  +:+ " actual sha256:" +:+ hex_lower actual)).

Definition pinned_tls_client_config (control_pin : string) : result pinned_cert_verifier :=
  pin ← parse_sha256_pin control_pin; Ok (PinnedCertVerifier pin).

(** ** HTTP *)

Inductive method := Get | Post.
Definition method_str (m : method) : string := match m with Get => "GET" | Post => "POST" end.

Definition host_header (u : url) : result string :=
  host ← ok_or (EMsg "control URL must include a host") (url_host u);
  let host := if char_in ":" host then "[" +:+ host +:+ "]" else host in
  Ok (match url_port u with
      | Some port => host +:+ ":" +:+ dec port
      | None => host
      end).

(** The request head of [request]. *)
Definition request_head (m : method) (u : url) (body : list byte) : result string :=
  let path := match url_query u with
              | Some q => url_path u +:+ "?" +:+ q
              | None => url_path u
              end in
  let content_headers :=
    match body with
    | [] => EmptyString
    | _ => "content-type: application/json" +:+ crlf +:+ "content-length: "
           +:+ dec (Z.of_nat (length body)) +:+ crlf
    end in
  host ← host_header u;
  Ok (method_str m +:+ " " +:+ path +:+ " HTTP/1.1" +:+ crlf +:+ "host: " +:+ host +:+ crlf
      +:+ "accept: application/json" +:+ crlf +:+ content_headers
      +:+ "connection: close" +:+ crlf +:+ crlf).

(** The first index at which [pat] occurs: [windows(n).position(..)]. *)
Fixpoint is_prefix_of (pat bs : list byte) : bool :=
  match pat, bs with
  | [], _ => true
  | p :: pat', b :: bs' => bool_decide (p = b) && is_prefix_of pat' bs'
  | _ :: _, [] => false
  end.
Fixpoint position_of (pat bs : list byte) : option nat :=
  if is_prefix_of pat bs then Some O
  else match bs with
       | [] => None
       | _ :: rest => S <$> position_of pat rest
       end.
Definition header_sep : list byte := [x0d; x0a; x0d; x0a].

Definition is_success_status (status : string) : bool :=
  match split_whitespace status !! 1%nat with
  | Some code => starts_with "2" code
  | None => false
  end.

Definition parse_http_response (raw : list byte) : result (list byte) :=
  header_end ← ok_or (EMsg "control response is missing HTTP headers") (position_of header_sep raw);
  headers ← ok_or (EMsg "control response headers are not UTF-8") (from_utf8 (take header_end raw));
  status ← ok_or (EMsg "control response is missing HTTP status") (head (lines headers));
  _ ← bail_if (negb (is_success_status status)) (EMsg ("control request failed: " +:+ status));
  Ok (drop (header_end + 4) raw).

Section Request.
Context (url_parse : string -> option url) (server_name_ok : string -> bool).

(** What [request] checks before it connects: the address, the server name, the verifier
    and the bytes it will write. *)
Definition request_parts (m : method) (raw_url control_pin : string) (body : list byte)
    : result (string * string * pinned_cert_verifier * list byte) :=
  u ← ok_or (EMsg ("invalid control URL " +:+ raw_url)) (url_parse raw_url);
  _ ← bail_if (negb (url_scheme u =?s "https")) (EMsg "pinned-tls control URL must use https");
  host ← ok_or (EMsg "control URL must include a host") (url_host u);
  port ← ok_or (EMsg "control URL must include a port") (url_known_port u);
  _ ← bail_if (negb (server_name_ok host)) (EMsg ("invalid TLS server name " +:+ host));
  config ← pinned_tls_client_config control_pin;
  head ← request_head m u body;
  Ok (host +:+ ":" +:+ dec port, host, config, bytes_of head ++ body).

(** Connects to the address, runs the TLS handshake for the server name with the
    verifier, writes the bytes and returns what was read up to the end. *)
Context (exchange : string -> string -> pinned_cert_verifier -> list byte -> result (list byte)).

Definition request (m : method) (raw_url control_pin : string) (body : list byte)
    : result (list byte) :=
  '(addr, name, config, bytes) ← request_parts m raw_url control_pin body;
  raw ← exchange addr name config bytes;
  parse_http_response raw.

Definition get_bytes (raw_url control_pin : string) : result (list byte) :=
  request Get raw_url control_pin [].
Definition get_json {T} `{Json T} (raw_url control_pin : string) : result T :=
  response ← request Get raw_url control_pin [];
  from_slice response.
Definition post_json {T B} `{Json T} `{Json B} (raw_url control_pin : string) (body : B)
    : result T :=
  body ← to_vec body;
  response ← request Post raw_url control_pin body;
  from_slice response.
Definition post_json_no_content {B} `{Json B} (raw_url control_pin : string) (body : B)
    : result unit :=
  body ← to_vec body;
  _ ← request Post raw_url control_pin body;
  Ok tt.
End Request.

(** The same request in a world [W] that the exchange changes. *)
Section RequestIn.
Context (url_parse : string -> option url) (server_name_ok : string -> bool) {W : Type}.
Context (exchange : string -> string -> pinned_cert_verifier -> list byte -> eff W (list byte)).
Definition request_in (m : method) (raw_url control_pin : string) (body : list byte) : eff W (list byte) :=
  '(addr, name, config, bytes) ← lift (request_parts url_parse server_name_ok m raw_url control_pin body);
  raw ← exchange addr name config bytes;
  lift (parse_http_response raw).
Definition post_json_no_content_in {B} `{Json B} (raw_url control_pin : string) (body : B) : eff W unit :=
  body ← lift (to_vec body);
  _ ← request_in Post raw_url control_pin body;
  mret tt.
End RequestIn.

(** ** Lemmas *)

Lemma length_hex_lower bs : String.length (hex_lower bs) = (2 * length bs)%nat.
Proof. induction bs as [|b bs IH]; [done|]. simpl. rewrite IH. simpl. lia. Qed.

Lemma hex_lower_chars bs : string_all (fun c => is_ascii_lower c || is_ascii_digit c) (hex_lower bs) = true.
Proof.
  induction bs as [|b bs IH]; [done|]. cbn [hex_lower]. rewrite string_all_app, IH, andb_true_r.
  assert (u8 b ∈ seqZ 0 256) as Hin by (apply elem_of_seqZ; pose proof (u8_range b); lia).
  revert Hin. generalize (u8 b). intros z Hin.
  assert (forallb (fun z => string_all (fun c => is_ascii_lower c || is_ascii_digit c) (hex2 z)) (seqZ 0 256) = true) as H
    by (vm_compute; done).
  rewrite forallb_forall in H. by apply H, list_elem_of_In.
Qed.
Lemma parse_hex_pairs_hex_lower bs : parse_hex_pairs (hex_lower bs) = Ok bs.
Proof.
  induction bs as [|b bs IH]; [done|].
  pose proof (u8_range b).
  pose proof (hex2_parse (u8 b) ltac:(lia)) as Hp.
  destruct (hex2_utf8 (u8 b) ltac:(lia)) as [cs Hcs].
  cbn [hex_lower]. unfold hex2 in *. simpl String.append. cbn [parse_hex_pairs].
  rewrite Hcs, Hp. unfold_result. rewrite IH. by rewrite byte_of_u8.
Qed.

Lemma parse_pin_hex_lower bs :
  length bs = 32%nat -> parse_sha256_pin ("sha256:" +:+ hex_lower bs) = Ok bs.
Proof.
  intros Hlen. unfold parse_sha256_pin. rewrite strip_prefix_app. unfold_result.
  unfold str_len. rewrite length_hex_lower, Hlen. simpl.
  apply parse_hex_pairs_hex_lower.
Qed.

Lemma parse_hex_pairs_length s bs :
  parse_hex_pairs s = Ok bs -> length bs = Nat.div2 (String.length s).
Proof.
  remember (String.length s) as n eqn:Hn. revert s Hn bs.
  induction (lt_wf n) as [n _ IH]; intros s Hn bs.
  destruct s as [|a [|b rest]]; cbn [parse_hex_pairs]; try (intros [= <-]; by subst).
  intros H. inv_result. change (S (length x1) = S (Nat.div2 (String.length rest))). f_equal. by eapply (IH (String.length rest)); [simpl; lia|..].
Qed.

(** What a request's checks give: an https URL with a host and a port, and the verifier of
    the pin. *)
Lemma request_parts_ok url_parse server_name_ok m raw_url pin body addr name v bytes :
  request_parts url_parse server_name_ok m raw_url pin body = Ok (addr, name, v, bytes) ->
  pinned_tls_client_config pin = Ok v /\
  exists u port head, url_parse raw_url = Some u /\ url_scheme u = "https" /\ url_host u = Some name /\
    url_known_port u = Some port /\ addr = name +:+ ":" +:+ dec port /\
    request_head m u body = Ok head /\ bytes = bytes_of head ++ body.
Proof.
  unfold request_parts. intros Hr. inv_result. split; [done|].
  match goal with E : negb (bool_decide (url_scheme _ = _)) = false |- _ =>
    apply negb_false_iff, bool_decide_eq_true in E end.
  eauto 10.
Qed.
Lemma request_parts_eq url_parse server_name_ok m raw_url pin body u host port v head :
  url_parse raw_url = Some u -> url_scheme u = "https" -> url_host u = Some host -> url_known_port u = Some port ->
  server_name_ok host = true -> pinned_tls_client_config pin = Ok v -> request_head m u body = Ok head ->
  request_parts url_parse server_name_ok m raw_url pin body
  = Ok (host +:+ ":" +:+ dec port, host, v, bytes_of head ++ body).
Proof.
  intros Hu Hs Hh Hp Hn Hv Hhead. unfold request_parts, mbind, result_bind, ok_or.
  rewrite Hu, Hs, Hh, Hp, Hn, Hv, Hhead. by rewrite bool_decide_eq_true_2.
Qed.
Lemma request_ok url_parse server_name_ok exchange m raw_url pin body answer :
  request url_parse server_name_ok exchange m raw_url pin body = Ok answer ->
  exists addr name v bytes raw,
    request_parts url_parse server_name_ok m raw_url pin body = Ok (addr, name, v, bytes) /\
    exchange addr name v bytes = Ok raw /\ parse_http_response raw = Ok answer.
Proof.
  unfold request. intros Hr. apply bind_ok in Hr as ([[[addr name] v] bytes] & Hp & Hr).
  apply bind_ok in Hr as (raw & Hx & Ha). eauto 10.
Qed.

(** What the client reads does not depend on what the exchange leaves behind. *)
Lemma request_in_result {W} url_parse server_name_ok
    (exchange : string -> string -> pinned_cert_verifier -> list byte -> eff W (list byte)) m raw_url pin body w :
  (request_in url_parse server_name_ok exchange m raw_url pin body w).1
  = request url_parse server_name_ok (fun addr name v bytes => (exchange addr name v bytes w).1) m raw_url pin body.
Proof.
  unfold request_in, request, lift, mbind, eff_bind, result_bind.
  destruct (request_parts _ _ _ _ _ _) as [[[[addr name] v] bytes]|e]; [|done].
  by destruct (exchange addr name v bytes w) as [[raw|e] w'].
Qed.

Lemma verify_server_cert_ok `{Sha256} v cert :
  verify_server_cert v cert = Ok tt <-> sha256 cert = expected_pin v.
Proof. unfold verify_server_cert. case_bool_decide; naive_solver. Qed.

Lemma is_prefix_of_app pat bs : is_prefix_of pat (pat ++ bs) = true.
Proof. induction pat as [|p pat IH]; [done|]. simpl. by rewrite bool_decide_eq_true_2, IH. Qed.

Lemma is_prefix_of_inv pat bs : is_prefix_of pat bs = true -> exists rest, bs = pat ++ rest.
Proof.
  revert bs; induction pat as [|p pat IH]; intros [|b bs]; simpl; try done; eauto.
  intros [Hp Hr]%andb_true_iff. apply bool_decide_eq_true in Hp as <-.
  apply IH in Hr as [rest ->]. eauto.
Qed.

Lemma position_of_inv pat bs n :
  position_of pat bs = Some n -> exists rest, bs = take n bs ++ pat ++ rest.
Proof.
  revert n; induction bs as [|b bs IH]; intros n; simpl.
  - destruct (is_prefix_of pat []) eqn:E; [|done]. intros [= <-].
    by apply is_prefix_of_inv in E.
  - destruct (is_prefix_of pat (b :: bs)) eqn:E.
    + intros [= <-]. by apply is_prefix_of_inv in E.
    + destruct (position_of pat bs) as [m|]; [|done]. intros [= <-].
      destruct (IH m eq_refl) as [rest Hrest]. exists rest. simpl. by f_equal.
Qed.

Lemma position_of_first pat bs n m :
  position_of pat bs = Some n -> (m < n)%nat -> is_prefix_of pat (drop m bs) = false.
Proof.
  revert n m; induction bs as [|b bs IH]; intros n m; cbn [position_of].
  - destruct (is_prefix_of pat []); [intros [= <-]; lia|done].
  - destruct (is_prefix_of pat (b :: bs)) eqn:E; [intros [= <-]; lia|].
    destruct (position_of pat bs) as [k|] eqn:E2; [|done].
    intros [= <-] Hm. destruct m as [|m]; [done|]. simpl. apply (IH k); [done|lia].
Qed.

(** A toy digest with the length law, for the witnesses. *)
Definition toy_sha256 : Sha256 := {| sha256 := fun bs => take 32 (bs ++ replicate 32 x00) |}.
Lemma toy_sha256_ok : @Sha256Ok toy_sha256.
Proof. constructor. intros bs. cbn [sha256 toy_sha256]. rewrite length_take, length_app, length_replicate. lia. Qed.

(** ** Properties *)

(** The pin of a certificate configures a client whose verifier accepts exactly the
    certificates with the same SHA-256 digest, whatever name, chain or time is
    presented. *)
Theorem pinned_client_accepts_exactly_the_pinned_digest `{Sha256Ok} (cert0 : list byte) :
  exists v, pinned_tls_client_config (sha256_pin cert0) = Ok v /\
    forall cert, is_ok (verify_server_cert v cert) = true <-> sha256 cert = sha256 cert0.
Proof.
  exists (PinnedCertVerifier (sha256 cert0)). split.
  - unfold pinned_tls_client_config, sha256_pin.
    rewrite parse_pin_hex_lower by apply sha256_length. done.
  - intros cert. unfold verify_server_cert. simpl. case_bool_decide; naive_solver.
Qed.

Lemma pinned_client_accepts_exactly_the_pinned_digest_witness :
  exists v, pinned_tls_client_config (@sha256_pin toy_sha256 [x01]) = Ok v /\
    forall cert, is_ok (@verify_server_cert toy_sha256 v cert) = true
                 <-> @sha256 toy_sha256 cert = @sha256 toy_sha256 [x01].
Proof. apply (@pinned_client_accepts_exactly_the_pinned_digest toy_sha256 toy_sha256_ok). Defined.

(** A pin that parses is [sha256:] followed by 64 bytes and yields 32 digest bytes. *)
Theorem parse_sha256_pin_shape (pin : string) (digest : list byte) :
  parse_sha256_pin pin = Ok digest ->
  length digest = 32%nat /\
  exists hex, pin = "sha256:" +:+ hex /\ String.length hex = 64%nat.
Proof.
  unfold parse_sha256_pin. intros H. inv_result.
  apply strip_prefix_some in E as ->.
  apply negb_false_iff, Z.eqb_eq in E0. unfold str_len in E0.
  assert (String.length x = 64%nat) as Hlen by lia.
  split; [|by exists x]. apply parse_hex_pairs_length in H. by rewrite H, Hlen.
Qed.

Lemma parse_sha256_pin_shape_witness :
  length (replicate 32 xab) = 32%nat /\
  exists hex, @sha256_pin {| sha256 := fun _ => replicate 32 xab |} [] = "sha256:" +:+ hex
              /\ String.length hex = 64%nat.
Proof. apply parse_sha256_pin_shape. vm_compute. reflexivity. Defined.

Definition plus_pin : string :=
  "sha256:+f+f+f+f+f+f+f+f+f+f+f+f+f+f+f+f+f+f+f+f+f+f+f+f+f+f+f+f+f+f+f+f".

(** The 64 bytes need not be hexadecimal digits: [u8::from_str_radix] reads a plus
    sign in front of one digit. *)
Theorem parse_sha256_pin_accepts_plus : parse_sha256_pin plus_pin = Ok (replicate 32 x0f).
Proof. vm_compute. reflexivity. Qed.

(** A response is delivered only when its first line has a success status, and what
    is delivered is everything after the first blank line. *)
Theorem parse_http_response_ok (raw body : list byte) :
  parse_http_response raw = Ok body ->
  exists head headers status,
    raw = head ++ header_sep ++ body /\
    (forall m, (m < length head)%nat -> is_prefix_of header_sep (drop m raw) = false) /\
    from_utf8 head = Some headers /\
    hd_error (lines headers) = Some status /\
    is_success_status status = true.
Proof.
  unfold parse_http_response. intros H. inv_result.
  pose proof (position_of_inv _ _ _ E) as [rest Hrest].
  assert (length (take x raw) = x) as Hlen.
  { rewrite length_take. apply Nat.min_l.
    destruct (decide (x <= length raw)%nat) as [|Hx]; [done|].
    apply (f_equal length) in Hrest. rewrite length_app, length_app, length_take in Hrest.
    simpl in Hrest. lia. }
  exists (take x raw), x0, x1. rewrite Hlen. split_and!; try done.
  - assert (drop x raw = header_sep ++ rest) as Hd
      by (apply (app_inv_head (take x raw)); by rewrite take_drop).
    rewrite <- drop_drop, Hd. rewrite <- (take_drop x raw) at 1. by rewrite Hd.
  - intros m Hm. by eapply position_of_first.
  - by apply negb_false_iff.
Qed.

Lemma parse_http_response_ok_witness :
  let raw := bytes_of ("HTTP/1.1 204 No Content" +:+ crlf +:+ "a: b" +:+ crlf +:+ crlf +:+ "xy") in
  exists head headers status,
    raw = head ++ header_sep ++ bytes_of "xy" /\
    (forall m, (m < length head)%nat -> is_prefix_of header_sep (drop m raw) = false) /\
    from_utf8 head = Some headers /\ hd_error (lines headers) = Some status /\
    is_success_status status = true.
Proof. apply parse_http_response_ok. vm_compute. reflexivity. Defined.
