(* ===== verification/Crypto.v ===== *)
(** * Session tokens and TLS identities

    [crates/overlay-crypto/src/lib.rs]: the HMAC-signed session token the control
    plane issues and the node and the relay verify, and the TLS identities the
    program creates around the rcgen crate.

    HMAC-SHA-256, base64 and the JSON of the claims are other crates' code, the
    parameters of [TokenEnv]; [TokenOk] states what the program relies on.  The
    clock and the UUIDs are arguments. *)

From S2P Require Import Prelude RustStd Protocol PinnedHttp.

Definition SESSION_TOKEN_TTL_MINUTES : Z := 10.
Definition SESSION_TOKEN_CLOCK_SKEW_MINUTES : Z := 5.

Record session_token_claims := SessionTokenClaims {
  tc_session_id : string;
  tc_service_id : string;
  tc_node_id : string;
  tc_expires_at : Z
}.

#[global] Instance session_token_claims_eq_dec : EqDecision session_token_claims.
Proof. solve_decision. Defined.

Class TokenEnv := {
  claims_json :: Json session_token_claims;
  hmac_sha256 : list byte -> list byte -> result (list byte);
  b64_encode : list byte -> string;
  b64_decode : string -> result (list byte)
}.

Class TokenOk `{!TokenEnv} := {
  claims_json_ok :: JsonOk session_token_claims;
  (** HMAC takes a key of any length. *)
  hmac_total key payload : exists mac, hmac_sha256 key payload = Ok mac;
  b64_roundtrip bs : b64_decode (b64_encode bs) = Ok bs;
  (** The URL-safe alphabet has no dot. *)
  b64_no_dot bs : char_in "." (b64_encode bs) = false
}.

(** ** Bootstrap codes *)

(** [uuid] is the 32-digit [simple] form of a random UUID. *)
Definition issue_bootstrap_code (uuid : string) : string := "ovr-" +:+ uuid.

(** ** Tokens *)

Section Token.
Context `{TokenEnv}.

Definition sign_payload (shared_secret : string) (payload : list byte) : result (list byte) :=
  hmac_sha256 (bytes_of shared_secret) payload.

Definition issue_session_token (now : Z) (shared_secret session_id service_id node_id : string)
    : result string :=
  let claims := {|
    tc_session_id := session_id;
    tc_service_id := service_id;
    tc_node_id := node_id;
    tc_expires_at := now + minutes SESSION_TOKEN_TTL_MINUTES
  |} in
  payload ← to_vec claims;
  signature ← sign_payload shared_secret payload;
  let payload_b64 := b64_encode payload in
  let signature_b64 := b64_encode signature in
  Ok (payload_b64 +:+ "." +:+ signature_b64).

Definition verify_session_token (now : Z) (shared_secret token : string)
    : result session_token_claims :=
  '(payload_b64, signature_b64) ←
    ok_or (EMsg "invalid session token format") (split_once "." token);
  payload ← ok_or (EMsg "invalid session token payload") (result_ok (b64_decode payload_b64));
  signature ←
    ok_or (EMsg "invalid session token signature encoding") (result_ok (b64_decode signature_b64));
  expected_signature ← sign_payload shared_secret payload;
  _ ← bail_if (negb (bool_decide (signature = expected_signature)))
        (EMsg "invalid session token signature");
  claims ← from_slice payload;
  let expires_with_leeway := tc_expires_at claims + minutes SESSION_TOKEN_CLOCK_SKEW_MINUTES in
  _ ← bail_if (expires_with_leeway <? now) (EMsg "session token expired");
  Ok claims.
End Token.

(** ** TLS identities

    Certificate generation is rcgen's: a parameter returns the certificate (DER and
    PEM) and the private key in PEM. *)

Record control_tls_identity := ControlTlsIdentity {
  ct_cert_pem : string;
  ct_key_pem : string;
  ct_control_pin : string
}.
Record service_tls_identity := ServiceTlsIdentity {
  st_cert_pem : string;
  st_key_pem : string
}.

Record medium_service_ca := MediumServiceCa { ca_cert_pem : string; ca_key_pem : string }.

Record generated_cert := GeneratedCert { gc_der : list byte; gc_pem : string; gc_key_pem : string }.

(** The local copy of [hex_lower]. *)
Fixpoint hex_lower (bs : list byte) : string :=
  match bs with
  | [] => EmptyString
  | b :: rest => hex2 (u8 b) +:+ hex_lower rest
  end.

Section Identity.
Context `{Sha256}.
(** Self-signed: common name and subject names. *)
Context (self_signed : string -> list string -> result generated_cert).
(** Signed by a CA: CA certificate, CA key, common name, subject names. *)
Context (signed_by : string -> string -> string -> list string -> result generated_cert).

Definition issue_control_tls_identity (subject_alt_names : list string)
    : result control_tls_identity :=
  cert ← self_signed "medium-control" subject_alt_names;
  let digest := sha256 (gc_der cert) in
  Ok {| ct_cert_pem := gc_pem cert;
        ct_key_pem := gc_key_pem cert;
        ct_control_pin := "sha256:" +:+ hex_lower digest |}.

(** [issue_node_cert]: the key in the argument is not looked at, and the certificate is for a
    key that is generated and dropped; the time it returns is not put in the certificate. *)
Definition issue_node_cert (now : Z) (device_id public_key_pem : string) : result (string * Z) :=
  cert ← self_signed device_id [device_id];
  Ok (gc_pem cert, now + minutes (24 * 60)).

(** [self_signed_ca]: self-signed by its common name, as a CA that may sign certificates. *)
Context (self_signed_ca : string -> result generated_cert).
Definition issue_medium_service_ca : result medium_service_ca :=
  cert ← self_signed_ca "Medium Service CA";
  Ok (MediumServiceCa (gc_pem cert) (gc_key_pem cert)).

Definition issue_service_tls_identity (ca_cert_pem ca_key_pem : string)
    (subject_alt_names : list string) : result service_tls_identity :=
  let common_name := default "service.medium" (head subject_alt_names) in
  cert ← signed_by ca_cert_pem ca_key_pem common_name subject_alt_names;
  Ok {| st_cert_pem := gc_pem cert; st_key_pem := gc_key_pem cert |}.
End Identity.

(** ** Lemmas *)

Section TokenFacts.
Context `{TokenOk}.

(** The accepted tokens, characterised. *)
Lemma verify_ok_inv now secret token claims :
  verify_session_token now secret token = Ok claims ->
  exists p_b64 s_b64 payload sig,
    split_once "." token = Some (p_b64, s_b64) /\
    b64_decode p_b64 = Ok payload /\ b64_decode s_b64 = Ok sig /\
    sign_payload secret payload = Ok sig /\
    from_slice payload = Ok claims /\
    now <= tc_expires_at claims + minutes SESSION_TOKEN_CLOCK_SKEW_MINUTES.
Proof.
  unfold verify_session_token. intros Hv. inv_result. simpl in *.
  repeat match goal with
  | E : result_ok ?r = Some _ |- _ => destruct r eqn:?; simpl in E; simplify_eq
  end. inv_result.
  match goal with E : negb _ = false |- _ => apply negb_false_iff, bool_decide_eq_true in E as -> end.
  match goal with E : (_ <? _) = false |- _ => apply Z.ltb_ge in E end.
  repeat eexists; eauto.
Qed.

Lemma verify_well_formed now secret payload sig :
  sign_payload secret payload = Ok sig ->
  verify_session_token now secret (b64_encode payload +:+ "." +:+ b64_encode sig)
  = (claims ← from_slice payload;
     _ ← bail_if (tc_expires_at claims + minutes SESSION_TOKEN_CLOCK_SKEW_MINUTES <? now)
           (EMsg "session token expired");
     Ok claims).
Proof.
  intros Hs. unfold verify_session_token.
  change ("." +:+ ?x) with (String "." x).
  rewrite split_once_char by apply b64_no_dot. unfold_result.
  rewrite !b64_roundtrip. simpl. rewrite Hs.
  by rewrite bool_decide_eq_true_2.
Qed.

Lemma issue_ok now secret sid svc node token :
  issue_session_token now secret sid svc node = Ok token ->
  exists payload sig,
    to_vec {| tc_session_id := sid; tc_service_id := svc; tc_node_id := node;
              tc_expires_at := now + minutes SESSION_TOKEN_TTL_MINUTES |} = Ok payload /\
    sign_payload secret payload = Ok sig /\
    token = b64_encode payload +:+ "." +:+ b64_encode sig.
Proof. unfold issue_session_token. intros Hi. inv_result. eauto 10. Qed.
Lemma verify_issued t0 now secret sid svc node token :
  issue_session_token t0 secret sid svc node = Ok token ->
  verify_session_token now secret token =
    if now <=? t0 + minutes 15
    then Ok {| tc_session_id := sid; tc_service_id := svc; tc_node_id := node;
               tc_expires_at := t0 + minutes 10 |}
    else Err (EMsg "session token expired").
Proof.
  intros Hi. apply issue_ok in Hi as (payload & sig & Hp & Hs & ->).
  rewrite verify_well_formed by done.
  rewrite (json_roundtrip _ _ Hp). unfold_result.
  replace (t0 + minutes SESSION_TOKEN_TTL_MINUTES + minutes SESSION_TOKEN_CLOCK_SKEW_MINUTES)
    with (t0 + minutes 15) by (unfold minutes, secs, SESSION_TOKEN_TTL_MINUTES,
      SESSION_TOKEN_CLOCK_SKEW_MINUTES; lia).
  destruct (Z.ltb_spec (t0 + minutes 15) now), (Z.leb_spec now (t0 + minutes 15)); (lia || done).
Qed.
End TokenFacts.

(** ** A concrete environment for the witnesses

    Claims are written as the bits of stdpp's encoding, base64 as hexadecimal, the
    MAC as the key before the payload. *)

#[local] Instance claims_countable : Countable session_token_claims.
Proof.
  refine (inj_countable'
    (fun c => (tc_session_id c, tc_service_id c, tc_node_id c, tc_expires_at c))
    (fun '(a, b, c, d) => SessionTokenClaims a b c d) _). by intros [].
Defined.

Definition toy_token_env : TokenEnv := {|
  claims_json := countable_json;
  hmac_sha256 := fun key payload => Ok (key ++ payload);
  b64_encode := PinnedHttp.hex_lower;
  b64_decode := parse_hex_pairs
|}.

Lemma hex2_no_dot z : 0 <= z <= 255 -> char_in "." (hex2 z) = false.
Proof.
  intros Hz. assert (z ∈ seqZ 0 256) as Hin by (apply elem_of_seqZ; lia).
  clear Hz. revert z Hin. by_enum.
Qed.

Lemma toy_token_ok : @TokenOk toy_token_env.
Proof.
  constructor.
  - apply countable_json_ok.
  - intros key payload. by eexists.
  - intros bs. apply parse_hex_pairs_hex_lower.
  - induction bs as [|b bs IH]; [done|]. cbn [PinnedHttp.hex_lower b64_encode toy_token_env] in *.
    rewrite char_in_app, IH, hex2_no_dot; [done|]. pose proof (u8_range b). lia.
Qed.

Lemma hex_lower_same bs : hex_lower bs = PinnedHttp.hex_lower bs.
Proof. induction bs as [|b bs IH]; [done|]. simpl. by rewrite IH. Qed.

(** ** Properties *)

(** A token verifies, under the secret it was issued with, to the claims it was
    issued for until fifteen minutes (lifetime and leeway) after it was issued, the
    last instant included, and is refused as expired from then on. *)
Theorem issued_token_verifies_until_expiry `{TokenOk} (t0 now : Z)
    (secret sid svc node token : string) :
  issue_session_token t0 secret sid svc node = Ok token ->
  verify_session_token now secret token =
    if now <=? t0 + minutes 15
    then Ok {| tc_session_id := sid; tc_service_id := svc; tc_node_id := node;
               tc_expires_at := t0 + minutes 10 |}
    else Err (EMsg "session token expired").
Proof.
  apply verify_issued.
Qed.

Definition toy_token : string :=
  match @issue_session_token toy_token_env 100 "s" "sess_1" "svc_ssh" "node-1" with
  | Ok t => t
  | Err _ => ""
  end.

Lemma issued_token_verifies_until_expiry_witness :
  @verify_session_token toy_token_env 200 "s" toy_token =
    Ok {| tc_session_id := "sess_1"; tc_service_id := "svc_ssh"; tc_node_id := "node-1";
          tc_expires_at := 100 + minutes 10 |}.
Proof.
  exact (@issued_token_verifies_until_expiry toy_token_env toy_token_ok 100 200
    "s" "sess_1" "svc_ssh" "node-1" toy_token ltac:(vm_compute; reflexivity)).
Defined.

(** A payload under any other signature than its MAC is refused, whatever it claims. *)
Theorem forged_signature_refused `{TokenOk} (now : Z) (secret : string)
    (payload sig mac : list byte) :
  sign_payload secret payload = Ok mac -> sig <> mac ->
  verify_session_token now secret (b64_encode payload +:+ "." +:+ b64_encode sig)
  = Err (EMsg "invalid session token signature").
Proof.
  intros Hs Hne. unfold verify_session_token.
  change ("." +:+ b64_encode sig) with (String "." (b64_encode sig)).
  rewrite split_once_char by apply b64_no_dot. unfold_result.
  rewrite !b64_roundtrip. simpl. rewrite Hs. by rewrite bool_decide_eq_false_2.
Qed.

Lemma forged_signature_refused_witness :
  @verify_session_token toy_token_env 0 "s" (PinnedHttp.hex_lower [x02; x01] +:+ "." +:+ PinnedHttp.hex_lower [x00])
  = Err (EMsg "invalid session token signature").
Proof.
  exact (@forged_signature_refused toy_token_env toy_token_ok 0 "s" [x02; x01] [x00]
    (bytes_of "s" ++ [x02; x01]) eq_refl ltac:(discriminate)).
Defined.

(** C11. An accepted token carries the MAC of its payload under the verifier's secret, the
    claims are that payload's, and the clock is at most five minutes past their
    expiry. *)
Theorem accepted_token_is_signed `{TokenOk} (now : Z) (secret token : string)
    (claims : session_token_claims) :
  verify_session_token now secret token = Ok claims ->
  exists p_b64 s_b64 payload sig,
    token = p_b64 +:+ "." +:+ s_b64 /\
    b64_decode p_b64 = Ok payload /\ b64_decode s_b64 = Ok sig /\
    sign_payload secret payload = Ok sig /\
    from_slice payload = Ok claims /\
    now <= tc_expires_at claims + minutes 5.
Proof.
  intros Hv. apply verify_ok_inv in Hv as (p & s & payload & sig & Hsplit & Hrest).
  exists p, s, payload, sig. split; [|exact Hrest].
  apply split_once_sound in Hsplit. exact Hsplit.
Qed.

Lemma accepted_token_is_signed_witness :
  exists p_b64 s_b64 payload sig,
    toy_token = p_b64 +:+ "." +:+ s_b64 /\
    @b64_decode toy_token_env p_b64 = Ok payload /\ @b64_decode toy_token_env s_b64 = Ok sig /\
    @sign_payload toy_token_env "s" payload = Ok sig /\
    @from_slice _ (@claims_json toy_token_env) payload
      = Ok (SessionTokenClaims "sess_1" "svc_ssh" "node-1" (100 + minutes 10)) /\
    200 <= (100 + minutes 10) + minutes 5.
Proof.
  exact (@accepted_token_is_signed toy_token_env toy_token_ok 200 "s" toy_token
    (SessionTokenClaims "sess_1" "svc_ssh" "node-1" (100 + minutes 10))
    ltac:(vm_compute; reflexivity)).
Defined.

(** The pin of a new control-plane identity configures a client that accepts the
    identity's own certificate. *)
Theorem control_identity_pin_accepts_certificate `{Sha256Ok}
    (self_signed : string -> list string -> result generated_cert)
    (names : list string) (cert : generated_cert) :
  self_signed "medium-control" names = Ok cert ->
  exists id v,
    issue_control_tls_identity self_signed names = Ok id /\
    pinned_tls_client_config (ct_control_pin id) = Ok v /\
    verify_server_cert v (gc_der cert) = Ok tt.
Proof.
  intros Hc. unfold issue_control_tls_identity. rewrite Hc.
  do 2 eexists. split; [reflexivity|]. rewrite hex_lower_same. lazy beta iota delta [ct_control_pin].
  unfold pinned_tls_client_config. rewrite parse_pin_hex_lower by apply sha256_length.
  split; [reflexivity|]. by apply verify_server_cert_ok.
Qed.

Lemma control_identity_pin_accepts_certificate_witness :
  exists id v,
    @issue_control_tls_identity toy_sha256 (fun _ _ => Ok (GeneratedCert [x05] "pem" "key")) ["h"]
      = Ok id /\
    pinned_tls_client_config (ct_control_pin id) = Ok v /\
    @verify_server_cert toy_sha256 v [x05] = Ok tt.
Proof.
  exact (@control_identity_pin_accepts_certificate toy_sha256 toy_sha256_ok
    (fun _ _ => Ok (GeneratedCert [x05] "pem" "key")) ["h"] (GeneratedCert [x05] "pem" "key") eq_refl).
Defined.
