(* ===== verification/Samples.v ===== *)
(** * A compact JSON stand-in for the witnesses

    The witnesses that run whole sessions need hello lines and tokens within the 16 KiB of
    a line.  A value is written as its fields in hexadecimal, separated by dots, after
    an opening bracket. *)

From S2P Require Import Prelude RustStd Protocol PinnedHttp Crypto.

Definition write_fields (fields : list string) : string :=
  join "." (map (fun f => PinnedHttp.hex_lower (bytes_of f)) fields).
Definition read_field (piece : string) : option string := string_of <$> result_ok (parse_hex_pairs piece).
Definition read_fields (s : string) : option (list string) := mapM read_field (split_on "." s).

Lemma read_write_fields fields : fields <> [] -> read_fields (write_fields fields) = Some fields.
Proof.
  intros Hne. unfold read_fields, write_fields. rewrite split_on_join.
  - clear Hne. induction fields as [|f fields IH]; [done|]. cbn [map mapM]. rewrite IH.
    unfold read_field. rewrite parse_hex_pairs_hex_lower. simpl. by rewrite string_of_bytes_of.
  - by destruct fields.
  - apply list.Forall_forall. intros p (f & -> & _)%list_elem_of_fmap.
    eapply string_all_char_in; [apply hex_lower_chars|done].
Qed.

Lemma string_all_bytes p s b :
  string_all p s = true -> b ∈ bytes_of s -> exists c, b = Ascii.byte_of_ascii c /\ p c = true.
Proof.
  induction s as [|c s IH]; [intros _ H; by apply not_elem_of_nil in H|]. simpl. intros [Hc Hs]%andb_true_iff.
  rewrite bytes_of_cons. intros [->|Hb]%elem_of_cons; [by exists c|by apply IH].
Qed.
Definition field_char (c : ascii) : bool := is_ascii_lower c || is_ascii_digit c || bool_decide (c = "."%char).
Lemma write_fields_chars fields : string_all field_char (write_fields fields) = true.
Proof.
  unfold write_fields. induction fields as [|f fields IH]; [done|]. cbn [map].
  assert (string_all field_char (PinnedHttp.hex_lower (bytes_of f)) = true) as Hf.
  { pose proof (hex_lower_chars (bytes_of f)) as H. induction (PinnedHttp.hex_lower (bytes_of f)) as [|c s IHs]; [done|].
    simpl in *. apply andb_true_iff in H as [Hc Hs]. unfold field_char at 1. rewrite Hc. simpl. by apply IHs. }
  destruct fields as [|g fields]; [done|]. cbn [map] in *. rewrite join_cons by done.
  rewrite !string_all_app, Hf, IH. done.
Qed.

Section FlatJson.
Context {A : Type} (to_fields : A -> list string) (of_fields : list string -> option A).
Definition flat_json : Json A := {|
  to_vec a := Ok (x5b :: bytes_of (write_fields (to_fields a)));
  from_slice bs :=
    match bs with
    | x5b :: rest => fields ← ok_or (EExt "json") (read_fields (string_of rest)); ok_or (EExt "json") (of_fields fields)
    | _ => Err (EExt "json")
    end
|}.
Context (Hfields : forall a, to_fields a <> [] /\ of_fields (to_fields a) = Some a).
Lemma flat_json_ok : @JsonOk A flat_json.
Proof.
  constructor; intros a p [= <-].
  - destruct (Hfields a) as [Hne Hof]. cbn [from_slice flat_json]. rewrite string_of_bytes_of, read_write_fields by done.
    unfold mbind, result_bind. simpl. by rewrite Hof.
  - apply not_elem_of_cons. split; [done|]. intros Hin.
    eapply string_all_bytes in Hin as (c & Hc & Hp); [|apply write_fields_chars].
    assert (bool_decide (Ascii.byte_of_ascii c = newline) && field_char c = false) as Hno.
    { apply negb_true_iff. revert c Hc Hp. intros c _ _. revert c. apply ascii_forallb. vm_compute. done. }
    rewrite Hp, bool_decide_eq_true_2 in Hno by done. done.
  - done.
Qed.
End FlatJson.

Definition flat_hello : Json session_hello :=
  flat_json (fun h => [sh_token h; sh_service_id h; match sh_transport h with Some t => "s" +:+ t | None => "n" end])
    (fun l => match l with
              | [a; b; String "s" t] => Some (SessionHello a b (Some t))
              | [a; b; String "n" EmptyString] => Some (SessionHello a b None)
              | _ => None
              end).
Lemma flat_hello_ok : @JsonOk _ flat_hello.
Proof. apply flat_json_ok. intros [a b [t|]]; done. Qed.

Definition flat_relay : Json relay_hello :=
  flat_json (fun h => match h with RelayNode a b => ["n"; a; b] | RelayClient a => ["c"; a] end)
    (fun l => match l with
              | [String "n" EmptyString; a; b] => Some (RelayNode a b)
              | [String "c" EmptyString; a] => Some (RelayClient a)
              | _ => None
              end).
Lemma flat_relay_ok : @JsonOk _ flat_relay.
Proof. apply flat_json_ok. intros [a b|a]; done. Qed.

Definition write_int (z : Z) : string := string_of (pos_bytes (encode z)).
Definition read_int (s : string) : option Z := bytes_pos (bytes_of s) ≫= decode.
Lemma read_write_int z : read_int (write_int z) = Some z.
Proof. unfold read_int, write_int. rewrite bytes_of_string_of, bytes_pos_bytes. apply decode_encode. Qed.

Definition flat_claims : Json session_token_claims :=
  flat_json (fun c => [tc_session_id c; tc_service_id c; tc_node_id c; write_int (tc_expires_at c)])
    (fun l => match l with
              | [a; b; c; d] => z ← read_int d; Some (SessionTokenClaims a b c z)
              | _ => None
              end).
Lemma flat_claims_ok : @JsonOk _ flat_claims.
Proof. apply flat_json_ok. intros [a b c z]. split; [done|]. cbn. by rewrite read_write_int. Qed.

(** Tokens with a keyed but trivial MAC, in hexadecimal. *)
Definition flat_token_env : TokenEnv := {|
  claims_json := flat_claims;
  hmac_sha256 := fun key payload => Ok (key ++ payload);
  b64_encode := PinnedHttp.hex_lower;
  b64_decode := parse_hex_pairs
|}.
Lemma flat_token_ok : @TokenOk flat_token_env.
Proof.
  constructor.
  - apply flat_claims_ok.
  - intros key payload. by eexists.
  - intros bs. apply parse_hex_pairs_hex_lower.
  - intros bs. eapply string_all_char_in; [apply hex_lower_chars|done].
Qed.
Definition flat_token : string :=
  match @issue_session_token flat_token_env 100 "s" "sess_1" "svc_ssh" "node-1" with
  | Ok t => t
  | Err _ => EmptyString
  end.

(** A JSON that writes one value, or none. *)
Definition single_json {A} `{EqDecision A} (v : A) : Json A := {|
  to_vec a := if decide (a = v) then Ok [x5b] else Err (EExt "json");
  from_slice bs := if decide (bs = [x5b]) then Ok v else Err (EExt "json")
|}.
Lemma single_json_ok {A} `{EqDecision A} (v : A) : @JsonOk A (single_json v).
Proof.
  constructor; intros a p; cbn [to_vec from_slice single_json]; case_decide as Ha; intros [= <-]; subst; [|set_solver|done].
  by rewrite decide_True.
Qed.
Definition no_json {A} : Json A := {| to_vec _ := Err (EExt "json"); from_slice _ := Err (EExt "json") |}.
Lemma no_json_ok {A} : @JsonOk A no_json.
Proof. by constructor. Qed.
#[global] Instance register_node_request_eq_dec : EqDecision register_node_request.
Proof. solve_decision. Defined.
#[global] Instance service_certificate_request_eq_dec : EqDecision service_certificate_request.
Proof. solve_decision. Defined.
#[global] Instance service_certificate_response_eq_dec : EqDecision service_certificate_response.
Proof. solve_decision. Defined.
