(* ===== verification/Rendezvous.v ===== *)
(** * UDP rendezvous

    [crates/overlay-transport/src/udp_rendezvous.rs]: the messages a node, a client
    and the relay exchange over UDP, a client's search for its peer, and the peer's
    reaction (a burst of punch packets that opens its NAT). *)

From S2P Require Import Prelude RustStd NetAddr Protocol Net.

Definition PUNCH_BURST_PACKETS : nat := 5.
Definition PUNCH_BURST_INTERVAL : Z := millis 40.

Inductive udp_rendezvous_message :=
  | RvNode (node_id shared_secret : string)
  | RvClient (node_id token : string)
  | RvRegistered (addr : string)
  | RvPeer (addr : string)
  | RvPunch.

#[global] Instance udp_rendezvous_message_eq_dec : EqDecision udp_rendezvous_message.
Proof. solve_decision. Defined.

Section Rendezvous.
Context `{Json udp_rendezvous_message}.

Definition send_message_to (peer_addr : socket_addr) (message : udp_rendezvous_message)
    : eff net unit :=
  payload ← lift (to_vec message);
  send_to peer_addr payload.

Definition parse_message (payload : list byte) : result udp_rendezvous_message :=
  from_slice payload.

Definition send_node_register (relay_addr : socket_addr) (node_id shared_secret : string)
    : eff net unit :=
  send_message_to relay_addr (RvNode node_id shared_secret).

(** [addr.parse::<SocketAddr>()?]. *)
Definition parse_peer_addr (addr : string) : result socket_addr :=
  ok_or (EExt "AddrParseError") (parse_sock addr).

(** The loop of [send_punch_burst] from [index] on, [n] rounds left. *)
Fixpoint punch_burst_from (peer_addr : socket_addr) (index n : nat) : eff net unit :=
  match n with
  | O => mret tt
  | S m =>
      _ ← send_message_to peer_addr RvPunch;
      _ ← (if Nat.ltb (index + 1) PUNCH_BURST_PACKETS then sleep PUNCH_BURST_INTERVAL else mret tt);
      punch_burst_from peer_addr (S index) m
  end.
Definition send_punch_burst (peer_addr : socket_addr) : eff net unit :=
  punch_burst_from peer_addr 0 PUNCH_BURST_PACKETS.

(** The receive loop of [resolve_peer]. *)
Fixpoint resolve_loop (relay_addr : socket_addr) (node_id : string) (n : nat)
    : eff net socket_addr :=
  match n with
  | O => throw (EMsg ("UDP rendezvous resolve timed out for node " +:+ node_id))
  | S m =>
      received ← attempt (recv_from 1500);
      match received with
      | Ok (payload, addr) =>
          if bool_decide (addr = relay_addr) then
            message ← lift (parse_message payload);
            match message with
            | RvPeer addr =>
                peer_addr ← lift (parse_peer_addr addr);
                _ ← send_punch_burst peer_addr;
                mret peer_addr
            | _ => resolve_loop relay_addr node_id m
            end
          else resolve_loop relay_addr node_id m
      | Err e => if is_retry_kind e then resolve_loop relay_addr node_id m else throw e
      end
  end.
Definition resolve_peer (relay_addr : socket_addr) (node_id token : string)
    : eff net socket_addr :=
  _ ← send_message_to relay_addr (RvClient node_id token);
  resolve_loop relay_addr node_id 5.

Definition handle_listener_message (payload : list byte) : eff net (option socket_addr) :=
  message ← lift (parse_message payload);
  match message with
  | RvPeer addr =>
      peer_addr ← lift (parse_peer_addr addr);
      _ ← send_punch_burst peer_addr;
      mret (Some peer_addr)
  | RvPunch | RvRegistered _ | RvNode _ _ | RvClient _ _ => mret None
  end.

End Rendezvous.

(** ** Lemmas *)

Section RendezvousFacts.
Context `{JsonOk udp_rendezvous_message}.

Lemma send_message_ok peer m p n :
  to_vec m = Ok p -> sends_ok n -> send_message_to peer m n = (Ok tt, sent_more [(peer, p)] 0 n).
Proof.
  intros Hp Hn. unfold send_message_to. rewrite Hp. unfold mbind, eff_bind, lift.
  by apply send_to_ok.
Qed.

Lemma punch_burst_ok peer p n :
  to_vec RvPunch = Ok p -> sends_ok n ->
  send_punch_burst peer n
  = (Ok tt, sent_more (replicate PUNCH_BURST_PACKETS (peer, p)) (4 * PUNCH_BURST_INTERVAL) n).
Proof.
  intros Hp Hn. unfold send_punch_burst. change PUNCH_BURST_PACKETS with 5%nat.
  cbn [punch_burst_from].
  rewrite (eff_bind_eq _ _ _ _ _ (send_message_ok _ _ _ _ Hp Hn)).
  repeat (cbn [Nat.ltb Nat.leb Nat.add PUNCH_BURST_PACKETS];
    first [ rewrite (eff_bind_eq _ _ _ _ _ (sleep_more _ _ _ _))
          | rewrite (eff_bind_eq _ _ _ _ _ (send_message_ok _ _ _ _ Hp (sends_ok_more _ _ _)));
            rewrite sent_more_more ]).
  done.
Qed.

Lemma send_message_recv peer m n r n' :
  send_message_to peer m n = (r, n') -> n_recv n' = n_recv n.
Proof.
  unfold send_message_to, mbind, eff_bind, lift.
  destruct (to_vec m); [apply send_to_recv|by intros [= <- <-]].
Qed.

Lemma punch_burst_recv peer n r n' : send_punch_burst peer n = (r, n') -> n_recv n' = n_recv n.
Proof.
  unfold send_punch_burst. generalize 0%nat, PUNCH_BURST_PACKETS at 1. intros index k.
  revert index n r n'; induction k as [|k IH]; intros index n r n'; simpl; [by intros [= <- <-]|].
  unfold mbind, eff_bind. destruct (send_message_to peer RvPunch n) as [[u|e] n1] eqn:E;
    apply send_message_recv in E; [|by intros [= <- <-]].
  destruct (Nat.ltb _ _); simpl; intros Hr; apply IH in Hr; simpl in Hr; congruence.
Qed.

(** A datagram that names a peer: from the relay, decoding to [RvPeer] with an
    address that parses. *)
Definition peer_event (relay_addr peer : socket_addr) (ev : recv_event) : Prop :=
  exists payload text,
    ev_result ev = Got payload relay_addr /\
    parse_message (take 1500 payload) = Ok (RvPeer text) /\ parse_sock text = Some peer.

Lemma resolve_loop_ok relay nid k n peer n' :
  resolve_loop relay nid k n = (Ok peer, n') ->
  exists i ev, (i < k)%nat /\ n_recv n !! i = Some ev /\ peer_event relay peer ev /\
               n_recv n' = drop (S i) (n_recv n).
Proof.
  revert n; induction k as [|k IH]; intros n; cbn [resolve_loop]; intros Hr; [done|].
  inv_eff. destruct n as [rcv snd sent nw to]; simpl in *.
  destruct rcv as [|ev rcv]; unfold recv_from in E; simpl in E.
  - injection E as <- <-. simpl in Hr. apply IH in Hr as (i & ev & ? & Hi & _). simpl in Hi. done.
  - assert (forall n1, n_recv n1 = rcv -> resolve_loop relay nid k n1 = (Ok peer, n') ->
      exists i ev0, (i < S k)%nat /\ (ev :: rcv) !! i = Some ev0 /\ peer_event relay peer ev0 /\
                    n_recv n' = drop (S i) (ev :: rcv)) as Hnext.
    { intros n1 Hn1 Hl. apply IH in Hl as (i & ev0 & ? & Hi & ? & Hd). rewrite Hn1 in *.
      exists (S i), ev0. split_and!; [lia|exact Hi|done|exact Hd]. }
    destruct (ev_result ev) as [payload addr|e] eqn:Ee; injection E as <- <-; simpl in Hr.
    + case_bool_decide as Ha; [subst addr|eapply Hnext; [|exact Hr]; reflexivity].
      inv_eff. destruct x; try (eapply Hnext; [|exact Hr]; reflexivity). inv_eff.
      match goal with Hp : send_punch_burst _ _ = _ |- _ =>
        apply punch_burst_recv in Hp; simpl in Hp end.
      match goal with Hp : parse_peer_addr _ = _ |- _ => apply ok_or_ok in Hp end.
      exists 0%nat, ev. split_and!; [lia|reflexivity|unfold peer_event; eauto 10|done].
    + destruct (is_retry_kind (EIo e)) eqn:Ek; simpl in Ek; rewrite ?Ek in Hr; [eapply Hnext; [|exact Hr]; reflexivity|done].
Qed.

(** The relay's answer ends the loop. *)
Lemma resolve_loop_answer relay nid m n dt payload rest text peer punch :
  n_recv n = RecvEvent dt (Got payload relay) :: rest -> sends_ok n ->
  parse_message (take 1500 payload) = Ok (RvPeer text) -> parse_sock text = Some peer ->
  to_vec RvPunch = Ok punch ->
  (resolve_loop relay nid (S m) n).1 = Ok peer.
Proof.
  intros Hrecv Hs Hmsg Hpeer Hpunch. cbn [resolve_loop]. generalize (resolve_loop relay nid m).
  intros next. unfold mbind, eff_bind at 1, attempt, recv_from. rewrite Hrecv.
  cbn [ev_result ev_elapsed]. rewrite bool_decide_eq_true_2 by done.
  unfold eff_bind at 1, lift. rewrite Hmsg. unfold eff_bind at 1, parse_peer_addr. rewrite Hpeer.
  cbn [ok_or]. unfold eff_bind. by rewrite (punch_burst_ok _ _ _ Hpunch).
Qed.
End RendezvousFacts.

(** ** Properties *)

(** A client takes its peer's address only from the relay it asked: from the first
    datagram, among at most five received, that comes from the relay's own address and
    decodes to a peer message; and it stops receiving there. *)
Theorem resolve_peer_trusts_only_the_relay `{JsonOk udp_rendezvous_message}
    (relay peer : socket_addr) (node_id token : string) (n n' : net) :
  resolve_peer relay node_id token n = (Ok peer, n') ->
  exists i ev, (i < 5)%nat /\ n_recv n !! i = Some ev /\ peer_event relay peer ev /\
               n_recv n' = drop (S i) (n_recv n).
Proof.
  unfold resolve_peer. intros Hr. inv_eff. apply send_message_recv in E.
  apply resolve_loop_ok in Hr. by rewrite E in Hr.
Qed.

(** For the witnesses: messages in stdpp's encoding. *)
#[export] Instance udp_rendezvous_message_countable : Countable udp_rendezvous_message.
Proof.
  refine (inj_countable'
    (fun m => match m with
              | RvNode a b => inl (a, b)
              | RvClient a b => inr (inl (a, b))
              | RvRegistered a => inr (inr (inl a))
              | RvPeer a => inr (inr (inr (Some a)))
              | RvPunch => inr (inr (inr None))
              end)
    (fun x => match x with
              | inl (a, b) => RvNode a b
              | inr (inl (a, b)) => RvClient a b
              | inr (inr (inl a)) => RvRegistered a
              | inr (inr (inr (Some a))) => RvPeer a
              | inr (inr (inr None)) => RvPunch
              end) _). by intros [].
Defined.
Definition toy_rv_json : Json udp_rendezvous_message := countable_json.
Lemma toy_rv_json_ok : @JsonOk udp_rendezvous_message toy_rv_json.
Proof. apply countable_json_ok. Qed.

Definition toy_relay : socket_addr := SockV4 (Ipv4 10 0 0 1) 7001.
Definition toy_peer : socket_addr := SockV4 (Ipv4 10 0 0 2) 17002.
(** A punch from a stranger, then the relay's answer. *)
Definition toy_resolve_net : net :=
  let msg m := match @to_vec _ toy_rv_json m with Ok p => p | Err _ => [] end in
  quiet [RecvEvent 5 (Got (msg RvPunch) toy_peer);
         RecvEvent 7 (Got (msg (RvPeer (show_sock toy_peer))) toy_relay)].

Lemma resolve_peer_trusts_only_the_relay_witness :
  exists i ev, (i < 5)%nat /\ n_recv toy_resolve_net !! i = Some ev /\
    @peer_event toy_rv_json toy_relay toy_peer ev /\
    n_recv (@resolve_peer toy_rv_json toy_relay "node-1" "t" toy_resolve_net).2
      = drop (S i) (n_recv toy_resolve_net).
Proof.
  exact (@resolve_peer_trusts_only_the_relay toy_rv_json toy_rv_json_ok toy_relay toy_peer
    "node-1" "t" toy_resolve_net _ ltac:(vm_compute; reflexivity)).
Defined.
