(* ===== verification/UdpPacket.v ===== *)
(** * UDP session packets

    [crates/overlay-transport/src/udp_session.rs]: the packet format ([encode_packet],
    [decode_packet]), the directions and the AEAD nonces. *)

From S2P Require Import Prelude RustStd NetAddr Protocol Net.

Definition MAGIC : list byte := [x4d; x44; x55; x31].
Definition HEADER_LEN : nat := 15.
Definition MAX_PACKET_LEN : nat := 1500.
Definition MAX_PAYLOAD_LEN : nat := 1100.
Definition RETRIES : nat := 5.
Definition HANDSHAKE_TIMEOUT : Z := millis 8000.
Definition HANDSHAKE_READ_TIMEOUT : Z := millis 150.
Definition ACK_BURST_PACKETS : nat := 5.
Definition ACK_BURST_INTERVAL : Z := millis 40.
Definition DUPLICATE_HANDSHAKE_WINDOW : Z := secs 30.
Definition MAX_RECENT_HANDSHAKES : nat := 256.

Inductive packet_kind := Hello | HelloAck | Data | Ack | Close.
#[global] Instance packet_kind_eq_dec : EqDecision packet_kind.
Proof. solve_decision. Defined.

(** [kind as u8]. *)
Definition kind_byte (k : packet_kind) : Z :=
  match k with Hello => 1 | HelloAck => 2 | Data => 3 | Ack => 4 | Close => 5 end.
Definition kind_from_byte (value : Z) : result packet_kind :=
  if value =? 1 then Ok Hello
  else if value =? 2 then Ok HelloAck
  else if value =? 3 then Ok Data
  else if value =? 4 then Ok Ack
  else if value =? 5 then Ok Close
  else Err (EMsg ("unknown UDP session packet kind " +:+ dec value)).
Definition kind_as_str (k : packet_kind) : string :=
  match k with
  | Hello => "hello" | HelloAck => "hello_ack" | Data => "data" | Ack => "ack" | Close => "close"
  end.

(** [seq] is a [u64]. *)
Record packet := Packet { pk_kind : packet_kind; pk_seq : Z; pk_payload : list byte }.
#[global] Instance packet_eq_dec : EqDecision packet.
Proof. solve_decision. Defined.

Definition u64_modulus : Z := 2 ^ 64.
Definition packet_ok (p : packet) : Prop := 0 <= pk_seq p < u64_modulus.

Definition encode_packet (p : packet) : result (list byte) :=
  _ ← bail_if (65535 <? Z.of_nat (length (pk_payload p))) (EMsg "UDP session packet is too large");
  Ok (MAGIC ++ [byte_of_Z (kind_byte (pk_kind p))] ++ to_be 8 (pk_seq p)
      ++ to_be 2 (Z.of_nat (length (pk_payload p))) ++ pk_payload p).

(** [bytes[from..to]]. *)
Definition slice (from to : nat) (bytes : list byte) : list byte := take (to - from) (drop from bytes).

Definition decode_packet (bytes : list byte) : result packet :=
  _ ← bail_if (Nat.ltb (length bytes) HEADER_LEN || negb (bool_decide (slice 0 4 bytes = MAGIC)))
        (EMsg "invalid UDP session packet");
  kind ← kind_from_byte (from_be (slice 4 5 bytes));
  let seq := from_be (slice 5 13 bytes) in
  let len := from_be (slice 13 15 bytes) in
  _ ← bail_if (negb (Z.of_nat (length bytes) =? Z.of_nat HEADER_LEN + len))
        (EMsg "truncated UDP session packet");
  Ok {| pk_kind := kind; pk_seq := seq; pk_payload := drop HEADER_LEN bytes |}.

Definition send_packet_to (peer_addr : socket_addr) (p : packet) : eff net unit :=
  encoded ← lift (encode_packet p);
  send_to peer_addr encoded.

(** ** Directions and nonces *)

Inductive direction := ClientToNode | NodeToClient.
#[global] Instance direction_eq_dec : EqDecision direction.
Proof. solve_decision. Defined.
Definition direction_byte (d : direction) : Z :=
  match d with ClientToNode => 0 | NodeToClient => 1 end.
Definition direction_peer (d : direction) : direction :=
  match d with ClientToNode => NodeToClient | NodeToClient => ClientToNode end.

Definition nonce_bytes (d : direction) (seq : Z) : list byte :=
  byte_of_Z (direction_byte d) :: replicate 3 x00 ++ to_be 8 seq.

(** ** Lemmas *)

Lemma kind_from_to k : kind_from_byte (kind_byte k) = Ok k.
Proof. by destruct k. Qed.
Lemma kind_from_byte_ok v k : kind_from_byte v = Ok k -> v = kind_byte k.
Proof.
  unfold kind_from_byte. intros H.
  repeat (match type of H with (if ?b then _ else _) = _ => destruct b eqn:E end;
          [injection H as <-; by apply Z.eqb_eq in E|clear E]). done.
Qed.
Lemma kind_byte_range k : 1 <= kind_byte k <= 5.
Proof. destruct k; simpl; lia. Qed.

(** The four header fields and the payload of a byte string. *)
Lemma slice_split bs :
  (HEADER_LEN <= length bs)%nat ->
  bs = slice 0 4 bs ++ slice 4 5 bs ++ slice 5 13 bs ++ slice 13 15 bs ++ drop HEADER_LEN bs.
Proof.
  intros Hlen. unfold slice, HEADER_LEN in *.
  assert (forall a d, drop d bs = take a (drop d bs) ++ drop (d + a) bs) as Hs.
  { intros a d. rewrite <- drop_drop. by rewrite take_drop. }
  assert (drop 4 bs = take 1 (drop 4 bs) ++ drop 5 bs) as H4 by exact (Hs 1%nat 4%nat).
  assert (drop 5 bs = take 8 (drop 5 bs) ++ drop 13 bs) as H5 by exact (Hs 8%nat 5%nat).
  assert (drop 13 bs = take 2 (drop 13 bs) ++ drop 15 bs) as H13 by exact (Hs 2%nat 13%nat).
  change (bs = take 4 bs ++ take 1 (drop 4 bs) ++ take 8 (drop 5 bs) ++ take 2 (drop 13 bs)
               ++ drop 15 bs).
  by rewrite <- H13, <- H5, <- H4, take_drop.
Qed.
Lemma length_slice from to bs :
  (to <= length bs)%nat -> length (slice from to bs) = (to - from)%nat.
Proof. intros H. unfold slice. rewrite length_take, length_drop. lia. Qed.

Lemma encode_ok p bs :
  encode_packet p = Ok bs <->
  Z.of_nat (length (pk_payload p)) <= 65535 /\
  bs = MAGIC ++ [byte_of_Z (kind_byte (pk_kind p))] ++ to_be 8 (pk_seq p)
       ++ to_be 2 (Z.of_nat (length (pk_payload p))) ++ pk_payload p.
Proof.
  unfold encode_packet. rewrite bind_ok. split.
  - intros ([] & Hb & [= <-]). apply bail_if_ok in Hb. split; [lia|done].
  - intros [Hl ->]. exists tt. split; [|done]. apply bail_if_ok. lia.
Qed.

Lemma from_be_one b : from_be [b] = u8 b.
Proof. done. Qed.

Lemma nonce_bytes_inj d1 s1 d2 s2 :
  0 <= s1 < u64_modulus -> 0 <= s2 < u64_modulus ->
  nonce_bytes d1 s1 = nonce_bytes d2 s2 -> d1 = d2 /\ s1 = s2.
Proof.
  intros H1 H2 Hn. unfold nonce_bytes in Hn. injection Hn as Hd Hs.
  split.
  - apply (f_equal u8) in Hd. rewrite !u8_byte_of_Z in Hd. by destruct d1, d2.
  - rewrite <- (from_to_be 8 s1), <- (from_to_be 8 s2) by done. unfold to_be. simpl. congruence.
Qed.
Lemma length_nonce d s : length (nonce_bytes d s) = 12%nat.
Proof. unfold nonce_bytes. simpl. done. Qed.

Lemma decode_encode p bs : packet_ok p -> encode_packet p = Ok bs -> decode_packet bs = Ok p.
Proof.
  intros Hok [Hl ->]%encode_ok. destruct p as [k seq pl]; unfold packet_ok in Hok; simpl in *.
  match goal with |- decode_packet ?b = _ => set (bs := b) end.
  unfold decode_packet.
  assert (length bs = (15 + length pl)%nat) as Hlen
    by (subst bs; simpl; rewrite ?length_app; simpl; lia).
  rewrite Hlen.
  change (slice 0 4 bs) with MAGIC. change (slice 4 5 bs) with [byte_of_Z (kind_byte k)].
  change (slice 5 13 bs) with (to_be 8 seq).
  change (slice 13 15 bs) with (to_be 2 (Z.of_nat (length pl))).
  change (drop HEADER_LEN bs) with pl.
  pose proof (kind_byte_range k).
  rewrite from_be_one, u8_byte_of_Z, Z.mod_small by lia.
  rewrite !from_to_be by (change (256 ^ Z.of_nat 8) with u64_modulus || change (256 ^ Z.of_nat 2) with 65536; lia).
  rewrite kind_from_to. rewrite bool_decide_eq_true_2 by done.
  cbn [negb orb bail_if mbind result_bind Nat.ltb Nat.leb Nat.add HEADER_LEN]. rewrite (proj2 (Z.eqb_eq _ _)) by (unfold HEADER_LEN; lia). done.
Qed.

Lemma decode_ok_inv bs p :
  decode_packet bs = Ok p -> packet_ok p /\ encode_packet p = Ok bs.
Proof.
  unfold decode_packet. intros Hd. inv_result.
  apply orb_false_iff in E as [Hlen Hm].
  apply negb_false_iff, bool_decide_eq_true in Hm. apply Nat.ltb_ge in Hlen.
  apply negb_false_iff, Z.eqb_eq in E1. apply kind_from_byte_ok in E0.
  assert (15 <= length bs)%nat as Hl15 by done.
  pose proof (from_be_bound (slice 5 13 bs)) as Hb8.
  pose proof (from_be_bound (slice 13 15 bs)) as Hb2.
  rewrite length_slice in Hb8, Hb2 by lia.
  assert (Z.of_nat (length (drop HEADER_LEN bs)) = from_be (slice 13 15 bs)) as Hdl
    by (rewrite length_drop; unfold HEADER_LEN in *; lia).
  split; [exact Hb8|]. apply encode_ok; cbn [pk_payload pk_kind pk_seq]. split.
  { rewrite Hdl. change (256 ^ Z.of_nat (15 - 13)) with 65536 in Hb2. lia. }
  rewrite Hdl. rewrite (slice_split bs) at 1 by done. rewrite Hm. f_equal. f_equal.
  { rewrite <- E0. pose proof (length_slice 4 5 bs ltac:(lia)) as H1.
    destruct (slice 4 5 bs) as [|b [|]]; try done. by rewrite from_be_one, byte_of_u8. }
  f_equal; [|f_equal].
  - symmetry. apply to_from_be_len, length_slice. lia.
  - symmetry. apply to_from_be_len, length_slice. lia.
Qed.

(** ** Properties *)

(** C37. A decoded datagram re-encodes to itself and an encoded packet decodes to itself:
    every packet with a 64-bit sequence number has exactly one encoding, and only
    encodings are accepted. *)
Theorem packet_codec_inverse (p : packet) (bs : list byte) :
  decode_packet bs = Ok p <-> packet_ok p /\ encode_packet p = Ok bs.
Proof.
  split; [apply decode_ok_inv|]. intros [Hp He]. by apply decode_encode.
Qed.

(** No two packets of one session share a nonce, as long as their sequence numbers
    differ below 2^64 or their directions differ. *)
Theorem nonces_are_distinct (d1 d2 : direction) (s1 s2 : Z) :
  0 <= s1 < u64_modulus -> 0 <= s2 < u64_modulus -> (d1, s1) <> (d2, s2) ->
  nonce_bytes d1 s1 <> nonce_bytes d2 s2.
Proof. intros H1 H2 Hne He. apply nonce_bytes_inj in He as [-> ->]; done. Qed.

Lemma nonces_are_distinct_witness : nonce_bytes ClientToNode 7 <> nonce_bytes NodeToClient 7.
Proof. apply nonces_are_distinct; unfold u64_modulus; [lia|lia|discriminate]. Defined.
