(* ===== verification/UdpSession.v ===== *)
(** * The reliable stream over UDP

    [crates/overlay-transport/src/udp_session.rs]: [UdpSessionStream].  A stream is
    stop-and-wait: [write] encrypts one chunk under the nonce of its sequence number,
    sends it up to five times and waits for its ACK; [read] delivers the chunks in
    order, each once, keeping the ones that arrive early.

    [stream] holds what does not change (the peer, the key, the direction, whether the
    packets come from a listener's inbox); [world] what does: the socket, the inbox
    with the packets the listener will push while the stream waits, and the state the
    clones of a stream share.  ChaCha20-Poly1305 is another crate's: [Aead], with its
    inverse law in [AeadOk]. *)

From S2P Require Import Prelude RustStd NetAddr Protocol PinnedHttp Net Rendezvous UdpPacket.

Class Aead := {
  aead_encrypt (key nonce plaintext : list byte) : option (list byte);
  aead_decrypt (key nonce ciphertext : list byte) : option (list byte)
}.
Class AeadOk `{!Aead} := {
  aead_roundtrip key nonce p c :
    aead_encrypt key nonce p = Some c -> aead_decrypt key nonce c = Some p
}.

(** ** State *)

Record session_state := SessionState {
  send_seq : Z;
  recv_seq : Z;
  pending_read : list byte;
  pending_packets : gmap Z (list byte)
}.
Definition initial_state : session_state := SessionState 0 0 [] ∅.

(** One return of the condition variable's [wait_timeout]: the packets pushed
    meanwhile, whether it timed out, the time it took. *)
Record wakeup := Wakeup { wk_packets : list packet; wk_timed_out : bool; wk_elapsed : Z }.

Record world := World {
  w_net : net;
  w_inbox : list packet;
  w_waits : list wakeup;
  w_state : session_state
}.

Record stream := Stream {
  st_peer_addr : socket_addr;
  st_key : list byte;
  st_has_inbox : bool;
  st_direction : direction
}.

Definition set_net (n : net) (w : world) : world := World n (w_inbox w) (w_waits w) (w_state w).
Definition set_inbox (q : list packet) (w : world) : world :=
  World (w_net w) q (w_waits w) (w_state w).
Definition set_waits (ws : list wakeup) (w : world) : world :=
  World (w_net w) (w_inbox w) ws (w_state w).
Definition set_state (s : session_state) (w : world) : world :=
  World (w_net w) (w_inbox w) (w_waits w) s.
Definition on_net {A} : eff net A -> eff world A := zoom w_net set_net.

(** [std::io::Error::other]: the error's kind is all an [io::Error] keeps. *)
Definition io_other {S A} (m : eff S A) : eff S A := fun s =>
  match m s with
  | (Err _, s') => (Err (EIo OtherIo), s')
  | r => r
  end.

(** ** The inbox *)

(** [PacketInbox::new] and [push]. *)
Definition inbox_new : list packet := [].
Definition inbox_push (p : packet) (inbox : list packet) : list packet := inbox ++ [p].

(** [packets.iter().position(&predicate)] and [packets.remove(index)]. *)
Fixpoint take_matching (predicate : packet -> bool) (q : list packet)
    : option (packet * list packet) :=
  match q with
  | [] => None
  | p :: rest =>
      if predicate p then Some (p, rest)
      else match take_matching predicate rest with
           | Some (found, rest') => Some (found, p :: rest')
           | None => None
           end
  end.

(** The loop of [recv_matching], over the returns of the condition variable.  With
    none left the wait lasts until the deadline. *)
Fixpoint recv_matching_loop (deadline : Z) (predicate : packet -> bool) (waits : list wakeup)
    : eff world packet := fun w =>
  match take_matching predicate (w_inbox w) with
  | Some (p, rest) => (Ok p, set_inbox rest (set_waits waits w))
  | None =>
      if deadline <=? n_now (w_net w) then (Err (EIo TimedOut), set_waits waits w)
      else
        match waits with
        | [] =>
            (Err (EIo TimedOut),
             set_waits [] (set_net ((sleep (deadline - n_now (w_net w)) (w_net w)).2) w))
        | wk :: rest =>
            let w' := set_inbox (w_inbox w ++ wk_packets wk)
                        (set_net ((sleep (wk_elapsed wk) (w_net w)).2) w) in
            if wk_timed_out wk && negb (existsb predicate (w_inbox w'))
            then (Err (EIo TimedOut), set_waits rest w')
            else recv_matching_loop deadline predicate rest w'
        end
  end.
Definition recv_matching (timeout : Z) (predicate : packet -> bool) : eff world packet := fun w =>
  recv_matching_loop (n_now (w_net w) + timeout) predicate (w_waits w) w.

(** [try_clone]: the clones share the socket, the inbox and the state. *)
Definition try_clone (cloned : result unit) (self : stream) : result stream := _ ← cloned; Ok self.
(** [set_poll_timeout]. *)
Definition stream_set_poll_timeout (timeout : Z) : eff world unit := on_net (set_read_timeout timeout).

(** What a receiving loop can still consume: the arrivals of the script.  The loops of the code
    go on for as long as packets arrive; each of their rounds takes one of these, so with more
    rounds than arrivals a loop of the model is the code's on that script, and
    [operations_last_while_packets_arrive] says how long that is. *)
Definition budget (w : world) : nat :=
  length (n_recv (w_net w)) + length (w_inbox w)
  + list_sum (map (fun wk => S (length (wk_packets wk))) (w_waits w)).

(** ** The stream *)

Section Stream.
Context `{Aead} (self : stream).

Definition send_ack (seq : Z) : eff world unit :=
  io_other (on_net (send_packet_to (st_peer_addr self) (Packet Ack seq []))).

(** The socket branch of [recv_session_packet]: a packet the predicate refuses, or one of
    another address, is dropped.  Rust's loop has no bound and no deadline of its own: it ends
    when a packet is taken or a receive fails. *)
Fixpoint recv_socket_loop (fuel : nat) (predicate : packet -> bool) : eff world packet :=
  match fuel with
  | O => throw out_of_fuel
  | S f =>
      '(payload, addr) ← on_net (recv_from MAX_PACKET_LEN);
      if bool_decide (addr = st_peer_addr self) then
        p ← io_other (lift (decode_packet payload));
        if predicate p then mret p else recv_socket_loop f predicate
      else recv_socket_loop f predicate
  end.

(** [UdpSessionStream::timeout]: a read timeout is always set. *)
Definition stream_timeout : eff world Z := gets (fun w => n_read_timeout (w_net w)).

Definition recv_session_packet (predicate : packet -> bool) : eff world packet :=
  if st_has_inbox self then
    timeout ← stream_timeout;
    recv_matching timeout predicate
  else fun w => recv_socket_loop (S (length (n_recv (w_net w)))) predicate w.

(** Moves the packets that follow [recv_seq] to [pending_read]; the fuel is the number
    of packets kept. *)
Fixpoint release_pending (fuel : nat) (s : session_state) : session_state :=
  match fuel with
  | O => s
  | S f =>
      match pending_packets s !! recv_seq s with
      | None => s
      | Some next_payload =>
          release_pending f
            (SessionState (send_seq s) ((recv_seq s + 1) mod u64_modulus)
               (pending_read s ++ next_payload) (delete (recv_seq s) (pending_packets s)))
      end
  end.

(** The state after the plaintext of the data packet [seq]. *)
Definition accept_data (seq : Z) (plaintext : list byte) (s : session_state) : session_state :=
  if seq <? recv_seq s then s
  else if recv_seq s <? seq then
    match pending_packets s !! seq with
    | Some _ => s
    | None => SessionState (send_seq s) (recv_seq s) (pending_read s)
                (<[seq := plaintext]> (pending_packets s))
    end
  else
    release_pending (size (pending_packets s))
      (SessionState (send_seq s) ((recv_seq s + 1) mod u64_modulus)
         (pending_read s ++ plaintext) (pending_packets s)).

Definition handle_data_packet (p : packet) : eff world unit :=
  match aead_decrypt (st_key self) (nonce_bytes (direction_peer (st_direction self)) (pk_seq p))
          (pk_payload p) with
  | None => throw (EIo OtherIo)
  | Some plaintext =>
      _ ← modify (fun w => set_state (accept_data (pk_seq p) plaintext (w_state w)) w);
      send_ack (pk_seq p)
  end.

Definition ack_data_or_close (p : packet) : bool :=
  match pk_kind p with Ack | Data | Close => true | Hello | HelloAck => false end.
Definition data_or_close (p : packet) : bool :=
  match pk_kind p with Data | Close => true | Ack | Hello | HelloAck => false end.

(** [wait_for_ack]: each packet that is not the acknowledgement starts a new wait, without a
    deadline over all of them. *)
Fixpoint wait_for_ack_loop (fuel : nat) (seq : Z) : eff world unit :=
  match fuel with
  | O => throw out_of_fuel
  | S f =>
      p ← recv_session_packet ack_data_or_close;
      match pk_kind p with
      | Ack => if pk_seq p =? seq then mret tt else wait_for_ack_loop f seq
      | Data => _ ← handle_data_packet p; wait_for_ack_loop f seq
      | Close => throw (EIo UnexpectedEof)
      | Hello | HelloAck => wait_for_ack_loop f seq
      end
  end.
Definition wait_for_ack (seq : Z) : eff world unit := fun w =>
  wait_for_ack_loop (S (budget w)) seq w.

(** [drain_pending] into a buffer of [len] bytes: the bytes copied out. *)
Definition drain_pending (len : nat) : eff world (list byte) := fun w =>
  let s := w_state w in
  (Ok (take len (pending_read s)),
   set_state (SessionState (send_seq s) (recv_seq s) (drop len (pending_read s))
                (pending_packets s)) w).

Fixpoint read_loop (fuel : nat) (len : nat) : eff world (list byte) :=
  match fuel with
  | O => throw out_of_fuel
  | S f =>
      p ← recv_session_packet data_or_close;
      match pk_kind p with
      | Data =>
          _ ← handle_data_packet p;
          pending ← gets (fun w => pending_read (w_state w));
          match pending with
          | [] => read_loop f len
          | _ => drain_pending len
          end
      | Close => mret []
      | Ack | Hello | HelloAck => read_loop f len
      end
  end.

(** [Read::read] into a buffer of [len] bytes: the bytes read. *)
Definition read (len : nat) : eff world (list byte) := fun w =>
  match pending_read (w_state w) with
  | [] => read_loop (S (budget w)) len w
  | _ => drain_pending len w
  end.

Definition next_send_seq : eff world unit :=
  modify (fun w =>
    let s := w_state w in
    set_state (SessionState ((send_seq s + 1) mod u64_modulus) (recv_seq s) (pending_read s)
                 (pending_packets s)) w).

(** The retry loop of [write], [n] attempts left. *)
Fixpoint write_loop (n : nat) (last_error : option error) (p : packet) (len : nat)
    : eff world nat :=
  match n with
  | O => throw (default (EIo TimedOut) last_error)
  | S m =>
      _ ← io_other (on_net (send_packet_to (st_peer_addr self) p));
      acked ← attempt (wait_for_ack (pk_seq p));
      match acked with
      | Ok _ => _ ← next_send_seq; mret len
      | Err e => if is_retry_kind e then write_loop m (Some e) p len else throw e
      end
  end.

(** [Write::write]: the number of bytes taken. *)
Definition write (bytes : list byte) : eff world nat :=
  let chunk := take MAX_PAYLOAD_LEN bytes in
  seq ← gets (fun w => send_seq (w_state w));
  match aead_encrypt (st_key self) (nonce_bytes (st_direction self) seq) chunk with
  | None => throw (EIo OtherIo)
  | Some ciphertext => write_loop RETRIES None (Packet Data seq ciphertext) (length chunk)
  end.
End Stream.

(** ** Lemmas: what receiving and sending leave alone *)

(** The listener pushes packets it has decoded. *)
Definition inbox_ok (w : world) : Prop :=
  Forall packet_ok (w_inbox w) /\ Forall (fun wk => Forall packet_ok (wk_packets wk)) (w_waits w).
Definition state_ok (P : session_state -> Prop) (w : world) : Prop := P (w_state w) /\ inbox_ok w.

Lemma take_matching_ok predicate q p rest :
  take_matching predicate q = Some (p, rest) ->
  exists before after, q = before ++ p :: after /\ rest = before ++ after /\
    Forall (fun x => predicate x = false) before /\ predicate p = true.
Proof.
  revert p rest; induction q as [|x q IH]; intros p rest; simpl; [done|].
  destruct (predicate x) eqn:E; [intros [= <- <-]; exists [], q; eauto|].
  destruct (take_matching predicate q) as [[found rest']|]; [|done].
  intros [= <- <-]. destruct (IH _ _ eq_refl) as (b & a & -> & -> & Hb & Hp).
  exists (x :: b), a. split_and!; eauto.
Qed.
Lemma take_matching_forall P predicate q p rest :
  take_matching predicate q = Some (p, rest) -> Forall P q -> P p /\ Forall P rest.
Proof.
  intros (b & a & -> & -> & _)%take_matching_ok [Hb Ha]%Forall_app.
  inversion Ha; subst. split; [done|by apply Forall_app].
Qed.

Section StreamFacts.
Context `{Aead} (self : stream).
Implicit Types w : world.

Lemma preserves_state_on_net {A} P (m : eff net A) : preserves (state_ok P) (on_net m).
Proof. apply preserves_zoom. done. Qed.

Lemma preserves_io_other {S A} (P : S -> Prop) (m : eff S A) :
  preserves P m -> preserves P (io_other m).
Proof.
  intros Hm s r s' Hs. unfold io_other. destruct (m s) as [[a|e] s1] eqn:E; intros [= <- <-]; eauto.
Qed.

Lemma recv_matching_state P timeout pred w r w' :
  state_ok P w -> recv_matching timeout pred w = (r, w') ->
  state_ok P w' /\ (forall p, r = Ok p -> packet_ok p).
Proof.
  unfold recv_matching. generalize (n_now (w_net w) + timeout) as d.
  intros d [HP [Hq Hws]]. revert Hws. generalize (w_waits w) as waits.
  intros waits. revert w HP Hq.
  induction waits as [|wk waits IH]; intros w HP Hq Hws; simpl;
    (destruct (take_matching pred (w_inbox w)) as [[p rest]|] eqn:E;
     [destruct (take_matching_forall packet_ok _ _ _ _ E Hq);
      intros [= <- <-]; split; [by repeat split|by intros p' [= <-]]|]);
    (destruct (_ <=? _); [intros [= <- <-]; by repeat split|]).
  - intros [= <- <-]; by repeat split.
  - inversion Hws; subst.
    assert (Forall packet_ok (w_inbox w ++ wk_packets wk)) by (by apply Forall_app).
    destruct (wk_timed_out wk && _); [intros [= <- <-]; by repeat split|].
    apply IH; done.
Qed.

Lemma recv_socket_ok P fuel pred : returns P (recv_socket_loop self fuel pred) packet_ok.
Proof.
  intros w p w' Hw. clear Hw. revert w. induction fuel as [|fuel IH]; intros w; cbn [recv_socket_loop]; [done|].
  intros Hr. inv_eff. destruct x as [payload addr]. case_bool_decide; [|by eapply IH].
  inv_eff. destruct (pred x); [|by eapply IH]. inv_eff.
  unfold io_other, lift in E0. destruct (decode_packet payload) eqn:Ed; [|done].
  injection E0 as -> <-. by apply decode_ok_inv in Ed as [? _].
Qed.

Lemma preserves_state_recv_socket P fuel pred :
  preserves (state_ok P) (recv_socket_loop self fuel pred).
Proof.
  induction fuel as [|fuel IH]; cbn [recv_socket_loop]; [apply preserves_throw|].
  apply preserves_bind; [apply preserves_state_on_net|]. intros [payload addr].
  case_bool_decide; [|done].
  apply preserves_bind; [apply preserves_io_other, preserves_lift|].
  intros p. destruct (pred p); [apply preserves_ret|done].
Qed.

Lemma preserves_state_recv P pred : preserves (state_ok P) (recv_session_packet self pred).
Proof.
  unfold recv_session_packet. destruct (st_has_inbox self).
  - apply preserves_bind; [apply preserves_gets|]. intros t w r w' Hw Hr.
    by apply (recv_matching_state P) in Hr as [? _].
  - intros w r w' Hw. by apply preserves_state_recv_socket.
Qed.
Lemma recv_packet_ok P pred : returns (state_ok P) (recv_session_packet self pred) packet_ok.
Proof.
  unfold recv_session_packet. destruct (st_has_inbox self).
  - apply returns_bind; [apply preserves_gets|]. intros t w p w' Hw Hr.
    apply (recv_matching_state P) in Hr as [_ Hr]; auto.
  - intros w p w' Hw. by apply (recv_socket_ok (state_ok P)).
Qed.

Lemma preserves_state_send_ack P seq : preserves (state_ok P) (send_ack self seq).
Proof. apply preserves_io_other, preserves_state_on_net. Qed.

(** An invariant of the session state that accepting a decrypted packet keeps is an
    invariant of waiting, reading and writing. *)
Definition keeps_accept (P : session_state -> Prop) : Prop :=
  forall seq c plaintext s,
    0 <= seq < u64_modulus ->
    aead_decrypt (st_key self) (nonce_bytes (direction_peer (st_direction self)) seq) c
      = Some plaintext ->
    P s -> P (accept_data seq plaintext s).

Lemma preserves_handle_data P p :
  keeps_accept P -> packet_ok p -> preserves (state_ok P) (handle_data_packet self p).
Proof.
  intros Hacc Hp. unfold handle_data_packet. destruct (aead_decrypt _ _ _) as [pt|] eqn:E.
  - apply preserves_bind; [|intros; apply preserves_state_send_ack].
    apply preserves_modify. intros w [Hw Hi]. split; [|done]. simpl. by eapply Hacc.
  - apply preserves_throw.
Qed.

Lemma preserves_wait_loop P fuel seq :
  keeps_accept P -> preserves (state_ok P) (wait_for_ack_loop self fuel seq).
Proof.
  intros Hacc. induction fuel as [|fuel IH]; cbn [wait_for_ack_loop]; [apply preserves_throw|].
  eapply preserves_bind_post; [apply preserves_state_recv|apply recv_packet_ok|]. intros p Hp.
  destruct (pk_kind p); try done; [|destruct (_ =? _); [apply preserves_ret|done]|apply preserves_throw].
  apply preserves_bind; [by apply preserves_handle_data|done].
Qed.

Lemma preserves_wait P seq : keeps_accept P -> preserves (state_ok P) (wait_for_ack self seq).
Proof. intros Hacc w r w' Hw. by apply preserves_wait_loop. Qed.

Definition keeps_send (P : session_state -> Prop) : Prop :=
  forall s, P s -> P (SessionState ((send_seq s + 1) mod u64_modulus) (recv_seq s)
                        (pending_read s) (pending_packets s)).

Lemma preserves_write_loop P n last p len :
  keeps_accept P -> keeps_send P -> preserves (state_ok P) (write_loop self n last p len).
Proof.
  intros Hacc Hsend. revert last. induction n as [|n IH]; intros last; cbn [write_loop];
    [apply preserves_throw|].
  apply preserves_bind; [apply preserves_io_other, preserves_state_on_net|]. intros _.
  apply preserves_bind; [by apply preserves_attempt, preserves_wait|]. intros [[]|e].
  - apply preserves_bind; [|intros; apply preserves_ret].
    apply preserves_modify. intros w [Hw Hi]. split; [by apply Hsend|done].
  - destruct (is_retry_kind e); [done|apply preserves_throw].
Qed.

Lemma preserves_write P bytes :
  keeps_accept P -> keeps_send P -> preserves (state_ok P) (write self bytes).
Proof.
  intros Hacc Hsend. unfold write. apply preserves_bind; [apply preserves_gets|]. intros seq.
  destruct (aead_encrypt _ _ _); [by apply preserves_write_loop|apply preserves_throw].
Qed.

(** Reading: an invariant that also follows the bytes handed out. *)
Definition keeps_drain (I : list byte -> session_state -> Prop) : Prop :=
  forall d len s, I d s ->
    I (d ++ take len (pending_read s))
      (SessionState (send_seq s) (recv_seq s) (drop len (pending_read s)) (pending_packets s)).

Lemma drain_pending_state I d len w r w' :
  keeps_drain I -> state_ok (I d) w -> drain_pending len w = (r, w') ->
  exists bs, r = Ok bs /\ state_ok (I (d ++ bs)) w'.
Proof.
  intros Hd [HI Hi] [= <- <-]. eexists. split; [done|]. split; [by apply Hd|done].
Qed.

Lemma read_loop_state I d fuel len w r w' :
  (forall d, keeps_accept (I d)) -> keeps_drain I ->
  state_ok (I d) w -> read_loop self fuel len w = (r, w') ->
  state_ok (I (d ++ default [] (result_ok r))) w'.
Proof.
  intros Hacc Hd. revert w. induction fuel as [|fuel IH]; intros w Hw; cbn [read_loop].
  { intros [= <- <-]. simpl. by rewrite app_nil_r. }
  unfold mbind, eff_bind at 1.
  destruct (recv_session_packet self data_or_close w) as [[p|e] w1] eqn:Er.
  2: { intros [= <- <-]. simpl. rewrite app_nil_r. by eapply preserves_state_recv. }
  assert (packet_ok p) as Hp by (by eapply recv_packet_ok in Er).
  apply (preserves_state_recv (I d)) in Er; [|done].
  destruct (pk_kind p); try by apply IH.
  - unfold eff_bind at 1. destruct (handle_data_packet self p w1) as [[[]|e] w2] eqn:Eh;
      apply (preserves_handle_data (I d)) in Eh; try done.
    2: { intros [= <- <-]. simpl. by rewrite app_nil_r. }
    unfold eff_bind, gets. destruct (pending_read (w_state w2)); [by apply IH|].
    intros Hr. by apply (drain_pending_state I d) in Hr as (bs & -> & ?).
  - intros [= <- <-]. simpl. by rewrite app_nil_r.
Qed.

Lemma read_state I d len w r w' :
  (forall d, keeps_accept (I d)) -> keeps_drain I ->
  state_ok (I d) w -> read self len w = (r, w') ->
  state_ok (I (d ++ default [] (result_ok r))) w'.
Proof.
  intros Hacc Hd Hw. unfold read. destruct (pending_read (w_state w)) eqn:E.
  - by apply read_loop_state.
  - intros Hr. by apply (drain_pending_state I d) in Hr as (bs & -> & ?).
Qed.
End StreamFacts.

(** ** Reassembly

    The abstract receiver: the peer's chunks, the set of sequence numbers received so
    far, the bytes already handed to the reader. *)

Record reassembled (chunks : list (list byte)) (received : gset Z) (drained : list byte)
    (s : session_state) : Prop := {
  re_bounds : 0 <= recv_seq s <= Z.of_nat (length chunks);
  re_below i : 0 <= i < recv_seq s -> i ∈ received;
  re_missing : recv_seq s ∉ received;
  re_delivered : drained ++ pending_read s = concat (take (Z.to_nat (recv_seq s)) chunks);
  re_kept i : pending_packets s !! i =
    if decide (recv_seq s < i /\ i ∈ received) then chunks !! Z.to_nat i else None
}.

(** The same while packets are being released: [recv_seq] itself may be kept. *)
Record releasing (chunks : list (list byte)) (received : gset Z) (drained : list byte)
    (s : session_state) : Prop := {
  rl_bounds : 0 <= recv_seq s <= Z.of_nat (length chunks);
  rl_below i : 0 <= i < recv_seq s -> i ∈ received;
  rl_delivered : drained ++ pending_read s = concat (take (Z.to_nat (recv_seq s)) chunks);
  rl_kept i : pending_packets s !! i =
    if decide (recv_seq s <= i /\ i ∈ received) then chunks !! Z.to_nat i else None
}.

Section Reassembly.
Context (chunks : list (list byte)) (Hsmall : Z.of_nat (length chunks) < u64_modulus).

Lemma concat_take_succ n (c : list byte) :
  0 <= n -> chunks !! Z.to_nat n = Some c ->
  concat (take (Z.to_nat ((n + 1) mod u64_modulus)) chunks) = concat (take (Z.to_nat n) chunks) ++ c
  /\ (n + 1) mod u64_modulus = n + 1 /\ n + 1 <= Z.of_nat (length chunks).
Proof.
  intros Hn Hc. assert (Z.to_nat n < length chunks)%nat as Hlt by (by eapply lookup_lt_Some).
  rewrite Z.mod_small by lia. replace (Z.to_nat (n + 1)) with (S (Z.to_nat n)) by lia.
  rewrite (take_S_r _ _ c) by done. rewrite concat_app. simpl. rewrite app_nil_r.
  split_and!; [done|done|lia].
Qed.

Lemma releasing_done received drained s :
  releasing chunks received drained s -> pending_packets s !! recv_seq s = None ->
  (forall i, i ∈ received -> 0 <= i < Z.of_nat (length chunks)) ->
  reassembled chunks received drained s.
Proof.
  intros [Hb Hbe Hd Hk] Hnone Hr. assert (recv_seq s ∉ received) as Hmiss.
  { intros Hin. rewrite Hk, decide_True in Hnone by (split; [lia|done]).
    apply lookup_ge_None in Hnone. specialize (Hr _ Hin). lia. }
  constructor; try done.
  intros i. rewrite Hk. destruct (decide (i = recv_seq s)) as [->|Hne].
  - by rewrite decide_False, decide_False by tauto.
  - destruct (decide (recv_seq s <= i /\ i ∈ received)).
    + by rewrite decide_True by (split; [lia|tauto]).
    + rewrite decide_False; [done|]. intros []. assert (recv_seq s <= i /\ i ∈ received) by (split; [lia|done]).
      tauto.
Qed.

Lemma release_pending_ok fuel received drained s :
  (size (pending_packets s) <= fuel)%nat -> releasing chunks received drained s ->
  (forall i, i ∈ received -> 0 <= i < Z.of_nat (length chunks)) ->
  reassembled chunks received drained (release_pending fuel s).
Proof.
  intros Hf Hrel Hr. revert s Hf Hrel; induction fuel as [|fuel IH]; intros s Hf Hrel;
    cbn [release_pending].
  - apply releasing_done; [done| |done].
    assert (pending_packets s = ∅) as -> by (apply map_size_empty_inv; lia). apply lookup_empty.
  - destruct (pending_packets s !! recv_seq s) as [c|] eqn:E; [|by apply releasing_done].
    destruct Hrel as [Hb Hbe Hd Hk].
    assert (recv_seq s ∈ received /\ chunks !! Z.to_nat (recv_seq s) = Some c) as [Hin Hc].
    { rewrite Hk in E. case_decide; [|done]. tauto. }
    destruct (concat_take_succ (recv_seq s) c) as (Hcat & Hmod & Hle); [lia|done|].
    apply IH; cbn [pending_packets].
    + rewrite map_size_delete, E. simpl. lia.
    + constructor; cbn [recv_seq pending_read pending_packets]; rewrite ?Hmod in *.
      * lia.
      * intros i Hi. destruct (decide (i = recv_seq s)) as [->|]; [done|]. apply Hbe. lia.
      * by rewrite Hcat, app_assoc, Hd.
      * intros i. destruct (decide (i = recv_seq s)) as [->|Hne].
        -- rewrite lookup_delete_eq, decide_False; [done|lia].
        -- rewrite lookup_delete_ne, Hk by done.
           apply decide_ext. split; intros []; (split; [lia|done]).
Qed.

(** One authentic packet: its number joins the received ones. *)
Lemma accept_data_ok received drained s seq c :
  reassembled chunks received drained s ->
  (forall i, i ∈ received -> 0 <= i < Z.of_nat (length chunks)) ->
  0 <= seq -> chunks !! Z.to_nat seq = Some c ->
  reassembled chunks ({[seq]} ∪ received) drained (accept_data seq c s).
Proof.
  intros [Hb Hbe Hm Hd Hk] Hr Hseq Hc. unfold accept_data.
  assert (Z.to_nat seq < length chunks)%nat as Hlt by (by eapply lookup_lt_Some).
  destruct (Z.ltb_spec seq (recv_seq s)) as [Hlow|Hlow].
  { assert ({[seq]} ∪ received = received) as -> by (assert (seq ∈ received) by auto; set_solver).
    by constructor. }
  destruct (Z.ltb_spec (recv_seq s) seq) as [Hhigh|Hhigh].
  - destruct (pending_packets s !! seq) as [old|] eqn:E.
    + assert ({[seq]} ∪ received = received) as ->.
      { rewrite Hk in E. case_decide as Hdec; [|done]. destruct Hdec. set_solver. }
      by constructor.
    + constructor; cbn [recv_seq pending_read pending_packets]; try done.
      * intros i Hi. apply elem_of_union_r. auto.
      * rewrite elem_of_union, elem_of_singleton. intros [|]; [lia|done].
      * intros i. destruct (decide (i = seq)) as [->|Hne].
        -- rewrite lookup_insert_eq, decide_True; [done|]. split; [lia|set_solver].
        -- rewrite lookup_insert_ne, Hk by done. apply decide_ext. set_solver.
  - assert (seq = recv_seq s) as -> by lia.
    destruct (concat_take_succ (recv_seq s) c) as (Hcat & Hmod & Hle); [lia|done|].
    apply release_pending_ok; [done| |].
    + constructor; cbn [recv_seq pending_read pending_packets]; rewrite ?Hmod in *.
      * lia.
      * intros i Hi. destruct (decide (i = recv_seq s)) as [->|]; [set_solver|].
        apply elem_of_union_r, Hbe. lia.
      * by rewrite Hcat, app_assoc, Hd.
      * intros i. rewrite Hk. apply decide_ext.
        rewrite elem_of_union, elem_of_singleton. split; intros [? ?]; (split; [lia|]).
        -- tauto.
        -- destruct H0; [lia|done].
    + intros i. rewrite elem_of_union, elem_of_singleton. intros [->|Hi]; [lia|auto].
Qed.

Lemma reassembled_initial : reassembled chunks ∅ [] initial_state.
Proof.
  constructor; simpl; [lia|lia|set_solver|done|].
  intros i. rewrite lookup_empty. by rewrite decide_False by set_solver.
Qed.
End Reassembly.

(** ** Lemmas: what the socket sees *)

(** The kinds of packets an open stream sends. *)
Definition stream_kind (k : packet_kind) : Prop := k = Ack \/ k = Data.
(** A property of the socket that receiving and waiting keep. *)
Record keeps_recv (Q : net -> Prop) : Prop := {
  kr_recv size n r n' : Q n -> recv_from size n = (r, n') -> Q n';
  kr_sleep d n : Q n -> Q (sleep d n).2
}.
(** One that sending such a packet keeps as well. *)
Record keeps_net (Q : net -> Prop) : Prop := {
  kn_send a p d n r n' : Q n -> stream_kind (pk_kind p) -> encode_packet p = Ok d -> send_to a d n = (r, n') -> Q n';
  kn_recv size n r n' : Q n -> recv_from size n = (r, n') -> Q n';
  kn_sleep d n : Q n -> Q (sleep d n).2
}.

Lemma keeps_net_recv Q : keeps_net Q -> keeps_recv Q.
Proof. by intros []. Qed.
Lemma sent_keeps x : keeps_net (fun n => x ∈ n_sent n).
Proof.
  constructor.
  - intros a p d n r n' Hx _ _. unfold send_to. destruct (n_send n) as [|[]]; intros [= <- <-]; set_solver.
  - intros size n r n' Hx. unfold recv_from. destruct (n_recv n); by intros [= <- <-].
  - done.
Qed.

Section NetRecvFacts.
Context (self : stream) (Q : net -> Prop) (HQ : keeps_recv Q).
Let Qw (w : world) : Prop := Q (w_net w).

Lemma preserves_net_recv_matching timeout pred : preserves Qw (recv_matching timeout pred).
Proof.
  intros w r w' Hw. unfold recv_matching. generalize (n_now (w_net w) + timeout) as d.
  generalize (w_waits w) as waits. intros waits d. revert w Hw.
  induction waits as [|wk waits IH]; intros w Hw; cbn [recv_matching_loop];
    (destruct (take_matching _ _) as [[]|]; [by intros [= <- <-]|]);
    (destruct (_ <=? _); [by intros [= <- <-]|]).
  - intros [= <- <-]. by apply (kr_sleep Q HQ).
  - destruct (wk_timed_out wk && _); [|apply IH; by apply (kr_sleep Q HQ)].
    intros [= <- <-]. by apply (kr_sleep Q HQ).
Qed.
Lemma preserves_net_recv pred : preserves Qw (recv_session_packet self pred).
Proof.
  unfold recv_session_packet. destruct (st_has_inbox self).
  - apply preserves_bind; [apply preserves_gets|]. intros t. apply preserves_net_recv_matching.
  - intros w r w' Hw. generalize (S (length (n_recv (w_net w)))). intros fuel.
    enough (preserves Qw (recv_socket_loop self fuel pred)) as He by (by apply He).
    clear w r w' Hw. induction fuel as [|fuel IH]; cbn [recv_socket_loop]; [apply preserves_throw|].
    apply preserves_bind.
    { apply preserves_zoom. intros w n Hw [r Hr]. by eapply kr_recv in Hr. }
    intros [payload addr]. case_bool_decide; [|done].
    apply preserves_bind; [apply preserves_io_other, preserves_lift|].
    intros p. destruct (pred p); [apply preserves_ret|done].
Qed.

End NetRecvFacts.

Section NetFacts.
Context `{Aead} (self : stream) (Q : net -> Prop) (HQ : keeps_net Q).
Let Qw (w : world) : Prop := Q (w_net w).

Lemma preserves_net_send_packet a p : stream_kind (pk_kind p) -> preserves Qw (on_net (send_packet_to a p)).
Proof.
  intros Hk. apply preserves_zoom. intros w n Hw [r Hr]. unfold send_packet_to, mbind, eff_bind, lift in Hr.
  destruct (encode_packet p) eqn:Ed; [by eapply kn_send in Hr|]. by injection Hr as <- <-.
Qed.
Lemma preserves_net_send_ack seq : preserves Qw (send_ack self seq).
Proof. apply preserves_io_other, preserves_net_send_packet. by left. Qed.

Lemma preserves_net_handle_data p : preserves Qw (handle_data_packet self p).
Proof.
  unfold handle_data_packet. destruct (aead_decrypt _ _ _); [|apply preserves_throw].
  apply preserves_bind; [by apply preserves_modify|intros; apply preserves_net_send_ack].
Qed.
Lemma preserves_net_wait seq : preserves Qw (wait_for_ack self seq).
Proof.
  intros w r w' Hw. unfold wait_for_ack. generalize (S (budget w)). intros fuel.
  enough (preserves Qw (wait_for_ack_loop self fuel seq)) as He by (by apply He).
  induction fuel as [|fuel IH]; cbn [wait_for_ack_loop]; [apply preserves_throw|].
  apply preserves_bind; [by apply preserves_net_recv, keeps_net_recv|]. intros p.
  destruct (pk_kind p); try done; [|destruct (_ =? _); [apply preserves_ret|done]|apply preserves_throw].
  apply preserves_bind; [apply preserves_net_handle_data|done].
Qed.
Lemma preserves_net_read len : preserves Qw (read self len).
Proof.
  intros w r w' Hw. unfold read. destruct (pending_read (w_state w)); [|by intros [= <- <-]].
  generalize (S (budget w)). intros fuel.
  enough (preserves Qw (read_loop self fuel len)) as He by (by apply He).
  induction fuel as [|fuel IH]; cbn [read_loop]; [apply preserves_throw|].
  apply preserves_bind; [by apply preserves_net_recv, keeps_net_recv|]. intros p.
  destruct (pk_kind p); try done; [|apply preserves_ret].
  apply preserves_bind; [apply preserves_net_handle_data|]. intros _.
  apply preserves_bind; [apply preserves_gets|]. intros [|]; [done|].
  intros w0 r0 w0' Hw0 [= <- <-]. done.
Qed.
Lemma preserves_net_write_loop n last p len :
  stream_kind (pk_kind p) -> preserves Qw (write_loop self n last p len).
Proof.
  intros Hk. revert last. induction n as [|n IH]; intros last; cbn [write_loop]; [apply preserves_throw|].
  apply preserves_bind; [by apply preserves_io_other, preserves_net_send_packet|]. intros _.
  apply preserves_bind; [apply preserves_attempt, preserves_net_wait|]. intros [[]|e].
  - apply preserves_bind; [by apply preserves_modify|intros; apply preserves_ret].
  - destruct (is_retry_kind e); [apply IH|apply preserves_throw].
Qed.
Lemma preserves_net_write bytes : preserves Qw (write self bytes).
Proof.
  unfold write. apply preserves_bind; [apply preserves_gets|]. intros seq.
  destruct (aead_encrypt _ _ _); [apply preserves_net_write_loop; by right|apply preserves_throw].
Qed.
End NetFacts.

(** ** Lemmas: sending *)

Lemma release_pending_send_seq fuel s : send_seq (release_pending fuel s) = send_seq s.
Proof.
  revert s; induction fuel as [|fuel IH]; intros s; simpl; [done|].
  destruct (_ !! _); [by rewrite IH|done].
Qed.
Lemma accept_data_send_seq seq c s : send_seq (accept_data seq c s) = send_seq s.
Proof.
  unfold accept_data. destruct (_ <? _); [done|]. destruct (_ <? _); [by destruct (_ !! _)|].
  by rewrite release_pending_send_seq.
Qed.

Section SendFacts.
Context `{Aead} (self : stream).

Lemma send_packet_sent a p n u n' :
  send_packet_to a p n = (Ok u, n') ->
  exists d, encode_packet p = Ok d /\ n_sent n' = n_sent n ++ [(a, d)].
Proof.
  unfold send_packet_to. intros Hr. inv_eff. exists x. split; [done|].
  unfold send_to in Hr. by destruct (n_send x0) as [|[]]; simplify_eq/=.
Qed.

Lemma send_seq_keeps k : keeps_accept self (fun s => send_seq s = k).
Proof. intros seq c pt s _ _ <-. apply accept_data_send_seq. Qed.

(** A run of the retry loop: the counter moves exactly on success, and the packet was
    handed to the socket. *)
Lemma write_loop_result n last p len w r w' :
  inbox_ok w -> write_loop self n last p len w = (r, w') ->
  inbox_ok w' /\
  match r with
  | Ok m => m = len /\ send_seq (w_state w') = (send_seq (w_state w) + 1) mod u64_modulus /\
      exists d, encode_packet p = Ok d /\ (st_peer_addr self, d) ∈ n_sent (w_net w')
  | Err _ => send_seq (w_state w') = send_seq (w_state w)
  end.
Proof.
  revert last w; induction n as [|n IH]; intros last w Hi; cbn [write_loop]; [by intros [= <- <-]|].
  unfold mbind, eff_bind at 1. unfold io_other, on_net, zoom.
  destruct (send_packet_to (st_peer_addr self) p (w_net w)) as [[u|e] n1] eqn:Es;
    [|by intros [= <- <-]].
  apply send_packet_sent in Es as (d & Hd & Hsent).
  unfold eff_bind, attempt.
  destruct (wait_for_ack self (pk_seq p) (set_net n1 w)) as [ra w2] eqn:Ew.
  assert (state_ok (fun s => send_seq s = send_seq (w_state w)) w2) as [Hk Hi2].
  { eapply preserves_wait; [apply send_seq_keeps| |exact Ew]. by split. }
  assert ((st_peer_addr self, d) ∈ n_sent (w_net w2)) as Hin.
  { eapply preserves_net_wait; [apply (sent_keeps (st_peer_addr self, d))| |exact Ew].
    simpl. rewrite Hsent. set_solver. }
  destruct ra as [[]|e].
  - intros [= <- <-]. split; [done|]. simpl. rewrite Hk. eauto.
  - destruct (is_retry_kind e); [|by intros [= <- <-]].
    intros Hr. apply IH in Hr; [|done]. by rewrite Hk in Hr.
Qed.
End SendFacts.

(** ** Lemmas: the receiving loops end *)

(** Nothing is added to what can be consumed, and the error is not the fuel's. *)
Definition in_fuel {A} (r : result A) : Prop :=
  match r with Err e => e <> out_of_fuel | Ok _ => True end.

Lemma length_take_matching pred q p rest :
  take_matching pred q = Some (p, rest) -> length q = S (length rest).
Proof.
  intros (b & a & -> & -> & _)%take_matching_ok. rewrite !length_app. simpl. lia.
Qed.

Section BudgetFacts.
Context `{Aead} (self : stream).

Lemma recv_matching_budget timeout pred w r w' :
  recv_matching timeout pred w = (r, w') ->
  (budget w' <= budget w)%nat /\ in_fuel r /\
  (forall p, r = Ok p -> budget w' < budget w)%nat.
Proof.
  unfold recv_matching. generalize (n_now (w_net w) + timeout) as d. intros d.
  assert (budget w = length (n_recv (w_net w)) + length (w_inbox w)
    + list_sum (map (fun wk => S (length (wk_packets wk))) (w_waits w)))%nat as -> by done.
  generalize (w_waits w) as waits. intros waits. revert w.
  induction waits as [|wk waits IH]; intros w; cbn [recv_matching_loop];
    (destruct (take_matching pred (w_inbox w)) as [[p rest]|] eqn:E;
     [apply length_take_matching in E; intros [= <- <-]; unfold budget; cbn;
      split_and!; [lia|done|intros; lia]|]);
    (destruct (_ <=? _); [intros [= <- <-]; unfold budget; cbn; split_and!; [lia|done|done]|]).
  - intros [= <- <-]; unfold budget; cbn; split_and!; [lia|done|done].
  - destruct (wk_timed_out wk && _).
    + intros [= <- <-]; unfold budget; cbn. rewrite length_app. split_and!; [lia|done|done].
    + intros Hr. apply IH in Hr as (H1 & H2 & H3). unfold list_sum in *. cbn in *. rewrite length_app in *.
      split_and!; [lia|done|]. intros p Hp. specialize (H3 p Hp). lia.
Qed.

Lemma recv_socket_budget fuel pred w r w' :
  (length (n_recv (w_net w)) < fuel)%nat -> recv_socket_loop self fuel pred w = (r, w') ->
  (budget w' <= budget w)%nat /\ in_fuel r /\
  (forall p, r = Ok p -> budget w' < budget w)%nat.
Proof.
  revert w; induction fuel as [|fuel IH]; intros w Hf; [lia|]. cbn [recv_socket_loop].
  unfold mbind, eff_bind at 1, on_net, zoom, recv_from.
  destruct (n_recv (w_net w)) as [|ev rest] eqn:En.
  { intros [= <- <-]. unfold budget, list_sum. cbn. rewrite En. cbn. split_and!; [lia|done|done]. }
  assert (forall dt, budget (set_net (Net rest (n_send (w_net w)) (n_sent (w_net w)) dt
            (n_read_timeout (w_net w))) w) < budget w)%nat as Hlt.
  { intros dt. unfold budget, list_sum. cbn. rewrite En. cbn. lia. }
  destruct (ev_result ev) as [payload addr|k].
  2: { intros [= <- <-]. specialize (Hlt (n_now (w_net w) + ev_elapsed ev)). split_and!; [lia|done|done]. }
  set (w1 := set_net _ w).
  assert (recv_socket_loop self fuel pred w1 = (r, w') ->
    (budget w' <= budget w)%nat /\ in_fuel r /\
    (forall p, r = Ok p -> budget w' < budget w)%nat) as Hnext.
  { intros Hr. apply IH in Hr as (H1 & H2 & H3); [|subst w1; simpl in *; lia].
    assert (budget w1 < budget w)%nat by apply Hlt. split_and!; [lia|done|].
    intros p Hp. specialize (H3 p Hp). lia. }
  assert (budget w1 < budget w)%nat by apply Hlt.
  case_bool_decide; [|apply Hnext].
  unfold eff_bind at 1, io_other, lift. destruct (decode_packet _) as [p|e].
  - destruct (pred p); [|apply Hnext]. intros [= <- <-]. split_and!; [lia|done|done].
  - intros [= <- <-]. split_and!; [lia|done|done].
Qed.

Lemma recv_budget pred w r w' :
  recv_session_packet self pred w = (r, w') ->
  (budget w' <= budget w)%nat /\ in_fuel r /\
  (forall p, r = Ok p -> budget w' < budget w)%nat.
Proof.
  unfold recv_session_packet. destruct (st_has_inbox self).
  - unfold mbind, eff_bind, gets. apply recv_matching_budget.
  - apply recv_socket_budget. lia.
Qed.

Lemma on_net_send_budget {A} a p (m : eff net A) w r w' :
  on_net (send_packet_to a p) w = (r, w') -> budget w' = budget w.
Proof.
  unfold on_net, zoom, send_packet_to, mbind, eff_bind, lift.
  destruct (encode_packet p); [|by intros [= <- <-]].
  destruct (send_to a a0 (w_net w)) as [r1 n1] eqn:E. apply send_to_recv in E.
  intros [= <- <-]. unfold budget. cbn. by rewrite E.
Qed.

Lemma io_other_budget {A} (m : eff world A) w r w' :
  (forall r w', m w = (r, w') -> budget w' = budget w) -> io_other m w = (r, w') ->
  budget w' = budget w /\ in_fuel r.
Proof.
  intros Hm. unfold io_other. destruct (m w) as [[a|e] w1] eqn:E; intros [= <- <-];
    by (split; [eapply Hm|]).
Qed.
Lemma send_budget a p w r w' :
  io_other (on_net (send_packet_to a p)) w = (r, w') -> budget w' = budget w /\ in_fuel r.
Proof.
  apply io_other_budget. intros r1 w1. by apply (on_net_send_budget _ _ (mret tt)).
Qed.

Lemma handle_data_budget p w r w' :
  handle_data_packet self p w = (r, w') -> budget w' = budget w /\ in_fuel r.
Proof.
  unfold handle_data_packet. destruct (aead_decrypt _ _ _); [|by intros [= <- <-]].
  unfold mbind, eff_bind, modify, send_ack. intros Hs. by apply send_budget in Hs.
Qed.

Lemma wait_loop_budget fuel seq w r w' :
  (budget w < fuel)%nat -> wait_for_ack_loop self fuel seq w = (r, w') ->
  (budget w' <= budget w)%nat /\ in_fuel r.
Proof.
  revert w; induction fuel as [|fuel IH]; intros w Hf; [lia|]. cbn [wait_for_ack_loop].
  unfold mbind, eff_bind at 1.
  destruct (recv_session_packet self ack_data_or_close w) as [[p|e] w1] eqn:Er;
    apply recv_budget in Er as (H1 & H2 & H3); [|by intros [= <- <-]].
  specialize (H3 p eq_refl).
  assert (forall w0, (budget w0 <= budget w1)%nat -> wait_for_ack_loop self fuel seq w0 = (r, w') ->
    (budget w' <= budget w)%nat /\ in_fuel r) as Hnext.
  { intros w0 Hw0 Hr. apply IH in Hr as []; [|lia]. split; [lia|done]. }
  destruct (pk_kind p); try (by apply Hnext).
  - unfold eff_bind. destruct (handle_data_packet self p w1) as [[[]|e] w2] eqn:Eh;
      apply handle_data_budget in Eh as [Hb He]; [apply Hnext; lia|].
    intros [= <- <-]. split; [lia|done].
  - destruct (_ =? _); [|by apply Hnext]. intros [= <- <-]. split; [lia|done].
  - intros [= <- <-]. split; [lia|done].
Qed.
Lemma wait_budget seq w r w' :
  wait_for_ack self seq w = (r, w') -> (budget w' <= budget w)%nat /\ in_fuel r.
Proof. apply wait_loop_budget. lia. Qed.

Lemma read_loop_budget fuel len w r w' :
  (budget w < fuel)%nat -> read_loop self fuel len w = (r, w') -> in_fuel r.
Proof.
  revert w; induction fuel as [|fuel IH]; intros w Hf; [lia|]. cbn [read_loop].
  unfold mbind, eff_bind at 1.
  destruct (recv_session_packet self data_or_close w) as [[p|e] w1] eqn:Er;
    apply recv_budget in Er as (H1 & H2 & H3); [|by intros [= <- <-]].
  specialize (H3 p eq_refl).
  destruct (pk_kind p); try (apply IH; lia); [|by intros [= <- <-]].
  unfold eff_bind at 1. destruct (handle_data_packet self p w1) as [[[]|e] w2] eqn:Eh;
    apply handle_data_budget in Eh as [Hb He]; [|by intros [= <- <-]].
  unfold eff_bind, gets. destruct (pending_read (w_state w2)); [apply IH; lia|by intros [= <- <-]].
Qed.

Lemma write_loop_fuel n last p len w :
  last <> Some out_of_fuel -> in_fuel (write_loop self n last p len w).1.
Proof.
  revert last w; induction n as [|n IH]; intros last w Hl; cbn [write_loop].
  { intros He. apply Hl. destruct last; [by f_equal|done]. }
  unfold mbind, eff_bind at 1. destruct (io_other _ w) as [[u|e] w1] eqn:Es;
    apply send_budget in Es as [_ He]; [|done].
  unfold eff_bind, attempt. destruct (wait_for_ack self (pk_seq p) w1) as [[u'|e] w2] eqn:Ew;
    apply wait_budget in Ew as [_ He']; [done|].
  destruct (is_retry_kind e); [apply IH; simpl in He'; congruence|done].
Qed.

End BudgetFacts.

Section SpendFacts.
Context `{Aead} (self : stream).

(** A run that is cut short has used up something. *)
Definition spends {A} (m : eff world A) : Prop :=
  forall w r w', m w = (r, w') -> (budget w' <= budget w)%nat /\ (r = Err (EIo Interrupted) -> budget w' < budget w)%nat.

Lemma recv_matching_kind timeout pred w e w' : recv_matching timeout pred w = (Err e, w') -> e = EIo TimedOut.
Proof.
  unfold recv_matching. generalize (n_now (w_net w) + timeout). generalize (w_waits w). intros waits d. revert w.
  induction waits as [|wk waits IH]; intros w; cbn [recv_matching_loop];
    (destruct (take_matching _ _) as [[]|]; [done|]); (destruct (_ <=? _); [by intros [= <- <-]|]); [by intros [= <- <-]|].
  destruct (wk_timed_out wk && _); [by intros [= <- <-]|apply IH].
Qed.
Lemma recv_spends pred : spends (recv_session_packet self pred).
Proof.
  intros w r w' Hr. pose proof (recv_budget _ _ _ _ _ Hr) as (Hle & _ & _). split; [done|]. intros ->.
  unfold recv_session_packet in Hr. destruct (st_has_inbox self).
  - unfold mbind, eff_bind, stream_timeout, gets in Hr. by apply recv_matching_kind in Hr.
  - assert (forall fuel w0, recv_socket_loop self fuel pred w0 = (Err (EIo Interrupted), w') ->
      (length (n_recv (w_net w0)) < fuel)%nat -> budget w' < budget w0)%nat as Hloop.
    2: { eapply Hloop; [exact Hr|lia]. }
    clear Hr Hle w. induction fuel as [|fuel IH]; intros w0 Hr Hf; [lia|]. cbn [recv_socket_loop] in Hr.
    unfold mbind, eff_bind at 1, on_net, zoom, recv_from in Hr. destruct (n_recv (w_net w0)) as [|ev rest] eqn:En; [done|].
    assert (forall dt, budget (set_net (Net rest (n_send (w_net w0)) (n_sent (w_net w0)) dt
              (n_read_timeout (w_net w0))) w0) < budget w0)%nat as Hlt.
    { intros dt. unfold budget. simpl. rewrite En. simpl. lia. }
    destruct (ev_result ev) as [payload addr|k]; [|injection Hr as _ <-; apply Hlt].
    set (w1 := set_net _ w0) in *. specialize (Hlt (n_now (w_net w0) + ev_elapsed ev)).
    assert (recv_socket_loop self fuel pred w1 = (Err (EIo Interrupted), w') -> budget w' < budget w0)%nat as Hnext.
    { intros Hr1. apply IH in Hr1; [subst w1; lia|subst w1; simpl in *; lia]. }
    case_bool_decide; [|by apply Hnext]. unfold eff_bind, io_other, lift in Hr.
    destruct (decode_packet _) as [p|e]; [|done]. destruct (pred p); [done|by apply Hnext].
Qed.
Lemma io_other_kind {S A} (m : eff S A) s e s' : io_other m s = (Err e, s') -> e = EIo OtherIo.
Proof. unfold io_other. destruct (m s) as [[a|e1] s1]; by intros [= <- <-]. Qed.
Lemma handle_data_kind p w e w' : handle_data_packet self p w = (Err e, w') -> e = EIo OtherIo.
Proof.
  unfold handle_data_packet. destruct (aead_decrypt _ _ _); [|by intros [= <- <-]].
  unfold mbind, eff_bind, modify, send_ack. apply io_other_kind.
Qed.
Lemma wait_spends seq : spends (wait_for_ack self seq).
Proof.
  intros w r w' Hr. pose proof (wait_budget _ _ _ _ _ Hr) as [Hle _]. split; [done|]. intros ->.
  unfold wait_for_ack in Hr. revert Hr. generalize (S (budget w)). intros fuel. clear Hle. revert w.
  induction fuel as [|fuel IH]; intros w; cbn [wait_for_ack_loop]; [done|].
  unfold mbind, eff_bind at 1. destruct (recv_session_packet self ack_data_or_close w) as [[p|e] w1] eqn:Er;
    apply recv_spends in Er as [Hle Hlt]; [|intros [= -> ->]; by apply Hlt].
  destruct (pk_kind p).
  - intros Hr. apply IH in Hr. lia.
  - intros Hr. apply IH in Hr. lia.
  - unfold eff_bind. destruct (handle_data_packet self p w1) as [[[]|e] w2] eqn:Eh.
    + apply handle_data_budget in Eh as [Hb _]. intros Hr. apply IH in Hr. lia.
    + apply handle_data_kind in Eh as ->. done.
  - destruct (_ =? _); [done|]. intros Hr. apply IH in Hr. lia.
  - done.
Qed.
Lemma write_loop_spends n last p len : last <> Some (EIo Interrupted) -> spends (write_loop self n last p len).
Proof.
  revert last; induction n as [|n IH]; intros last Hlast w r w'; cbn [write_loop].
  { intros [= <- <-]. split; [done|]. intros [= Hl]. destruct last as [e|]; [|done]. simpl in Hl. by rewrite Hl in Hlast. }
  unfold mbind, eff_bind at 1. destruct (io_other _ w) as [[u|e] w1] eqn:Es; pose proof Es as Eb; apply send_budget in Eb as [Hb _].
  2: { apply io_other_kind in Es as ->. intros [= <- <-]. split; [lia|done]. }
  unfold eff_bind, attempt. destruct (wait_for_ack self (pk_seq p) w1) as [[[]|e] w2] eqn:Ew; apply wait_spends in Ew as [Hle Hlt].
  - intros [= <- <-]. split; [unfold budget in *; simpl in *; lia|done].
  - destruct (is_retry_kind e) eqn:Ek.
    + intros Hr. apply IH in Hr as [H1 H2]; [|intros [= ->]; done]. split; [lia|]. intros Hi. specialize (H2 Hi). lia.
    + intros [= <- <-]. split; [lia|]. intros [= ->]. specialize (Hlt eq_refl). lia.
Qed.
Lemma write_spends bytes : spends (write self bytes).
Proof.
  intros w r w'. unfold write, mbind, eff_bind, gets. destruct (aead_encrypt _ _ _); [by apply write_loop_spends|].
  intros [= <- <-]. split; [done|done].
Qed.

(** *** How much a stream can still hand over *)

(** The bytes a packet brings, and one for its round. *)
Definition packet_weight (p : packet) : nat :=
  S match aead_decrypt (st_key self) (nonce_bytes (direction_peer (st_direction self)) (pk_seq p)) (pk_payload p) with
    | Some plaintext => length plaintext
    | None => O
    end.
Definition event_weight (ev : recv_event) : nat :=
  match ev_result ev with
  | Got payload _ => match decode_packet (take MAX_PACKET_LEN payload) with Ok p => packet_weight p | Err _ => 1 end
  | Failed _ => 1
  end.
Definition bytes_kept (s : session_state) : nat :=
  length (pending_read s) + list_sum (map (fun x => length x.2) (map_to_list (pending_packets s))).
Definition readable (w : world) : nat :=
  bytes_kept (w_state w) + list_sum (map event_weight (n_recv (w_net w)))
  + list_sum (map packet_weight (w_inbox w))
  + list_sum (map (fun wk => S (list_sum (map packet_weight (wk_packets wk)))) (w_waits w)).

Lemma list_sum_permutation (l l' : list nat) : l ≡ₚ l' -> list_sum l = list_sum l'.
Proof. by intros ->. Qed.
Lemma kept_release fuel s : bytes_kept (release_pending fuel s) = bytes_kept s.
Proof.
  revert s; induction fuel as [|fuel IH]; intros s; cbn [release_pending]; [done|].
  destruct (pending_packets s !! recv_seq s) as [next|] eqn:E; [|done]. rewrite IH. unfold bytes_kept. cbn.
  pose proof (list_sum_permutation _ _ (Permutation_map (fun x => length x.2) (map_to_list_delete _ _ _ E))) as Hp.
  cbn in Hp. unfold list_sum in *. cbn in *. rewrite length_app. lia.
Qed.
Lemma kept_accept seq plaintext s : (bytes_kept (accept_data seq plaintext s) <= bytes_kept s + length plaintext)%nat.
Proof.
  unfold accept_data. destruct (_ <? _); [lia|]. destruct (_ <? _).
  - destruct (pending_packets s !! seq) eqn:E; [lia|]. unfold bytes_kept. cbn.
    pose proof (list_sum_permutation _ _ (Permutation_map (fun x => length x.2) (map_to_list_insert _ _ plaintext E))) as Hp.
    cbn in Hp. unfold list_sum in *. cbn in *. lia.
  - rewrite kept_release. unfold bytes_kept. cbn. rewrite length_app. lia.
Qed.
Lemma weight_take_matching pred q p rest :
  take_matching pred q = Some (p, rest) ->
  (list_sum (map packet_weight q) = packet_weight p + list_sum (map packet_weight rest))%nat.
Proof.
  intros (b & a & -> & -> & _)%take_matching_ok. rewrite !map_app, !list_sum_app. cbn [map]. unfold list_sum. cbn. lia.
Qed.
(** A packet taken brings no more than was to come; an interrupted receive has used up
    something. *)
Definition takes_readable (m : eff world packet) : Prop := forall w r w', m w = (r, w') ->
  match r with
  | Ok p => (readable w' + packet_weight p <= readable w)%nat
  | Err e => (readable w' <= readable w)%nat /\ (e = EIo Interrupted -> readable w' < readable w)%nat
  end.
Lemma recv_matching_readable timeout pred : takes_readable (recv_matching timeout pred).
Proof.
  intros w r w'. unfold recv_matching. generalize (n_now (w_net w) + timeout) as d. intros d.
  assert (readable w = bytes_kept (w_state w) + list_sum (map event_weight (n_recv (w_net w)))
    + list_sum (map packet_weight (w_inbox w))
    + list_sum (map (fun wk => S (list_sum (map packet_weight (wk_packets wk)))) (w_waits w)))%nat as -> by done.
  generalize (w_waits w) as waits. intros waits. revert w.
  induction waits as [|wk waits IH]; intros w; cbn [recv_matching_loop];
    (destruct (take_matching pred (w_inbox w)) as [[p rest]|] eqn:E;
     [apply weight_take_matching in E; rewrite E; intros [= <- <-]; unfold readable; cbn -[list_sum packet_weight]; unfold list_sum; cbn [map fold_right]; lia|]);
    (destruct (_ <=? _); [intros [= <- <-]; unfold readable; cbn -[list_sum]; split; [lia|done]|]).
  - intros [= <- <-]; unfold readable; cbn -[list_sum]; split; [lia|done].
  - destruct (wk_timed_out wk && _).
    + intros [= <- <-]; unfold readable; cbn -[list_sum]. rewrite map_app, list_sum_app. split; [|done].
      unfold list_sum at 8; cbn; fold (list_sum (map packet_weight (wk_packets wk))). unfold list_sum in *. lia.
    + intros Hr. apply IH in Hr. cbn -[list_sum] in Hr. rewrite map_app, list_sum_app in Hr. unfold list_sum in *. cbn [map foldr].
      destruct r as [p|e]; [lia|]. destruct Hr as [H1 H2]. split; [lia|]. intros He. specialize (H2 He). lia.
Qed.
Lemma recv_socket_readable fuel pred : takes_readable (recv_socket_loop self fuel pred).
Proof.
  induction fuel as [|fuel IH]; intros w r w'; cbn [recv_socket_loop]; [intros [= <- <-]; split; [lia|done]|].
  unfold mbind, eff_bind at 1, on_net, zoom, recv_from.
  destruct (n_recv (w_net w)) as [|ev rest] eqn:En.
  { intros [= <- <-]. unfold readable. cbn. rewrite En. split; [done|done]. }
  assert (forall dt, readable w = (event_weight ev + readable (set_net (Net rest (n_send (w_net w)) (n_sent (w_net w)) dt
            (n_read_timeout (w_net w))) w))%nat) as Hw.
  { intros dt. unfold readable, list_sum. cbn. rewrite En. cbn. lia. }
  specialize (Hw (n_now (w_net w) + ev_elapsed ev)). set (w1 := set_net _ w) in *. unfold event_weight in Hw.
  assert (1 <= event_weight ev)%nat as Hev.
  { unfold event_weight, packet_weight. destruct (ev_result ev); [|done]. destruct (decode_packet _); lia. }
  unfold event_weight in Hev.
  destruct (ev_result ev) as [payload addr|k].
  2: { intros [= <- <-]. split; [lia|]. lia. }
  assert (recv_socket_loop self fuel pred w1 = (r, w') ->
    match r with
    | Ok p => (readable w' + packet_weight p <= readable w)%nat
    | Err e => (readable w' <= readable w)%nat /\ (e = EIo Interrupted -> readable w' < readable w)%nat
    end) as Hnext.
  { intros Hr. apply IH in Hr. destruct r; lia. }
  case_bool_decide; [|apply Hnext].
  unfold eff_bind at 1, io_other, lift. destruct (decode_packet _) as [p|e].
  - destruct (pred p); [|apply Hnext]. intros [= <- <-]. lia.
  - intros [= <- <-]. split; [lia|done].
Qed.
Lemma recv_readable pred : takes_readable (recv_session_packet self pred).
Proof.
  intros w r w'. unfold recv_session_packet. destruct (st_has_inbox self).
  - unfold mbind, eff_bind, gets. apply recv_matching_readable.
  - apply recv_socket_readable.
Qed.
Lemma send_packet_recv a p n r n' : send_packet_to a p n = (r, n') -> n_recv n' = n_recv n.
Proof.
  unfold send_packet_to, mbind, eff_bind, lift. destruct (encode_packet p); [|by intros [= <- <-]]. apply send_to_recv.
Qed.
Lemma handle_data_readable p w r w' :
  handle_data_packet self p w = (r, w') -> (readable w' < readable w + packet_weight p)%nat.
Proof.
  unfold handle_data_packet, packet_weight. destruct (aead_decrypt _ _ _) as [pt|]; [|intros [= <- <-]; lia].
  unfold mbind, eff_bind, modify, send_ack. intros Hs.
  assert (readable w' = readable (set_state (accept_data (pk_seq p) pt (w_state w)) w)) as ->.
  { unfold io_other, on_net, zoom in Hs.
    destruct (send_packet_to _ _ _) as [r1 n1] eqn:E. apply send_packet_recv in E. cbn [set_state w_net] in E.
    destruct r1; injection Hs as <- <-; unfold readable; cbn -[list_sum]; by rewrite E. }
  pose proof (kept_accept (pk_seq p) pt (w_state w)). unfold readable. cbn -[list_sum]. lia.
Qed.
(** A read into some room ends the stream, fails, or leaves less to read. *)
Lemma read_readable len w r w' :
  (0 < len)%nat -> read self len w = (r, w') ->
  r = Ok [] \/ (readable w' < readable w)%nat \/ exists e, r = Err e /\ e <> EIo Interrupted.
Proof.
  intros Hlen. unfold read. destruct (pending_read (w_state w)) as [|b pending] eqn:Epend.
  2: { unfold drain_pending. rewrite Epend. intros [= _ <-]. right; left. unfold readable, bytes_kept. cbn -[list_sum].
       rewrite Epend, length_drop. cbn. lia. }
  clear Epend. generalize (S (budget w)). intros fuel. revert w. induction fuel as [|fuel IH]; intros w; cbn [read_loop].
  { intros [= <- <-]. right; right. by eexists. }
  unfold mbind, eff_bind at 1. destruct (recv_session_packet self data_or_close w) as [[p|e] w1] eqn:Er; apply recv_readable in Er.
  2: { intros [= <- <-]. right. destruct (decide (e = EIo Interrupted)) as [Hi|Hi]; [left; tauto|right; by exists e]. }
  assert (1 <= packet_weight p)%nat as Hp by (unfold packet_weight; lia).
  assert (forall w2, (readable w2 < readable w)%nat -> read_loop self fuel len w2 = (r, w') ->
    r = Ok [] \/ (readable w' < readable w)%nat \/ exists e, r = Err e /\ e <> EIo Interrupted) as Hnext.
  { intros w2 H2 Hr. apply IH in Hr as [|[|]]; [by left|right; left; lia|by right; right]. }
  destruct (pk_kind p); try (apply Hnext; lia); [|intros [= <- <-]; by left].
  unfold eff_bind at 1. destruct (handle_data_packet self p w1) as [[[]|e] w2] eqn:Eh; pose proof Eh as Ek; apply handle_data_readable in Eh.
  - unfold eff_bind, gets. destruct (pending_read (w_state w2)) as [|b l] eqn:Epend; [apply Hnext; lia|].
    unfold drain_pending. rewrite Epend. intros [= _ <-]. right; left. unfold readable, bytes_kept in *. cbn -[list_sum].
    rewrite Epend in *. rewrite length_drop. cbn in *. lia.
  - intros [= <- <-]. right; left. lia.
Qed.
Lemma read_in_fuel len w r w' : read self len w = (r, w') -> in_fuel r.
Proof.
  unfold read. destruct (pending_read (w_state w)); [|by intros [= <- <-]]. intros Hr. apply read_loop_budget in Hr; [done|lia].
Qed.
Lemma write_in_fuel bytes w r w' : write self bytes w = (r, w') -> in_fuel r.
Proof.
  unfold write, mbind, eff_bind, gets. destruct (aead_encrypt _ _ _) as [c|]; [|by intros [= <- <-]].
  intros Hr. assert (r = (write_loop self RETRIES None (Packet Data (send_seq (w_state w)) c) (length (take MAX_PAYLOAD_LEN bytes)) w).1) as -> by by rewrite Hr.
  by apply write_loop_fuel.
Qed.
(** A write takes at most what it is given. *)
Lemma write_takes bytes w n w' : write self bytes w = (Ok n, w') -> (n <= length bytes)%nat.
Proof.
  unfold write, mbind, eff_bind, gets. destruct (aead_encrypt _ _ _) as [c|]; [|done].
  assert (forall k last p len w, write_loop self k last p len w = (Ok n, w') -> n = len) as Hloop.
  2: { intros Hr. apply Hloop in Hr as ->. rewrite length_take. lia. }
  clear. intros k; induction k as [|k IH]; intros last p len w; cbn [write_loop]; [done|]. intros Hr.
  apply eff_bind_ok in Hr as (u & w1 & _ & Hr). apply eff_bind_ok in Hr as (acked & w2 & _ & Hr).
  destruct acked as [u'|e].
  - apply eff_bind_ok in Hr as ([] & w3 & _ & Hr). by injection Hr as <- _.
  - destruct (is_retry_kind e); [by eapply IH|done].
Qed.
End SpendFacts.

(** ** Lemmas: how long an operation lasts *)

Definition zsum : list Z -> Z := foldr Z.add 0.
Lemma zsum_app l k : zsum (l ++ k) = zsum l + zsum k.
Proof. induction l as [|x l IH]; simpl; [done|]. rewrite IH. lia. Qed.
(** When the last of the arrivals has come. *)
Definition last_arrival (w : world) : Z :=
  n_now (w_net w) + zsum (map ev_elapsed (n_recv (w_net w))) + zsum (map wk_elapsed (w_waits w)).
(** No time runs backwards. *)
Definition timed (w : world) : Prop :=
  Forall (fun ev => 0 <= ev_elapsed ev) (n_recv (w_net w)) /\ Forall (fun wk => 0 <= wk_elapsed wk) (w_waits w) /\
  0 <= n_read_timeout (w_net w).
Lemma timed_now w : timed w -> n_now (w_net w) <= last_arrival w.
Proof.
  intros (Hr & Hw & _). unfold last_arrival.
  assert (forall A (f : A -> Z) l, Forall (fun x => 0 <= f x) l -> 0 <= zsum (map f l)) as Hs.
  { intros A f l. induction 1; simpl; lia. }
  pose proof (Hs _ _ _ Hr). pose proof (Hs _ _ _ Hw). lia.
Qed.

Section TimeFacts.
Context `{Aead} (self : stream).

(** An operation that fails may wait [k] timeouts after the last arrival; one that succeeds
    is over with it. *)
Definition lasts {A} (k : Z) (m : eff world A) : Prop := forall w r w', timed w -> m w = (r, w') ->
  timed w' /\ n_read_timeout (w_net w') = n_read_timeout (w_net w) /\
  last_arrival w' <= last_arrival w + (if is_ok r then 0 else k * n_read_timeout (w_net w)).

Lemma lasts_bind {A B} k (m : eff world A) (f : A -> eff world B) :
  lasts k m -> (forall a, lasts k (f a)) -> lasts k (mbind f m).
Proof.
  intros Hm Hf w r w' Hw. unfold mbind, eff_bind. destruct (m w) as [[a|e] w1] eqn:E.
  - apply Hm in E as (H1 & H2 & H3); [|done]. intros Hr. apply Hf in Hr as (? & ? & ?); [|done]. simpl in H3.
    rewrite H2 in *. split_and!; [done|done|lia].
  - apply Hm in E as (H1 & H2 & H3); [|done]. intros [= <- <-]. done.
Qed.
(** What leaves the arrivals and the clock alone. *)
Lemma lasts_instant {A} k (m : eff world A) : 0 <= k ->
  (forall w r w', m w = (r, w') -> n_recv (w_net w') = n_recv (w_net w) /\ w_waits w' = w_waits w /\
     n_now (w_net w') = n_now (w_net w) /\ n_read_timeout (w_net w') = n_read_timeout (w_net w)) -> lasts k m.
Proof.
  intros Hk Hm w r w' (H1 & H2 & H3) Hr. apply Hm in Hr as (E1 & E2 & E3 & E4). unfold timed, last_arrival.
  rewrite E1, E2, E3, E4. split_and!; try done. destruct (is_ok r); nia.
Qed.
Lemma lasts_ret {A} k (a : A) : 0 <= k -> lasts k (mret a).
Proof. intros Hk. apply lasts_instant; [done|]. by intros w r w' [= <- <-]. Qed.
Lemma lasts_throw {A} k e : 0 <= k -> lasts k (throw (A:=A) e).
Proof. intros Hk. apply lasts_instant; [done|]. by intros w r w' [= <- <-]. Qed.
Lemma lasts_send k a p : 0 <= k -> lasts k (io_other (on_net (send_packet_to a p))).
Proof.
  intros Hk. apply lasts_instant; [done|]. intros w r w'. unfold io_other, on_net, zoom, send_packet_to, mbind, eff_bind, lift.
  destruct (encode_packet p); [|by intros [= <- <-]]. unfold send_to.
  destruct (n_send (w_net w)) as [|[|] ?]; by intros [= <- <-].
Qed.

Lemma recv_matching_lasts pred : lasts 1 (timeout ← stream_timeout; recv_matching timeout pred).
Proof.
  intros w r w' Hw. unfold mbind, eff_bind, stream_timeout, gets, recv_matching.
  remember (n_read_timeout (w_net w)) as T eqn:HT. remember (n_now (w_net w) + T) as d eqn:Hd.
  assert (d - n_now (w_net w) <= T) as Hle by lia. clear Hd.
  destruct w as [n q waits s]. cbn [w_waits w_net w_inbox] in *.
  assert (forall waits0 n q, timed (World n q waits s) -> n_read_timeout n = T -> d - n_now n <= T ->
    recv_matching_loop d pred waits (World n q waits0 s) = (r, w') ->
    timed w' /\ n_read_timeout (w_net w') = T /\
    last_arrival w' <= last_arrival (World n q waits s) + (if is_ok r then 0 else 1 * T)) as Hloop.
  2: { by apply Hloop. }
  clear Hw HT Hle n q. induction waits as [|wk waits IH]; intros waits0 n q Hw HT Hle; cbn [recv_matching_loop w_inbox w_net];
    pose proof Hw as (Hr & Hws & H0); cbn [w_net w_waits] in Hr, Hws, H0;
    (destruct (take_matching pred q) as [[p rest]|] eqn:E; [intros [= <- <-]; split_and!; [done|done|unfold last_arrival; cbn; lia]|]);
    (destruct (_ <=? _) eqn:Ed; [intros [= <- <-]; split_and!; [done|done|unfold last_arrival; cbn; lia]|]);
    apply Z.leb_gt in Ed.
  - intros [= <- <-]. split_and!; [done|done|]. unfold last_arrival. cbn. lia.
  - apply list.Forall_cons in Hws as [Hwk Hws].
    assert (last_arrival (World n q (wk :: waits) s) = last_arrival (World (sleep (wk_elapsed wk) n).2 (q ++ wk_packets wk) waits s)) as Hlast
      by (unfold last_arrival; cbn; lia).
    destruct (wk_timed_out wk && _).
    + intros [= <- <-]. split_and!; [done|done|]. rewrite Hlast. unfold last_arrival. cbn. lia.
    + intros Hrun. rewrite Hlast. eapply IH; [|done| |exact Hrun]; [done|cbn; lia].
Qed.
Lemma recv_socket_lasts fuel pred : lasts 1 (recv_socket_loop self fuel pred).
Proof.
  induction fuel as [|fuel IH]; cbn [recv_socket_loop]; [by apply lasts_throw|]. apply lasts_bind.
  - intros w r w' (Hr & Hws & H0). unfold on_net, zoom, recv_from.
    destruct (n_recv (w_net w)) as [|ev rest] eqn:En.
    + intros [= <- <-]. split_and!; try done. unfold last_arrival. cbn. rewrite En. cbn. lia.
    + apply list.Forall_cons in Hr as [Hev Hr]. intros [= <- <-]. split_and!; try done.
      unfold last_arrival. cbn. rewrite En. cbn. destruct (is_ok _); lia.
  - intros [payload addr]. case_bool_decide; [|exact IH]. apply lasts_bind.
    + apply lasts_instant; [done|]. intros w r w'. unfold io_other, lift. by destruct (decode_packet payload); intros [= <- <-].
    + intros p. destruct (pred p); [by apply lasts_ret|exact IH].
Qed.
Lemma recv_lasts pred : lasts 1 (recv_session_packet self pred).
Proof.
  unfold recv_session_packet. destruct (st_has_inbox self); [apply recv_matching_lasts|].
  intros w. apply (recv_socket_lasts _ pred).
Qed.
Lemma handle_data_lasts k p : 0 <= k -> lasts k (handle_data_packet self p).
Proof.
  intros Hk. unfold handle_data_packet. destruct (aead_decrypt _ _ _); [|by apply lasts_throw].
  apply lasts_bind; [|intros _; by apply lasts_send]. apply lasts_instant; [done|]. by intros w r w' [= <- <-].
Qed.
Lemma wait_lasts seq : lasts 1 (wait_for_ack self seq).
Proof.
  intros w. unfold wait_for_ack. generalize (S (budget w)). intros fuel. revert w.
  change (lasts 1 (wait_for_ack_loop self fuel seq)). induction fuel as [|fuel IH]; cbn [wait_for_ack_loop]; [by apply lasts_throw|].
  apply lasts_bind; [apply recv_lasts|]. intros p. destruct (pk_kind p); [exact IH|exact IH| | |by apply lasts_throw].
  - apply lasts_bind; [by apply handle_data_lasts|]. intros _. exact IH.
  - destruct (_ =? _); [by apply lasts_ret|exact IH].
Qed.
Lemma read_lasts len : lasts 1 (read self len).
Proof.
  intros w. unfold read. destruct (pending_read (w_state w)).
  2: { unfold drain_pending. intros r w' Hw [= <- <-]. split_and!; [done|done|cbn; unfold last_arrival; cbn; lia]. }
  generalize (S (budget w)). intros fuel. revert w.
  change (lasts 1 (read_loop self fuel len)). induction fuel as [|fuel IH]; cbn [read_loop]; [by apply lasts_throw|].
  apply lasts_bind; [apply recv_lasts|]. intros p. destruct (pk_kind p); [exact IH|exact IH| |exact IH|by apply lasts_ret].
  apply lasts_bind; [by apply handle_data_lasts|]. intros _. apply lasts_bind.
  { apply lasts_instant; [done|]. by intros w r w' [= <- <-]. }
  intros [|b l]; [exact IH|]. apply lasts_instant; [done|]. by intros w r w' [= <- <-].
Qed.
Lemma write_loop_lasts n last p len w r w' : timed w -> write_loop self n last p len w = (r, w') ->
  timed w' /\ last_arrival w' <= last_arrival w + Z.of_nat n * n_read_timeout (w_net w).
Proof.
  revert last w; induction n as [|n IH]; intros last w Hw; cbn [write_loop]; [intros [= <- <-]; split; [done|lia]|].
  pose proof Hw as (_ & _ & H0). unfold mbind, eff_bind at 1. destruct (io_other _ w) as [[u|e] w1] eqn:Es;
    apply (lasts_send 0) in Es as (H1 & HT & H3); try done.
  2: { intros [= <- <-]. split; [done|]. simpl in H3. nia. }
  cbn [is_ok] in H3. unfold eff_bind, attempt. destruct (wait_for_ack self (pk_seq p) w1) as [[u'|e] w2] eqn:E;
    apply wait_lasts in E as (H1' & HT' & H3'); try done; cbn [is_ok] in H3'.
  - unfold next_send_seq, modify. intros [= <- <-]. split; [done|]. unfold last_arrival in *. cbn in *. nia.
  - destruct (is_retry_kind e).
    + intros Hr. apply IH in Hr as [? ?]; [|done]. rewrite HT', HT in *. split; [done|]. nia.
    + intros [= <- <-]. split; [done|]. rewrite HT in *. nia.
Qed.
Lemma write_lasts bytes w r w' : timed w -> write self bytes w = (r, w') ->
  timed w' /\ last_arrival w' <= last_arrival w + Z.of_nat RETRIES * n_read_timeout (w_net w).
Proof.
  intros Hw. unfold write, mbind, eff_bind, gets. destruct (aead_encrypt _ _ _); [by apply write_loop_lasts|].
  intros [= <- <-]. split; [done|]. destruct Hw as (_ & _ & H0). lia.
Qed.
End TimeFacts.


(** ** What the properties speak of *)

(** A sequence of operations on a stream, and the bytes its reads delivered. *)
Inductive stream_op := OpRead (len : nat) | OpWrite (bytes : list byte).
Fixpoint run_ops `{Aead} (self : stream) (ops : list stream_op) (w : world) : list byte * world :=
  match ops with
  | [] => ([], w)
  | OpRead len :: rest =>
      let '(r, w1) := read self len w in
      let '(out, w2) := run_ops self rest w1 in
      (default [] (result_ok r) ++ out, w2)
  | OpWrite bytes :: rest => run_ops self rest (write self bytes w).2
  end.

(** The data packets of [ps], handled in order. *)
Fixpoint handle_packets `{Aead} (self : stream) (ps : list packet) : eff world unit :=
  match ps with
  | [] => mret tt
  | p :: rest => _ ← handle_data_packet self p; handle_packets self rest
  end.

(** The peer's nonce for a sequence number, seen from the receiver. *)
Definition peer_nonce (self : stream) (seq : Z) : list byte :=
  nonce_bytes (direction_peer (st_direction self)) seq.
(** Authenticity: what decrypts under the nonce of [seq] is the peer's chunk [seq]. *)
Definition authentic `{Aead} (self : stream) (chunks : list (list byte)) : Prop :=
  forall seq c plaintext, 0 <= seq < u64_modulus ->
    aead_decrypt (st_key self) (peer_nonce self seq) c = Some plaintext ->
    chunks !! Z.to_nat seq = Some plaintext.

(** The reader's invariant: what it got and what is pending is a prefix of the chunks. *)
Definition delivered_prefix (chunks : list (list byte)) (drained : list byte)
    (s : session_state) : Prop :=
  exists received, reassembled chunks received drained s /\
    forall i, i ∈ received -> 0 <= i < Z.of_nat (length chunks).

Section PrefixFacts.
Context `{Aead} (self : stream) (chunks : list (list byte)).
Context (Hsmall : Z.of_nat (length chunks) < u64_modulus).

Lemma delivered_keeps_accept d :
  authentic self chunks -> keeps_accept self (delivered_prefix chunks d).
Proof.
  intros Hauth seq c pt s Hseq Hdec (received & Hre & Hr). specialize (Hauth _ _ _ Hseq Hdec).
  exists ({[seq]} ∪ received). split; [apply accept_data_ok; try done; lia|].
  intros i. rewrite elem_of_union, elem_of_singleton. intros [->|Hi]; [|auto].
  apply lookup_lt_Some in Hauth. lia.
Qed.
Lemma delivered_keeps_send d : keeps_send (delivered_prefix chunks d).
Proof.
  intros s (received & [Hb Hbe Hm Hd Hk] & Hr). exists received. split; [by constructor|done].
Qed.
Lemma delivered_keeps_drain : keeps_drain (delivered_prefix chunks).
Proof.
  intros d len s (received & [Hb Hbe Hm Hd Hk] & Hr). exists received. split; [|done].
  constructor; simpl; try done. by rewrite <- app_assoc, take_drop.
Qed.

Lemma run_ops_prefix ops d w out w' :
  authentic self chunks -> state_ok (delivered_prefix chunks d) w ->
  run_ops self ops w = (out, w') -> state_ok (delivered_prefix chunks (d ++ out)) w'.
Proof.
  intros Hauth. revert d w out; induction ops as [|[len|bytes] ops IH]; intros d w out Hw; simpl.
  - intros [= <- <-]. by rewrite app_nil_r.
  - destruct (read self len w) as [r w1] eqn:Er.
    destruct (run_ops self ops w1) as [out2 w2] eqn:Eo. intros [= <- <-].
    rewrite app_assoc. eapply IH; [|done].
    eapply read_state; [|apply delivered_keeps_drain|exact Hw|exact Er].
    intros d0. by apply delivered_keeps_accept.
  - destruct (write self bytes w) as [r w1] eqn:Ew. simpl. intros Hr. eapply IH; [|exact Hr].
    eapply preserves_write; [..|exact Ew]; [by apply delivered_keeps_accept|apply delivered_keeps_send|done].
Qed.

Lemma send_ack_ok seq w :
  0 <= seq < u64_modulus -> sends_ok (w_net w) ->
  exists d, send_ack self seq w = (Ok tt, set_net (sent_more [(st_peer_addr self, d)] 0 (w_net w)) w)
            /\ decode_packet d = Ok (Packet Ack seq []).
Proof.
  intros Hseq Hs. destruct (encode_packet (Packet Ack seq [])) as [d|e] eqn:E.
  - exists d. split; [|by apply decode_encode].
    unfold send_ack, io_other, on_net, zoom, send_packet_to, mbind, eff_bind, lift.
    rewrite E. by rewrite send_to_ok.
  - unfold encode_packet in E. unfold_result. simpl in E. done.
Qed.

Lemma handle_packets_ok ps received w :
  sends_ok (w_net w) -> reassembled chunks received [] (w_state w) ->
  (forall i, i ∈ received -> 0 <= i < Z.of_nat (length chunks)) ->
  Forall (fun p => packet_ok p /\ exists c, chunks !! Z.to_nat (pk_seq p) = Some c /\
    aead_decrypt (st_key self) (peer_nonce self (pk_seq p)) (pk_payload p) = Some c) ps ->
  exists w' acks, handle_packets self ps w = (Ok tt, w') /\
    reassembled chunks (list_to_set (map pk_seq ps) ∪ received) [] (w_state w') /\
    n_sent (w_net w') = n_sent (w_net w) ++ acks /\
    Forall2 (fun p sent => sent.1 = st_peer_addr self /\
                           decode_packet sent.2 = Ok (Packet Ack (pk_seq p) [])) ps acks.
Proof.
  revert received w; induction ps as [|p ps IH]; intros received w Hs Hre Hr Hps.
  { exists w, []. simpl. rewrite app_nil_r, (left_id_L ∅ (∪)). split_and!; done. }
  apply Forall_cons_1 in Hps as [(Hp & c & Hc & Hdec) Hps].
  set (w1 := set_state (accept_data (pk_seq p) c (w_state w)) w).
  destruct (send_ack_ok (pk_seq p) w1 Hp Hs) as (d & Hack & Hd).
  destruct (IH ({[pk_seq p]} ∪ received)
    (set_net (sent_more [(st_peer_addr self, d)] 0 (w_net w1)) w1)) as (w' & acks & Hrun & Hre' & Hsent & Hacks).
  - done.
  - apply accept_data_ok; try done. apply Hp.
  - intros i. rewrite elem_of_union, elem_of_singleton. intros [->|Hi]; [|auto].
    apply lookup_lt_Some in Hc. destruct Hp. lia.
  - done.
  - exists w', ((st_peer_addr self, d) :: acks). split_and!.
    + cbn [handle_packets]. unfold mbind, eff_bind at 1. unfold handle_data_packet.
      unfold peer_nonce in Hdec. rewrite Hdec. unfold mbind, eff_bind at 1, modify.
      fold w1. by rewrite Hack.
    + cbn [map list_to_set].
      assert (forall A B C : gset Z, (A ∪ B) ∪ C = B ∪ (A ∪ C)) as Hset by set_solver.
      rewrite Hset. exact Hre'.
    + rewrite Hsent. cbn. by rewrite <- app_assoc.
    + by constructor.
Qed.
End PrefixFacts.

(** ** Lemmas: writing to a silent peer *)

Section Silent.
Context `{Aead} (self : stream) (Hsock : st_has_inbox self = false).

Definition silent (w : world) : Prop := n_recv (w_net w) = [] /\ sends_ok (w_net w).

Lemma silent_wait seq w :
  silent w -> wait_for_ack self seq w
  = (Err (EIo WouldBlock), set_net (sent_more [] (n_read_timeout (w_net w)) (w_net w)) w).
Proof.
  intros [Hr Hs]. unfold wait_for_ack. cbn [wait_for_ack_loop].
  unfold mbind, eff_bind, recv_session_packet. rewrite Hsock, Hr. simpl.
  unfold mbind, eff_bind, on_net, zoom, recv_from. rewrite Hr, Hs.
  unfold sent_more. by rewrite Hr, app_nil_r.
Qed.

Lemma silent_write_loop n last p d len w :
  silent w -> encode_packet p = Ok d ->
  write_loop self n last p len w
  = (Err (match n with O => default (EIo TimedOut) last | S _ => EIo WouldBlock end),
     match n with O => w | S _ =>
     set_net (sent_more (replicate n (st_peer_addr self, d))
                (Z.of_nat n * n_read_timeout (w_net w)) (w_net w)) w end).
Proof.
  intros Hw Hd. revert last w Hw; induction n as [|n IH]; intros last w Hw; cbn [write_loop]; [done|].
  unfold mbind, eff_bind at 1, io_other, on_net, zoom, send_packet_to.
  unfold mbind, eff_bind at 1, lift. rewrite Hd. destruct Hw as [Hr Hs]. rewrite send_to_ok by done.
  unfold eff_bind, attempt. rewrite silent_wait by done. cbn [is_retry_kind].
  rewrite IH by done. cbn [w_net set_net]. rewrite !sent_more_more.
  f_equal; [by destruct n|]. destruct n as [|n]; cbn [set_net sent_more w_net w_inbox w_waits w_state].
  - unfold sent_more, set_net. cbn. do 2 f_equal. lia.
  - unfold sent_more, set_net. cbn -[Z.of_nat Z.mul]. do 2 f_equal. lia.
Qed.

Lemma silent_write bytes c d w :
  silent w ->
  aead_encrypt (st_key self) (nonce_bytes (st_direction self) (send_seq (w_state w)))
    (take MAX_PAYLOAD_LEN bytes) = Some c ->
  encode_packet (Packet Data (send_seq (w_state w)) c) = Ok d ->
  write self bytes w
  = (Err (EIo WouldBlock),
     set_net (sent_more (replicate RETRIES (st_peer_addr self, d))
                (Z.of_nat RETRIES * n_read_timeout (w_net w)) (w_net w)) w).
Proof.
  intros Hw Hc Hd. unfold write, mbind, eff_bind, gets. rewrite Hc.
  by rewrite (silent_write_loop _ _ _ d).
Qed.
End Silent.

(** ** Lemmas: waiting while packets arrive *)

(** An arrival that neither ends a wait nor brings a byte: a datagram of another address, or
    a data packet that was delivered before. *)
Definition brings_nothing `{Aead} (self : stream) (s : session_state) (ev : recv_event) : Prop :=
  exists payload addr, ev_result ev = Got payload addr /\
    (addr <> st_peer_addr self \/
     exists p plaintext, decode_packet (take MAX_PACKET_LEN payload) = Ok p /\ pk_kind p = Data /\
       pk_seq p < recv_seq s /\ aead_decrypt (st_key self) (peer_nonce self (pk_seq p)) (pk_payload p) = Some plaintext).

Section Idle.
Context `{Aead} (self : stream) (Hsock : st_has_inbox self = false).

(** Only such packets are to arrive at the socket, and every send succeeds. *)
Definition idle (s : session_state) (w : world) : Prop :=
  w_state w = s /\ w_waits w = [] /\ sends_ok (w_net w) /\ Forall (brings_nothing self s) (n_recv (w_net w)).
Lemma idle_last s w : idle s w -> n_recv (w_net w) = [] -> last_arrival w = n_now (w_net w).
Proof. intros (_ & Hw & _) Hr. unfold last_arrival. rewrite Hw, Hr. cbn. lia. Qed.

(** A run that times out once all have arrived. *)
Definition times_out {A} (s : session_state) (w : world) (x : result A * world) : Prop :=
  exists w', x = (Err (EIo WouldBlock), w') /\ idle s w' /\ n_recv (w_net w') = [] /\
    n_read_timeout (w_net w') = n_read_timeout (w_net w) /\ last_arrival w' = last_arrival w + n_read_timeout (w_net w).

Lemma idle_recv s fuel pred w :
  idle s w -> (length (n_recv (w_net w)) < fuel)%nat -> (forall p, pk_kind p = Data -> pred p = true) ->
  times_out s w (recv_socket_loop self fuel pred w) \/
  exists p w', recv_socket_loop self fuel pred w = (Ok p, w') /\ idle s w' /\ (length (n_recv (w_net w')) < length (n_recv (w_net w)))%nat /\
    n_read_timeout (w_net w') = n_read_timeout (w_net w) /\ last_arrival w' = last_arrival w /\ packet_ok p /\
    pk_kind p = Data /\ pk_seq p < recv_seq s /\
    exists plaintext, aead_decrypt (st_key self) (peer_nonce self (pk_seq p)) (pk_payload p) = Some plaintext.
Proof.
  intros Hw Hf Hpred. revert w Hw Hf; induction fuel as [|fuel IH]; intros w Hw Hf; [lia|]. cbn [recv_socket_loop].
  unfold mbind, eff_bind, on_net, zoom, recv_from. pose proof Hw as (Hst & Hwaits & Hs & Hr).
  destruct (n_recv (w_net w)) as [|ev rest] eqn:En.
  { left. eexists. split; [reflexivity|]. split; [by repeat split|]. split_and!; [done..|].
    unfold last_arrival. cbn. rewrite En, Hwaits. cbn. lia. }
  apply list.Forall_cons in Hr as [(payload & addr & Hev & Hwhat) Hr]. rewrite Hev.
  set (w1 := set_net _ w).
  assert (idle s w1) as Hw1 by (by repeat split).
  assert (last_arrival w1 = last_arrival w) as Hlast by (unfold last_arrival, w1; cbn; rewrite En; cbn; lia).
  assert (times_out s w (recv_socket_loop self fuel pred w1) \/
    exists p w', recv_socket_loop self fuel pred w1 = (Ok p, w') /\ idle s w' /\ (length (n_recv (w_net w')) < length (ev :: rest))%nat /\
      n_read_timeout (w_net w') = n_read_timeout (w_net w) /\ last_arrival w' = last_arrival w /\ packet_ok p /\
      pk_kind p = Data /\ pk_seq p < recv_seq s /\
      exists plaintext, aead_decrypt (st_key self) (peer_nonce self (pk_seq p)) (pk_payload p) = Some plaintext) as Hnext.
  { unfold times_out. rewrite <- Hlast. simpl in Hf. destruct (IH w1 Hw1) as [Ht|(p & w' & ? & ? & ? & ?)]; [simpl; lia|by left|].
    right. exists p, w'. split_and!; try tauto. simpl in *. lia. }
  case_bool_decide as Haddr; [|exact Hnext]. destruct Hwhat as [|(p & pt & Hdec & Hk & Hseq & Hpt)]; [done|].
  unfold io_other, lift. rewrite Hdec, Hpred by done. right. exists p, w1. pose proof (decode_ok_inv _ _ Hdec) as [Hp _].
  split_and!; try done; [simpl; lia|apply Hp..|by exists pt].
Qed.
(** A packet delivered before is acknowledged again and changes nothing else. *)
Lemma idle_handle s p w plaintext :
  idle s w -> packet_ok p -> pk_seq p < recv_seq s ->
  aead_decrypt (st_key self) (peer_nonce self (pk_seq p)) (pk_payload p) = Some plaintext ->
  exists d, handle_data_packet self p w = (Ok tt, set_net (sent_more [(st_peer_addr self, d)] 0 (w_net w)) w).
Proof.
  intros (Hst & _ & Hs & _) Hp Hseq Hpt. unfold peer_nonce in Hpt. unfold handle_data_packet, mbind, eff_bind, modify. rewrite Hpt.
  unfold accept_data. rewrite Hst, (proj2 (Z.ltb_lt _ _) Hseq).
  destruct (send_ack_ok self (pk_seq p) w) as (d & Hack & _); [apply Hp|done|]. exists d. rewrite <- Hst. by destruct w.
Qed.
Lemma idle_acked s w d : idle s w -> idle s (set_net (sent_more [d] 0 (w_net w)) w) /\
  last_arrival (set_net (sent_more [d] 0 (w_net w)) w) = last_arrival w.
Proof. intros (? & ? & ? & ?). split; [by repeat split|]. unfold last_arrival. cbn. lia. Qed.

Lemma idle_wait s seq w : idle s w -> times_out s w (wait_for_ack self seq w).
Proof.
  intros Hw. unfold wait_for_ack.
  assert (length (n_recv (w_net w)) < S (budget w))%nat as Hf by (unfold budget; lia).
  revert Hf. generalize (S (budget w)). intros fuel. revert w Hw. induction fuel as [|fuel IH]; intros w Hw Hf; [lia|].
  cbn [wait_for_ack_loop]. unfold mbind, eff_bind at 1, recv_session_packet. rewrite Hsock.
  destruct (idle_recv s (S (length (n_recv (w_net w)))) ack_data_or_close w) as [(w' & -> & H')|(p & w1 & -> & H1 & Hlen & Hto & Hlast & Hp & Hk & Hseq & pt & Hpt)];
    [done|lia|by unfold ack_data_or_close; intros p ->|by exists w'|].
  rewrite Hk. destruct (idle_handle s p w1 pt H1 Hp Hseq Hpt) as (d & Hh). unfold eff_bind. rewrite Hh.
  destruct (idle_acked s w1 (st_peer_addr self, d) H1) as [H2 Hl2].
  destruct (IH _ H2) as (w' & -> & Hi & Hr & Ht & Hl); [simpl; lia|].
  exists w'. rewrite Hl, Hl2, Ht. cbn. rewrite Hto, Hlast. done.
Qed.
Lemma idle_read s len w : idle s w -> pending_read s = [] -> times_out s w (read self len w).
Proof.
  intros Hw Hpend. unfold read. rewrite (proj1 Hw), Hpend.
  assert (length (n_recv (w_net w)) < S (budget w))%nat as Hf by (unfold budget; lia).
  revert Hf. generalize (S (budget w)). intros fuel. revert w Hw. induction fuel as [|fuel IH]; intros w Hw Hf; [lia|].
  cbn [read_loop]. unfold mbind, eff_bind at 1, recv_session_packet. rewrite Hsock.
  destruct (idle_recv s (S (length (n_recv (w_net w)))) data_or_close w) as [(w' & -> & H')|(p & w1 & -> & H1 & Hlen & Hto & Hlast & Hp & Hk & Hseq & pt & Hpt)];
    [done|lia|by unfold data_or_close; intros p ->|by exists w'|].
  rewrite Hk. destruct (idle_handle s p w1 pt H1 Hp Hseq Hpt) as (d & Hh). unfold eff_bind at 1. rewrite Hh.
  destruct (idle_acked s w1 (st_peer_addr self, d) H1) as [H2 Hl2].
  unfold eff_bind, gets. rewrite (proj1 H2), Hpend.
  destruct (IH _ H2) as (w' & -> & Hi & Hr & Ht & Hl); [simpl; lia|].
  exists w'. rewrite Hl, Hl2, Ht. cbn. rewrite Hto, Hlast. done.
Qed.
(** An attempt of a write that is not acknowledged. *)
Lemma idle_attempt s n last p d len w :
  idle s w -> encode_packet p = Ok d ->
  exists w1, write_loop self (S n) last p len w = write_loop self n (Some (EIo WouldBlock)) p len w1 /\
    idle s w1 /\ n_recv (w_net w1) = [] /\ n_read_timeout (w_net w1) = n_read_timeout (w_net w) /\
    last_arrival w1 = last_arrival w + n_read_timeout (w_net w).
Proof.
  intros Hw Hd. cbn [write_loop]. set (next := write_loop self n).
  unfold mbind, eff_bind at 1, io_other, on_net, zoom, send_packet_to.
  unfold mbind, eff_bind at 1, lift. rewrite Hd, send_to_ok by apply Hw. unfold eff_bind, attempt.
  destruct (idle_acked s w (st_peer_addr self, d) Hw) as [H2 Hl2].
  destruct (idle_wait s (pk_seq p) _ H2) as (w1 & -> & Hi & Hr & Ht & Hl). cbn [is_retry_kind].
  exists w1. rewrite Hl, Hl2, Ht. done.
Qed.
Lemma idle_write_loop s n last p d len w :
  idle s w -> encode_packet p = Ok d ->
  exists w', write_loop self (S n) last p len w = (Err (EIo WouldBlock), w') /\ idle s w' /\ n_recv (w_net w') = [] /\
    last_arrival w' = last_arrival w + Z.of_nat (S n) * n_read_timeout (w_net w).
Proof.
  intros Hw Hd. revert last w Hw. induction n as [|n IH]; intros last w Hw;
    [destruct (idle_attempt s O last p d len w Hw Hd) as (w1 & -> & Hi & Hr & Ht & Hl)
    |destruct (idle_attempt s (S n) last p d len w Hw Hd) as (w1 & -> & Hi & Hr & Ht & Hl)].
  - exists w1. split; [done|]. split_and!; [done|done|lia].
  - destruct (IH (Some (EIo WouldBlock)) w1 Hi) as (w' & -> & Hi' & Hr' & Hl'). exists w'.
    split_and!; [done|done|done|]. rewrite Hl', Hl, Ht. lia.
Qed.
End Idle.

(** ** Environments for the witnesses *)

(** Encryption as the nonce in front of the plaintext. *)
Definition toy_aead : Aead := {|
  aead_encrypt := fun key nonce p => Some (nonce ++ p);
  aead_decrypt := fun key nonce c =>
    if bool_decide (take (length nonce) c = nonce) then Some (drop (length nonce) c) else None
|}.
Lemma toy_aead_ok : @AeadOk toy_aead.
Proof.
  constructor. intros key nonce p c [= <-]. simpl.
  rewrite take_app_length, drop_app_length. by rewrite bool_decide_eq_true_2.
Qed.
(** The same where only the chunks of the peer decrypt. *)
Definition toy_authentic_aead (chunks : list (list byte)) : Aead := {|
  aead_encrypt := fun key nonce p => Some (nonce ++ p);
  aead_decrypt := fun key nonce c =>
    match chunks !! Z.to_nat (from_be (drop 4 nonce)) with
    | Some p => if bool_decide (c = nonce ++ p) then Some p else None
    | None => None
    end
|}.
Definition toy_addr : socket_addr := SockV4 (Ipv4 10 0 0 9) 17002.
Definition toy_stream : stream := Stream toy_addr [] false ClientToNode.
Lemma toy_authentic chunks : @authentic (toy_authentic_aead chunks) toy_stream chunks.
Proof.
  intros seq c pt Hseq. cbn [aead_decrypt toy_authentic_aead].
  replace (from_be (drop 4 (peer_nonce toy_stream seq))) with seq
    by (symmetry; by apply (from_to_be 8)).
  destruct (chunks !! Z.to_nat seq) as [p|]; [|done]. case_bool_decide; [|done]. by intros [= <-].
Qed.
Definition toy_chunks : list (list byte) := [[x61; x62]; [x63]].
Definition toy_data (seq : Z) (p : list byte) : packet :=
  Packet Data seq (peer_nonce toy_stream seq ++ p).
(** The two chunks arrive in the wrong order, the first one twice. *)
Definition toy_arrivals : list packet :=
  [toy_data 1 [x63]; toy_data 0 [x61; x62]; toy_data 0 [x61; x62]].
Definition toy_event (p : packet) : recv_event :=
  RecvEvent 1 (Got (match encode_packet p with Ok d => d | Err _ => [] end) toy_addr).
Definition toy_world : world := World (quiet (map toy_event toy_arrivals)) [] [] initial_state.

(** ** Properties *)

(** C5. Whatever arrives at a stream, in any order, repeated, forged or malformed, and
    whatever reads and writes are made on it and fail: the bytes its reads deliver are
    a prefix of the bytes the peer sent, and the bytes ready for the next read are the
    ones that follow. *)
Theorem reads_deliver_a_prefix `{Aead} (self : stream) (chunks : list (list byte))
    (ops : list stream_op) (w : world) :
  authentic self chunks -> Z.of_nat (length chunks) < u64_modulus ->
  inbox_ok w -> w_state w = initial_state ->
  let '(out, w') := run_ops self ops w in
  exists k, (k <= length chunks)%nat /\ out ++ pending_read (w_state w') = concat (take k chunks).
Proof.
  intros Hauth Hsmall Hi Hw. destruct (run_ops self ops w) as [out w'] eqn:Er.
  assert (state_ok (delivered_prefix chunks []) w) as Hok.
  { split; [|done]. rewrite Hw. exists ∅. split; [by apply reassembled_initial|set_solver]. }
  pose proof (run_ops_prefix self chunks Hsmall ops [] w out w' Hauth Hok Er)
    as [(rcv & [Hb _ _ Hd _] & _) _].
  exists (Z.to_nat (recv_seq (w_state w'))). split; [lia|done].
Qed.

Lemma reads_deliver_a_prefix_witness :
  let '(out, w') := @run_ops (toy_authentic_aead toy_chunks) toy_stream [OpRead 2; OpRead 5] toy_world in
  exists k, (k <= length toy_chunks)%nat /\
            out ++ pending_read (w_state w') = concat (take k toy_chunks).
Proof.
  apply (@reads_deliver_a_prefix (toy_authentic_aead toy_chunks) toy_stream toy_chunks
           [OpRead 2; OpRead 5] toy_world).
  - apply toy_authentic.
  - vm_compute. reflexivity.
  - split; constructor.
  - reflexivity.
Defined.

(** Authentic data packets, handled in any order and with any repetition: each is
    acknowledged, and exactly the chunks before the first missing one are delivered,
    once each and in order. *)
Theorem data_packets_reassemble `{Aead} (self : stream) (chunks : list (list byte))
    (ps : list packet) (w : world) :
  Z.of_nat (length chunks) < u64_modulus -> sends_ok (w_net w) -> w_state w = initial_state ->
  Forall (fun p => packet_ok p /\ exists c, chunks !! Z.to_nat (pk_seq p) = Some c /\
    aead_decrypt (st_key self) (peer_nonce self (pk_seq p)) (pk_payload p) = Some c) ps ->
  exists w' acks k,
    handle_packets self ps w = (Ok tt, w') /\
    n_sent (w_net w') = n_sent (w_net w) ++ acks /\
    Forall2 (fun p sent => sent.1 = st_peer_addr self /\
                           decode_packet sent.2 = Ok (Packet Ack (pk_seq p) [])) ps acks /\
    pending_read (w_state w') = concat (take k chunks) /\
    (forall i, (i < k)%nat -> Z.of_nat i ∈ map pk_seq ps) /\ Z.of_nat k ∉ map pk_seq ps.
Proof.
  intros Hsmall Hs Hw Hps.
  destruct (handle_packets_ok self chunks Hsmall ps ∅ w) as (w' & acks & Hrun & Hre & Hsent & Hacks);
    [done|rewrite Hw; by apply reassembled_initial|set_solver|done|].
  destruct Hre as [Hb Hbe Hm Hd _]. rewrite (right_id_L ∅ (∪)) in Hbe, Hm.
  exists w', acks, (Z.to_nat (recv_seq (w_state w'))). split_and!; try done.
  - intros i Hi. specialize (Hbe (Z.of_nat i) ltac:(lia)). by rewrite elem_of_list_to_set in Hbe.
  - rewrite Z2Nat.id by lia. by rewrite elem_of_list_to_set in Hm.
Qed.

Lemma data_packets_reassemble_witness :
  exists w' acks k,
    @handle_packets toy_aead toy_stream toy_arrivals (World (quiet []) [] [] initial_state) = (Ok tt, w') /\
    n_sent (w_net w') = [] ++ acks /\
    Forall2 (fun p sent => sent.1 = toy_addr /\
                           decode_packet sent.2 = Ok (Packet Ack (pk_seq p) [])) toy_arrivals acks /\
    pending_read (w_state w') = concat (take k toy_chunks) /\
    (forall i, (i < k)%nat -> Z.of_nat i ∈ map pk_seq toy_arrivals) /\
    Z.of_nat k ∉ map pk_seq toy_arrivals.
Proof.
  apply (@data_packets_reassemble toy_aead toy_stream toy_chunks toy_arrivals
           (World (quiet []) [] [] initial_state));
    [vm_compute; reflexivity|reflexivity|reflexivity|].
  repeat (constructor; [split; [vm_compute; split; discriminate || reflexivity
    |eexists; split; [reflexivity|vm_compute; reflexivity]]|]). constructor.
Defined.


(** A datagram of another address, then a chunk that was delivered before, 300 ms after each
    other, on a socket with a timeout of 200 ms. *)
Definition toy_idle_world : world :=
  World (Net [RecvEvent (millis 300) (Got [x01] (SockV4 (Ipv4 10 0 0 7) 9)); RecvEvent (millis 300) (ev_result (toy_event (toy_data 0 [x61; x62])))]
           [] [] 0 (millis 200)) [] []
    (SessionState 0 1 [] ∅).

(** A write takes at most 1100 bytes, and the sequence number advances exactly when it
    succeeds; the chunk was then sent to the peer, encrypted under that number's nonce. *)
Theorem write_result `{Aead} (self : stream) (bytes : list byte) (w w' : world)
    (r : result nat) :
  inbox_ok w -> write self bytes w = (r, w') ->
  match r with
  | Ok n =>
      n = Nat.min MAX_PAYLOAD_LEN (length bytes) /\
      send_seq (w_state w') = (send_seq (w_state w) + 1) mod u64_modulus /\
      exists c d, aead_encrypt (st_key self) (nonce_bytes (st_direction self) (send_seq (w_state w)))
                    (take n bytes) = Some c /\
        encode_packet (Packet Data (send_seq (w_state w)) c) = Ok d /\
        (st_peer_addr self, d) ∈ n_sent (w_net w')
  | Err _ => send_seq (w_state w') = send_seq (w_state w)
  end.
Proof.
  intros Hi. unfold write, mbind, eff_bind, gets.
  destruct (aead_encrypt _ _ _) as [c|] eqn:Ec; [|by intros [= <- <-]].
  intros Hr. apply write_loop_result in Hr as [_ Hr]; [|done].
  destruct r as [n|e]; [|done]. destruct Hr as (-> & Hseq & d & Hd & Hin).
  split_and!; [by rewrite length_take|done|]. exists c, d. split_and!; try done.
  rewrite <- Ec. f_equal. rewrite length_take.
  destruct (Nat.le_ge_cases MAX_PAYLOAD_LEN (length bytes)) as [Hle|Hge].
  - by rewrite Nat.min_l.
  - by rewrite Nat.min_r, !take_ge by lia.
Qed.

Lemma write_result_witness :
  let w := World (quiet [toy_event (Packet Ack 0 [])]) [] [] initial_state in
  2%nat = Nat.min MAX_PAYLOAD_LEN 2 /\
  send_seq (w_state (@write toy_aead toy_stream [x61; x62] w).2) = 1 mod u64_modulus /\
  exists c d, @aead_encrypt toy_aead [] (nonce_bytes ClientToNode 0) [x61; x62] = Some c /\
  encode_packet (Packet Data 0 c) = Ok d /\
  (toy_addr, d) ∈ n_sent (w_net (@write toy_aead toy_stream [x61; x62] w).2).
Proof.
  exact (@write_result toy_aead toy_stream [x61; x62]
    (World (quiet [toy_event (Packet Ack 0 [])]) [] [] initial_state) _ (Ok 2%nat)
    ltac:(split; constructor) ltac:(vm_compute; reflexivity)).
Defined.

(** After five unanswered sends [write] gives up without moving the sequence number:
    two writes of different data to a silent peer put two different plaintexts on the
    wire under the same key and nonce, and a peer that took the first drops the second
    while acknowledging it. *)
Theorem timed_out_writes_reuse_the_nonce `{Aead} (self : stream) (w : world)
    (b1 b2 c1 c2 d1 d2 : list byte) :
  st_has_inbox self = false -> silent w ->
  let seq := send_seq (w_state w) in
  aead_encrypt (st_key self) (nonce_bytes (st_direction self) seq) (take MAX_PAYLOAD_LEN b1) = Some c1 ->
  aead_encrypt (st_key self) (nonce_bytes (st_direction self) seq) (take MAX_PAYLOAD_LEN b2) = Some c2 ->
  encode_packet (Packet Data seq c1) = Ok d1 -> encode_packet (Packet Data seq c2) = Ok d2 ->
  let w1 := (write self b1 w).2 in let w2 := (write self b2 w1).2 in
  n_sent (w_net w2) = n_sent (w_net w) ++ replicate RETRIES (st_peer_addr self, d1)
                                        ++ replicate RETRIES (st_peer_addr self, d2) /\
  (forall (peer : stream) v plaintext, 0 <= seq < recv_seq (w_state v) -> seq < u64_modulus ->
     sends_ok (w_net v) ->
     aead_decrypt (st_key peer) (peer_nonce peer seq) c2 = Some plaintext ->
     exists v' ack, handle_data_packet peer (Packet Data seq c2) v = (Ok tt, v') /\
       w_state v' = w_state v /\
       n_sent (w_net v') = n_sent (w_net v) ++ [(st_peer_addr peer, ack)] /\
       decode_packet ack = Ok (Packet Ack seq [])).
Proof.
  intros Hsock Hw seq H1 H2 Hd1 Hd2 w1 w2. subst w1 w2.
  rewrite (silent_write self Hsock b1 c1 d1) by done. cbn [snd].
  rewrite (silent_write self Hsock b2 c2 d2) by (done || (destruct Hw; by split)).
  cbn. split; [by rewrite <- app_assoc|].
  intros peer v pt Hlt Hu Hs Hdec. destruct (send_ack_ok peer seq v) as (ack & Hack & Ha); [lia|done|].
  exists (set_net (sent_more [(st_peer_addr peer, ack)] 0 (w_net v)) v), ack.
  split_and!; [|done|done|done].
  unfold handle_data_packet, mbind, eff_bind, modify. unfold peer_nonce in Hdec.
  cbn [pk_seq pk_payload]. rewrite Hdec. unfold accept_data.
  rewrite (proj2 (Z.ltb_lt _ _)) by lia. destruct v. exact Hack.
Qed.

Lemma timed_out_writes_reuse_the_nonce_witness :
  let w := World (quiet []) [] [] initial_state in
  let enc p := (match encode_packet (Packet Data 0 (nonce_bytes ClientToNode 0 ++ p)) with
                | Ok d => d | Err _ => [] end) in
  let w1 := (@write toy_aead toy_stream [x61] w).2 in
  let w2 := (@write toy_aead toy_stream [x62] w1).2 in
  n_sent (w_net w2) = [] ++ replicate RETRIES (toy_addr, enc [x61]) ++ replicate RETRIES (toy_addr, enc [x62]) /\
  (forall (peer : stream) v plaintext, 0 <= 0 < recv_seq (w_state v) -> 0 < u64_modulus ->
     sends_ok (w_net v) ->
     @aead_decrypt toy_aead (st_key peer) (peer_nonce peer 0) (nonce_bytes ClientToNode 0 ++ [x62])
       = Some plaintext ->
     exists v' ack, @handle_data_packet toy_aead peer
         (Packet Data 0 (nonce_bytes ClientToNode 0 ++ [x62])) v = (Ok tt, v') /\
       w_state v' = w_state v /\
       n_sent (w_net v') = n_sent (w_net v) ++ [(st_peer_addr peer, ack)] /\
       decode_packet ack = Ok (Packet Ack 0 [])).
Proof.
  apply (@timed_out_writes_reuse_the_nonce toy_aead toy_stream (World (quiet []) [] [] initial_state)
    [x61] [x62] (nonce_bytes ClientToNode 0 ++ [x61]) (nonce_bytes ClientToNode 0 ++ [x62]));
    [reflexivity|split; reflexivity|reflexivity|reflexivity|vm_compute; reflexivity|vm_compute; reflexivity].
Defined.
