(* ===== verification/UdpChannel.v ===== *)
(** * A UDP session between two ends

    The two ends of a session as programs over [UdpSessionStream] ([UdpSession.v]): each makes
    reads and writes, and stops at its first failed write, as the callers of [write_all] and
    [io::copy] do.  The network may lose, repeat, delay and reorder what they send; what
    is proved is what an acknowledged write means at the other end. *)

From S2P Require Import Prelude NetAddr Net UdpPacket UdpSession.

(** ** An end *)

(** What the reads of an end delivered, the chunks its writes took, the one whose write
    failed. *)
Record end_run := EndRun {
  er_read : list byte;
  er_acked : list (list byte);
  er_failed : option (list byte);
  er_world : world
}.
Fixpoint run_end `{Aead} (self : stream) (ops : list stream_op) (w : world) : end_run :=
  match ops with
  | [] => EndRun [] [] None w
  | OpRead len :: rest =>
      let '(r, w) := read self len w in
      let run := run_end self rest w in
      EndRun (default [] (result_ok r) ++ er_read run) (er_acked run) (er_failed run) (er_world run)
  | OpWrite bytes :: rest =>
      let chunk := take MAX_PAYLOAD_LEN bytes in
      match write self bytes w with
      | (Ok _, w) =>
          let run := run_end self rest w in
          EndRun (er_read run) (chunk :: er_acked run) (er_failed run) (er_world run)
      | (Err _, w) => EndRun [] [] (Some chunk) w
      end
  end.
(** The chunks by their sequence numbers. *)
Definition er_chunks (r : end_run) : list (list byte) := er_acked r ++ option_list (er_failed r).

(** The sequence numbers acknowledged so far. *)
Definition acks_in (sent : list (socket_addr * list byte)) : list Z :=
  omap (fun '(_, d) =>
    match decode_packet d with
    | Ok p => match pk_kind p with Ack => Some (pk_seq p) | _ => None end
    | Err _ => None
    end) sent.
Definition acks_sent (w : world) : list Z := acks_in (n_sent (w_net w)).

(** ** Lemmas: what arrives *)

(** What may still arrive at an end, in its inbox or at its socket from its peer. *)
Definition arrives (self : stream) (P : packet -> Prop) (w : world) : Prop :=
  Forall P (w_inbox w) /\ Forall (fun wk => Forall P (wk_packets wk)) (w_waits w) /\
  Forall (fun ev => match ev_result ev with
                    | Got payload addr =>
                        addr = st_peer_addr self -> forall p, decode_packet (take MAX_PACKET_LEN payload) = Ok p -> P p
                    | Failed _ => True
                    end) (n_recv (w_net w)).

Section Arrives.
Context `{Aead} (self : stream) (P : packet -> Prop).

(** Only receiving takes from what may arrive. *)
Lemma arrives_state s w : arrives self P w -> arrives self P (set_state s w).
Proof. done. Qed.
Lemma arrives_send a p : preserves (arrives self P) (on_net (send_packet_to a p)).
Proof.
  intros w r w' (Hq & Hws & Hn) Hr. unfold on_net, zoom in Hr.
  destruct (send_packet_to a p (w_net w)) as [r1 n1] eqn:E. injection Hr as _ <-. split_and!; [done|done|]. cbn [w_net set_net].
  unfold send_packet_to, mbind, eff_bind, lift in E. destruct (encode_packet p); [|by injection E as _ <-].
  unfold send_to in E. destruct (n_send (w_net w)) as [|[]]; by injection E as _ <-.
Qed.
Lemma arrives_recv_matching timeout pred w r w' :
  arrives self P w -> recv_matching timeout pred w = (r, w') -> arrives self P w' /\ (forall p, r = Ok p -> P p).
Proof.
  unfold recv_matching. generalize (n_now (w_net w) + timeout) as d. intros d (Hq & Hws & Hn). revert Hws.
  generalize (w_waits w) as waits. intros waits. revert w Hq Hn.
  induction waits as [|wk waits IH]; intros w Hq Hn Hws; cbn [recv_matching_loop];
    (destruct (take_matching pred (w_inbox w)) as [[p rest]|] eqn:E;
     [destruct (take_matching_forall P _ _ _ _ E Hq); intros [= <- <-]; split; [by repeat split|by intros p' [= <-]]|]);
    (destruct (_ <=? _); [intros [= <- <-]; by repeat split|]).
  - intros [= <- <-]; by repeat split.
  - inversion Hws; subst. assert (Forall P (w_inbox w ++ wk_packets wk)) by (by apply Forall_app).
    destruct (wk_timed_out wk && _); [intros [= <- <-]; by repeat split|]. by apply IH.
Qed.
Lemma arrives_recv_socket fuel pred w r w' :
  arrives self P w -> recv_socket_loop self fuel pred w = (r, w') -> arrives self P w' /\ (forall p, r = Ok p -> P p).
Proof.
  revert w; induction fuel as [|fuel IH]; intros w Ha; cbn [recv_socket_loop]; [by intros [= <- <-]|].
  unfold mbind, eff_bind at 1, on_net, zoom, recv_from. pose proof Ha as (Hq & Hws & Hn).
  destruct (n_recv (w_net w)) as [|ev evs] eqn:Er; [intros [= <- <-]; by repeat split|].
  inversion Hn as [|? ? Hev Hevs]; subst.
  set (n1 := Net evs _ _ _ _). assert (arrives self P (set_net n1 w)) as Ha1 by by repeat split.
  destruct (ev_result ev) as [payload addr|k]; [|by intros [= <- <-]]. case_bool_decide as Haddr; [|by apply IH].
  unfold eff_bind, io_other, lift. destruct (decode_packet _) as [p|e] eqn:Ed; [|by intros [= <- <-]].
  destruct (pred p); [|by apply IH]. intros [= <- <-]. split; [done|]. intros p' [= <-]. by apply Hev.
Qed.
Lemma arrives_recv pred w r w' :
  arrives self P w -> recv_session_packet self pred w = (r, w') -> arrives self P w' /\ (forall p, r = Ok p -> P p).
Proof.
  intros Ha. unfold recv_session_packet. destruct (st_has_inbox self); [|by apply arrives_recv_socket].
  by apply arrives_recv_matching.
Qed.
Lemma arrives_handle p : preserves (arrives self P) (handle_data_packet self p).
Proof.
  unfold handle_data_packet. destruct (aead_decrypt _ _ _); [|apply preserves_throw].
  apply preserves_bind; [by apply preserves_modify|]. intros _. apply preserves_io_other, arrives_send.
Qed.
(** A wait that ends well has taken its acknowledgement. *)
Lemma arrives_wait seq w r w' :
  arrives self P w -> wait_for_ack self seq w = (r, w') ->
  arrives self P w' /\ (r = Ok tt -> exists p, P p /\ pk_kind p = Ack /\ pk_seq p = seq).
Proof.
  unfold wait_for_ack. generalize (S (budget w)) as fuel. intros fuel. revert w.
  induction fuel as [|fuel IH]; intros w Ha; cbn [wait_for_ack_loop]; [by intros [= <- <-]|].
  unfold mbind, eff_bind at 1. destruct (recv_session_packet self ack_data_or_close w) as [[p|e] w1] eqn:Er;
    apply arrives_recv in Er as [Ha1 Hp]; try done; [|by intros [= <- <-]].
  destruct (pk_kind p) eqn:Hk; try by apply IH.
  - unfold eff_bind at 1. destruct (handle_data_packet self p w1) as [[[]|e] w2] eqn:Eh; apply arrives_handle in Eh; try done;
      [by apply IH|by intros [= <- <-]].
  - destruct (Z.eqb_spec (pk_seq p) seq) as [Hs|]; [|by apply IH]. intros [= <- <-]. split; [done|]. eauto.
  - by intros [= <- <-].
Qed.
Lemma arrives_read len : preserves (arrives self P) (read self len).
Proof.
  intros w r w' Ha. unfold read. destruct (pending_read (w_state w)); [|by intros [= _ <-]].
  generalize (S (budget w)) as fuel. intros fuel. revert w Ha.
  induction fuel as [|fuel IH]; intros w Ha; cbn [read_loop]; [by intros [= _ <-]|].
  unfold mbind, eff_bind at 1. destruct (recv_session_packet self data_or_close w) as [[p|e] w1] eqn:Er;
    apply arrives_recv in Er as [Ha1 _]; try done; [|by intros [= _ <-]].
  destruct (pk_kind p); try by apply IH.
  2: by intros [= _ <-].
  unfold eff_bind at 1. destruct (handle_data_packet self p w1) as [[[]|e] w2] eqn:Eh; apply arrives_handle in Eh; try done;
    [|by intros [= _ <-]].
  unfold eff_bind, gets. destruct (pending_read (w_state w2)); [by apply IH|by intros [= _ <-]].
Qed.
End Arrives.

(** ** Lemmas: an end's writes *)

Section Writes.
Context `{Aead} (self : stream) (P : packet -> Prop).

Lemma write_loop_arrives n last p len w r w' :
  arrives self P w -> write_loop self n last p len w = (r, w') ->
  arrives self P w' /\ (is_ok r = true -> exists ack, P ack /\ pk_kind ack = Ack /\ pk_seq ack = pk_seq p).
Proof.
  revert last w; induction n as [|n IH]; intros last w Ha; cbn [write_loop]; [by intros [= <- <-]|].
  unfold mbind, eff_bind at 1. destruct (io_other _ w) as [[u|e] w1] eqn:Es;
    apply (preserves_io_other (arrives self P) _ (arrives_send self P _ _)) in Es; try done; [|by intros [= <- <-]].
  unfold eff_bind, attempt. destruct (wait_for_ack self (pk_seq p) w1) as [ra w2] eqn:Ew.
  apply (arrives_wait self P) in Ew as [Ha2 Hack]; [|done]. destruct ra as [[]|e].
  - intros [= <- <-]. split; [done|]. intros _. by apply Hack.
  - destruct (is_retry_kind e); [by apply IH|by intros [= <- <-]].
Qed.
(** A write that ends well was acknowledged, and moves on to the next number. *)
Lemma write_acked bytes w r w' :
  inbox_ok w -> arrives self P w -> write self bytes w = (r, w') ->
  inbox_ok w' /\ arrives self P w' /\
  (is_ok r = true -> send_seq (w_state w') = (send_seq (w_state w) + 1) mod u64_modulus /\
     exists p, P p /\ pk_kind p = Ack /\ pk_seq p = send_seq (w_state w)).
Proof.
  intros Hi Ha. unfold write, mbind, eff_bind at 1, gets.
  destruct (aead_encrypt _ _ _) as [c|]; [|by intros [= <- <-]]. intros Hr.
  apply write_loop_result in Hr as Hres; [|done]. destruct Hres as [Hi' Hres].
  apply write_loop_arrives in Hr as [Ha' Hack]; [|done]. split; [done|]. split; [done|]. intros Hok.
  split; [|by apply Hack]. destruct r; [|done]. by destruct Hres as (_ & ? & _).
Qed.
Lemma read_keeps len w r w' :
  inbox_ok w -> arrives self P w -> read self len w = (r, w') ->
  inbox_ok w' /\ arrives self P w' /\ send_seq (w_state w') = send_seq (w_state w).
Proof.
  intros Hi Ha Hr. apply (arrives_read self P) in Hr as Ha'; [|done].
  assert (state_ok (fun s => send_seq s = send_seq (w_state w)) w') as [Hs Hi']; [|done].
  eapply (read_state self (fun _ s => send_seq s = send_seq (w_state w)) []); [..|exact Hr].
  - intros _. apply send_seq_keeps.
  - by intros d n s Hs.
  - by split.
Qed.
(** Each acknowledged chunk of a run has had its acknowledgement. *)
Lemma run_end_acked ops w k :
  inbox_ok w -> arrives self P w -> send_seq (w_state w) = Z.of_nat k ->
  Z.of_nat (k + length (er_acked (run_end self ops w))) < u64_modulus ->
  forall i, (i < length (er_acked (run_end self ops w)))%nat ->
    exists p, P p /\ pk_kind p = Ack /\ pk_seq p = Z.of_nat (k + i).
Proof.
  revert w k; induction ops as [|[len|bytes] ops IH]; intros w k Hi Ha Hk; cbn [run_end]; [by cbn; lia| |].
  - destruct (read self len w) as [r w1] eqn:Er. destruct (read_keeps _ _ _ _ Hi Ha Er) as (Hi1 & Ha1 & Hk1).
    cbn [er_acked]. apply IH; [done..|by rewrite Hk1].
  - destruct (write self bytes w) as [[m|e] w1] eqn:Ew; [|cbn; lia].
    destruct (write_acked _ _ _ _ Hi Ha Ew) as (Hi1 & Ha1 & Hok). destruct (Hok eq_refl) as (Hk1 & p & Hp & Hack & Hseq).
    cbn [er_acked length]. intros Hlen i Hlt. destruct i as [|i].
    + exists p. rewrite Nat.add_0_r, <- Hk. by split_and!.
    + replace (k + S i)%nat with (S k + i)%nat by lia. apply (IH w1 (S k)); [done|done| |lia|lia].
      rewrite Hk1, Hk, Z.mod_small by lia. lia.
Qed.
End Writes.

(** ** Lemmas: an end's acknowledgements *)

Lemma acks_in_app a b : acks_in (a ++ b) = acks_in a ++ acks_in b.
Proof. unfold acks_in. apply omap_app. Qed.
(** Receiving sends nothing and leaves the state of the session. *)
Definition keeps_sent (w w' : world) : Prop := w_state w' = w_state w /\ n_sent (w_net w') = n_sent (w_net w).

Lemma keeps_sent_recv sent : keeps_recv (fun n => n_sent n = sent).
Proof. constructor; [|done]. intros size n r n' <-. unfold recv_from. destruct (n_recv n); by intros [= _ <-]. Qed.

Section Acks.
Context `{Aead} (self : stream) (chunks : list (list byte)).
Context (Hsmall : Z.of_nat (length chunks) < u64_modulus) (Hauth : authentic self chunks).

Lemma recv_keeps_sent pred w r w' :
  inbox_ok w -> recv_session_packet self pred w = (r, w') ->
  inbox_ok w' /\ keeps_sent w w' /\ forall p, r = Ok p -> packet_ok p.
Proof.
  intros Hi Hr. assert (state_ok (fun s => s = w_state w) w) as Hw by by split.
  destruct (preserves_state_recv self (fun s => s = w_state w) pred w r w' Hw Hr) as [Hs Hi'].
  split; [done|]. split; [split; [done|]|].
  - by apply (preserves_net_recv self _ (keeps_sent_recv (n_sent (w_net w)))) in Hr.
  - intros p ->. by apply (recv_packet_ok self (fun s => s = w_state w)) in Hr.
Qed.

(** Every acknowledgement sent is for a chunk that was received. *)
Definition end_inv (drained : list byte) (w : world) : Prop :=
  inbox_ok w /\ packet_ok (Packet Data (send_seq (w_state w)) []) /\
  exists received, reassembled chunks received drained (w_state w) /\
    (forall i, i ∈ received -> 0 <= i < Z.of_nat (length chunks)) /\
    forall seq, seq ∈ acks_sent w -> seq ∈ received.
Lemma end_inv_kept d w w' : inbox_ok w' -> keeps_sent w w' -> end_inv d w -> end_inv d w'.
Proof. intros Hi' [Hs Hn] (_ & Hp & received & Hre & Hr & Hacks). unfold end_inv, acks_sent. rewrite Hs, Hn. eauto 7. Qed.
Lemma end_inv_recv d pred w r w' :
  end_inv d w -> recv_session_packet self pred w = (r, w') -> end_inv d w' /\ forall p, r = Ok p -> packet_ok p.
Proof.
  intros Hinv Hr. destruct (recv_keeps_sent _ _ _ _ (proj1 Hinv) Hr) as (Hi & Hk & Hp). split; [|done].
  by eapply end_inv_kept.
Qed.

(** What a send adds. *)
Lemma send_packet_more a p w r w' :
  io_other (on_net (send_packet_to a p)) w = (r, w') ->
  w_inbox w' = w_inbox w /\ w_waits w' = w_waits w /\ w_state w' = w_state w /\
  (n_sent (w_net w') = n_sent (w_net w) \/
   exists d, encode_packet p = Ok d /\ n_sent (w_net w') = n_sent (w_net w) ++ [(a, d)]).
Proof.
  unfold io_other, on_net, zoom. destruct (send_packet_to a p (w_net w)) as [[[]|e] n] eqn:E; intros [= <- <-];
    split_and!; try done; cbn [w_net set_net].
  - right. by eapply send_packet_sent.
  - left. unfold send_packet_to, mbind, eff_bind, lift in E. destruct (encode_packet p); [|by injection E as _ <-].
    unfold send_to in E. destruct (n_send (w_net w)) as [|[]]; by simplify_eq.
Qed.
Lemma acks_of_packet a p d :
  packet_ok p -> encode_packet p = Ok d -> acks_in [(a, d)] = match pk_kind p with Ack => [pk_seq p] | _ => [] end.
Proof. intros Hp Hd. unfold acks_in. cbn. rewrite (decode_encode _ _ Hp Hd). by destruct (pk_kind p). Qed.

Lemma end_inv_handle d p : packet_ok p -> preserves (end_inv d) (handle_data_packet self p).
Proof using Hauth Hsmall.
  intros Hp w r w' Hw. pose proof Hw as (Hi & Hs & received & Hre & Hr & Hacks). unfold handle_data_packet.
  destruct (aead_decrypt _ _ _) as [c|] eqn:Hc; [|by intros [= _ <-]].
  pose proof (Hauth _ _ _ Hp Hc) as Hchunk. unfold mbind, eff_bind, modify. intros Ha.
  apply send_packet_more in Ha as (Hq & Hws & Hst & Hsent). cbn [w_inbox w_waits w_state w_net set_state] in *.
  split; [by unfold inbox_ok; rewrite Hq, Hws|]. rewrite Hst, accept_data_send_seq. split; [done|].
  exists ({[pk_seq p]} ∪ received). split; [apply accept_data_ok; try done; apply Hp|]. split.
  - intros i. rewrite elem_of_union, elem_of_singleton. intros [->|Hin]; [|auto].
    apply lookup_lt_Some in Hchunk. destruct Hp. lia.
  - intros seq. unfold acks_sent. destruct Hsent as [->|(d' & Hd & ->)].
    + intros Hin. apply elem_of_union_r. by apply Hacks.
    + rewrite acks_in_app, elem_of_app. intros [Hin|Hin]; [apply elem_of_union_r; by apply Hacks|].
      rewrite (acks_of_packet _ _ _ (Hp : packet_ok (Packet Ack (pk_seq p) [])) Hd) in Hin. set_solver.
Qed.
Lemma end_inv_drain d len w r w' :
  end_inv d w -> drain_pending len w = (r, w') -> end_inv (d ++ default [] (result_ok r)) w'.
Proof.
  intros (Hi & Hs & received & [Hb Hbe Hm Hd Hk] & Hr & Hacks) [= <- <-]. split; [done|]. split; [done|].
  exists received. split; [|done]. constructor; cbn; try done. by rewrite <- app_assoc, take_drop.
Qed.
Lemma end_inv_wait d seq : preserves (end_inv d) (wait_for_ack self seq).
Proof using Hauth Hsmall.
  intros w r w' Hw. unfold wait_for_ack. generalize (S (budget w)) as fuel. intros fuel. revert w Hw.
  induction fuel as [|fuel IH]; intros w Hw; cbn [wait_for_ack_loop]; [by intros [= _ <-]|].
  unfold mbind, eff_bind at 1. destruct (recv_session_packet self ack_data_or_close w) as [[p|e] w1] eqn:Er;
    apply (end_inv_recv d) in Er as [Hw1 Hp]; try done; [|by intros [= _ <-]].
  destruct (pk_kind p); try by apply IH.
  - unfold eff_bind at 1. destruct (handle_data_packet self p w1) as [[[]|e] w2] eqn:Eh;
      apply (end_inv_handle d) in Eh; try done; try (by apply Hp); [by apply IH|by intros [= _ <-]].
  - destruct (_ =? _); [by intros [= _ <-]|by apply IH].
  - by intros [= _ <-].
Qed.
Lemma end_inv_read d len w r w' :
  end_inv d w -> read self len w = (r, w') -> end_inv (d ++ default [] (result_ok r)) w'.
Proof using Hauth Hsmall.
  intros Hw. unfold read. destruct (pending_read (w_state w)); [|by apply end_inv_drain].
  generalize (S (budget w)) as fuel. intros fuel. revert w Hw.
  induction fuel as [|fuel IH]; intros w Hw; cbn [read_loop]; [by intros [= <- <-]; cbn; rewrite app_nil_r|].
  unfold mbind, eff_bind at 1. destruct (recv_session_packet self data_or_close w) as [[p|e] w1] eqn:Er;
    apply (end_inv_recv d) in Er as [Hw1 Hp]; try done; [|by intros [= <- <-]; cbn; rewrite app_nil_r].
  destruct (pk_kind p); try by apply IH.
  2: by intros [= <- <-]; cbn; rewrite app_nil_r.
  unfold eff_bind at 1. destruct (handle_data_packet self p w1) as [[[]|e] w2] eqn:Eh;
    apply (end_inv_handle d) in Eh; try done; try by apply Hp.
  2: by intros [= <- <-]; cbn; rewrite app_nil_r.
  unfold eff_bind, gets. destruct (pending_read (w_state w2)); [by apply IH|by apply end_inv_drain].
Qed.
Lemma end_inv_write d bytes : preserves (end_inv d) (write self bytes).
Proof using Hauth Hsmall.
  intros w r w' Hw. unfold write, mbind, eff_bind at 1, gets. destruct (aead_encrypt _ _ _) as [c|]; [|by intros [= _ <-]].
  assert (packet_ok (Packet Data (send_seq (w_state w)) c)) as Hp by apply Hw. revert Hp.
  generalize (send_seq (w_state w)) as seq. intros seq Hp. generalize RETRIES as n. intros n.
  generalize (length (take MAX_PAYLOAD_LEN bytes)) (@None error). intros len last. revert last w Hw.
  induction n as [|n IH]; intros last w Hw; cbn [write_loop]; [by intros [= _ <-]|].
  unfold mbind, eff_bind at 1. destruct (io_other _ w) as [rs w1] eqn:Es. assert (end_inv d w1) as Hw1.
  { apply send_packet_more in Es as (Hq & Hws & Hst & Hsent). destruct Hw as (Hi & Hs & received & Hre & Hr & Hacks).
    split; [by unfold inbox_ok; rewrite Hq, Hws|]. rewrite Hst. split; [done|]. exists received. split; [done|]. split; [done|].
    intros k. unfold acks_sent. destruct Hsent as [->|(d' & Hd & ->)]; [apply Hacks|].
    rewrite acks_in_app, (acks_of_packet _ _ _ Hp Hd), app_nil_r. apply Hacks. }
  destruct rs as [[]|e]; [|by intros [= _ <-]]. unfold eff_bind, attempt.
  destruct (wait_for_ack self _ w1) as [ra w2] eqn:Ew. apply (end_inv_wait d) in Ew; [|done]. destruct ra as [[]|e].
  - intros [= _ <-]. destruct Ew as (Hi & Hs & received & [Hb Hbe Hm Hd Hk] & Hr & Hacks). split; [done|].
    split; [unfold packet_ok; cbn; apply Z.mod_pos_bound; done|]. exists received. split; [by constructor|done].
  - destruct (is_retry_kind e); [by apply IH|by intros [= _ <-]].
Qed.
Lemma run_end_inv ops d w :
  end_inv d w -> end_inv (d ++ er_read (run_end self ops w)) (er_world (run_end self ops w)).
Proof using Hauth Hsmall.
  revert d w; induction ops as [|[len|bytes] ops IH]; intros d w Hw; cbn [run_end]; [by cbn; rewrite app_nil_r| |].
  - destruct (read self len w) as [r w1] eqn:Er. apply (end_inv_read d) in Er; [|done]. cbn [er_read er_world].
    rewrite app_assoc. by apply IH.
  - destruct (write self bytes w) as [[m|e] w1] eqn:Ew; apply (end_inv_write d) in Ew; try done; cbn [er_read er_world];
      [by apply IH|by rewrite app_nil_r].
Qed.
End Acks.

(** ** Lemmas: writes over a network that loses *)

(** A receive that times out, and one that brings an acknowledgement. *)
Definition lost (dt : Z) : recv_event := RecvEvent dt (Failed WouldBlock).
Definition ack_from (dt : Z) (addr : socket_addr) (seq : Z) : recv_event :=
  RecvEvent dt (Got (default [] (result_ok (encode_packet (Packet Ack seq [])))) addr).
(** The answers to packets [seq], [seq + 1], ...: so many time-outs each, then the
    acknowledgement. *)
Fixpoint answers (dt : Z) (addr : socket_addr) (seq : Z) (losses : list nat) : list recv_event :=
  match losses with
  | [] => []
  | k :: rest => replicate k (lost dt) ++ ack_from dt addr seq :: answers dt addr (seq + 1) rest
  end.
(** The socket has these events to come and sends well; the session is in this state. *)
Definition stands (w : world) (evs : list recv_event) (s : session_state) : Prop :=
  n_recv (w_net w) = evs /\ sends_ok (w_net w) /\ w_state w = s.
Definition advanced (s : session_state) : session_state :=
  SessionState ((send_seq s + 1) mod u64_modulus) (recv_seq s) (pending_read s) (pending_packets s).

Section Losses.
Context `{Aead} (self : stream) (Hsock : st_has_inbox self = false).

Lemma send_stands a p d w evs s :
  encode_packet p = Ok d -> stands w evs s ->
  exists w', io_other (on_net (send_packet_to a p)) w = (Ok tt, w') /\ stands w' evs s.
Proof.
  intros Hd (Hr & Hs & Hst). unfold io_other, on_net, zoom, send_packet_to, mbind, eff_bind, lift.
  rewrite Hd, send_to_ok by done. eexists. split; [reflexivity|]. by split_and!.
Qed.
Lemma wait_lost seq dt w evs s :
  stands w (lost dt :: evs) s ->
  exists w', wait_for_ack self seq w = (Err (EIo WouldBlock), w') /\ stands w' evs s.
Proof.
  intros (Hr & Hs & Hst). unfold wait_for_ack. cbn [wait_for_ack_loop].
  unfold mbind, eff_bind at 1, recv_session_packet. rewrite Hsock. cbn [recv_socket_loop].
  unfold mbind, eff_bind at 1, on_net, zoom, recv_from. rewrite Hr. eexists. split; [reflexivity|]. by split_and!.
Qed.
Lemma wait_acked seq dt w evs s :
  0 <= seq < u64_modulus -> stands w (ack_from dt (st_peer_addr self) seq :: evs) s ->
  exists w', wait_for_ack self seq w = (Ok tt, w') /\ stands w' evs s.
Proof.
  intros Hseq (Hr & Hs & Hst). unfold wait_for_ack. cbn [wait_for_ack_loop].
  unfold mbind, eff_bind at 1, recv_session_packet. rewrite Hsock. cbn [recv_socket_loop].
  unfold mbind, eff_bind at 1, on_net, zoom, recv_from. rewrite Hr. cbn [ev_result ack_from].
  set (d := default [] _). assert (encode_packet (Packet Ack seq []) = Ok d) as Hd by reflexivity.
  assert (take MAX_PACKET_LEN d = d) as -> by (apply take_ge, Nat.leb_le; reflexivity).
  rewrite bool_decide_eq_true_2 by done. unfold eff_bind, io_other, lift.
  rewrite (decode_encode (Packet Ack seq []) d Hseq Hd). cbn [ack_data_or_close pk_kind pk_seq].
  unfold mret, eff_ret. rewrite Z.eqb_refl. eexists. split; [reflexivity|]. by split_and!.
Qed.
Lemma write_loop_survives n k last dt p len d w evs s :
  (k < n)%nat -> packet_ok p -> encode_packet p = Ok d ->
  stands w (replicate k (lost dt) ++ ack_from dt (st_peer_addr self) (pk_seq p) :: evs) s ->
  exists w', write_loop self n last p len w = (Ok len, w') /\ stands w' evs (advanced s).
Proof.
  intros Hk Hp Hd. revert n Hk last w; induction k as [|k IH]; intros [|n] Hk last w Hw; try lia; cbn [write_loop];
    destruct (send_stands (st_peer_addr self) p d w _ _ Hd Hw) as (w1 & Hsend & Hw1);
    unfold mbind, eff_bind at 1; rewrite Hsend; unfold eff_bind at 1, attempt; cbn [replicate app] in Hw1.
  - destruct (wait_acked _ _ _ _ _ Hp Hw1) as (w2 & -> & Hr & Hs & <-). eexists. split; [reflexivity|]. by split_and!.
  - destruct (wait_lost (pk_seq p) _ _ _ _ Hw1) as (w2 & -> & Hw2). cbn [is_retry_kind]. apply IH; [lia|done].
Qed.
(** The cipher takes the chunks. *)
Definition sealed (chunks : list (list byte)) : Prop :=
  forall seq chunk, chunk ∈ chunks ->
    exists c, aead_encrypt (st_key self) (nonce_bytes (st_direction self) seq) chunk = Some c /\ Z.of_nat (length c) <= 65535.
Lemma write_survives k dt chunk w evs s :
  (k < RETRIES)%nat -> (length chunk <= MAX_PAYLOAD_LEN)%nat -> sealed [chunk] -> 0 <= send_seq s < u64_modulus ->
  stands w (replicate k (lost dt) ++ ack_from dt (st_peer_addr self) (send_seq s) :: evs) s ->
  exists w', write self chunk w = (Ok (length chunk), w') /\ stands w' evs (advanced s).
Proof.
  intros Hk Hlen Hseal Hseq Hw. unfold write, mbind, eff_bind at 1, gets. rewrite (take_ge chunk) by done.
  destruct (Hseal (send_seq s) chunk) as (c & Hc & Hclen); [set_solver|]. pose proof Hw as (_ & _ & ->). rewrite Hc.
  by eapply write_loop_survives; [exact Hk|exact Hseq|by apply encode_ok|].
Qed.
Lemma run_end_survives chunks losses dt w evs s :
  length losses = length chunks -> Forall (fun k => k < RETRIES)%nat losses ->
  Forall (fun chunk => length chunk <= MAX_PAYLOAD_LEN)%nat chunks -> sealed chunks ->
  0 <= send_seq s -> send_seq s + Z.of_nat (length chunks) < u64_modulus ->
  stands w (answers dt (st_peer_addr self) (send_seq s) losses ++ evs) s ->
  let run := run_end self (map OpWrite chunks) w in
  er_acked run = chunks /\ er_failed run = None /\ n_recv (w_net (er_world run)) = evs.
Proof.
  cbv zeta. revert losses w s; induction chunks as [|chunk chunks IH]; intros [|k losses] w s; try done.
  { intros _ _ _ _ _ _ (Hr & _). by split_and!. }
  intros [= Hlen] [Hk Hks]%list.Forall_cons [Hc Hcs]%list.Forall_cons Hseal Hs0 Hsn Hw. cbn [answers] in Hw.
  rewrite <- app_assoc in Hw. cbn [length app] in Hsn, Hw.
  destruct (write_survives k dt chunk w (answers dt (st_peer_addr self) (send_seq s + 1) losses ++ evs) s Hk Hc) as (w1 & Hwrite & Hw1); [intros seq c Hin; apply Hseal;
    set_solver|lia|exact Hw|].
  cbn [map run_end]. rewrite Hwrite, take_ge by done. cbn [er_acked er_failed er_world].
  assert (send_seq (advanced s) = send_seq s + 1) as Hseq by (cbn; rewrite Z.mod_small; lia). rewrite <- Hseq in Hw1.
  destruct (IH losses w1 (advanced s)) as (-> & -> & ->); try done; [|rewrite Hseq; lia..].
  intros seq c Hin. apply Hseal. set_solver.
Qed.
End Losses.

(** ** Properties *)


(** C3. Writes survive losses.  An end that writes a list of chunks over a network where each packet
    or its acknowledgement is lost up to four times, as one attempt less than [RETRIES], ends
    every write well; nothing but the answers is taken from the socket. *)
Theorem writes_survive_losses `{Aead} (a : stream) (chunks : list (list byte)) (losses : list nat) (dt : Z) (w : world)
    (evs : list recv_event) :
  st_has_inbox a = false -> length losses = length chunks -> Forall (fun k => k < RETRIES)%nat losses ->
  Forall (fun chunk => length chunk <= MAX_PAYLOAD_LEN)%nat chunks -> sealed a chunks ->
  Z.of_nat (length chunks) < u64_modulus -> sends_ok (w_net w) -> w_state w = initial_state ->
  n_recv (w_net w) = answers dt (st_peer_addr a) 0 losses ++ evs ->
  let run := run_end a (map OpWrite chunks) w in
  er_acked run = chunks /\ er_failed run = None /\ n_recv (w_net (er_world run)) = evs.
Proof.
  intros Hsock Hlen Hk Hc Hseal Hsmall Hs Hw Hr.
  eapply (run_end_survives a Hsock chunks losses dt w evs initial_state); [done..|]. by split_and!.
Qed.

(** ** Witnesses *)

(** One chunk and its acknowledgement; the second end reads it twice off the network. *)
Definition toy_aead_2 : Aead := toy_authentic_aead [[x61; x62]].
Definition end_a : stream := Stream toy_addr [] false NodeToClient.
Definition world_a : world :=
  World (quiet [RecvEvent 1 (Got (default [] (result_ok (encode_packet (Packet Ack 0 [])))) toy_addr)]) [] [] initial_state.
Definition world_b : world :=
  World (quiet [toy_event (toy_data 0 [x61; x62]); toy_event (toy_data 0 [x61; x62])]) [] [] initial_state.

(** The first packet is lost twice, the second not at all. *)
Definition world_lossy : world :=
  World (quiet (answers 5 toy_addr 0 [2; 0]%nat)) [] [] initial_state.
Lemma writes_survive_losses_witness :
  let run := @run_end toy_aead end_a [OpWrite [x61; x62]; OpWrite [x63]] world_lossy in
  er_acked run = [[x61; x62]; [x63]] /\ er_failed run = None /\ n_recv (w_net (er_world run)) = [].
Proof.
  apply (@writes_survive_losses toy_aead end_a [[x61; x62]; [x63]] [2; 0]%nat 5 world_lossy []); try reflexivity.
  - repeat constructor.
  - apply (bool_decide_unpack _). by vm_compute.
  - intros seq chunk Hin. eexists. split; [reflexivity|]. cbn [aead_encrypt toy_aead]. rewrite length_app.
    set_unfold. destruct Hin as [->|[->|[]]]; cbn; lia.
Defined.
