(* ===== verification/UdpListener.v ===== *)
(** * UDP session handshakes

    [crates/overlay-transport/src/udp_session.rs]: the client's [connect] and the
    node's listener ([run_listener_reader]), which acknowledges hellos, drops repeated
    ones and hands the other packets to the inbox of their sender's session. *)

From Stdlib Require Import Sorted.
From S2P Require Import Prelude RustStd Diag NetAddr Protocol PinnedHttp Net Rendezvous UdpPacket UdpSession.

(** ** The client *)

Definition is_handshake_ack_from_peer (peer_addrs : list socket_addr) (packet_addr : socket_addr)
    (response : option packet) : bool :=
  if negb (existsb (fun peer => bool_decide (sock_ip packet_addr = sock_ip peer)) peer_addrs)
  then false
  else match response with
       | Some (Packet HelloAck 0 _) => true
       | _ => false
       end.

Definition join_socket_addrs (peer_addrs : list socket_addr) : string :=
  join "," (map show_sock peer_addrs).

Section Connect.
Context `{Json udp_rendezvous_message} `{Json session_hello} `{Sha256}.

(** The list of peer addresses, with the sender when it is a new port of a known
    address that punches. *)
Definition record_peer_reflexive_candidate (peer_addrs : list socket_addr)
    (packet_addr : socket_addr) (payload : list byte) : list socket_addr * bool :=
  if negb (existsb (fun peer => bool_decide (sock_ip packet_addr = sock_ip peer)) peer_addrs)
     || bool_decide (packet_addr ∈ peer_addrs)
  then (peer_addrs, false)
  else match parse_message payload with
       | Ok RvPunch => (peer_addrs ++ [packet_addr], true)
       | _ => (peer_addrs, false)
       end.

Fixpoint send_handshake_burst (peer_addrs : list socket_addr) (p : packet) : eff net unit :=
  match peer_addrs with
  | [] => mret tt
  | peer_addr :: rest => _ ← send_packet_to peer_addr p; send_handshake_burst rest p
  end.

(** [UdpSessionStream::new]. *)
Definition new_stream (peer_addr : socket_addr) (token : string) (timeout : Z) (dir : direction)
    (inbox : bool) : eff net stream :=
  _ ← set_read_timeout timeout;
  mret (Stream peer_addr (sha256 (bytes_of token)) inbox dir).
Definition accepted (peer_addr : socket_addr) (token : string) (timeout : Z) (inbox : bool)
    : eff net stream :=
  new_stream peer_addr token timeout NodeToClient inbox.

Fixpoint connect_loop (fuel : nat) (deadline : Z) (hello : session_hello) (p : packet)
    (peer_addrs : list socket_addr) : eff net stream :=
  match fuel with
  | O => throw out_of_fuel
  | S f =>
      time ← now;
      if deadline <=? time then
        throw (EMsg ("UDP session handshake timed out for " +:+ join_socket_addrs peer_addrs))
      else
        _ ← send_handshake_burst peer_addrs p;
        received ← attempt (recv_from MAX_PACKET_LEN);
        match received with
        | Ok (payload, addr) =>
            let response := decode_packet payload in
            if is_handshake_ack_from_peer peer_addrs addr (result_ok response) then
              new_stream addr (sh_token hello) (millis 100) ClientToNode false
            else
              connect_loop f deadline hello p
                (record_peer_reflexive_candidate peer_addrs addr payload).1
        | Err e => if is_retry_kind e then connect_loop f deadline hello p peer_addrs else throw e
        end
  end.

(** Enough rounds: one for each datagram that arrives, and one for each 150 ms of
    silence within the 8 s (see [connect_terminates]). *)
Definition connect_fuel (n : net) : nat := length (n_recv n) + 56.

Definition connect (peer_addr : socket_addr) (hello : session_hello) : eff net stream :=
  _ ← set_read_timeout HANDSHAKE_READ_TIMEOUT;
  payload ← lift (to_vec hello);
  time ← now;
  fuel ← gets connect_fuel;
  connect_loop fuel (time + HANDSHAKE_TIMEOUT) hello (Packet Hello 0 payload) [peer_addr].
End Connect.

(** ** The listener *)

Record handshake_key := HandshakeKey {
  hk_peer_addr : socket_addr;
  hk_token : string;
  hk_service_id : string
}.
#[global] Instance handshake_key_eq_dec : EqDecision handshake_key.
Proof. solve_decision. Defined.

(** [while front is older than the window { pop_front }]. *)
Fixpoint drop_old (time : Z) (recent : list (handshake_key * Z)) : list (handshake_key * Z) :=
  match recent with
  | (k, seen_at) :: rest =>
      if DUPLICATE_HANDSHAKE_WINDOW <? Z.max 0 (time - seen_at) then drop_old time rest else recent
  | [] => []
  end.

(** [recent.len() > MAX_RECENT_HANDSHAKES] drops from the front. *)
Definition drop_excess (recent : list (handshake_key * Z)) : list (handshake_key * Z) :=
  drop (length recent - MAX_RECENT_HANDSHAKES) recent.

Definition is_duplicate_handshake (recent : list (handshake_key * Z)) (key : handshake_key) (time : Z)
    : list (handshake_key * Z) * bool :=
  let recent := drop_old time recent in
  if existsb (fun entry => bool_decide (entry.1 = key)) recent then (recent, true)
  else (drop_excess (recent ++ [(key, time)]), false).

(** A session handed to [accept]; its inbox is shared with the listener: an index into
    the listener's queues. *)
Record accepted_session := AcceptedSession {
  ac_peer_addr : socket_addr;
  ac_hello : session_hello;
  ac_stream : stream;
  ac_inbox : nat
}.

Record listener := Listener {
  ls_net : net;
  ls_recent : list (handshake_key * Z);
  ls_active : gmap socket_addr nat;
  ls_queues : list (list packet);
  ls_incoming : list (result accepted_session);
  (** Whether the receiving end of [incoming_tx] still exists. *)
  ls_open : bool
}.

Definition ls_set_net (n : net) (l : listener) : listener :=
  Listener n (ls_recent l) (ls_active l) (ls_queues l) (ls_incoming l) (ls_open l).

(** [incoming_tx.send]: whether it was received. *)
Definition send_incoming (r : result accepted_session) (l : listener) : listener * bool :=
  if ls_open l then
    (Listener (ls_net l) (ls_recent l) (ls_active l) (ls_queues l) (ls_incoming l ++ [r]) true, true)
  else (l, false).

Section Listener.
Context `{Json udp_rendezvous_message} `{Json session_hello} `{Sha256}.

Fixpoint ack_burst_from (peer_addr : socket_addr) (p : packet) (index n : nat) : eff net unit :=
  match n with
  | O => mret tt
  | S m =>
      _ ← send_packet_to peer_addr p;
      _ ← (if Nat.ltb (index + 1) ACK_BURST_PACKETS then sleep ACK_BURST_INTERVAL else mret tt);
      ack_burst_from peer_addr p (S index) m
  end.
Definition send_ack_burst (peer_addr : socket_addr) (p : packet) : eff net unit :=
  ack_burst_from peer_addr p 0 ACK_BURST_PACKETS.

(** A packet that is not a hello. *)
Definition route_packet (p : packet) (peer_addr : socket_addr) (l : listener) : listener :=
  match ls_active l !! peer_addr with
  | Some i => Listener (ls_net l) (ls_recent l) (ls_active l)
                (alter (inbox_push p) i (ls_queues l)) (ls_incoming l) (ls_open l)
  | None => l
  end.

(** A hello whose payload parsed; [cloned] is the outcome of [socket.try_clone].  The
    flag is [false] when the reader stops. *)
Definition handle_hello (cloned : option io_kind) (p : packet) (hello : session_hello)
    (peer_addr : socket_addr) (l : listener) : listener * bool :=
  let key := HandshakeKey peer_addr (sh_token hello) (sh_service_id hello) in
  let '(recent, duplicate) := is_duplicate_handshake (ls_recent l) key (n_now (ls_net l)) in
  let '(ack_result, n) := send_ack_burst peer_addr (Packet HelloAck (pk_seq p) []) (ls_net l) in
  let l := Listener n recent (ls_active l) (ls_queues l) (ls_incoming l) (ls_open l) in
  match ack_result with
  | Err error => ((send_incoming (Err error) l).1, true)
  | Ok _ =>
      if duplicate then (l, true)
      else
        let inbox := length (ls_queues l) in
        let l := Listener n recent (<[peer_addr := inbox]> (ls_active l)) (ls_queues l ++ [inbox_new])
                   (ls_incoming l) (ls_open l) in
        match cloned with
        | Some k => ((send_incoming (Err (EIo k)) l).1, true)
        | None =>
            match accepted peer_addr (sh_token hello) (secs 3) true (ls_net l) with
            | (Ok st, n) =>
                send_incoming (Ok (AcceptedSession peer_addr hello st inbox)) (ls_set_net n l)
            | (Err error, n) => ((send_incoming (Err error) (ls_set_net n l)).1, true)
            end
        end
  end.

(** One round of [run_listener_reader]. *)
Definition listener_step (cloned : option io_kind) (l : listener) : listener * bool :=
  let '(received, n) := recv_from MAX_PACKET_LEN (ls_net l) in
  let l := ls_set_net n l in
  match received with
  | Err error =>
      if is_retry_kind error then (l, true) else ((send_incoming (Err error) l).1, false)
  | Ok (payload, peer_addr) =>
      match decode_packet payload with
      | Err _ =>
          let '(_, n) := handle_listener_message payload (ls_net l) in (ls_set_net n l, true)
      | Ok p =>
          match pk_kind p with
          | Hello =>
              match from_slice (pk_payload p) with
              | Err error => ((send_incoming (Err error) l).1, true)
              | Ok hello => handle_hello cloned p hello peer_addr l
              end
          | _ => (route_packet p peer_addr l, true)
          end
      end
  end.

(** The reader's loop over a sequence of rounds. *)
Fixpoint run_listener_reader (rounds : list (option io_kind)) (l : listener) : listener :=
  match rounds with
  | [] => l
  | cloned :: rest =>
      let '(l', continue) := listener_step cloned l in
      if continue then run_listener_reader rest l' else l'
  end.

(** [accept], when a session or an error is queued; [None] on an empty queue is the
    timeout. *)
Definition accept (l : listener) : result accepted_session * listener :=
  match ls_incoming l with
  | r :: rest =>
      (r, Listener (ls_net l) (ls_recent l) (ls_active l) (ls_queues l) rest (ls_open l))
  | [] => (Err (EIo TimedOut), l)
  end.
End Listener.

(** ** What is logged of a datagram *)

Definition rendezvous_message_kind (message : udp_rendezvous_message) : string :=
  match message with
  | RvNode _ _ => "rendezvous_node"
  | RvClient _ _ => "rendezvous_client"
  | RvRegistered _ => "rendezvous_registered"
  | RvPeer _ => "rendezvous_peer"
  | RvPunch => "rendezvous_punch"
  end.
Section Log.
Context `{Json udp_rendezvous_message}.
Definition logged_kind (payload : list byte) : string :=
  match decode_packet payload with
  | Ok p => kind_as_str (pk_kind p)
  | Err _ => match parse_message payload with Ok message => rendezvous_message_kind message | Err _ => "unknown" end
  end.
(** The line that is logged. *)
Definition log_udp_source (phase : string) (peer_addr : socket_addr) (payload : list byte) : string :=
  Diag.line phase "received" [("peer_addr", show_sock peer_addr); ("packet_kind", logged_kind payload)].
Definition log_rendezvous_control_packet (peer_addr : socket_addr) (payload : list byte) : option string :=
  match parse_message payload with
  | Ok RvPunch => Some (Diag.line "punch_received" "ok" [("peer_addr", show_sock peer_addr)])
  | _ => None
  end.
End Log.

(** ** Lemmas: the client *)

(** What sending leaves alone. *)
Definition same_input (n n' : net) : Prop :=
  n_recv n' = n_recv n /\ n_now n' = n_now n /\ n_read_timeout n' = n_read_timeout n.

Lemma send_packet_same_input a p n r n' : send_packet_to a p n = (r, n') -> same_input n n'.
Proof.
  unfold send_packet_to, mbind, eff_bind, lift, send_to. destruct (encode_packet p);
    [destruct (n_send n) as [|[]]|]; by intros [= <- <-].
Qed.
Lemma send_packet_in_fuel a p n r n' : send_packet_to a p n = (r, n') -> in_fuel r.
Proof.
  unfold send_packet_to, mbind, eff_bind, lift, send_to, encode_packet, mbind, result_bind, bail_if.
  destruct (_ <? _); [by intros [= <- <-]|]. destruct (n_send n) as [|[]]; by intros [= <- <-].
Qed.

Section ConnectFacts.
Context `{Json udp_rendezvous_message} `{Json session_hello} `{Sha256}.

Lemma handshake_burst_same_input peers p n r n' :
  send_handshake_burst peers p n = (r, n') -> same_input n n' /\ in_fuel r.
Proof.
  revert n; induction peers as [|a peers IH]; intros n; simpl; [by intros [= <- <-]|].
  unfold mbind, eff_bind. destruct (send_packet_to a p n) as [[u|e] n1] eqn:E;
    pose proof (send_packet_in_fuel _ _ _ _ _ E) as Hf;
    apply send_packet_same_input in E as (H1' & H2' & H3'); [|by intros [= <- <-]].
  intros Hr. apply IH in Hr as [(H4 & H5 & H6) Hf2]. split; [|done]. unfold same_input. split_and!; congruence.
Qed.

Lemma is_handshake_ack_true peers addr resp :
  is_handshake_ack_from_peer peers addr resp = true ->
  (exists peer, peer ∈ peers /\ sock_ip addr = sock_ip peer) /\
  exists pl, resp = Some (Packet HelloAck 0 pl).
Proof.
  unfold is_handshake_ack_from_peer. destruct (existsb _ peers) eqn:E; [|done]. simpl. intros Hr. split.
  - apply existsb_exists in E as (peer & Hin & Heq). apply bool_decide_eq_true in Heq.
    exists peer. by rewrite list_elem_of_In.
  - repeat case_match; try done. subst. by eexists.
Qed.

(** Reflexive candidates keep the IP address. *)
Lemma reflexive_same_ip ip peers addr payload :
  Forall (fun p => sock_ip p = ip) peers ->
  Forall (fun p => sock_ip p = ip) (record_peer_reflexive_candidate peers addr payload).1.
Proof.
  intros Hp. unfold record_peer_reflexive_candidate. destruct (existsb _ peers) eqn:E; simpl; [|done].
  case_bool_decide; simpl; [done|]. repeat case_match; try done. simpl.
  apply Forall_app. split; [done|]. constructor; [|done].
  apply existsb_exists in E as (peer & Hin & Heq). apply bool_decide_eq_true in Heq.
  rewrite Heq. rewrite Forall_forall in Hp. apply Hp. exact Hin.
Qed.

Lemma connect_loop_ok fuel deadline hello p ip peers n st n' :
  Forall (fun a => sock_ip a = ip) peers ->
  connect_loop fuel deadline hello p peers n = (Ok st, n') ->
  sock_ip (st_peer_addr st) = ip /\ st_key st = sha256 (bytes_of (sh_token hello)) /\
  exists ev payload pl, ev ∈ n_recv n /\ ev_result ev = Got payload (st_peer_addr st) /\
    decode_packet (take MAX_PACKET_LEN payload) = Ok (Packet HelloAck 0 pl).
Proof.
  revert peers n; induction fuel as [|fuel IH]; intros peers n Hp; cbn [connect_loop]; [discriminate|].
  unfold now. intros Hr. inv_eff. destruct (deadline <=? n_now x0); [discriminate Hr|]. inv_eff.
  apply handshake_burst_same_input in E as [(Hrecv & _ & _) _]. rewrite <- Hrecv.
  destruct (recv_from MAX_PACKET_LEN x1) as [r0 n2] eqn:Er. injection E0 as <- <-.
  assert (forall peers', Forall (fun a => sock_ip a = ip) peers' ->
    connect_loop fuel deadline hello p peers' n2 = (Ok st, n') ->
    sock_ip (st_peer_addr st) = ip /\ st_key st = sha256 (bytes_of (sh_token hello)) /\
    exists ev payload pl, ev ∈ n_recv x1 /\ ev_result ev = Got payload (st_peer_addr st) /\
      decode_packet (take MAX_PACKET_LEN payload) = Ok (Packet HelloAck 0 pl)) as Hnext.
  { intros peers' Hp' Hl. apply IH in Hl as (? & ? & ev & pay & pl & Hin & ? & ?); [|done].
    split_and!; [done|done|]. exists ev, pay, pl. split_and!; [|done|done].
    unfold recv_from in Er. destruct (n_recv x1) as [|ev0 rest]; injection Er as <- <-; simpl in *; set_solver. }
  destruct r0 as [[payload addr]|e].
  - destruct (is_handshake_ack_from_peer peers addr (result_ok (decode_packet payload))) eqn:Ea.
    + apply is_handshake_ack_true in Ea as [(peer & Hin & Hip) (pl & Hpl)].
      unfold new_stream in Hr. inv_eff. cbn [st_peer_addr st_key]. split_and!.
      * rewrite Hip. rewrite Forall_forall in Hp. by apply Hp, list_elem_of_In.
      * done.
      * unfold recv_from in Er. destruct (n_recv x1) as [|[el [pay a|k]] rest]; simplify_eq/=.
        exists (RecvEvent el (Got pay addr)), pay, pl.
        split_and!; [set_solver|done|]. destruct (decode_packet _); [|done]. simpl in Hpl. congruence.
    + apply Hnext in Hr; [done|by apply reflexive_same_ip].
  - destruct (is_retry_kind e); [by apply Hnext in Hr|done].
Qed.

Lemma connect_loop_fuel fuel deadline hello p peers n k :
  n_read_timeout n = HANDSHAKE_READ_TIMEOUT -> Forall (fun ev => 0 <= ev_elapsed ev) (n_recv n) ->
  deadline - n_now n <= Z.of_nat k * HANDSHAKE_READ_TIMEOUT ->
  (length (n_recv n) + k < fuel)%nat ->
  in_fuel (connect_loop fuel deadline hello p peers n).1.
Proof.
  revert peers n k; induction fuel as [|fuel IH]; intros peers n k Hto Hel Hk Hf; [lia|].
  cbn [connect_loop]. unfold mbind, eff_bind, now, gets.
  destruct (Z.leb_spec deadline (n_now n)) as [|Hnow]; [done|].
  destruct (send_handshake_burst peers p n) as [[u|e] n1] eqn:E;
    apply handshake_burst_same_input in E as [(H1' & H2' & H3') Hfu]; [|done].
  unfold attempt. rewrite Hto in H3'. rewrite <- H1' in Hel, Hf. rewrite <- H2' in Hk, Hnow.
  assert (1 <= k)%nat as Hk1 by (unfold HANDSHAKE_READ_TIMEOUT, millis in Hk; lia).
  unfold recv_from. destruct (n_recv n1) as [|ev rest] eqn:En.
  - cbn [is_retry_kind]. apply (IH _ _ (k - 1)%nat); simpl; try done; [|simpl in Hf; lia].
    rewrite H3'. unfold HANDSHAKE_READ_TIMEOUT, millis in *. lia.
  - apply Forall_cons_1 in Hel as [Hev Hrest]. simpl in Hf.
    assert (forall peers', in_fuel (connect_loop fuel deadline hello p peers'
      (Net rest (n_send n1) (n_sent n1) (n_now n1 + ev_elapsed ev) (n_read_timeout n1))).1) as Hnext.
    { intros peers'. apply (IH _ _ k); simpl; [done|done|lia|lia]. }
    destruct (ev_result ev) as [payload addr|kd].
    + destruct (is_handshake_ack_from_peer _ _ _); [done|apply Hnext].
    + destruct (is_retry_kind (EIo kd)) eqn:Ek; simpl in Ek; rewrite ?Ek; [apply Hnext|done].
Qed.
End ConnectFacts.

(** ** Lemmas: remembering handshakes *)

(** The deque in time order, each key once, never older than [time]. *)
Record recent_ok (time : Z) (recent : list (handshake_key * Z)) : Prop := {
  ro_sorted : StronglySorted (fun a b => a.2 <= b.2) recent;
  ro_past : Forall (fun e => e.2 <= time) recent;
  ro_keys : NoDup (map fst recent);
  ro_length : (length recent <= MAX_RECENT_HANDSHAKES)%nat
}.
Definition within_window (time : Z) (e : handshake_key * Z) : Prop :=
  time - e.2 <= DUPLICATE_HANDSHAKE_WINDOW.
#[global] Instance within_window_dec time e : Decision (within_window time e).
Proof. unfold within_window. apply _. Defined.

Lemma drop_old_filter time recent :
  StronglySorted (fun a b => a.2 <= b.2) recent -> Forall (fun e => e.2 <= time) recent ->
  drop_old time recent = filter (within_window time) recent.
Proof.
  induction recent as [|[k t] recent IH]; intros Hs Hp; [done|].
  inversion Hs as [|? ? Hs' Hall]; subst. inversion Hp as [|? ? Ht Hp']; subst. simpl in *.
  rewrite Z.max_r by lia. rewrite filter_cons.
  destruct (Z.ltb_spec DUPLICATE_HANDSHAKE_WINDOW (time - t)) as [Hold|Hnew].
  - rewrite decide_False by (unfold within_window; simpl; lia). by apply IH.
  - rewrite decide_True by (unfold within_window; simpl; lia). f_equal. symmetry.
    clear -Hnew Hall. induction Hall as [|[k' t'] l Hle Hall IH]; [done|].
    rewrite filter_cons, decide_True by (unfold within_window; simpl in *; lia). by f_equal.
Qed.

Lemma forall_sublist {A} (P : A -> Prop) l l' : sublist l l' -> Forall P l' -> Forall P l.
Proof. induction 1; intros HP; [done|..]; inversion HP; subst; auto. Qed.
Lemma map_sublist {A B} (f : A -> B) l l' : sublist l l' -> sublist (map f l) (map f l').
Proof. induction 1; simpl; by constructor. Qed.
Lemma sorted_sublist {A} (R : A -> A -> Prop) l l' :
  sublist l l' -> StronglySorted R l' -> StronglySorted R l.
Proof.
  induction 1 as [|x l l' Hsub IH|x l l' Hsub IH]; intros Hs; [done|..];
    inversion Hs as [|? ? Hs' Hall]; subst.
  - constructor; [by apply IH|]. by eapply forall_sublist.
  - by apply IH.
Qed.
Lemma recent_ok_sublist time l l' : sublist l l' -> recent_ok time l' -> recent_ok time l.
Proof.
  intros Hsub [Hs Hp Hk Hl]. constructor.
  - by eapply sorted_sublist.
  - by eapply forall_sublist.
  - eapply sublist_NoDup; [exact Hk|]. by apply map_sublist.
  - apply sublist_length in Hsub. lia.
Qed.

Lemma existsb_key (key : handshake_key) (l : list (handshake_key * Z)) :
  existsb (fun entry => bool_decide (entry.1 = key)) l = true <-> exists t, (key, t) ∈ l.
Proof.
  rewrite existsb_exists. split.
  - intros ([k t] & Hin & Hk). apply bool_decide_eq_true in Hk as <-. exists t. by apply list_elem_of_In.
  - intros [t Hin]. exists (key, t). split; [by apply list_elem_of_In|by apply bool_decide_eq_true].
Qed.

Lemma drop_excess_snoc time recent key :
  recent_ok time recent -> (forall t, (key, t) ∉ recent) ->
  recent_ok time (drop_excess (recent ++ [(key, time)])) /\
  (key, time) ∈ drop_excess (recent ++ [(key, time)]).
Proof.
  intros [Hs Hp Hk Hl] Hnew. unfold drop_excess. rewrite length_app. simpl.
  set (n := (length recent + 1 - MAX_RECENT_HANDSHAKES)%nat).
  assert (n <= length recent)%nat as Hn by (unfold MAX_RECENT_HANDSHAKES in *; lia).
  rewrite drop_app_le by done.
  assert (recent_ok time (drop n recent)) as [Hs' Hp' Hk' Hl']
    by (apply (recent_ok_sublist _ _ recent); [apply sublist_drop|by constructor]).
  split; [|set_solver]. constructor.
  - revert Hs' Hp'. generalize (drop n recent). clear. intros l. induction l as [|e l IH]; intros Hs Hp; simpl.
    + constructor; constructor.
    + inversion Hs; inversion Hp; subst. constructor; [by apply IH|].
      apply Forall_app. split; [done|]. by constructor.
  - apply Forall_app. split; [done|]. by constructor.
  - rewrite map_app. apply list.NoDup_app. split_and!; [done| |apply list.NoDup_singleton].
    intros x Hx. simpl. rewrite list_elem_of_singleton. intros ->.
    apply list_elem_of_fmap in Hx as ([k t] & -> & Hin). apply (Hnew t).
    eapply elem_of_sublist; [exact Hin|apply sublist_drop].
  - rewrite length_app, length_drop. unfold n, MAX_RECENT_HANDSHAKES in *. simpl. lia.
Qed.

(** ** Lemmas: the listener *)

(** Every active peer has an inbox of its own, holding valid packets. *)
Record listener_ok (l : listener) : Prop := {
  lo_bound a i : ls_active l !! a = Some i -> (i < length (ls_queues l))%nat;
  lo_inj a b i : ls_active l !! a = Some i -> ls_active l !! b = Some i -> a = b;
  lo_queues : Forall (Forall packet_ok) (ls_queues l)
}.

Lemma listener_ok_same l l' :
  ls_active l' = ls_active l -> ls_queues l' = ls_queues l -> listener_ok l -> listener_ok l'.
Proof. intros Ha Hq [H1 H2 H3]. constructor; rewrite ?Ha, ?Hq; done. Qed.
Lemma listener_ok_incoming r l : listener_ok l -> listener_ok (send_incoming r l).1.
Proof. unfold send_incoming. destruct (ls_open l); [by apply listener_ok_same|done]. Qed.
Lemma listener_ok_route p a l : packet_ok p -> listener_ok l -> listener_ok (route_packet p a l).
Proof.
  intros Hp [H1 H2 H3]. unfold route_packet. destruct (ls_active l !! a) eqn:E; [|by constructor].
  constructor; simpl; [intros b i; rewrite length_alter; apply H1|done|].
  apply Forall_alter; [done|]. intros q Hq Hf. apply Forall_app. split; [by apply Hf|by constructor].
Qed.
Lemma listener_ok_new n recent a incoming open l :
  listener_ok l ->
  listener_ok (Listener n recent (<[a := length (ls_queues l)]> (ls_active l))
                 (ls_queues l ++ [[]]) incoming open).
Proof.
  intros [H1 H2 H3]. constructor; simpl.
  - intros b i. rewrite lookup_insert_Some, length_app. simpl. intros [[_ <-]|[_ Hb]]; [lia|].
    apply H1 in Hb. lia.
  - intros b c i. rewrite !lookup_insert_Some.
    intros [[<- <-]|[_ Hb]] [[<- Hi]|[_ Hc]]; try done; try congruence.
    + apply H1 in Hc. lia.
    + subst. apply H1 in Hb. lia.
    + by eapply H2.
  - apply Forall_app. split; [done|]. repeat constructor.
Qed.

Section ListenerFacts.
Context `{Json udp_rendezvous_message} `{Json session_hello} `{Sha256}.

Lemma handle_hello_ok cloned p hello a l : listener_ok l -> listener_ok (handle_hello cloned p hello a l).1.
Proof.
  intros Hl. unfold handle_hello.
  destruct (is_duplicate_handshake _ _ _) as [recent dup].
  destruct (send_ack_burst _ _ _) as [ack n].
  assert (listener_ok (Listener n recent (ls_active l) (ls_queues l) (ls_incoming l) (ls_open l))) as Hl1
    by (by apply (listener_ok_same l)).
  destruct ack; [|by apply listener_ok_incoming].
  destruct dup; [done|]. cbn [fst ls_queues ls_active].
  assert (forall n', listener_ok (Listener n' recent (<[a := length (ls_queues l)]> (ls_active l))
                 (ls_queues l ++ [[]]) (ls_incoming l) (ls_open l))) as Hn
    by (intros n'; by apply listener_ok_new).
  destruct cloned; [apply listener_ok_incoming, Hn|].
  destruct (accepted _ _ _ _ _) as [[st|e] n2]; apply listener_ok_incoming, Hn.
Qed.

Lemma listener_step_ok cloned l : listener_ok l -> listener_ok (listener_step cloned l).1.
Proof.
  intros Hl. unfold listener_step. destruct (recv_from _ _) as [r n].
  assert (forall n', listener_ok (ls_set_net n' l)) as Hl1 by (intros n'; by apply (listener_ok_same l)).
  destruct r as [[payload a]|e].
  - destruct (decode_packet payload) as [p|e] eqn:Ed.
    + apply decode_ok_inv in Ed as [Hp _].
      destruct (pk_kind p); try (apply listener_ok_route; [done|apply Hl1]).
      destruct (from_slice _); [apply handle_hello_ok, Hl1|apply listener_ok_incoming, Hl1].
    + destruct (handle_listener_message _ _) as [r2 n2]. apply Hl1.
  - destruct (is_retry_kind e); [apply Hl1|apply listener_ok_incoming, Hl1].
Qed.

Lemma run_listener_ok rounds l : listener_ok l -> listener_ok (run_listener_reader rounds l).
Proof.
  revert l; induction rounds as [|c rounds IH]; intros l Hl; simpl; [done|].
  pose proof (listener_step_ok c l Hl) as Hs. destruct (listener_step c l) as [l1 [|]]; [by apply IH|done].
Qed.

Lemma ack_burst_ok a p d n :
  encode_packet p = Ok d -> sends_ok n ->
  send_ack_burst a p n
  = (Ok tt, sent_more (replicate ACK_BURST_PACKETS (a, d)) (4 * ACK_BURST_INTERVAL) n).
Proof.
  intros Hd Hn.
  assert (forall m, sends_ok m -> send_packet_to a p m = (Ok tt, sent_more [(a, d)] 0 m)) as Hsend.
  { intros m Hm. unfold send_packet_to, mbind, eff_bind, lift. rewrite Hd. by apply send_to_ok. }
  unfold send_ack_burst. change ACK_BURST_PACKETS with 5%nat. cbn [ack_burst_from].
  rewrite (eff_bind_eq _ _ _ _ _ (Hsend _ Hn)).
  repeat (cbn [Nat.ltb Nat.leb Nat.add ACK_BURST_PACKETS];
    first [ rewrite (eff_bind_eq _ _ _ _ _ (sleep_more _ _ _ _))
          | rewrite (eff_bind_eq _ _ _ _ _ (Hsend _ (sends_ok_more _ _ _))); rewrite sent_more_more ]).
  done.
Qed.
End ListenerFacts.

(** ** Lemmas: what is still to be received *)

Section Receives.
Context `{Json udp_rendezvous_message}.
(** Sending and sleeping take nothing from the socket. *)
Definition receives (rs : list recv_event) (n : net) : Prop := n_recv n = rs.
Lemma receives_send_to rs a p : preserves (receives rs) (send_to a p).
Proof. intros n r n' Hn Hs. apply send_to_recv in Hs. unfold receives in *. congruence. Qed.
Lemma receives_sleep rs d : preserves (receives rs) (sleep d).
Proof. by apply preserves_modify. Qed.
Lemma receives_send_packet rs a p : preserves (receives rs) (send_packet_to a p).
Proof.
  intros n r n' Hn Hs. apply send_packet_same_input in Hs as (Hr & _ & _). unfold receives in *. congruence.
Qed.
Lemma receives_ack_burst rs a p index k : preserves (receives rs) (ack_burst_from a p index k).
Proof.
  revert index; induction k as [|k IH]; intros index; cbn [ack_burst_from]; [apply preserves_ret|].
  apply preserves_bind; [apply receives_send_packet|]. intros _. apply preserves_bind; [|done].
  destruct (Nat.ltb _ _); [apply receives_sleep|apply preserves_ret].
Qed.
Lemma receives_listener_message rs payload : preserves (receives rs) (handle_listener_message payload).
Proof.
  unfold handle_listener_message. apply preserves_bind; [apply preserves_lift|]. intros [| | |addr|]; try apply preserves_ret.
  apply preserves_bind; [apply preserves_lift|]. intros peer. apply preserves_bind; [|intros; apply preserves_ret].
  unfold send_punch_burst. generalize 0%nat PUNCH_BURST_PACKETS. intros index k. revert index.
  induction k as [|k IH]; intros index; cbn [punch_burst_from]; [apply preserves_ret|].
  apply preserves_bind; [apply preserves_bind; [apply preserves_lift|intros; apply receives_send_to]|]. intros _.
  apply preserves_bind; [|done]. destruct (Nat.ltb _ _); [apply receives_sleep|apply preserves_ret].
Qed.
Lemma receives_accepted `{Sha256} rs a token timeout inbox : preserves (receives rs) (accepted a token timeout inbox).
Proof. apply preserves_bind; [by apply preserves_modify|intros; apply preserves_ret]. Qed.
End Receives.

(** ** Lemmas: the log *)

(** Whatever a datagram holds, one line is logged of it, which names its sender and one of
    eleven kinds: a sender can write nothing else in the log. *)
Lemma datagrams_forge_no_log_line `{Json udp_rendezvous_message} phase peer_addr payload :
  char_in Diag.line_feed (log_udp_source phase peer_addr payload) = false /\
  exists kind,
    Diag.read_diag (log_udp_source phase peer_addr payload)
      = Some [("phase", phase); ("result", "received"); ("peer_addr", show_sock peer_addr); ("packet_kind", kind)] /\
    kind ∈ ["hello"; "hello_ack"; "data"; "ack"; "close"; "rendezvous_node"; "rendezvous_client"; "rendezvous_registered";
      "rendezvous_peer"; "rendezvous_punch"; "unknown"].
Proof.
  destruct (Diag.diag_lines_read_back phase "received"
    [("peer_addr", show_sock peer_addr); ("packet_kind", logged_kind payload)]) as [Hread Hline]; [by repeat constructor|].
  split; [exact Hline|]. eexists. split; [exact Hread|]. unfold logged_kind.
  destruct (decode_packet payload) as [[[] ? ?]|e]; [..|destruct (parse_message payload) as [[]|e']];
    apply (bool_decide_unpack _); by vm_compute.
Qed.

(** ** Properties *)

#[local] Instance session_hello_countable : Countable session_hello.
Proof.
  refine (inj_countable' (fun h => (sh_token h, sh_service_id h, sh_transport h))
    (fun '(a, b, c) => SessionHello a b c) _). by intros [].
Defined.
Definition toy_hello_json : Json session_hello := countable_json.
Definition toy_hello : session_hello := SessionHello "t" "svc_web" None.
Definition toy_connect := @connect toy_rv_json toy_hello_json toy_sha256.
Definition toy_ack (addr : socket_addr) : recv_event :=
  RecvEvent 1000 (Got (match encode_packet (Packet HelloAck 0 []) with Ok d => d | Err _ => [] end) addr).
(** Silence, then an acknowledgement from another port of the peer. *)
Definition toy_connect_net : net :=
  quiet [RecvEvent 0 (Failed WouldBlock); toy_ack (SockV4 (Ipv4 10 0 0 9) 40000)].

(** A connected stream talks to the address of a hello acknowledgement that was
    received, and that address has the IP of the peer the connection was made to,
    whatever reflexive candidates were seen. *)
Theorem connect_stays_on_the_peer_ip `{Json udp_rendezvous_message} `{Json session_hello} `{Sha256}
    (peer_addr : socket_addr) (hello : session_hello) (n n' : net) (st : stream) :
  connect peer_addr hello n = (Ok st, n') ->
  sock_ip (st_peer_addr st) = sock_ip peer_addr /\
  st_key st = sha256 (bytes_of (sh_token hello)) /\
  exists ev payload pl, ev ∈ n_recv n /\ ev_result ev = Got payload (st_peer_addr st) /\
    decode_packet (take MAX_PACKET_LEN payload) = Ok (Packet HelloAck 0 pl).
Proof.
  unfold connect, set_read_timeout, now. intros Hr. inv_eff.
  apply (connect_loop_ok _ _ _ _ (sock_ip peer_addr)) in Hr; [exact Hr|by repeat constructor].
Qed.

Lemma connect_stays_on_the_peer_ip_witness :
  sock_ip (SockV4 (Ipv4 10 0 0 9) 40000) = sock_ip toy_addr /\
  @sha256 toy_sha256 (bytes_of "t") = @sha256 toy_sha256 (bytes_of "t") /\
  exists ev payload pl, ev ∈ n_recv toy_connect_net /\
    ev_result ev = Got payload (SockV4 (Ipv4 10 0 0 9) 40000) /\
    decode_packet (take MAX_PACKET_LEN payload) = Ok (Packet HelloAck 0 pl).
Proof.
  exact (@connect_stays_on_the_peer_ip toy_rv_json toy_hello_json toy_sha256 toy_addr toy_hello
    toy_connect_net _
    (Stream (SockV4 (Ipv4 10 0 0 9) 40000) (@sha256 toy_sha256 (bytes_of "t")) false ClientToNode)
    ltac:(vm_compute; reflexivity)).
Defined.

(** The handshake ends: within 8 seconds of silence, or at an error, or connected. *)
Theorem connect_terminates `{Json udp_rendezvous_message} `{Json session_hello} `{Sha256}
    (peer_addr : socket_addr) (hello : session_hello) (payload : list byte) (n : net) :
  to_vec hello = Ok payload -> Forall (fun ev => 0 <= ev_elapsed ev) (n_recv n) ->
  in_fuel (connect peer_addr hello n).1.
Proof.
  intros Hp Hel. unfold connect, set_read_timeout, now, mbind, eff_bind, modify, lift, gets. rewrite Hp.
  apply (connect_loop_fuel _ _ _ _ _ _ 54); simpl; [done|done| |].
  - unfold HANDSHAKE_TIMEOUT, HANDSHAKE_READ_TIMEOUT, millis. lia.
  - unfold connect_fuel. simpl. lia.
Qed.

Lemma connect_terminates_witness : in_fuel (toy_connect toy_addr toy_hello (quiet [])).1.
Proof.
  refine (@connect_terminates toy_rv_json toy_hello_json toy_sha256 toy_addr toy_hello
    (pos_bytes (encode toy_hello)) (quiet []) _ _); [reflexivity|constructor].
Defined.

(** The memory of handshakes says duplicate exactly for the keys seen in the last
    thirty seconds, stays in time order without repetition and never holds more than
    256 of them, and remembers the key it is asked about. *)
Theorem duplicate_handshakes_are_the_recent_ones (recent : list (handshake_key * Z))
    (key : handshake_key) (time : Z) :
  recent_ok time recent ->
  let '(recent', duplicate) := is_duplicate_handshake recent key time in
  recent_ok time recent' /\ (exists t, (key, t) ∈ recent') /\
  (duplicate = true <-> exists t, (key, t) ∈ recent /\ time - t <= DUPLICATE_HANDSHAKE_WINDOW).
Proof.
  intros Hok. pose proof Hok as [Hs Hp _ _]. unfold is_duplicate_handshake.
  rewrite drop_old_filter by done.
  assert (recent_ok time (filter (within_window time) recent)) as Hf
    by (by eapply recent_ok_sublist; [apply sublist_filter|]).
  assert ((exists t, (key, t) ∈ filter (within_window time) recent) <->
          exists t, (key, t) ∈ recent /\ time - t <= DUPLICATE_HANDSHAKE_WINDOW) as Hiff.
  { setoid_rewrite list_elem_of_filter. unfold within_window. simpl. naive_solver. }
  destruct (existsb _ _) eqn:E.
  - apply existsb_key in E. naive_solver.
  - assert (forall t, (key, t) ∉ filter (within_window time) recent) as Hno.
    { intros t Hin. apply not_true_iff_false in E. apply E, existsb_key. eauto. }
    destruct (drop_excess_snoc time _ key Hf Hno) as [H1 H2].
    split_and!; [done|by eexists|]. split; [done|]. intros Hex. apply Hiff in Hex as [t Ht]. by apply Hno in Ht.
Qed.

Definition toy_key : handshake_key := HandshakeKey toy_addr "t" "svc_web".
Lemma duplicate_handshakes_are_the_recent_ones_witness :
  let '(recent', duplicate) := is_duplicate_handshake [(toy_key, 5)] toy_key 7 in
  recent_ok 7 recent' /\ (exists t, (toy_key, t) ∈ recent') /\
  (duplicate = true <-> exists t, (toy_key, t) ∈ [(toy_key, 5)] /\ 7 - t <= DUPLICATE_HANDSHAKE_WINDOW).
Proof.
  apply (duplicate_handshakes_are_the_recent_ones [(toy_key, 5)] toy_key 7). constructor.
  - repeat constructor.
  - repeat constructor. simpl. lia.
  - apply (bool_decide_unpack _). vm_compute. exact I.
  - vm_compute. lia.
Defined.

(** A hello is acknowledged five times whether or not it repeats a recent one, and
    opens a session, with an inbox of its own and the key derived from its token,
    exactly when it does not. *)
Theorem hello_opens_one_session `{Sha256}
    (p : packet) (hello : session_hello) (a : socket_addr) (l : listener) :
  packet_ok p -> sends_ok (ls_net l) -> ls_open l = true ->
  let '(recent, duplicate) := is_duplicate_handshake (ls_recent l)
    (HandshakeKey a (sh_token hello) (sh_service_id hello)) (n_now (ls_net l)) in
  exists l' d, handle_hello None p hello a l = (l', true) /\
    decode_packet d = Ok (Packet HelloAck (pk_seq p) []) /\
    n_sent (ls_net l') = n_sent (ls_net l) ++ replicate ACK_BURST_PACKETS (a, d) /\
    ls_recent l' = recent /\
    (if duplicate : bool
     then ls_active l' = ls_active l /\ ls_queues l' = ls_queues l /\ ls_incoming l' = ls_incoming l
     else ls_active l' = <[a := length (ls_queues l)]> (ls_active l) /\
          ls_queues l' = ls_queues l ++ [[]] /\
          ls_incoming l' = ls_incoming l ++
            [Ok (AcceptedSession a hello
                   (Stream a (sha256 (bytes_of (sh_token hello))) true NodeToClient)
                   (length (ls_queues l)))]).
Proof.
  intros Hp Hs Ho. unfold handle_hello.
  destruct (is_duplicate_handshake _ _ _) as [recent dup].
  destruct (encode_packet (Packet HelloAck (pk_seq p) [])) as [d|e] eqn:Ed.
  2: { unfold encode_packet in Ed. unfold_result. done. }
  rewrite (ack_burst_ok _ _ d) by done.
  assert (decode_packet d = Ok (Packet HelloAck (pk_seq p) [])) as Hd by (by apply decode_encode).
  destruct dup; cbn [ls_open ls_net]; unfold send_incoming, ls_set_net; cbn; rewrite ?Ho;
    (do 2 eexists; split_and!; [reflexivity|exact Hd|done|done|done|done|done]).
Qed.

Definition toy_listener : listener := Listener (quiet []) [] ∅ [] [] true.
Lemma hello_opens_one_session_witness :
  exists l' d,
    @handle_hello toy_sha256 None (Packet Hello 0 []) toy_hello toy_addr toy_listener = (l', true) /\
    decode_packet d = Ok (Packet HelloAck 0 []) /\
    n_sent (ls_net l') = [] ++ replicate ACK_BURST_PACKETS (toy_addr, d) /\
    ls_recent l' = [(HandshakeKey toy_addr "t" "svc_web", 0)] /\
    (ls_active l' = <[toy_addr := 0%nat]> ∅ /\ ls_queues l' = [[]] /\
     ls_incoming l' = [Ok (AcceptedSession toy_addr toy_hello
        (Stream toy_addr (@sha256 toy_sha256 (bytes_of "t")) true NodeToClient) 0)]).
Proof.
  exact (@hello_opens_one_session toy_sha256
    (Packet Hello 0 []) toy_hello toy_addr toy_listener
    ltac:(vm_compute; split; [discriminate|reflexivity]) eq_refl eq_refl).
Defined.

(** Whatever the listener received before, a packet that is not a hello reaches the
    inbox of the session opened from the same address, and no other session's. *)
Theorem packets_reach_their_own_session `{Json udp_rendezvous_message} `{Json session_hello}
    `{Sha256} (rounds : list (option io_kind)) (p : packet) (a : socket_addr) (l0 : listener) :
  listener_ok l0 -> packet_ok p ->
  let l := run_listener_reader rounds l0 in
  let l' := route_packet p a l in
  listener_ok l' /\
  (forall i, ls_active l !! a = Some i ->
     exists q, ls_queues l !! i = Some q /\ ls_queues l' !! i = Some (q ++ [p])) /\
  (forall b i, ls_active l !! b = Some i -> b <> a -> ls_queues l' !! i = ls_queues l !! i).
Proof.
  intros Hl Hp l l'. assert (listener_ok l) as Hok by (by apply run_listener_ok).
  split_and!; [by apply listener_ok_route| |]; unfold l', route_packet.
  - intros i Hi. rewrite Hi. pose proof (lo_bound _ Hok _ _ Hi) as Hb.
    apply lookup_lt_is_Some in Hb as [q Hq]. exists q. split; [done|]. simpl.
    rewrite list_lookup_alter_eq. by rewrite Hq.
  - intros b i Hb Hne. destruct (ls_active l !! a) as [j|] eqn:Ea; [|done]. simpl.
    rewrite list_lookup_alter_ne; [done|]. intros ->. by apply Hne, (lo_inj _ Hok b a i).
Qed.

(** A hello and then data from the same address. *)
Definition toy_listener_net : net :=
  let enc p := match encode_packet p with Ok d => d | Err _ => [] end in
  let hello := match @to_vec _ toy_hello_json toy_hello with Ok d => d | Err _ => [] end in
  quiet [RecvEvent 0 (Got (enc (Packet Hello 0 hello)) toy_addr);
         RecvEvent 0 (Got (enc (Packet Data 0 [x61])) toy_addr)].
Lemma packets_reach_their_own_session_witness :
  let l := @run_listener_reader toy_rv_json toy_hello_json toy_sha256 [None; None]
             (Listener toy_listener_net [] ∅ [] [] true) in
  let l' := route_packet (Packet Data 1 [x62]) toy_addr l in
  listener_ok l' /\
  (forall i, ls_active l !! toy_addr = Some i ->
     exists q, ls_queues l !! i = Some q /\ ls_queues l' !! i = Some (q ++ [Packet Data 1 [x62]])) /\
  (forall b i, ls_active l !! b = Some i -> b <> toy_addr -> ls_queues l' !! i = ls_queues l !! i).
Proof.
  apply (@packets_reach_their_own_session toy_rv_json toy_hello_json toy_sha256).
  - constructor; [done|done|constructor].
  - vm_compute. split; [discriminate|reflexivity].
Defined.
