(* ===== verification/UdpExposure.v ===== *)
(** * What a UDP session's handshake gives away

    [crates/overlay-transport/src/udp_session.rs] again, seen by others than the two ends.
    The listener keeps an inbox for each address a hello came from: here is what such an
    inbox holds after any number of rounds, and what one more hello from that address does.
    The key of a session is a digest of its token, and the hello carries the token: here is
    what that gives to whoever sees the hello. *)

From S2P Require Import Prelude RustStd NetAddr Protocol PinnedHttp Net Rendezvous UdpPacket UdpSession UdpListener.

(** ** The history of an inbox *)

(** What the listener routes of a datagram from [a]. *)
Definition packet_from (a : socket_addr) (ev : recv_event) : option packet :=
  match ev_result ev with
  | Got payload addr =>
      if bool_decide (addr = a) then
        match decode_packet (take MAX_PACKET_LEN payload) with
        | Ok p => match pk_kind p with Hello => None | _ => Some p end
        | Err _ => None
        end
      else None
  | Failed _ => None
  end.
Definition hello_from (a : socket_addr) (ev : recv_event) : Prop :=
  exists payload p, ev_result ev = Got payload a /\ decode_packet (take MAX_PACKET_LEN payload) = Ok p /\ pk_kind p = Hello.
(** The inbox [i] is no address's any more. *)
Definition abandoned (i : nat) (l : listener) : Prop :=
  (i < length (ls_queues l))%nat /\ forall b, ls_active l !! b <> Some i.

Section History.
Context `{Json udp_rendezvous_message} `{Json session_hello} `{Sha256}.

Lemma send_incoming_keeps r l :
  n_recv (ls_net (send_incoming r l).1) = n_recv (ls_net l) /\
  ls_active (send_incoming r l).1 = ls_active l /\ ls_queues (send_incoming r l).1 = ls_queues l.
Proof. unfold send_incoming. by destruct (ls_open l). Qed.
(** A hello changes nothing of the inboxes, or opens a new one at the end. *)
Lemma handle_hello_inboxes cloned p hello a l :
  let l' := (handle_hello cloned p hello a l).1 in
  n_recv (ls_net l') = n_recv (ls_net l) /\
  (ls_active l' = ls_active l /\ ls_queues l' = ls_queues l \/
   ls_active l' = <[a := length (ls_queues l)]> (ls_active l) /\ ls_queues l' = ls_queues l ++ [[]]).
Proof.
  unfold handle_hello. destruct (is_duplicate_handshake _ _ _) as [recent dup].
  destruct (send_ack_burst _ _ _) as [ack n] eqn:Eb.
  apply (receives_ack_burst (n_recv (ls_net l)) _ _ _ _ _ _ _ eq_refl) in Eb. unfold receives in Eb.
  destruct ack as [u|e]; cbn zeta iota.
  - destruct dup; [by split; [|left]|]. destruct cloned as [k|].
    + cbn [fst]; match goal with |- context [send_incoming ?r ?l1] => destruct (send_incoming_keeps r l1) as (-> & -> & ->) end.
      split; [exact Eb|by right].
    + unfold accepted, new_stream, mbind, eff_bind, set_read_timeout, modify, mret, eff_ret. cbn [ls_set_net ls_net].
      match goal with |- context [send_incoming ?r ?l1] => destruct (send_incoming_keeps r l1) as (-> & -> & ->) end.
      split; [exact Eb|by right].
  - cbn [fst]; match goal with |- context [send_incoming ?r ?l1] => destruct (send_incoming_keeps r l1) as (-> & -> & ->) end.
    split; [exact Eb|by left].
Qed.

(** One round: it receives at most one datagram. *)
Lemma listener_step_inbox cloned l a i q :
  listener_ok l -> ls_active l !! a = Some i -> ls_queues l !! i = Some q ->
  let l' := (listener_step cloned l).1 in
  exists received, n_recv (ls_net l) = received ++ n_recv (ls_net l') /\
    (ls_active l' !! a = Some i /\ ls_queues l' !! i = Some (q ++ omap (packet_from a) received) \/
     abandoned i l' /\ ls_queues l' !! i = Some q /\ exists hello, received = [hello] /\ hello_from a hello).
Proof.
  intros Hok Ha Hq. unfold listener_step, recv_from.
  destruct (n_recv (ls_net l)) as [|ev rest] eqn:Erecv; cbn [fst].
  { exists []. cbn. rewrite app_nil_r. split; [done|]. by left. }
  set (n1 := Net rest _ _ _ _). exists [ev]. cbn [omap list_omap]. unfold packet_from at 1.
  destruct (ev_result ev) as [payload addr|k] eqn:Eev.
  2: { assert (forall l1, n_recv (ls_net l1) = rest -> ls_active l1 = ls_active l -> ls_queues l1 = ls_queues l ->
         ev :: rest = [ev] ++ n_recv (ls_net l1) /\ (ls_active l1 !! a = Some i /\ ls_queues l1 !! i = Some (q ++ []))) as Hsame.
       { intros l1 -> -> ->. by rewrite app_nil_r. }
       destruct (is_retry_kind (EIo k)); cbn [fst].
       - destruct (Hsame (ls_set_net n1 l)) as [? ?]; [done..|]. split; [done|by left].
       - destruct (send_incoming_keeps (Err (EIo k)) (ls_set_net n1 l)) as (K1 & K2 & K3).
         destruct (Hsame _ K1 K2 K3) as [? ?]. split; [done|by left]. }
  destruct (decode_packet (take MAX_PACKET_LEN payload)) as [p|e] eqn:Ed.
  2: { destruct (handle_listener_message _ _) as [r n2] eqn:Em. cbn [fst ls_net ls_set_net].
       pose proof (receives_listener_message rest _ (ls_net (ls_set_net n1 l)) _ _ eq_refl Em) as Hr2. unfold receives in Hr2. rewrite Hr2.
       split; [done|left]. case_bool_decide; cbn; rewrite ?app_nil_r; done. }
  assert (pk_kind p <> Hello ->
    ev :: rest = [ev] ++ n_recv (ls_net (route_packet p addr (ls_set_net n1 l))) /\
    (ls_active (route_packet p addr (ls_set_net n1 l)) !! a = Some i /\
     ls_queues (route_packet p addr (ls_set_net n1 l)) !! i = Some (q ++ (if bool_decide (addr = a) then [p] else [])))) as Hroute.
  { intros _. unfold route_packet. cbn [ls_set_net ls_active]. case_bool_decide as Haddr.
    - subst addr. rewrite Ha. cbn. rewrite list_lookup_alter_eq, Hq. done.
    - destruct (ls_active l !! addr) as [j|] eqn:Ej; cbn; [|by rewrite app_nil_r].
      rewrite list_lookup_alter_ne, app_nil_r; [done|]. intros ->. by apply Haddr, (lo_inj _ Hok addr a i). }
  destruct (pk_kind p) eqn:Ekind; cbn [fst];
    try (destruct Hroute as [K1 [K2 K3]]; [done|]; split; [exact K1|]; left; split; [exact K2|rewrite K3; by case_bool_decide]).
  assert (n_recv (ls_net (ls_set_net n1 l)) = rest) as Hn1 by done.
  destruct (from_slice (pk_payload p)) as [hello|e]; cbn [fst].
  - destruct (handle_hello_inboxes cloned p hello addr (ls_set_net n1 l)) as [Hr [[K1 K2]|[K1 K2]]]; rewrite Hn1 in Hr.
    + split; [by rewrite Hr|]. left. rewrite K1, K2. by case_bool_decide; cbn; rewrite app_nil_r.
    + split; [by rewrite Hr|]. cbn [ls_set_net ls_active ls_queues] in K1, K2.
      pose proof (lo_bound _ Hok _ _ Ha) as Hb. rewrite K2, lookup_app_l by done.
      destruct (decide (addr = a)) as [->|Hne].
      * right. split; [|split; [done|]].
        -- split; [rewrite K2, length_app; lia|]. intros b. rewrite K1, lookup_insert_Some.
           intros [[_ Hi]|[Hne Hb']]; [lia|]. by apply Hne, (lo_inj _ Hok a b i).
        -- exists ev. split; [done|]. by exists payload, p.
      * left. rewrite K1, lookup_insert_ne by done. split; [done|].
        rewrite bool_decide_eq_false_2 by done. by rewrite app_nil_r.
  - destruct (send_incoming_keeps (Err e) (ls_set_net n1 l)) as (K1 & K2 & K3).
    split; [by rewrite K1|]. left. rewrite K2, K3. by case_bool_decide; cbn; rewrite app_nil_r.
Qed.

(** A round leaves an abandoned inbox alone. *)
Lemma route_packet_abandoned p addr i l :
  abandoned i l -> abandoned i (route_packet p addr l) /\ ls_queues (route_packet p addr l) !! i = ls_queues l !! i /\
  ls_net (route_packet p addr l) = ls_net l.
Proof.
  intros [Hi Hb]. unfold route_packet, abandoned. destruct (ls_active l !! addr) as [j|] eqn:Ej; [|done]. cbn.
  rewrite length_alter. split; [done|]. rewrite list_lookup_alter_ne; [done|]. intros ->. by apply (Hb addr).
Qed.
Lemma listener_step_abandoned cloned i l :
  abandoned i l ->
  let l' := (listener_step cloned l).1 in
  abandoned i l' /\ ls_queues l' !! i = ls_queues l !! i /\
  exists received, n_recv (ls_net l) = received ++ n_recv (ls_net l').
Proof.
  intros Hi. unfold listener_step, recv_from.
  assert (forall l1, ls_active l1 = ls_active l -> ls_queues l1 = ls_queues l ->
    abandoned i l1 /\ ls_queues l1 !! i = ls_queues l !! i) as Hsame by (unfold abandoned; by intros l1 -> ->).
  destruct (n_recv (ls_net l)) as [|ev rest] eqn:Erecv; cbn [fst].
  { destruct (Hsame (ls_set_net (Net [] (n_send (ls_net l)) (n_sent (ls_net l)) (n_now (ls_net l) + n_read_timeout (ls_net l))
      (n_read_timeout (ls_net l))) l)) as [? ?]; [done..|]. split_and!; [done..|]. by exists []. }
  set (n1 := Net rest _ _ _ _).
  assert (forall l1, abandoned i l1 /\ ls_queues l1 !! i = ls_queues l !! i -> n_recv (ls_net l1) = rest ->
    abandoned i l1 /\ ls_queues l1 !! i = ls_queues l !! i /\ exists received, ev :: rest = received ++ n_recv (ls_net l1)) as Hrest.
  { intros l1 [? ?] ->. split_and!; [done..|]. by exists [ev]. }
  destruct (Hsame (ls_set_net n1 l) eq_refl eq_refl) as [Hn Hnq].
  assert (forall r, n_recv (ls_net (send_incoming r (ls_set_net n1 l)).1) = rest /\
    abandoned i (send_incoming r (ls_set_net n1 l)).1 /\
    ls_queues (send_incoming r (ls_set_net n1 l)).1 !! i = ls_queues l !! i) as Hsend.
  { intros r. destruct (send_incoming_keeps r (ls_set_net n1 l)) as (K1 & K2 & K3). split; [by rewrite K1|]. by apply Hsame. }
  destruct (ev_result ev) as [payload addr|k].
  2: { destruct (is_retry_kind (EIo k)); cbn [fst]; [by apply Hrest|]. destruct (Hsend (Err (EIo k))). by apply Hrest. }
  destruct (decode_packet (take MAX_PACKET_LEN payload)) as [p|e].
  2: { destruct (handle_listener_message _ _) as [r n2] eqn:Em. cbn [fst].
       pose proof (receives_listener_message rest _ (ls_net (ls_set_net n1 l)) _ _ eq_refl Em) as Hr2.
       apply Hrest; [by apply Hsame|exact Hr2]. }
  destruct (route_packet_abandoned p addr i (ls_set_net n1 l) Hn) as (K1 & K2 & K3).
  destruct (pk_kind p); cbn [fst]; try (apply Hrest; [by split; [|rewrite K2]|by rewrite K3]).
  destruct (from_slice (pk_payload p)) as [hello|e]; cbn [fst]; [|destruct (Hsend (Err e)); by apply Hrest].
  destruct (handle_hello_inboxes cloned p hello addr (ls_set_net n1 l)) as [Hr [[J1 J2]|[J1 J2]]]; (apply Hrest; [|exact Hr]).
  - by apply Hsame.
  - destruct Hn as [Hlen Hnone]. cbn [ls_set_net ls_active ls_queues] in *. rewrite J2, lookup_app_l by done. split; [|done].
    split; [rewrite J2, length_app; lia|]. intros b. rewrite J1, lookup_insert_Some. intros [[_ ?]|[_ Hb]]; [lia|]. by apply (Hnone b).
Qed.
Lemma run_listener_abandoned rounds i l :
  abandoned i l ->
  let l' := run_listener_reader rounds l in
  abandoned i l' /\ ls_queues l' !! i = ls_queues l !! i /\
  exists received, n_recv (ls_net l) = received ++ n_recv (ls_net l').
Proof.
  revert l; induction rounds as [|c rounds IH]; intros l Hi; cbn [run_listener_reader]; [split_and!; [done..|by exists []]|].
  destruct (listener_step_abandoned c i l Hi) as (K1 & K2 & received & K3).
  destruct (listener_step c l) as [l1 [|]]; cbn [fst] in *; [|eauto].
  destruct (IH l1 K1) as (J1 & J2 & received' & J3). split; [done|]. split; [by rewrite J2|].
  exists (received ++ received'). rewrite K3, J3. by rewrite app_assoc.
Qed.
End History.

(** ** Who reads the hello *)

(** An observer of the datagrams of a socket: the hellos in them, and the bytes of a data
    packet, read with the key of a hello. *)
Section Observer.
Context `{Json session_hello} `{Sha256} `{Aead}.
Definition observed_hello (datagram : socket_addr * list byte) : option session_hello :=
  match decode_packet datagram.2 with
  | Ok (Packet Hello _ payload) => result_ok (from_slice payload)
  | _ => None
  end.
Definition observed_data (hello : session_hello) (dir : direction) (datagram : socket_addr * list byte) : option (list byte) :=
  match decode_packet datagram.2 with
  | Ok (Packet Data seq payload) => aead_decrypt (sha256 (bytes_of (sh_token hello))) (nonce_bytes dir seq) payload
  | _ => None
  end.
(** A data packet the observer makes with that key. *)
Definition forged_packet (hello : session_hello) (dir : direction) (seq : Z) (plaintext : list byte) : option packet :=
  Packet Data seq <$> aead_encrypt (sha256 (bytes_of (sh_token hello))) (nonce_bytes dir seq) plaintext.
End Observer.

Lemma sent_keeps_send_to x a p : preserves (fun n => x ∈ n_sent n) (send_to a p).
Proof. intros n r n' Hn. unfold send_to. destruct (n_send n) as [|[k|] rest]; intros [= <- <-]; cbn; set_solver. Qed.
Lemma sent_keeps_send_packet x a p : preserves (fun n => x ∈ n_sent n) (send_packet_to a p).
Proof. apply preserves_bind; [apply preserves_lift|]. intros. apply sent_keeps_send_to. Qed.
Lemma sent_keeps_recv x size : preserves (fun n => x ∈ n_sent n) (recv_from size).
Proof. intros n r n' Hn. unfold recv_from. destruct (n_recv n); by intros [= <- <-]. Qed.

Section Handshake.
Context `{Json udp_rendezvous_message} `{Json session_hello} `{Sha256}.
Lemma sent_keeps_burst x peers p : preserves (fun n => x ∈ n_sent n) (send_handshake_burst peers p).
Proof.
  induction peers as [|a peers IH]; cbn [send_handshake_burst]; [apply preserves_ret|].
  apply preserves_bind; [apply sent_keeps_send_packet|]. by intros _.
Qed.
Lemma sent_keeps_connect_loop x fuel deadline hello p peers :
  preserves (fun n => x ∈ n_sent n) (connect_loop fuel deadline hello p peers).
Proof.
  revert peers; induction fuel as [|fuel IH]; intros peers; cbn [connect_loop]; [apply preserves_throw|].
  apply preserves_bind; [apply preserves_gets|]. intros time. destruct (deadline <=? time); [apply preserves_throw|].
  apply preserves_bind; [apply sent_keeps_burst|]. intros _.
  apply preserves_bind; [apply preserves_attempt, sent_keeps_recv|]. intros [[payload addr]|e].
  - destruct (is_handshake_ack_from_peer _ _ _); [|apply IH].
    apply preserves_bind; [by apply preserves_modify|]. intros _. apply preserves_ret.
  - destruct (is_retry_kind e); [apply IH|apply preserves_throw].
Qed.
(** A client that connected sent its hello to the address it was given. *)
Lemma connect_sends_its_hello peer_addr hello n client n' :
  connect peer_addr hello n = (Ok client, n') ->
  exists payload d, to_vec hello = Ok payload /\ encode_packet (Packet Hello 0 payload) = Ok d /\ (peer_addr, d) ∈ n_sent n'.
Proof.
  unfold connect. intros Hr. inv_eff. rename E0 into Hpayload, x2 into n1. unfold now in *. inv_eff.
  match type of Hr with connect_loop ?f _ _ _ _ _ = _ => set (fuel := f) in * end.
  destruct fuel as [|fuel]; [discriminate|]. cbn [connect_loop] in Hr. unfold now in Hr. inv_eff.
  destruct (_ <=? _); [discriminate|]. inv_eff.
  cbn [send_handshake_burst] in E0. unfold send_packet_to in E0. inv_eff. rename E3 into Hencode.
  match type of Hencode with _ = Ok ?d => exists x1, d; set (sent := (peer_addr, d)) end. split_and!; [done..|].
  match goal with Hsend : send_to _ _ _ = (Ok _, ?m) |- _ => assert (sent ∈ n_sent m) as Hin end.
  { match goal with Hsend : send_to _ _ ?m = _ |- _ => revert Hsend; unfold send_to; destruct (n_send m) as [|[k|] rest] end;
      intros [= <-]; subst sent; cbn; set_solver. }
  pose proof (sent_keeps_recv sent MAX_PACKET_LEN _ _ _ Hin (surjective_pairing _)) as Hin1. clear Hin. rename Hin1 into Hin.
  destruct (recv_from MAX_PACKET_LEN _) as [r n2] eqn:Erecv. cbn [snd] in Hin. injection E1 as <- <-.
  destruct r as [[received addr]|e].
  - destruct (is_handshake_ack_from_peer _ _ _); [|by eapply sent_keeps_connect_loop in Hr].
    unfold new_stream, set_read_timeout in Hr. inv_eff. exact Hin.
  - destruct (is_retry_kind e); [by eapply sent_keeps_connect_loop in Hr|done].
Qed.
End Handshake.

Lemma release_pending_appends fuel s : exists rest, pending_read (release_pending fuel s) = pending_read s ++ rest.
Proof.
  revert s; induction fuel as [|fuel IH]; intros s; cbn [release_pending]; [exists []; by rewrite app_nil_r|].
  destruct (pending_packets s !! recv_seq s) as [next|]; [|exists []; by rewrite app_nil_r].
  destruct (IH (SessionState (send_seq s) ((recv_seq s + 1) mod u64_modulus) (pending_read s ++ next)
    (delete (recv_seq s) (pending_packets s)))) as [rest ->]. exists (next ++ rest). by rewrite app_assoc.
Qed.
(** The next data packet is delivered. *)
Lemma handle_next_packet `{Aead} self payload plaintext w :
  0 <= recv_seq (w_state w) < u64_modulus -> sends_ok (w_net w) ->
  aead_decrypt (st_key self) (nonce_bytes (direction_peer (st_direction self)) (recv_seq (w_state w))) payload = Some plaintext ->
  exists w' rest, handle_data_packet self (Packet Data (recv_seq (w_state w)) payload) w = (Ok tt, w') /\
    pending_read (w_state w') = pending_read (w_state w) ++ plaintext ++ rest.
Proof.
  intros Hseq Hs Hdec. unfold handle_data_packet. cbn [pk_seq pk_payload]. rewrite Hdec.
  set (w1 := set_state (accept_data (recv_seq (w_state w)) plaintext (w_state w)) w).
  destruct (send_ack_ok self (recv_seq (w_state w)) w1) as (d & Hack & _); [done..|].
  destruct (release_pending_appends (size (pending_packets (w_state w)))
    (SessionState (send_seq (w_state w)) ((recv_seq (w_state w) + 1) mod u64_modulus)
       (pending_read (w_state w) ++ plaintext) (pending_packets (w_state w)))) as [rest Hrest].
  do 2 eexists. split; [unfold mbind, eff_bind, modify; exact Hack|]. cbn [set_net w_state w1 set_state].
  unfold accept_data. rewrite !(proj2 (Z.ltb_ge _ _)) by lia. rewrite Hrest. cbn [pending_read]. by rewrite <- app_assoc.
Qed.

(** ** Properties *)

(** C35. The inbox of a session gets every packet that arrives from its peer's address and is not a hello, in
    order and each as often as it arrives, and nothing else, until a hello from the same
    address opens another session; from then on it is no address's and gets nothing. *)
Theorem inboxes_hold_the_packets_of_their_peer `{Json udp_rendezvous_message} `{Json session_hello} `{Sha256}
    (rounds : list (option io_kind)) (l : listener) (a : socket_addr) (i : nat) (q : list packet) :
  listener_ok l -> ls_active l !! a = Some i -> ls_queues l !! i = Some q ->
  let l' := run_listener_reader rounds l in
  exists received before after,
    n_recv (ls_net l) = received ++ n_recv (ls_net l') /\ received = before ++ after /\
    ls_queues l' !! i = Some (q ++ omap (packet_from a) before) /\
    (ls_active l' !! a = Some i /\ after = [] \/
     abandoned i l' /\ exists hello rest, after = hello :: rest /\ hello_from a hello).
Proof.
  revert l q; induction rounds as [|c rounds IH]; intros l q Hok Ha Hq; cbn [run_listener_reader].
  { exists [], [], []. cbn. rewrite app_nil_r. split_and!; [done..|by left]. }
  pose proof (listener_step_ok c l Hok) as Hok1.
  destruct (listener_step_inbox c l a i q Hok Ha Hq) as (received1 & Hrecv & [[Ha1 Hq1]|(Hgone & Hq1 & hello & -> & Hhello)]);
    destruct (listener_step c l) as [l1 [|]]; cbn [fst] in *.
  - destruct (IH l1 _ Hok1 Ha1 Hq1) as (received & before & after & Hr & -> & Hq' & Hafter).
    exists (received1 ++ before ++ after), (received1 ++ before), after.
    rewrite Hrecv, Hr, Hq', omap_app, !app_assoc. split_and!; [done..|]. exact Hafter.
  - exists received1, received1, []. rewrite app_nil_r. split_and!; [done..|by left].
  - destruct (run_listener_abandoned rounds i l1 Hgone) as (Hgone' & Hq' & received & Hr).
    exists (hello :: received), [], (hello :: received). rewrite Hrecv, Hr, Hq', Hq1. cbn. rewrite app_nil_r.
    split_and!; [done..|right]. eauto.
  - exists [hello], [], [hello]. rewrite Hrecv, Hq1. cbn. rewrite app_nil_r. split_and!; [done..|right]. eauto.
Qed.

(** One datagram, which needs no token of anybody, cuts a session off: a hello with the address of an open
    session's peer as its source, and any other token, and the session gets nothing more whatever arrives. *)
Lemma one_hello_cuts_a_session_off `{Json udp_rendezvous_message} `{Json session_hello} `{Sha256}
    (cloned : option io_kind) (rounds : list (option io_kind)) (l : listener) (a : socket_addr) (i : nat) (q : list packet)
    (elapsed : Z) (datagram : list byte) (rest : list recv_event) (seq : Z) (payload : list byte) (hello : session_hello) :
  listener_ok l -> ls_active l !! a = Some i -> ls_queues l !! i = Some q -> sends_ok (ls_net l) ->
  n_recv (ls_net l) = RecvEvent elapsed (Got datagram a) :: rest ->
  decode_packet (take MAX_PACKET_LEN datagram) = Ok (Packet Hello seq payload) -> from_slice payload = Ok hello ->
  (is_duplicate_handshake (ls_recent l) (HandshakeKey a (sh_token hello) (sh_service_id hello))
     (n_now (ls_net l) + elapsed)).2 = false ->
  ls_queues (run_listener_reader (cloned :: rounds) l) !! i = Some q.
Proof.
  intros Hok Ha Hq Hs Hrecv Hdec Hhello Hfresh. cbn [run_listener_reader].
  assert (abandoned i (listener_step cloned l).1 /\ ls_queues (listener_step cloned l).1 !! i = Some q) as [Hgone Hq1].
  { destruct (listener_step_inbox cloned l a i q Hok Ha Hq) as (received & _ & [[Ha1 _]|(Hgone & Hq1 & _)]); [exfalso|done].
    revert Ha1. unfold listener_step, recv_from. rewrite Hrecv. cbn [ev_result ev_elapsed]. rewrite Hdec. cbn [pk_kind pk_payload].
    rewrite Hhello. unfold handle_hello. cbn [ls_set_net ls_recent ls_net n_now]. destruct (is_duplicate_handshake _ _ _) as [recent dup].
    cbn [snd] in Hfresh. subst dup. destruct (encode_packet (Packet HelloAck seq [])) as [d|e] eqn:Ed.
    2: { unfold encode_packet in Ed. unfold_result. done. }
    cbn [pk_seq]. rewrite (ack_burst_ok _ _ d) by done. pose proof (lo_bound _ Hok _ _ Ha) as Hb.
    destruct cloned as [k|]; cbn [fst ls_net ls_active ls_queues].
    - match goal with |- context [send_incoming ?r ?l1] => destruct (send_incoming_keeps r l1) as (_ & -> & _) end.
      cbn [ls_active]. rewrite lookup_insert_eq. intros [= Hi]. lia.
    - unfold accepted, new_stream, mbind, eff_bind, set_read_timeout, modify, mret, eff_ret.
      match goal with |- context [send_incoming ?r ?l1] => destruct (send_incoming_keeps r l1) as (_ & -> & _) end.
      cbn [ls_set_net ls_active]. rewrite lookup_insert_eq. intros [= Hi]. lia. }
  destruct (listener_step cloned l) as [l1 [|]]; cbn [fst] in *; [|done].
  destruct (run_listener_abandoned rounds i l1 Hgone) as (_ & Hq' & _). by rewrite Hq'.
Qed.

(** C6. The handshake gives the session away.  A client that connected has sent its hello, in
    which an observer of its datagrams finds the token.  With it the observer reads what the client
    and the node write, from the datagrams they send, and makes packets that the node's stream,
    when they come with the client's address, accepts as the client's and delivers. *)
Theorem observers_of_the_hello_read_and_write_the_session `{Json udp_rendezvous_message} `{JsonOk session_hello}
    `{Sha256} `{AeadOk} (peer_addr : socket_addr) (hello : session_hello) (n n' : net) (client : stream) :
  connect peer_addr hello n = (Ok client, n') ->
  Exists (fun d => observed_hello d = Some hello) (n_sent n') /\
  forall addr timeout inbox m m' node, accepted addr (sh_token hello) timeout inbox m = (Ok node, m') ->
    (forall self bytes w len w', self ∈ [client; node] -> inbox_ok w -> 0 <= send_seq (w_state w) < u64_modulus ->
       write self bytes w = (Ok len, w') ->
       Exists (fun d => observed_data hello (st_direction self) d = Some (take len bytes)) (n_sent (w_net w'))) /\
    (forall plaintext p w, 0 <= recv_seq (w_state w) < u64_modulus -> sends_ok (w_net w) ->
       forged_packet hello ClientToNode (recv_seq (w_state w)) plaintext = Some p ->
       exists w' rest, handle_data_packet node p w = (Ok tt, w') /\
         pending_read (w_state w') = pending_read (w_state w) ++ plaintext ++ rest).
Proof.
  intros Hconnect. split.
  { apply connect_sends_its_hello in Hconnect as (payload & d & Hpayload & Hd & Hin).
    apply list.Exists_exists. exists (peer_addr, d). split; [done|]. unfold observed_hello. cbn [snd].
    assert (packet_ok (Packet Hello 0 payload)) as Hok by (split; cbn [pk_seq]; [done|reflexivity]).
    rewrite (decode_encode _ _ Hok Hd). by rewrite (json_roundtrip _ _ Hpayload). }
  intros addr timeout inbox m m' node Haccepted.
  unfold accepted, new_stream in Haccepted. inv_eff.
  assert (st_key client = sha256 (bytes_of (sh_token hello))) as Hkey.
  { unfold connect in Hconnect. inv_eff.
    eapply connect_loop_ok in Hconnect as (_ & Hkey & _); [exact Hkey|by constructor]. }
  split.
  - intros self bytes w len w' Hself Hinbox Hseq Hwrite.
    assert (st_key self = sha256 (bytes_of (sh_token hello))) as Hselfkey by (set_unfold in Hself; by destruct Hself as [->|[->|[]]]).
    apply write_result in Hwrite as (-> & _ & c & d & Hc & Hd & Hin); [|done].
    apply list.Exists_exists. eexists. split; [exact Hin|]. unfold observed_data. cbn [snd].
    assert (packet_ok (Packet Data (send_seq (w_state w)) c)) as Hok by exact Hseq.
    rewrite (decode_encode _ _ Hok Hd), <- Hselfkey. by apply aead_roundtrip.
  - intros plaintext p w Hseq Hs Hp. unfold forged_packet in Hp.
    destruct (aead_encrypt _ _ _) as [c|] eqn:Ec; [|done]. injection Hp as <-.
    apply handle_next_packet; [done..|]. cbn [st_key st_direction direction_peer]. by apply aead_roundtrip.
Qed.

(** ** Witnesses *)

Definition toy_datagram (p : packet) : list byte := match encode_packet p with Ok d => d | Err _ => [] end.
Definition toy_hello_datagram (hello : session_hello) : list byte :=
  toy_datagram (Packet Hello 0 (match @to_vec _ toy_hello_json hello with Ok d => d | Err _ => [] end)).
(** An open session, its next packet, and a hello with another token from the same address. *)
Definition toy_intruder : session_hello := SessionHello "x" "y" None.
Definition toy_open_listener : listener :=
  Listener (quiet [RecvEvent 0 (Got (toy_datagram (Packet Data 0 [x61])) toy_addr);
                   RecvEvent 0 (Got (toy_hello_datagram toy_intruder) toy_addr);
                   RecvEvent 0 (Got (toy_datagram (Packet Data 1 [x62])) toy_addr)])
    [] {[toy_addr := 0%nat]} [[]] [] true.
Lemma toy_open_listener_ok : listener_ok toy_open_listener.
Proof.
  constructor; cbn [toy_open_listener ls_active ls_queues].
  - intros a i [<- <-]%lookup_singleton_Some. apply Nat.lt_0_1.
  - intros a b i [<- _]%lookup_singleton_Some [<- _]%lookup_singleton_Some. done.
  - repeat constructor.
Qed.
Lemma inboxes_hold_the_packets_of_their_peer_witness :
  let l' := @run_listener_reader toy_rv_json toy_hello_json toy_sha256 [None; None; None] toy_open_listener in
  n_recv (ls_net l') = [] /\ ls_queues l' = [[Packet Data 0 [x61]]; [Packet Data 1 [x62]]] /\
  exists received before after,
    n_recv (ls_net toy_open_listener) = received ++ n_recv (ls_net l') /\ received = before ++ after /\
    ls_queues l' !! 0%nat = Some ([] ++ omap (packet_from toy_addr) before) /\
    (ls_active l' !! toy_addr = Some 0%nat /\ after = [] \/
     abandoned 0 l' /\ exists hello rest, after = hello :: rest /\ hello_from toy_addr hello).
Proof.
  split; [vm_compute; reflexivity|]. split; [vm_compute; reflexivity|].
  apply (@inboxes_hold_the_packets_of_their_peer toy_rv_json toy_hello_json toy_sha256 [None; None; None]
    toy_open_listener toy_addr 0 []); [exact toy_open_listener_ok|reflexivity|reflexivity].
Defined.

Definition toy_hello_json_ok : @JsonOk _ toy_hello_json := countable_json_ok.
(** The client's handshake, a write of the client, and a packet made by an observer. *)
Definition toy_handshake : result stream * net := toy_connect toy_addr toy_hello (quiet [toy_ack toy_addr]).
Definition toy_client : stream := Stream toy_addr (@sha256 toy_sha256 (bytes_of "t")) false ClientToNode.
Definition toy_node : stream := Stream toy_addr (@sha256 toy_sha256 (bytes_of "t")) true NodeToClient.
Definition toy_client_world : world := World (quiet [toy_event (Packet Ack 0 [])]) [] [] initial_state.
Lemma observers_of_the_hello_read_and_write_the_session_witness :
  toy_handshake.1 = Ok toy_client /\
  Exists (fun d => @observed_hello toy_hello_json d = Some toy_hello) (n_sent toy_handshake.2) /\
  Exists (fun d => @observed_data toy_sha256 toy_aead toy_hello ClientToNode d = Some [x61; x62])
    (n_sent (w_net (@write toy_aead toy_client [x61; x62] toy_client_world).2)) /\
  exists p, @forged_packet toy_sha256 toy_aead toy_hello ClientToNode 0 [x63] = Some p /\
    exists w' rest, @handle_data_packet toy_aead toy_node p (World (quiet []) [] [] initial_state) = (Ok tt, w') /\
      pending_read (w_state w') = [] ++ [x63] ++ rest.
Proof.
  assert (toy_handshake = (Ok toy_client, toy_handshake.2)) as Hconnect by (vm_compute; reflexivity).
  split; [by rewrite Hconnect|].
  destruct (@observers_of_the_hello_read_and_write_the_session toy_rv_json toy_hello_json toy_hello_json_ok toy_sha256
    toy_aead toy_aead_ok toy_addr toy_hello (quiet [toy_ack toy_addr]) toy_handshake.2 toy_client Hconnect) as [Hhello Hsession].
  split; [exact Hhello|].
  destruct (Hsession toy_addr (secs 3) true (quiet []) _ toy_node eq_refl) as [Hread Hwrite]. split.
  - apply (Hread toy_client [x61; x62] toy_client_world 2%nat); [set_solver|split; constructor|vm_compute; by split|].
    vm_compute. reflexivity.
  - eexists. split; [reflexivity|].
    apply (Hwrite [x63] _ (World (quiet []) [] [] initial_state)); [vm_compute; by split|reflexivity|reflexivity].
Defined.
