(* ===== verification/UdpDelivery.v ===== *)
(** * From the client's socket to the node's reader

    [crates/overlay-transport/src/udp_session.rs]: the parts of a UDP session together.  A client
    connects ([UdpSessionStream::connect]) and writes; the node's listener receives the datagrams
    ([run_listener_reader]), accepts the session and fills its inbox; the node's clone of the
    stream reads from there and acknowledges to the client. *)

From S2P Require Import Prelude RustStd NetAddr Protocol PinnedHttp Net Rendezvous UdpPacket UdpSession UdpListener UdpExposure.

(** ** Lemmas: the ends *)

Section Ends.
Context `{Json udp_rendezvous_message} `{Json session_hello} `{Sha256}.
Lemma connect_loop_stream fuel deadline hello p peers n client n' :
  connect_loop fuel deadline hello p peers n = (Ok client, n') ->
  client = Stream (st_peer_addr client) (sha256 (bytes_of (sh_token hello))) false ClientToNode.
Proof.
  revert peers n; induction fuel as [|fuel IH]; intros peers n; cbn [connect_loop]; [discriminate|].
  unfold now. intros Hr. inv_eff. destruct (_ <=? _); [discriminate|]. inv_eff.
  match type of Hr with (match ?x with _ => _ end _ = _) => destruct x as [[payload addr]|e] end.
  - destruct (is_handshake_ack_from_peer _ _ _); [|by eapply IH]. unfold new_stream in Hr. inv_eff. done.
  - destruct (is_retry_kind e); [by eapply IH|done].
Qed.
Lemma connect_stream peer_addr hello n client n' :
  connect peer_addr hello n = (Ok client, n') ->
  client = Stream (st_peer_addr client) (sha256 (bytes_of (sh_token hello))) false ClientToNode.
Proof. unfold connect. intros Hr. inv_eff. by eapply connect_loop_stream. Qed.

(** A hello that is not a recent one's repetition opens a session. *)
Lemma listener_step_hello l a e datagram rest payload hello :
  ls_open l = true -> sends_ok (ls_net l) -> n_recv (ls_net l) = RecvEvent e (Got datagram a) :: rest ->
  decode_packet (take MAX_PACKET_LEN datagram) = Ok (Packet Hello 0 payload) -> from_slice payload = Ok hello ->
  (is_duplicate_handshake (ls_recent l) (HandshakeKey a (sh_token hello) (sh_service_id hello)) (n_now (ls_net l) + e)).2 = false ->
  exists l' ack, listener_step None l = (l', true) /\ decode_packet ack = Ok (Packet HelloAck 0 []) /\
    n_sent (ls_net l') = n_sent (ls_net l) ++ replicate ACK_BURST_PACKETS (a, ack) /\
    ls_active l' = <[a := length (ls_queues l)]> (ls_active l) /\ ls_queues l' = ls_queues l ++ [[]] /\
    ls_incoming l' = ls_incoming l ++
      [Ok (AcceptedSession a hello (Stream a (sha256 (bytes_of (sh_token hello))) true NodeToClient) (length (ls_queues l)))].
Proof.
  intros Ho Hs Hrecv Hdec Hhello Hfresh. unfold listener_step, recv_from. rewrite Hrecv. cbn [ev_result ev_elapsed].
  rewrite Hdec. cbn [pk_kind pk_payload]. rewrite Hhello.
  set (l1 := ls_set_net _ l). assert (packet_ok (Packet Hello 0 payload)) as Hok by (split; cbn [pk_seq]; [done|reflexivity]).
  pose proof (hello_opens_one_session (Packet Hello 0 payload) hello a l1 Hok Hs Ho) as Hopen.
  change (ls_recent l1) with (ls_recent l) in Hopen. change (n_now (ls_net l1)) with (n_now (ls_net l) + e) in Hopen.
  destruct (is_duplicate_handshake _ _ _) as [recent dup]. cbn [snd] in Hfresh. subst dup.
  destruct Hopen as (l' & ack & Hrun & Hack & Hsent & _ & Ha & Hq & Hi). by exists l', ack.
Qed.
(** Another packet goes to the inbox of its address. *)
Lemma listener_step_routes cloned l a i q e datagram rest p :
  ls_active l !! a = Some i -> ls_queues l !! i = Some q ->
  n_recv (ls_net l) = RecvEvent e (Got datagram a) :: rest ->
  decode_packet (take MAX_PACKET_LEN datagram) = Ok p -> pk_kind p <> Hello ->
  ls_queues (listener_step cloned l).1 !! i = Some (q ++ [p]).
Proof.
  intros Ha Hq Hrecv Hdec Hkind. unfold listener_step, recv_from. rewrite Hrecv. cbn [ev_result ev_elapsed]. rewrite Hdec.
  assert (forall n, ls_queues (route_packet p a (ls_set_net n l)) !! i = Some (q ++ [p])) as Hroute.
  { intros n. unfold route_packet. cbn [ls_set_net ls_active]. rewrite Ha. cbn. by rewrite list_lookup_alter_eq, Hq. }
  destruct (pk_kind p); cbn [fst]; done.
Qed.
End Ends.

(** What an encoded packet within a datagram's size decodes to. *)
Lemma decode_whole p d : packet_ok p -> encode_packet p = Ok d -> (length d <= MAX_PACKET_LEN)%nat ->
  decode_packet (take MAX_PACKET_LEN d) = Ok p.
Proof. intros Hp Hd Hlen. rewrite take_ge by done. by apply decode_encode. Qed.
Lemma ack_fits seq ack : decode_packet ack = Ok (Packet Ack seq []) -> decode_packet (take MAX_PACKET_LEN ack) = Ok (Packet Ack seq []).
Proof.
  intros Hd. pose proof Hd as [Hp He]%decode_ok_inv. apply encode_ok in He as [_ ->].
  rewrite take_ge; [done|]. rewrite !length_app. cbn. unfold MAX_PACKET_LEN. lia.
Qed.

Section Delivery.
Context `{AeadOk}.
(** The reader takes the next data packet from its inbox, hands its bytes over and acknowledges. *)
Lemma read_next_packet self payload plaintext len v :
  st_has_inbox self = true -> 0 <= recv_seq (w_state v) < u64_modulus -> sends_ok (w_net v) ->
  w_inbox v = [Packet Data (recv_seq (w_state v)) payload] ->
  pending_read (w_state v) = [] -> pending_packets (w_state v) = ∅ -> plaintext <> [] ->
  aead_decrypt (st_key self) (nonce_bytes (direction_peer (st_direction self)) (recv_seq (w_state v))) payload = Some plaintext ->
  exists v' ack, read self len v = (Ok (take len plaintext), v') /\
    decode_packet ack = Ok (Packet Ack (recv_seq (w_state v)) []) /\
    n_sent (w_net v') = n_sent (w_net v) ++ [(st_peer_addr self, ack)] /\
    recv_seq (w_state v') = (recv_seq (w_state v) + 1) mod u64_modulus /\ pending_read (w_state v') = drop len plaintext.
Proof.
  intros Hinbox Hseq Hs Hq Hpend Hnone Hne Hdec. unfold read. rewrite Hpend. cbn [read_loop].
  unfold recv_session_packet. rewrite Hinbox. unfold mbind, eff_bind, stream_timeout, gets, recv_matching.
  destruct (w_waits v) as [|wk waits] eqn:Hw; cbn [recv_matching_loop]; rewrite Hq; cbn [take_matching data_or_close pk_kind];
    (set (v1 := set_inbox [] (set_waits _ v));
     destruct (send_ack_ok self (recv_seq (w_state v)) (set_state (accept_data (recv_seq (w_state v)) plaintext (w_state v1)) v1))
       as (ack & Hack & Hd); [done|exact Hs|];
     unfold handle_data_packet; cbn [pk_seq pk_payload]; rewrite Hdec; unfold mbind, eff_bind, modify; rewrite Hack;
     cbn [set_net w_state set_state v1 set_inbox set_waits]; unfold accept_data; rewrite !(proj2 (Z.ltb_ge _ _)) by lia;
     rewrite Hnone, map_size_empty; cbn [release_pending pending_read]; rewrite Hpend; cbn [app];
     destruct plaintext as [|b plaintext]; [done|]; unfold drain_pending; cbn [w_state set_net set_state pending_read];
     do 2 eexists; split; [reflexivity|]; split; [exact Hd|]; cbn; done).
Qed.
(** The wait for an acknowledgement ends when it arrives. *)
Lemma ack_ends_the_wait self seq u e ack rest :
  st_has_inbox self = false -> decode_packet ack = Ok (Packet Ack seq []) ->
  n_recv (w_net u) = RecvEvent e (Got ack (st_peer_addr self)) :: rest -> (wait_for_ack self seq u).1 = Ok tt.
Proof.
  intros Hsock Hack Hrecv. unfold wait_for_ack. cbn [wait_for_ack_loop]. unfold recv_session_packet. rewrite Hsock.
  unfold mbind, eff_bind. cbn [recv_socket_loop]. unfold mbind, eff_bind, on_net, zoom, recv_from. rewrite Hrecv. cbn [ev_result ev_elapsed].
  rewrite bool_decide_eq_true_2 by done. unfold io_other, lift. rewrite (ack_fits _ _ Hack). cbn [ack_data_or_close pk_kind pk_seq].
  unfold mret at 1, eff_ret. cbn [pk_kind pk_seq]. by rewrite Z.eqb_refl.
Qed.
End Delivery.

(** ** Properties *)

(** C4. A client's write reaches the reader of the node it connected to.  The client's handshake sends a hello;
    a listener that receives it from the client's address, and has not seen it lately, acknowledges it
    and accepts a session with a new, empty inbox and the client's key.  A write of the client that
    ends well sent a datagram; a listener with that session open puts its packet last in the session's
    inbox; the session's stream, expecting that packet, reads the bytes that were written and
    acknowledges them; and that acknowledgement ends the client's wait. *)
Theorem writes_reach_the_reader_through_the_listener `{Json udp_rendezvous_message} `{JsonOk session_hello} `{Sha256} `{AeadOk}
    (peer_addr : socket_addr) (hello : session_hello) (n n' : net) (client : stream)
    (bytes : list byte) (written : nat) (w w' : world) (a : socket_addr) :
  connect peer_addr hello n = (Ok client, n') ->
  inbox_ok w -> 0 <= send_seq (w_state w) < u64_modulus -> bytes <> [] -> write client bytes w = (Ok written, w') ->
  let node := Stream a (st_key client) true NodeToClient in
  exists greeting datagram p,
    (peer_addr, greeting) ∈ n_sent n' /\ (st_peer_addr client, datagram) ∈ n_sent (w_net w') /\
    ((length greeting <= MAX_PACKET_LEN)%nat -> forall l e rest,
       ls_open l = true -> sends_ok (ls_net l) -> n_recv (ls_net l) = RecvEvent e (Got greeting a) :: rest ->
       (is_duplicate_handshake (ls_recent l) (HandshakeKey a (sh_token hello) (sh_service_id hello))
          (n_now (ls_net l) + e)).2 = false ->
       exists l' ack i, listener_step None l = (l', true) /\
         n_sent (ls_net l') = n_sent (ls_net l) ++ replicate ACK_BURST_PACKETS (a, ack) /\
         decode_packet ack = Ok (Packet HelloAck 0 []) /\
         ls_active l' !! a = Some i /\ ls_queues l' !! i = Some [] /\
         ls_incoming l' = ls_incoming l ++ [Ok (AcceptedSession a hello node i)]) /\
    ((length datagram <= MAX_PACKET_LEN)%nat -> forall cloned l i q e rest,
       ls_active l !! a = Some i -> ls_queues l !! i = Some q ->
       n_recv (ls_net l) = RecvEvent e (Got datagram a) :: rest ->
       ls_queues (listener_step cloned l).1 !! i = Some (q ++ [p])) /\
    (forall v len, w_inbox v = [p] -> sends_ok (w_net v) -> recv_seq (w_state v) = send_seq (w_state w) ->
       pending_read (w_state v) = [] -> pending_packets (w_state v) = ∅ ->
       exists v' ack, read node len v = (Ok (take len (take written bytes)), v') /\
         pending_read (w_state v') = drop len (take written bytes) /\
         n_sent (w_net v') = n_sent (w_net v) ++ [(a, ack)] /\
         forall u e rest, n_recv (w_net u) = RecvEvent e (Got ack (st_peer_addr client)) :: rest ->
           (wait_for_ack client (send_seq (w_state w)) u).1 = Ok tt).
Proof.
  intros Hconnect Hinbox Hseq Hne Hwrite node.
  pose proof (connect_stream _ _ _ _ _ Hconnect) as Hclient.
  destruct (connect_sends_its_hello _ _ _ _ _ Hconnect) as (payload & greeting & Hpayload & Hgreeting & Hsent).
  apply write_result in Hwrite as (Hlen & _ & c & datagram & Hc & Hdatagram & Hin); [|done].
  assert (packet_ok (Packet Hello 0 payload)) as Hok by (split; cbn [pk_seq]; [done|reflexivity]).
  assert (packet_ok (Packet Data (send_seq (w_state w)) c)) as Hokd by exact Hseq.
  exists greeting, datagram, (Packet Data (send_seq (w_state w)) c). split; [done|]. split; [done|]. split; [|split].
  - intros Hfit l e rest Hopen Hs Hrecv Hfresh.
    destruct (listener_step_hello l a e greeting rest payload hello) as (l' & ack & Hstep & Hack & Hburst & Ha & Hq & Hi);
      [done|done|done|by apply decode_whole|by apply json_roundtrip|done|].
    exists l', ack, (length (ls_queues l)). split_and!; [done|done|done| | |].
    + by rewrite Ha, lookup_insert_eq.
    + by rewrite Hq, list_lookup_middle.
    + rewrite Hi. unfold node. by rewrite Hclient.
  - intros Hfit cloned l i q e rest Ha Hq Hrecv. eapply listener_step_routes; [done..|by apply decode_whole|done].
  - intros v len Hv Hs Hexpected Hpend Hnone.
    destruct (read_next_packet node c (take written bytes) len v) as (v' & ack & Hread & Hack & Hacked & _ & Hrest);
      [done|by rewrite Hexpected|done|by rewrite Hexpected|done|done| | |].
    + destruct bytes as [|b bytes]; [done|]. rewrite Hlen. done.
    + rewrite Hexpected. rewrite Hclient in Hc. cbn [st_key st_direction] in Hc. unfold node. rewrite Hclient.
      cbn [st_key st_direction direction_peer]. by apply aead_roundtrip.
    + rewrite Hexpected in Hack. exists v', ack. split_and!; [done|done|done|]. intros u e rest Hrecv.
      eapply ack_ends_the_wait; [by rewrite Hclient|exact Hack|exact Hrecv].
Qed.

(** ** Witnesses *)

(** The hello and the data of the client of [UdpExposure], as they arrive at a listener. *)
Definition toy_client_addr : socket_addr := SockV4 (Ipv4 203 0 113 7) 50000.
Definition toy_greeting : list byte := toy_hello_datagram toy_hello.
Definition toy_written : result nat * world := @write toy_aead toy_client [x61; x62] toy_client_world.
Definition toy_data_datagram : list byte := toy_datagram (Packet Data 0 (nonce_bytes ClientToNode 0 ++ [x61; x62])).
Definition toy_greeted : listener := Listener (quiet [RecvEvent 0 (Got toy_greeting toy_client_addr)]) [] ∅ [] [] true.
Definition toy_fed : listener :=
  Listener (quiet [RecvEvent 0 (Got toy_data_datagram toy_client_addr)]) [] {[toy_client_addr := 0%nat]} [[]] [] true.
Definition toy_reader : stream := Stream toy_client_addr (@sha256 toy_sha256 (bytes_of "t")) true NodeToClient.
Lemma writes_reach_the_reader_through_the_listener_witness :
  (exists l' ack i, @listener_step toy_rv_json toy_hello_json toy_sha256 None toy_greeted = (l', true) /\
     n_sent (ls_net l') = [] ++ replicate ACK_BURST_PACKETS (toy_client_addr, ack) /\
     decode_packet ack = Ok (Packet HelloAck 0 []) /\
     ls_active l' !! toy_client_addr = Some i /\ ls_queues l' !! i = Some [] /\
     ls_incoming l' = [] ++ [Ok (AcceptedSession toy_client_addr toy_hello toy_reader i)]) /\
  exists p v' ack,
    ls_queues (@listener_step toy_rv_json toy_hello_json toy_sha256 None toy_fed).1 !! 0%nat = Some ([] ++ [p]) /\
    @read toy_aead toy_reader 5 (World (quiet []) [p] [] initial_state) = (Ok [x61; x62], v') /\
    n_sent (w_net v') = [] ++ [(toy_client_addr, ack)] /\
    (@wait_for_ack toy_aead toy_client 0 (World (quiet [RecvEvent 0 (Got ack toy_addr)]) [] [] initial_state)).1 = Ok tt.
Proof.
  destruct (@writes_reach_the_reader_through_the_listener toy_rv_json toy_hello_json toy_hello_json_ok toy_sha256 toy_aead toy_aead_ok
    toy_addr toy_hello (quiet [toy_ack toy_addr]) toy_handshake.2 toy_client [x61; x62] 2 toy_client_world toy_written.2
    toy_client_addr) as (greeting & datagram & p & Hgreeting & Hdatagram & Haccept & Hroute & Hread).
  { vm_compute. reflexivity. }
  { split; constructor. }
  { vm_compute. by split. }
  { done. }
  { vm_compute. reflexivity. }
  assert (greeting = toy_greeting) as ->.
  { assert (n_sent toy_handshake.2 = [(toy_addr, toy_greeting)]) as Hsent by (vm_compute; reflexivity).
    rewrite Hsent in Hgreeting. apply list_elem_of_singleton in Hgreeting. congruence. }
  assert (datagram = toy_data_datagram) as ->.
  { assert (n_sent (w_net toy_written.2) = [(toy_addr, toy_data_datagram)]) as Hsent by (vm_compute; reflexivity).
    rewrite Hsent in Hdatagram. apply list_elem_of_singleton in Hdatagram. congruence. }
  split.
  - apply (Haccept ltac:(apply (bool_decide_unpack _); vm_compute; exact I) toy_greeted 0 []); [reflexivity..|vm_compute; reflexivity].
  - destruct (Hread (World (quiet []) [p] [] initial_state) 5%nat) as (v' & ack & Hr & _ & Hs & Hack); [reflexivity..|].
    exists p, v', ack. split; [|split; [exact Hr|split; [exact Hs|]]].
    + apply (Hroute ltac:(apply (bool_decide_unpack _); vm_compute; exact I) None toy_fed 0%nat [] 0 []); reflexivity.
    + apply (Hack _ 0 []). reflexivity.
Defined.
