(* ===== verification/Relay.v ===== *)
(** * The relay

    [services/relay/src/lib.rs] and [config.rs]: the UDP rendezvous server, and the
    TCP and WebSocket relays, which pair a client with a node socket that waits in a
    pool.

    The relays are concurrent: each connection is a task, and a client's task polls the
    pool up to fifty times.  [relay_step] is one critical section of one task (a
    connection whose hello was read, one poll of a waiting client); a run is any
    sequence of them.  A socket is known by a connection number.  Once paired, bytes
    are copied by tokio ([copy_bidirectional]) or by [forward_direction]. *)

From S2P Require Import Prelude RustStd NetAddr Protocol PinnedHttp Crypto Net Rendezvous.

Definition RELAY_NODE_SOCKET_TTL : Z := secs 60.

(** ** Configuration *)

Record relay_config := RelayConfig { rc_bind_addr : string; rc_shared_secret : option string }.

(** [env] is [std::env::var(..).ok()]. *)
Definition relay_config_default (env : string -> option string) : relay_config := {|
  rc_bind_addr := default "0.0.0.0:7001" (env "MEDIUM_RELAY_BIND_ADDR");
  rc_shared_secret :=
    match (match env "MEDIUM_RELAY_SHARED_SECRET" with
           | Some v => Some v
           | None => env "OVERLAY_SHARED_SECRET"
           end) with
    | Some value => if is_empty (trim value) then None else Some value
    | None => None
    end
|}.

(** ** UDP rendezvous *)

Record rendezvous := Rendezvous { rv_net : net; rv_nodes : gmap string socket_addr }.
Definition rv_set_net (n : net) (r : rendezvous) : rendezvous := Rendezvous n (rv_nodes r).

Section UdpRendezvous.
Context `{Json udp_rendezvous_message} `{TokenEnv}.

Definition send_udp_message (peer_addr : socket_addr) (message : udp_rendezvous_message)
    : eff rendezvous unit :=
  zoom rv_net rv_set_net (payload ← lift (to_vec message); send_to peer_addr payload).

Definition handle_udp_rendezvous_message (payload : list byte) (peer_addr : socket_addr)
    (shared_secret : option string) : eff rendezvous unit :=
  message ← lift (parse_message payload);
  match message with
  | RvNode node_id provided_secret =>
      expected_secret ←
        lift (ok_or (EMsg "rendezvous shared secret is not configured") shared_secret);
      _ ← lift (bail_if (negb (expected_secret =?s provided_secret))
                  (EMsg ("rendezvous node authentication failed for " +:+ node_id)));
      _ ← modify (fun r => Rendezvous (rv_net r) (<[node_id := peer_addr]> (rv_nodes r)));
      send_udp_message peer_addr (RvRegistered (show_sock peer_addr))
  | RvClient node_id token =>
      expected_secret ←
        lift (ok_or (EMsg "rendezvous shared secret is not configured") shared_secret);
      time ← gets (fun r => n_now (rv_net r));
      claims ← lift (verify_session_token time expected_secret token);
      _ ← lift (bail_if (negb (tc_node_id claims =?s node_id))
                  (EMsg "rendezvous token node mismatch"));
      nodes ← gets rv_nodes;
      node_addr ← lift (ok_or (EMsg ("node " +:+ node_id +:+ " is not registered for UDP rendezvous"))
                          (nodes !! node_id));
      _ ← send_udp_message peer_addr (RvPeer (show_sock node_addr));
      send_udp_message node_addr (RvPeer (show_sock peer_addr))
  | RvRegistered _ | RvPeer _ | RvPunch => mret tt
  end.

(** The server's loop over [n] datagrams; an error of [recv_from] ends it, one of the
    handler is logged. *)
Fixpoint run_udp_rendezvous (n : nat) (shared_secret : option string) : eff rendezvous unit :=
  match n with
  | O => mret tt
  | S m =>
      '(payload, peer_addr) ← zoom rv_net rv_set_net (recv_from 1500);
      _ ← attempt (handle_udp_rendezvous_message payload peer_addr shared_secret);
      run_udp_rendezvous m shared_secret
  end.
End UdpRendezvous.

(** ** The pool of waiting nodes *)

(** [WaitingTcpNode] and [WaitingWebSocketNode]. *)
Record waiting_node := WaitingNode { wn_connected_at : Z; wn_stream : nat }.

(** [nodes.pop()] until a fresh one: what is selected and what is left.  The vector is
    kept last element first. *)
Fixpoint pop_fresh (ttl time : Z) (nodes : list waiting_node) : option nat * list waiting_node :=
  match nodes with
  | [] => (None, [])
  | node :: rest =>
      if Z.max 0 (time - wn_connected_at node) <=? ttl then (Some (wn_stream node), rest)
      else pop_fresh ttl time rest
  end.

(** The critical section of one poll. *)
Definition take_waiting (ttl time : Z) (node_id : string) (waiting : gmap string (list waiting_node))
    : option nat * gmap string (list waiting_node) :=
  match waiting !! node_id with
  | Some nodes =>
      let '(selected, nodes) := pop_fresh ttl time nodes in
      (selected, match nodes with
                 | [] => delete node_id waiting
                 | _ => <[node_id := nodes]> waiting
                 end)
  | None => (None, waiting)
  end.

(** [entry(node_id).or_default().push(..)]. *)
Definition push_waiting (node_id : string) (node : waiting_node) (waiting : gmap string (list waiting_node))
    : gmap string (list waiting_node) :=
  <[node_id := node :: default [] (waiting !! node_id)]> waiting.

(** ** The relay as a transition system *)

Record client_task := ClientTask { ct_node_id : string; ct_polls_left : nat }.
Record pairing := Pairing { pr_client : nat; pr_node : nat; pr_node_id : string; pr_time : Z }.

Record relay := RelayState {
  rs_waiting : gmap string (list waiting_node);
  rs_clients : gmap nat client_task;
  rs_pairs : list pairing
}.
Definition relay_init : relay := RelayState ∅ ∅ [].

Inductive relay_event :=
  (** The hello of a connection was read (or failed). *)
  | EvHello (time : Z) (conn : nat) (hello : result relay_hello)
  (** A waiting client's task runs its next poll. *)
  | EvPoll (time : Z) (conn : nat).

(** [handle_connection] after [read_relay_hello]: the pool with the node pushed, or the
    client's task before its first poll. *)
Definition handle_connection (shared_secret : option string) (time : Z) (conn : nat)
    (hello : result relay_hello) (r : relay) : result relay :=
  hello ← hello;
  match hello with
  | RelayNode node_id provided_secret =>
      expected_secret ← ok_or (EMsg "relay shared secret is not configured") shared_secret;
      _ ← bail_if (negb (expected_secret =?s provided_secret))
            (EMsg ("relay node authentication failed for " +:+ node_id));
      Ok (RelayState (push_waiting node_id (WaitingNode time conn) (rs_waiting r))
            (rs_clients r) (rs_pairs r))
  | RelayClient node_id =>
      Ok (RelayState (rs_waiting r) (<[conn := ClientTask node_id 50]> (rs_clients r)) (rs_pairs r))
  end.

(** One iteration of [wait_for_node_stream]. *)
Definition poll_client (time : Z) (conn : nat) (r : relay) : relay :=
  match rs_clients r !! conn with
  | Some (ClientTask node_id (S polls)) =>
      let '(selected, waiting) := take_waiting RELAY_NODE_SOCKET_TTL time node_id (rs_waiting r) in
      match selected with
      | Some node =>
          RelayState waiting (delete conn (rs_clients r))
            (rs_pairs r ++ [Pairing conn node node_id time])
      | None =>
          (* [bail!("no relay node connection available")] after the last one *)
          RelayState waiting
            (match polls with
             | O => delete conn (rs_clients r)
             | _ => <[conn := ClientTask node_id polls]> (rs_clients r)
             end) (rs_pairs r)
      end
  | _ => r
  end.

(** A task's error is logged and its connection dropped. *)
Definition relay_step (shared_secret : option string) (r : relay) (ev : relay_event) : relay :=
  match ev with
  | EvHello time conn hello =>
      match handle_connection shared_secret time conn hello r with Ok r' => r' | Err _ => r end
  | EvPoll time conn => poll_client time conn r
  end.
Definition run_relay (shared_secret : option string) (r : relay) (evs : list relay_event) : relay :=
  fold_left (relay_step shared_secret) evs r.

(** ** WebSocket frames *)

Inductive ws_message :=
  | WsText (payload : list byte)
  | WsBinary (payload : list byte)
  | WsClose
  | WsOther.

(** [read_wss_relay_hello] on the frames received; a failed receive is an error. *)
Fixpoint read_wss_relay_hello `{Json relay_hello} (frames : list (result ws_message))
    : result relay_hello :=
  match frames with
  | [] => Err (EMsg "missing relay hello")
  | frame :: rest =>
      message ← frame;
      match message with
      | WsText payload => from_slice payload
      | WsClose => Err (EMsg "websocket closed before relay hello")
      | WsBinary _ | WsOther => read_wss_relay_hello rest
      end
  end.

(** One direction of [forward_wss_bidirectional] when every send succeeds: the frames
    sent, and how it ended. *)
Fixpoint forward_direction (frames : list (result ws_message)) : list ws_message * result unit :=
  match frames with
  | [] => ([], Ok tt)
  | Err e :: _ => ([], Err e)
  | Ok (WsBinary payload) :: rest =>
      let '(sent, end_) := forward_direction rest in (WsBinary payload :: sent, end_)
  | Ok WsClose :: _ => ([WsClose], Ok tt)
  | Ok (WsText _) :: rest | Ok WsOther :: rest => forward_direction rest
  end.

(** ** Lemmas: the pool *)

Definition fresh (ttl time : Z) (n : waiting_node) : Prop := Z.max 0 (time - wn_connected_at n) <= ttl.

(** The waiting nodes of an identifier. *)
Definition pool (waiting : gmap string (list waiting_node)) (node_id : string) : list waiting_node :=
  default [] (waiting !! node_id).

Lemma pop_fresh_spec ttl time nodes selected rest :
  pop_fresh ttl time nodes = (selected, rest) ->
  match selected with
  | Some s => exists expired node, nodes = expired ++ node :: rest /\
      Forall (fun n => ~ fresh ttl time n) expired /\ fresh ttl time node /\ wn_stream node = s
  | None => rest = [] /\ Forall (fun n => ~ fresh ttl time n) nodes
  end.
Proof.
  revert selected rest; induction nodes as [|n nodes IH]; intros selected rest; simpl.
  { by intros [= <- <-]. }
  destruct (Z.leb_spec (Z.max 0 (time - wn_connected_at n)) ttl) as [Hf|Hf].
  - intros [= <- <-]. exists [], n. split_and!; [done|constructor|done|done].
  - intros Hp. apply IH in Hp. unfold fresh in *. destruct selected as [s|].
    + destruct Hp as (ex & node & -> & Hex & Hn & Hs). exists (n :: ex), node.
      split_and!; [done|constructor; [lia|done]|done|done].
    + destruct Hp as [-> Hex]. split; [done|]. constructor; [lia|done].
Qed.

Lemma pool_cleanup node_id (nodes : list waiting_node) waiting :
  pool (match nodes with [] => delete node_id waiting | _ => <[node_id := nodes]> waiting end) node_id
  = nodes.
Proof. unfold pool. destruct nodes; [by rewrite lookup_delete_eq|by rewrite lookup_insert_eq]. Qed.
Lemma pool_cleanup_ne node_id id (nodes : list waiting_node) waiting :
  id <> node_id ->
  pool (match nodes with [] => delete node_id waiting | _ => <[node_id := nodes]> waiting end) id
  = pool waiting id.
Proof. intros Hne. unfold pool. destruct nodes; [by rewrite lookup_delete_ne|by rewrite lookup_insert_ne]. Qed.

Lemma take_waiting_spec ttl time node_id waiting selected waiting' :
  take_waiting ttl time node_id waiting = (selected, waiting') ->
  (forall id, id <> node_id -> pool waiting' id = pool waiting id) /\
  match selected with
  | Some s => exists expired node, pool waiting node_id = expired ++ node :: pool waiting' node_id /\
      Forall (fun n => ~ fresh ttl time n) expired /\ fresh ttl time node /\ wn_stream node = s
  | None => pool waiting' node_id = [] /\ Forall (fun n => ~ fresh ttl time n) (pool waiting node_id)
  end.
Proof.
  unfold take_waiting. destruct (waiting !! node_id) as [nodes|] eqn:E.
  - destruct (pop_fresh ttl time nodes) as [sel rest] eqn:Ep. intros [= <- <-].
    apply pop_fresh_spec in Ep. split; [intros id Hne; by apply pool_cleanup_ne|].
    rewrite pool_cleanup. assert (pool waiting node_id = nodes) as -> by (unfold pool; by rewrite E).
    exact Ep.
  - intros [= <- <-]. unfold pool. rewrite E. done.
Qed.

Lemma pool_push node_id node waiting id :
  pool (push_waiting node_id node waiting) id =
    if decide (id = node_id) then node :: pool waiting node_id else pool waiting id.
Proof.
  unfold pool, push_waiting. destruct (decide (id = node_id)) as [->|Hne].
  - by rewrite lookup_insert_eq.
  - by rewrite lookup_insert_ne.
Qed.

(** ** Lemmas: reachable relays *)

(** The hello a connection sent, in a run. *)
Definition sent_hello (evs : list relay_event) (time : Z) (conn : nat) (h : relay_hello) : Prop :=
  EvHello time conn (Ok h) ∈ evs.
(** The connections whose hello was read. *)
Definition hello_conn (ev : relay_event) : option nat :=
  match ev with EvHello _ conn _ => Some conn | EvPoll _ _ => None end.
Definition hello_conns (evs : list relay_event) : list nat := omap hello_conn evs.

Record relay_inv (secret : option string) (evs : list relay_event) (r : relay) : Prop := {
  ri_pool id n : n ∈ pool (rs_waiting r) id ->
    exists s, secret = Some s /\ sent_hello evs (wn_connected_at n) (wn_stream n) (RelayNode id s);
  ri_client c t : rs_clients r !! c = Some t ->
    exists time, sent_hello evs time c (RelayClient (ct_node_id t));
  ri_pair p : p ∈ rs_pairs r ->
    (exists s t, secret = Some s /\ sent_hello evs t (pr_node p) (RelayNode (pr_node_id p) s) /\
                 pr_time p - t <= RELAY_NODE_SOCKET_TTL) /\
    exists time, sent_hello evs time (pr_client p) (RelayClient (pr_node_id p));
  ri_unique : NoDup (map pr_node (rs_pairs r));
  ri_pool_unique id : NoDup (map wn_stream (pool (rs_waiting r) id));
  ri_pool_once id1 id2 n1 n2 : n1 ∈ pool (rs_waiting r) id1 -> n2 ∈ pool (rs_waiting r) id2 ->
    wn_stream n1 = wn_stream n2 -> id1 = id2;
  ri_disjoint id n : n ∈ pool (rs_waiting r) id -> wn_stream n ∉ map pr_node (rs_pairs r)
}.

Lemma hello_conns_snoc evs ev : hello_conns (evs ++ [ev]) = hello_conns evs ++ option_list (hello_conn ev).
Proof.
  unfold hello_conns. rewrite omap_app. simpl. by destruct (hello_conn ev).
Qed.
Lemma sent_hello_conn evs time conn h : sent_hello evs time conn h -> conn ∈ hello_conns evs.
Proof. intros Hin. apply list_elem_of_omap. eexists. split; [exact Hin|done]. Qed.
Lemma sent_hello_snoc evs ev time conn h :
  sent_hello evs time conn h -> sent_hello (evs ++ [ev]) time conn h.
Proof. unfold sent_hello. rewrite elem_of_app. auto. Qed.

Lemma relay_inv_more secret evs ev r : relay_inv secret evs r -> relay_inv secret (evs ++ [ev]) r.
Proof.
  intros [H1 H2 H3 H4 H5 H6 H7]. constructor; try done.
  - intros id n Hn. apply H1 in Hn as (s & ? & ?). eauto using sent_hello_snoc.
  - intros c t Ht. apply H2 in Ht as [time ?]. eauto using sent_hello_snoc.
  - intros p Hp. apply H3 in Hp as [(s & t & ? & ? & ?) [time ?]]. eauto 10 using sent_hello_snoc.
Qed.

Lemma relay_inv_push secret evs time conn id s r :
  secret = Some s -> conn ∉ hello_conns evs ->
  relay_inv secret (evs ++ [EvHello time conn (Ok (RelayNode id s))]) r ->
  relay_inv secret evs r ->
  relay_inv secret (evs ++ [EvHello time conn (Ok (RelayNode id s))])
    (RelayState (push_waiting id (WaitingNode time conn) (rs_waiting r)) (rs_clients r) (rs_pairs r)).
Proof.
  intros Hs Hnew [H1 H2 H3 H4 H5 H6 H7] [G1 G2 G3 _ _ _ _].
  assert (forall id' n, n ∈ pool (rs_waiting r) id' -> wn_stream n <> conn) as Hfresh.
  { intros id' n Hn Heq. apply G1 in Hn as (s' & _ & Hh%sent_hello_conn). by rewrite Heq in Hh. }
  assert (conn ∉ map pr_node (rs_pairs r)) as Hpair.
  { intros (p & -> & Hp)%list_elem_of_fmap. apply G3 in Hp as [(s' & t & _ & Hh%sent_hello_conn & _) _]. done. }
  assert (sent_hello (evs ++ [EvHello time conn (Ok (RelayNode id s))]) time conn (RelayNode id s)) as Hsent
    by (unfold sent_hello; set_solver).
  constructor; cbn [rs_waiting rs_clients rs_pairs]; try done.
  - intros id' n. rewrite pool_push. destruct (decide (id' = id)) as [->|]; [|by apply H1].
    rewrite elem_of_cons. intros [->|Hn]; [by eauto|by apply H1].
  - intros id'. rewrite pool_push. destruct (decide (id' = id)) as [->|]; [|done]. simpl.
    constructor; [|done]. intros (n & Heq & Hn)%list_elem_of_fmap. symmetry in Heq. by apply (Hfresh id n).
  - intros id1 id2 n1 n2. rewrite !pool_push.
    destruct (decide (id1 = id)) as [->|], (decide (id2 = id)) as [->|]; rewrite ?elem_of_cons; try done.
    + intros [->|Hn1] Hn2 Heq; [symmetry in Heq; by apply (Hfresh id2 n2) in Heq|by eapply H6].
    + intros Hn1 [->|Hn2] Heq; [by apply (Hfresh id1 n1) in Heq|by eapply H6].
    + apply H6.
  - intros id' n. rewrite pool_push. destruct (decide (id' = id)) as [->|]; [|by apply H7].
    rewrite elem_of_cons. intros [->|Hn]; [done|by eapply H7].
Qed.

Lemma relay_inv_take secret evs ttl time node_id r selected waiting' clients :
  relay_inv secret evs r -> ttl = RELAY_NODE_SOCKET_TTL ->
  take_waiting ttl time node_id (rs_waiting r) = (selected, waiting') ->
  (forall c t, clients !! c = Some t -> exists tm, sent_hello evs tm c (RelayClient (ct_node_id t))) ->
  relay_inv secret evs (RelayState waiting' clients (rs_pairs r)) /\
  forall s conn, selected = Some s -> (exists tm, sent_hello evs tm conn (RelayClient node_id)) ->
    relay_inv secret evs (RelayState waiting' clients (rs_pairs r ++ [Pairing conn s node_id time])).
Proof.
  intros [H1 H2 H3 H4 H5 H6 H7] -> Ht Hc. apply take_waiting_spec in Ht as [Hother Hsel].
  assert (forall id, exists before, pool (rs_waiting r) id = before ++ pool waiting' id) as Hsub.
  { intros id. destruct (decide (id = node_id)) as [->|Hne]; [|exists []; by rewrite Hother].
    destruct selected as [s|].
    - destruct Hsel as (ex & node & -> & _). exists (ex ++ [node]). by rewrite <- app_assoc.
    - destruct Hsel as [-> _]. eexists. by rewrite app_nil_r. }
  assert (forall id n, n ∈ pool waiting' id -> n ∈ pool (rs_waiting r) id) as Hin.
  { intros id n Hn. destruct (Hsub id) as [b ->]. set_solver. }
  assert (relay_inv secret evs (RelayState waiting' clients (rs_pairs r))) as Hinv.
  { constructor; cbn [rs_waiting rs_clients rs_pairs]; try done.
    - intros id n Hn. by apply H1, Hin.
    - intros id. specialize (H5 id). destruct (Hsub id) as [b Hb]. rewrite Hb, map_app in H5.
      by apply list.NoDup_app in H5 as (_ & _ & ?).
    - intros id1 id2 n1 n2 Hn1 Hn2. apply H6; by apply Hin.
    - intros id n Hn. by eapply H7, Hin. }
  split; [exact Hinv|]. intros s conn -> Hclient.
  destruct Hsel as (ex & node & Hpool & _ & Hfresh & <-).
  assert (node ∈ pool (rs_waiting r) node_id) as Hnode by (rewrite Hpool; set_solver).
  destruct Hinv as [I1 I2 I3 I4 I5 I6 I7]. constructor; cbn [rs_waiting rs_clients rs_pairs] in *; try done.
  - intros p. rewrite elem_of_app, list_elem_of_singleton. intros [Hp| ->]; [by apply H3|].
    cbn [pr_node pr_client pr_node_id pr_time]. split; [|done].
    apply H1 in Hnode as (s & Hs & Hh). exists s, (wn_connected_at node).
    split_and!; [done|done|]. unfold fresh in Hfresh. lia.
  - rewrite map_app. apply list.NoDup_app. split_and!; [done| |apply list.NoDup_singleton].
    intros x Hx. simpl. rewrite list_elem_of_singleton. intros ->. by apply (H7 _ _ Hnode).
  - intros id n Hn. rewrite map_app, elem_of_app. simpl. rewrite list_elem_of_singleton.
    intros [Hp|Heq]; [by apply (I7 id n Hn)|].
    pose proof (H6 _ _ _ _ (Hin _ _ Hn) Hnode Heq) as ->.
    specialize (H5 node_id). rewrite Hpool, map_app in H5. apply list.NoDup_app in H5 as (_ & _ & H5).
    simpl in H5. apply list.NoDup_cons in H5 as [Hnotin _]. apply Hnotin.
    rewrite <- Heq. by apply list_elem_of_fmap_2.
Qed.

Lemma relay_step_inv secret evs ev r :
  relay_inv secret evs r -> NoDup (hello_conns (evs ++ [ev])) ->
  relay_inv secret (evs ++ [ev]) (relay_step secret r ev).
Proof.
  intros Hinv Hnd. pose proof (relay_inv_more secret evs ev r Hinv) as Hmore.
  destruct ev as [time conn hello|time conn]; cbn [relay_step].
  - assert (conn ∉ hello_conns evs) as Hnew.
    { rewrite hello_conns_snoc in Hnd. apply list.NoDup_app in Hnd as (_ & Hd & _).
      intros Hin. apply (Hd _ Hin). simpl. set_solver. }
    destruct hello as [[id s|id]|e]; [| |done].
    + unfold handle_connection. destruct secret as [sec|]; [|done].
      simpl. unfold mbind, result_bind, bail_if. case_bool_decide as Heq; [|done]. subst. simpl.
      by apply relay_inv_push.
    + simpl. destruct Hmore. constructor; cbn [rs_waiting rs_clients rs_pairs]; try done.
      intros c t. rewrite lookup_insert_Some. intros [[<- <-]|[_ Hc]]; [|by eauto].
      exists time. unfold sent_hello. set_solver.
  - unfold poll_client. destruct (rs_clients r !! conn) as [[id [|polls]]|] eqn:Ec; try done.
    destruct (take_waiting _ _ _ _) as [sel waiting'] eqn:Et.
    pose proof (ri_client _ _ _ Hmore) as Hcl.
    destruct sel as [s|].
    + eapply (relay_inv_take _ _ _ _ _ _ _ _ (delete conn (rs_clients r))) in Et as [_ Hs]; [..|done|].
      * apply Hs; [done|]. apply Hcl in Ec. exact Ec.
      * done.
      * intros c t. rewrite lookup_delete_Some. intros [_ Hc]. by apply Hcl.
    + eapply (relay_inv_take _ _ _ _ _ _ _ _
        (match polls with O => delete conn (rs_clients r)
         | S _ => <[conn := ClientTask id polls]> (rs_clients r) end)) in Et as [Hs _]; [exact Hs|done|done|].
      intros c t. destruct polls.
      * rewrite lookup_delete_Some. intros [_ Hc]. by apply Hcl.
      * rewrite lookup_insert_Some. intros [[<- <-]|[_ Hc]]; [by apply Hcl in Ec|by apply Hcl].
Qed.

Lemma relay_inv_init secret : relay_inv secret [] relay_init.
Proof.
  constructor; unfold pool; cbn [rs_waiting rs_clients rs_pairs relay_init]; intros;
    rewrite ?lookup_empty in *; simpl in *; try set_solver; constructor.
Qed.

Lemma run_relay_inv secret evs :
  NoDup (hello_conns evs) -> relay_inv secret evs (run_relay secret relay_init evs).
Proof.
  induction evs as [|ev evs IH] using rev_ind; intros Hnd; [apply relay_inv_init|].
  unfold run_relay. rewrite fold_left_app. simpl. apply relay_step_inv; [|done]. apply IH.
  rewrite hello_conns_snoc in Hnd. by apply list.NoDup_app in Hnd as (? & _).
Qed.

(** ** Lemmas: rendezvous *)

Section RendezvousServer.
Context `{Json udp_rendezvous_message} `{TokenEnv}.

Lemma send_udp_ok peer m p r :
  to_vec m = Ok p -> sends_ok (rv_net r) ->
  send_udp_message peer m r = (Ok tt, rv_set_net (sent_more [(peer, p)] 0 (rv_net r)) r).
Proof.
  intros Hp Hs. unfold send_udp_message, zoom, mbind, eff_bind, lift. rewrite Hp. by rewrite send_to_ok.
Qed.
Lemma send_udp_nodes peer m r x r' : send_udp_message peer m r = (x, r') -> rv_nodes r' = rv_nodes r.
Proof.
  unfold send_udp_message, zoom.
  match goal with |- (let '(_, _) := ?run in _) = _ -> _ => destruct run end. by intros [= <- <-].
Qed.
Lemma preserves_nodes_send P peer m : preserves (fun r => P (rv_nodes r)) (send_udp_message peer m).
Proof. intros r x r' Hr Hs. apply send_udp_nodes in Hs. by rewrite Hs. Qed.

(** A registration the server accepted: the secret is its own. *)
Definition authenticated (secret : option string) (payload : list byte) (node_id : string) : Prop :=
  exists s, secret = Some s /\ parse_message payload = Ok (RvNode node_id s).

Lemma handle_nodes payload peer secret r x r' :
  handle_udp_rendezvous_message payload peer secret r = (x, r') ->
  rv_nodes r' = rv_nodes r \/
  exists node_id, authenticated secret payload node_id /\
                  rv_nodes r' = <[node_id := peer]> (rv_nodes r).
Proof.
  unfold handle_udp_rendezvous_message, mbind, eff_bind at 1, lift at 1.
  destruct (parse_message payload) as [m|e] eqn:Em; [|intros [= <- <-]; by left].
  destruct m as [node_id provided|node_id token|a|a|]; try (intros [= <- <-]; by left).
  - unfold eff_bind, lift. destruct secret as [s|]; [|intros [= <- <-]; by left].
    cbn [ok_or]. unfold bail_if. case_bool_decide as Heq; cbn [negb]; [|intros [= <- <-]; by left].
    unfold modify. intros Hs. apply send_udp_nodes in Hs. right. exists node_id. simpl in Hs.
    split; [|done]. exists s. subst. done.
  - intros Hr. left.
    revert Hr. unfold eff_bind at 1, lift at 1. destruct (ok_or _ secret) as [s|e]; [|by intros [= <- <-]].
    unfold eff_bind at 1, gets at 1. unfold eff_bind at 1, lift at 1.
    destruct (verify_session_token _ s token) as [claims|e]; [|by intros [= <- <-]].
    unfold eff_bind at 1, lift at 1. destruct (bail_if _ _) as [u|e]; [|by intros [= <- <-]].
    unfold eff_bind at 1, gets at 1. unfold eff_bind at 1, lift at 1.
    destruct (ok_or _ _) as [addr|e]; [|by intros [= <- <-]].
    unfold eff_bind. destruct (send_udp_message peer _ r) as [[u'|e] r1] eqn:E1;
      apply send_udp_nodes in E1; [|by intros [= <- <-]].
    intros E2. apply send_udp_nodes in E2. congruence.
Qed.

Lemma run_udp_nodes n secret r x r' :
  run_udp_rendezvous n secret r = (x, r') ->
  forall id addr, rv_nodes r' !! id = Some addr ->
    rv_nodes r !! id = Some addr \/
    exists ev payload, ev ∈ n_recv (rv_net r) /\ ev_result ev = Got payload addr /\
      authenticated secret (take 1500 payload) id.
Proof.
  revert r; induction n as [|n IH]; intros r; simpl; [intros [= <- <-]; auto|].
  unfold mbind, eff_bind at 1, zoom, recv_from.
  destruct (n_recv (rv_net r)) as [|ev rest] eqn:En; [intros [= <- <-]; auto|].
  destruct (ev_result ev) as [payload addr0|k] eqn:Er; [|intros [= <- <-]; auto].
  unfold eff_bind, attempt.
  set (r1 := rv_set_net _ r).
  destruct (handle_udp_rendezvous_message (take 1500 payload) addr0 secret r1) as [y r2] eqn:Eh.
  intros Hr id addr Hid. destruct (IH _ Hr id addr Hid) as [Hin|(ev' & pl & Hev & ? & ?)].
  - apply handle_nodes in Eh as [Heq|(nid & Hauth & Heq)]; rewrite Heq in Hin; [by left|].
    apply lookup_insert_Some in Hin as [[<- <-]|[_ Hin]]; [|by left].
    right. exists ev, payload. split_and!; [set_solver|done|done].
  - right. exists ev', pl. split_and!; [|done|done].
    assert (n_recv (rv_net r2) = rest) as Hrest.
    { clear -Eh. assert (preserves (fun r => n_recv (rv_net r) = rest)
        (handle_udp_rendezvous_message (take 1500 payload) addr0 secret)) as Hp.
      { assert (forall peer m, preserves (fun r => n_recv (rv_net r) = rest) (send_udp_message peer m)) as Hs.
        { intros peer m. apply preserves_zoom. intros s t Hs [z Hz]. simpl.
          unfold mbind, eff_bind, lift in Hz. destruct (to_vec m); [apply send_to_recv in Hz; congruence|].
          by injection Hz as <- <-. }
        unfold handle_udp_rendezvous_message.
        apply preserves_bind; [apply preserves_lift|]. intros m.
        destruct m; repeat first
          [ apply preserves_ret | apply Hs | apply preserves_lift | apply preserves_gets
          | apply preserves_modify; done | apply preserves_bind; [|intros ?] ]. }
      by eapply Hp in Eh. }
    rewrite Hrest in Hev. set_solver.
Qed.
End RendezvousServer.

(** ** Properties *)

(** Whatever connections and polls come, in any interleaving: a client is paired only
    with a socket of the node it asked for, whose connection presented the relay's
    secret and waited at most the time to live; and no socket is handed out twice. *)
Theorem relay_pairs_only_authenticated_nodes (secret : option string) (evs : list relay_event) :
  NoDup (hello_conns evs) ->
  let r := run_relay secret relay_init evs in
  (forall p, p ∈ rs_pairs r ->
     (exists s t, secret = Some s /\ sent_hello evs t (pr_node p) (RelayNode (pr_node_id p) s) /\
                  pr_time p - t <= RELAY_NODE_SOCKET_TTL) /\
     exists time, sent_hello evs time (pr_client p) (RelayClient (pr_node_id p))) /\
  NoDup (map pr_node (rs_pairs r)).
Proof. intros Hnd r. destruct (run_relay_inv secret evs Hnd) as [_ _ Hp Hu _ _ _]. by split. Qed.

Definition toy_relay_run : list relay_event :=
  [EvHello 0 1 (Ok (RelayNode "node-1" "s")); EvHello 1 2 (Ok (RelayNode "node-1" "wrong"));
   EvHello 2 3 (Ok (RelayClient "node-1")); EvPoll 3 3].
Lemma relay_pairs_only_authenticated_nodes_witness :
  let r := run_relay (Some "s") relay_init toy_relay_run in
  (forall p, p ∈ rs_pairs r ->
     (exists s t, Some "s" = Some s /\
        sent_hello toy_relay_run t (pr_node p) (RelayNode (pr_node_id p) s) /\
        pr_time p - t <= RELAY_NODE_SOCKET_TTL) /\
     exists time, sent_hello toy_relay_run time (pr_client p) (RelayClient (pr_node_id p))) /\
  NoDup (map pr_node (rs_pairs r)).
Proof.
  apply (relay_pairs_only_authenticated_nodes (Some "s") toy_relay_run).
  apply (bool_decide_unpack _). vm_compute. exact I.
Defined.

(** A poll of a waiting client takes the fresh socket that was pushed last, throws away
    the expired ones pushed after it and keeps the older ones; without a fresh socket
    the pool of the node is emptied and one of the client's attempts is used.  The
    pools of other nodes are left alone. *)
Theorem poll_takes_the_latest_fresh_node (time : Z) (conn : nat) (id : string) (polls : nat)
    (r : relay) :
  rs_clients r !! conn = Some (ClientTask id (S polls)) ->
  let r' := poll_client time conn r in
  (forall id', id' <> id -> pool (rs_waiting r') id' = pool (rs_waiting r) id') /\
  ((exists expired node,
      pool (rs_waiting r) id = expired ++ node :: pool (rs_waiting r') id /\
      Forall (fun n => ~ fresh RELAY_NODE_SOCKET_TTL time n) expired /\
      fresh RELAY_NODE_SOCKET_TTL time node /\
      rs_pairs r' = rs_pairs r ++ [Pairing conn (wn_stream node) id time] /\
      rs_clients r' = delete conn (rs_clients r)) \/
   (Forall (fun n => ~ fresh RELAY_NODE_SOCKET_TTL time n) (pool (rs_waiting r) id) /\
      pool (rs_waiting r') id = [] /\ rs_pairs r' = rs_pairs r /\
      rs_clients r' !! conn = if decide (polls = O) then None else Some (ClientTask id polls))).
Proof.
  intros Hc r'. unfold r', poll_client. rewrite Hc.
  destruct (take_waiting _ _ _ _) as [sel waiting'] eqn:Et.
  apply take_waiting_spec in Et as [Hother Hsel].
  destruct sel as [s|]; (split; [exact Hother|]).
  - left. destruct Hsel as (ex & node & ? & ? & ? & <-). exists ex, node. done.
  - right. destruct Hsel as [? ?]. split_and!; [done|done|done|].
    destruct polls; cbn [rs_clients]; [by rewrite lookup_delete_eq|by rewrite lookup_insert_eq].
Qed.

Lemma poll_takes_the_latest_fresh_node_witness :
  let r := run_relay (Some "s") relay_init (take 3 toy_relay_run) in
  let r' := poll_client 3 3 r in
  (forall id', id' <> "node-1" -> pool (rs_waiting r') id' = pool (rs_waiting r) id') /\
  ((exists expired node,
      pool (rs_waiting r) "node-1" = expired ++ node :: pool (rs_waiting r') "node-1" /\
      Forall (fun n => ~ fresh RELAY_NODE_SOCKET_TTL 3 n) expired /\
      fresh RELAY_NODE_SOCKET_TTL 3 node /\
      rs_pairs r' = rs_pairs r ++ [Pairing 3 (wn_stream node) "node-1" 3] /\
      rs_clients r' = delete 3%nat (rs_clients r)) \/
   (Forall (fun n => ~ fresh RELAY_NODE_SOCKET_TTL 3 n) (pool (rs_waiting r) "node-1") /\
      pool (rs_waiting r') "node-1" = [] /\ rs_pairs r' = rs_pairs r /\
      rs_clients r' !! 3%nat = if decide (49%nat = O) then None else Some (ClientTask "node-1" 49))).
Proof.
  apply (poll_takes_the_latest_fresh_node 3 3 "node-1" 49). vm_compute. reflexivity.
Defined.

(** The rendezvous map holds only addresses that registered with the relay's secret:
    an entry comes from a datagram of that address with the secret in it. *)
Theorem rendezvous_nodes_are_authenticated `{Json udp_rendezvous_message} `{TokenEnv}
    (k : nat) (secret : option string) (n : net) (id : string) (addr : socket_addr) :
  let r := (run_udp_rendezvous k secret (Rendezvous n ∅)).2 in
  rv_nodes r !! id = Some addr ->
  exists ev payload, ev ∈ n_recv n /\ ev_result ev = Got payload addr /\
    authenticated secret (take 1500 payload) id.
Proof.
  intros r Hr. unfold r in Hr. destruct (run_udp_rendezvous k secret (Rendezvous n ∅)) as [x r'] eqn:E.
  destruct (run_udp_nodes _ _ _ _ _ E id addr Hr) as [Hin|Hex]; [simpl in Hin; by rewrite lookup_empty in Hin|exact Hex].
Qed.

Definition toy_register_net : net :=
  let msg m := match @to_vec _ toy_rv_json m with Ok p => p | Err _ => [] end in
  quiet [RecvEvent 0 (Got (msg (RvNode "node-1" "s")) toy_peer)].
Lemma rendezvous_nodes_are_authenticated_witness :
  exists ev payload, ev ∈ n_recv toy_register_net /\ ev_result ev = Got payload toy_peer /\
    @authenticated toy_rv_json (Some "s") (take 1500 payload) "node-1".
Proof.
  exact (@rendezvous_nodes_are_authenticated toy_rv_json toy_token_env 1 (Some "s") toy_register_net
    "node-1" toy_peer ltac:(vm_compute; reflexivity)).
Defined.

(** C14. End to end over IPv4: with a token the control plane issued for the node within
    the last fifteen minutes, the relay answers the client with the node's address and
    tells the node the client's; the client resolves the answer to the node's address
    and the node reads the client's address and punches towards it five times. *)
Theorem rendezvous_pairs_client_and_node `{JsonOk udp_rendezvous_message} `{TokenOk}
    (secret sid svc id token : string) (t0 : Z) (ca na : ipv4) (cp np : Z)
    (request to_client to_node punch : list byte) (relay_addr : socket_addr) (r : rendezvous) :
  let client := SockV4 ca cp in
  let node := SockV4 na np in
  ipv4_ok ca -> 0 <= cp <= u16_max -> ipv4_ok na -> 0 <= np <= u16_max ->
  issue_session_token t0 secret sid svc id = Ok token ->
  n_now (rv_net r) <= t0 + minutes 15 -> sends_ok (rv_net r) -> rv_nodes r !! id = Some node ->
  to_vec (RvClient id token) = Ok request -> to_vec RvPunch = Ok punch ->
  to_vec (RvPeer (show_sock node)) = Ok to_client -> (length to_client <= 1500)%nat ->
  to_vec (RvPeer (show_sock client)) = Ok to_node ->
  (exists r', handle_udp_rendezvous_message request client (Some secret) r = (Ok tt, r') /\
     n_sent (rv_net r') = n_sent (rv_net r) ++ [(client, to_client); (node, to_node)] /\
     rv_nodes r' = rv_nodes r) /\
  (forall n dt, sends_ok n -> n_recv n = [RecvEvent dt (Got to_client relay_addr)] ->
     (resolve_peer relay_addr id token n).1 = Ok node) /\
  (forall n, sends_ok n -> exists n', handle_listener_message to_node n = (Ok (Some client), n') /\
     n_sent n' = n_sent n ++ replicate PUNCH_BURST_PACKETS (client, punch)).
Proof.
  intros client node Hca Hcp Hna Hnp Htok Hnow Hs Hnode Hreq Hpunch Htc Hlen Htn.
  assert (parse_sock (show_sock node) = Some node) as Hpn by (by apply parse_sock_show_v4).
  assert (parse_sock (show_sock client) = Some client) as Hpc by (by apply parse_sock_show_v4).
  clearbody client node. split_and!.
  - eexists. unfold handle_udp_rendezvous_message, parse_message. rewrite (json_roundtrip _ _ Hreq).
    unfold mbind, eff_bind, lift, gets. cbn [ok_or].
    rewrite (verify_issued _ _ _ _ _ _ _ Htok), (proj2 (Z.leb_le _ _)) by done.
    cbn [tc_node_id]. rewrite bool_decide_eq_true_2 by done. cbn [negb bail_if].
    rewrite Hnode. cbn [ok_or]. rewrite (send_udp_ok _ _ _ _ Htc Hs).
    rewrite (send_udp_ok _ _ _ _ Htn) by done. split_and!; [reflexivity| |done].
    cbn. by rewrite <- app_assoc.
  - intros n dt Hn Hrecv. unfold resolve_peer, mbind at 1, eff_bind at 1.
    rewrite (send_message_ok _ _ _ _ Hreq Hn).
    apply (resolve_loop_answer _ _ 4 _ dt to_client [] (show_sock node) _ punch); try done.
    rewrite take_ge by done. exact (json_roundtrip _ _ Htc).
  - intros n Hn. eexists. unfold handle_listener_message, parse_message. rewrite (json_roundtrip _ _ Htn).
    unfold mbind, eff_bind, lift, parse_peer_addr. rewrite Hpc. cbn [ok_or].
    rewrite (punch_burst_ok _ _ _ Hpunch Hn). split; reflexivity.
Qed.

Definition toy_bytes (m : udp_rendezvous_message) : list byte :=
  match @to_vec _ toy_rv_json m with Ok p => p | Err _ => [] end.
Definition toy_client : socket_addr := SockV4 (Ipv4 10 0 0 3) 40000.
Definition toy_rendezvous : rendezvous := Rendezvous (quiet []) {["node-1" := toy_peer]}.
Lemma rendezvous_pairs_client_and_node_witness :
  (exists r', @handle_udp_rendezvous_message toy_rv_json toy_token_env
       (toy_bytes (RvClient "node-1" toy_token)) toy_client (Some "s") toy_rendezvous = (Ok tt, r') /\
     n_sent (rv_net r') = [] ++ [(toy_client, toy_bytes (RvPeer (show_sock toy_peer)));
                                 (toy_peer, toy_bytes (RvPeer (show_sock toy_client)))] /\
     rv_nodes r' = rv_nodes toy_rendezvous) /\
  (forall n dt, sends_ok n ->
     n_recv n = [RecvEvent dt (Got (toy_bytes (RvPeer (show_sock toy_peer))) toy_relay)] ->
     (@resolve_peer toy_rv_json toy_relay "node-1" toy_token n).1 = Ok toy_peer) /\
  (forall n, sends_ok n -> exists n',
     @handle_listener_message toy_rv_json (toy_bytes (RvPeer (show_sock toy_client))) n
       = (Ok (Some toy_client), n') /\
     n_sent n' = n_sent n ++ replicate PUNCH_BURST_PACKETS (toy_client, toy_bytes RvPunch)).
Proof.
  apply (@rendezvous_pairs_client_and_node toy_rv_json toy_rv_json_ok toy_token_env toy_token_ok
    "s" "sess_1" "svc_ssh" "node-1" toy_token 100 (Ipv4 10 0 0 3) (Ipv4 10 0 0 2) 40000 17002);
    try reflexivity; unfold ipv4_ok, u16_max; simpl; try lia.
  apply (bool_decide_unpack _). vm_compute. exact I.
Defined.
