(* ===== verification/RelayServer.v ===== *)
(** * The relay as a server

    [services/relay/src/main.rs], [config.rs] and the servers of [lib.rs]: what a relay starts
    from, the loop that accepts TCP connections and the WebSockets axum upgrades.  Each
    connection is a task of its own, which reads one hello; [Relay.v] says what the hellos and
    the polls of waiting clients do to the pool.

    tokio's listeners are not part of the repository: what [accept] and a connection's first
    line give are inputs. *)

From S2P Require Import Prelude RustStd NetAddr Protocol PinnedHttp Crypto Samples Net Rendezvous Relay.

(** ** Connections and their tasks *)

(** The connections accepted so far, by number; those whose task has not read its hello; the
    pool they share. *)
Record acceptor := Acceptor {
  ac_next : nat;
  ac_reading : gset nat;
  ac_relay : relay
}.
Definition acceptor_init : acceptor := Acceptor 0 ∅ relay_init.
Inductive acceptor_event :=
  | Accepted
  | HelloRead (time : Z) (conn : nat) (hello : result relay_hello)
  | Polled (time : Z) (conn : nat).
Definition acceptor_step (shared_secret : option string) (a : acceptor) (ev : acceptor_event) : acceptor :=
  match ev with
  | Accepted => Acceptor (S (ac_next a)) ({[ac_next a]} ∪ ac_reading a) (ac_relay a)
  | HelloRead time conn hello =>
      if decide (conn ∈ ac_reading a) then
        Acceptor (ac_next a) (ac_reading a ∖ {[conn]}) (relay_step shared_secret (ac_relay a) (EvHello time conn hello))
      else a
  | Polled time conn =>
      Acceptor (ac_next a) (ac_reading a) (relay_step shared_secret (ac_relay a) (EvPoll time conn))
  end.
Definition run_acceptor (shared_secret : option string) (a : acceptor) (evs : list acceptor_event) : acceptor :=
  fold_left (acceptor_step shared_secret) evs a.

(** ** The TCP relay *)

(** What [select!] and the tasks of [run_tcp_relay_with_shutdown] see. *)
Inductive tcp_relay_event :=
  | RelayShutdown
  | RelayAccept (accepted : result unit)
  | RelayHelloRead (time : Z) (conn : nat) (input : list byte)
  | RelayPolled (time : Z) (conn : nat).
(** [tr_udp_running]: the UDP rendezvous, started beside it, has neither been told to stop nor
    lost the sender that could tell it. *)
Record tcp_relay := TcpRelay {
  tr_local_addr : socket_addr;
  tr_acceptor : acceptor;
  tr_udp_running : bool;
  tr_ended : option (result unit)
}.
Definition with_acceptor (a : acceptor) (t : tcp_relay) : tcp_relay :=
  TcpRelay (tr_local_addr t) a (tr_udp_running t) (tr_ended t).
Definition relay_ends (r : result unit) (t : tcp_relay) : tcp_relay :=
  TcpRelay (tr_local_addr t) (tr_acceptor t) false (Some r).

Section TcpRelay.
Context `{Json relay_hello}.
(** [read_relay_hello]. *)
Definition read_relay_hello (input : list byte) : result relay_hello := fst <$> read_json_line input.

Definition tcp_relay_step (shared_secret : option string) (t : tcp_relay) (ev : tcp_relay_event) : tcp_relay :=
  match ev with
  | RelayShutdown => match tr_ended t with None => relay_ends (Ok tt) t | Some _ => t end
  | RelayAccept accepted =>
      match tr_ended t, accepted with
      | Some _, _ => t
      | None, Err e => relay_ends (Err e) t
      | None, Ok _ => with_acceptor (acceptor_step shared_secret (tr_acceptor t) Accepted) t
      end
  | RelayHelloRead time conn input =>
      with_acceptor (acceptor_step shared_secret (tr_acceptor t) (HelloRead time conn (read_relay_hello input))) t
  | RelayPolled time conn => with_acceptor (acceptor_step shared_secret (tr_acceptor t) (Polled time conn)) t
  end.
(** [bind] is [TcpListener::bind], with the local address. *)
Definition run_tcp_relay_with_shutdown (bind : string -> result socket_addr) (bind_addr : string)
    (shared_secret : option string) (events : list tcp_relay_event) : result tcp_relay :=
  local_addr ← bind bind_addr;
  Ok (fold_left (tcp_relay_step shared_secret) events (TcpRelay local_addr acceptor_init true None)).
(** [run_tcp_relay] keeps the sender of the shutdown: it is never told to stop. *)
Definition run_tcp_relay (bind : string -> result socket_addr) (bind_addr : string)
    (shared_secret : option string) (events : list tcp_relay_event) : result tcp_relay :=
  run_tcp_relay_with_shutdown bind bind_addr shared_secret
    (List.filter (fun ev => match ev with RelayShutdown => false | _ => true end) events).

(** ** The WebSocket relay *)

(** [handle_wss_connection] after [read_wss_relay_hello]. *)
Definition handle_wss_connection (shared_secret : option string) (time : Z) (conn : nat)
    (hello : result relay_hello) (r : relay) : result relay :=
  hello ← hello;
  match hello with
  | RelayNode node_id provided_secret =>
      expected_secret ← ok_or (EMsg "relay shared secret is not configured") shared_secret;
      if expected_secret =?s provided_secret then
        let waiting := default [] (rs_waiting r !! node_id) in
        Ok (RelayState (<[node_id := WaitingNode time conn :: waiting]> (rs_waiting r)) (rs_clients r) (rs_pairs r))
      else Err (EMsg ("relay node authentication failed for " +:+ node_id))
  | RelayClient node_id =>
      Ok (RelayState (rs_waiting r) (<[conn := ClientTask node_id 50]> (rs_clients r)) (rs_pairs r))
  end.
(** One iteration of [wait_for_node_websocket] for the client [conn]. *)
Definition wait_for_node_websocket (time : Z) (conn : nat) (r : relay) : relay :=
  match rs_clients r !! conn with
  | Some (ClientTask node_id (S polls)) =>
      let '(selected, waiting) :=
        match rs_waiting r !! node_id with
        | Some nodes =>
            let '(selected, nodes) := pop_fresh RELAY_NODE_SOCKET_TTL time nodes in
            (selected, match nodes with [] => delete node_id (rs_waiting r) | _ => <[node_id := nodes]> (rs_waiting r) end)
        | None => (None, rs_waiting r)
        end in
      match selected with
      | Some node => RelayState waiting (delete conn (rs_clients r)) (rs_pairs r ++ [Pairing conn node node_id time])
      | None =>
          RelayState waiting
            (match polls with O => delete conn (rs_clients r) | _ => <[conn := ClientTask node_id polls]> (rs_clients r) end)
            (rs_pairs r)
      end
  | _ => r
  end.
Definition wss_acceptor_step (shared_secret : option string) (a : acceptor) (ev : acceptor_event) : acceptor :=
  match ev with
  | Accepted => Acceptor (S (ac_next a)) ({[ac_next a]} ∪ ac_reading a) (ac_relay a)
  | HelloRead time conn hello =>
      if decide (conn ∈ ac_reading a) then
        Acceptor (ac_next a) (ac_reading a ∖ {[conn]})
          (match handle_wss_connection shared_secret time conn hello (ac_relay a) with Ok r => r | Err _ => ac_relay a end)
      else a
  | Polled time conn => Acceptor (ac_next a) (ac_reading a) (wait_for_node_websocket time conn (ac_relay a))
  end.

(** [WssServed]: [axum::serve] returns. *)
Inductive wss_relay_event :=
  | WssShutdown
  | WssServed (result : result unit)
  | WssUpgraded
  | WssHelloRead (time : Z) (conn : nat) (frames : list (result ws_message))
  | WssPolled (time : Z) (conn : nat).
(** The shutdown stops the UDP rendezvous at once; axum finishes the requests in flight. *)
Definition wss_relay_step (shared_secret : option string) (t : tcp_relay) (ev : wss_relay_event) : tcp_relay :=
  match ev with
  | WssShutdown => TcpRelay (tr_local_addr t) (tr_acceptor t) false (tr_ended t)
  | WssServed r => match tr_ended t with None => relay_ends r t | Some _ => t end
  | WssUpgraded =>
      match tr_ended t with
      | None => with_acceptor (wss_acceptor_step shared_secret (tr_acceptor t) Accepted) t
      | Some _ => t
      end
  | WssHelloRead time conn frames =>
      with_acceptor (wss_acceptor_step shared_secret (tr_acceptor t) (HelloRead time conn (read_wss_relay_hello frames))) t
  | WssPolled time conn => with_acceptor (wss_acceptor_step shared_secret (tr_acceptor t) (Polled time conn)) t
  end.
Definition run_wss_relay_with_shutdown (bind : string -> result socket_addr) (bind_addr : string)
    (shared_secret : option string) (events : list wss_relay_event) : result tcp_relay :=
  local_addr ← bind bind_addr;
  Ok (fold_left (wss_relay_step shared_secret) events (TcpRelay local_addr acceptor_init true None)).
Definition run_wss_relay (bind : string -> result socket_addr) (bind_addr : string)
    (shared_secret : option string) (events : list wss_relay_event) : result tcp_relay :=
  run_wss_relay_with_shutdown bind bind_addr shared_secret
    (List.filter (fun ev => match ev with WssShutdown => false | _ => true end) events).
End TcpRelay.

(** ** Starting *)

Inductive relay_mode := TcpMode | WssMode.
(** What [main] runs: a server of a mode, its address and its secret. *)
Definition relay_main (env : string -> option string) : result (relay_mode * string * string) :=
  let cfg := relay_config_default env in
  shared_secret ← ok_or (EMsg "MEDIUM_RELAY_SHARED_SECRET is required") (rc_shared_secret cfg);
  let mode := default "tcp" (env "MEDIUM_RELAY_MODE") in
  Ok (if mode =?s "wss" then WssMode else TcpMode, rc_bind_addr cfg, shared_secret).

(** ** Lemmas *)

(** An acceptor runs as the pool does, each connection's hello coming once. *)
Record acceptor_inv (secret : option string) (evs : list relay_event) (a : acceptor) : Prop := {
  ai_run : ac_relay a = run_relay secret relay_init evs;
  ai_once : NoDup (hello_conns evs);
  ai_below conn : conn ∈ hello_conns evs -> (conn < ac_next a)%nat /\ conn ∉ ac_reading a;
  ai_reading conn : conn ∈ ac_reading a -> (conn < ac_next a)%nat
}.
(** The WebSocket relay's tasks do to the pool what those of the TCP relay do. *)
Lemma wss_acceptor_step_eq secret a ev : wss_acceptor_step secret a ev = acceptor_step secret a ev.
Proof.
  destruct ev as [|time conn hello|time conn]; [done| |done]. cbn [wss_acceptor_step acceptor_step relay_step].
  case_decide; [|done]. f_equal. unfold handle_wss_connection, handle_connection, push_waiting.
  destruct hello as [[node_id provided|node_id]|e]; [|done|done]. rewrite !bind_Ok.
  destruct secret as [expected|]; [|done]. cbn [ok_or]. rewrite !bind_Ok. by destruct (expected =?s provided).
Qed.
Definition relay_events (ev : acceptor_event) : list relay_event :=
  match ev with
  | Accepted => []
  | HelloRead time conn hello => [EvHello time conn hello]
  | Polled time conn => [EvPoll time conn]
  end.
Lemma acceptor_step_inv secret evs a ev :
  acceptor_inv secret evs a ->
  exists evs', evs' ⊆ relay_events ev /\ acceptor_inv secret (evs ++ evs') (acceptor_step secret a ev).
Proof.
  intros [Hrun Honce Hbelow Hreading]. destruct ev as [|time conn hello|time conn]; cbn [acceptor_step relay_events].
  - exists []. split; [done|]. rewrite app_nil_r. constructor; cbn; [done|done| |].
    + intros conn Hc. destruct (Hbelow conn Hc). split; [lia|]. set_unfold. intros [->|?]; [lia|done].
    + intros conn. set_unfold. intros [->|Hc]; [lia|]. specialize (Hreading conn Hc). lia.
  - case_decide as Hin; [|exists []; split; [set_solver|by rewrite app_nil_r; constructor]].
    exists [EvHello time conn hello]. split; [done|]. constructor; cbn.
    + unfold run_relay. rewrite fold_left_app, Hrun. done.
    + rewrite hello_conns_snoc. apply list.NoDup_app. split; [done|]. split; [|apply NoDup_singleton].
      intros c Hc ->%list_elem_of_singleton. by destruct (Hbelow conn Hc).
    + intros c. rewrite hello_conns_snoc, elem_of_app. intros [Hc| ->%list_elem_of_singleton].
      * destruct (Hbelow c Hc). split; [done|set_solver].
      * split; [by apply Hreading|set_solver].
    + intros c Hc. apply Hreading. set_solver.
  - exists [EvPoll time conn]. split; [done|]. constructor; cbn.
    + unfold run_relay. rewrite fold_left_app, Hrun. done.
    + rewrite hello_conns_snoc. cbn. by rewrite app_nil_r.
    + intros c. rewrite hello_conns_snoc. cbn. rewrite app_nil_r. apply Hbelow.
    + done.
Qed.
Lemma run_acceptor_inv secret evs a aevs :
  acceptor_inv secret evs a ->
  exists evs', evs' ⊆ (aevs ≫= relay_events) /\ acceptor_inv secret (evs ++ evs') (run_acceptor secret a aevs).
Proof.
  revert evs a; induction aevs as [|ev aevs IH]; intros evs a Ha.
  { exists []. split; [done|]. by rewrite app_nil_r. }
  destruct (acceptor_step_inv secret evs a ev Ha) as (e1 & H1 & Hs). destruct (IH _ _ Hs) as (e2 & H2 & Hr).
  exists (e1 ++ e2). split; [set_solver|]. by rewrite app_assoc.
Qed.
Lemma acceptor_init_inv secret : acceptor_inv secret [] acceptor_init.
Proof. constructor; [done|constructor|set_solver|set_solver]. Qed.

(** What [Relay.v] proves of its runs, for the hellos an acceptor's connections sent. *)
Definition pairs_authenticated (secret : option string) (aevs : list acceptor_event) (r : relay) : Prop :=
  (forall p, p ∈ rs_pairs r ->
     (exists s t, secret = Some s /\ HelloRead t (pr_node p) (Ok (RelayNode (pr_node_id p) s)) ∈ aevs /\
                  pr_time p - t <= RELAY_NODE_SOCKET_TTL) /\
     exists time, HelloRead time (pr_client p) (Ok (RelayClient (pr_node_id p))) ∈ aevs) /\
  NoDup (map pr_node (rs_pairs r)).
Lemma acceptor_pairs secret aevs : pairs_authenticated secret aevs (ac_relay (run_acceptor secret acceptor_init aevs)).
Proof.
  destruct (run_acceptor_inv secret [] acceptor_init aevs (acceptor_init_inv secret)) as (evs & Hevs & [Hrun Honce _ _]).
  cbn [app] in *. rewrite Hrun. destruct (run_relay_inv secret evs Honce) as [_ _ Hp Hu _ _ _].
  assert (forall time conn hello, sent_hello evs time conn hello -> HelloRead time conn (Ok hello) ∈ aevs) as Hsent.
  { intros time conn hello Hin. apply Hevs, list_elem_of_bind in Hin as (ev & Hin & Hev).
    destruct ev; cbn in Hin; set_unfold; naive_solver. }
  split; [|done]. intros p Hin. destruct (Hp p Hin) as [(s & t & Hs & Hh & Ht) [time Hc]]. split; eauto 10.
Qed.

(** A server whose steps are those of an acceptor, on the acceptor's events of its own. *)
Lemma server_run {Ev} secret (step : tcp_relay -> Ev -> tcp_relay) (event : Ev -> list acceptor_event) events t :
  (forall t ev, exists e1, e1 ⊆ event ev /\ tr_acceptor (step t ev) = run_acceptor secret (tr_acceptor t) e1) ->
  exists aevs, aevs ⊆ (events ≫= event) /\
    tr_acceptor (fold_left step events t) = run_acceptor secret (tr_acceptor t) aevs.
Proof.
  intros Hstep. revert t; induction events as [|ev events IH]; intros t; [by exists []|]. cbn [fold_left].
  destruct (IH (step t ev)) as (aevs & Hsub & Hrun), (Hstep t ev) as (e1 & H1 & He).
  exists (e1 ++ aevs). split; [set_solver|]. rewrite Hrun, He. unfold run_acceptor. by rewrite fold_left_app.
Qed.
Definition tcp_event `{Json relay_hello} (ev : tcp_relay_event) : list acceptor_event :=
  match ev with
  | RelayAccept (Ok _) => [Accepted]
  | RelayHelloRead time conn input => [HelloRead time conn (read_relay_hello input)]
  | RelayPolled time conn => [Polled time conn]
  | _ => []
  end.
Definition wss_event `{Json relay_hello} (ev : wss_relay_event) : list acceptor_event :=
  match ev with
  | WssUpgraded => [Accepted]
  | WssHelloRead time conn frames => [HelloRead time conn (read_wss_relay_hello frames)]
  | WssPolled time conn => [Polled time conn]
  | _ => []
  end.
Lemma tcp_relay_acts `{Json relay_hello} secret t ev :
  exists e1, e1 ⊆ tcp_event ev /\ tr_acceptor (tcp_relay_step secret t ev) = run_acceptor secret (tr_acceptor t) e1.
Proof.
  destruct ev as [|[[]|e]|time conn input|time conn]; cbn [tcp_relay_step tcp_event]; try by eexists [_].
  - exists []. split; [done|]. by destruct (tr_ended t).
  - destruct (tr_ended t); [exists []; split; [set_solver|done]|]. by exists [Accepted].
  - exists []. split; [done|]. by destruct (tr_ended t).
Qed.
Lemma wss_relay_acts `{Json relay_hello} secret t ev :
  exists e1, e1 ⊆ wss_event ev /\ tr_acceptor (wss_relay_step secret t ev) = run_acceptor secret (tr_acceptor t) e1.
Proof.
  destruct ev as [|r| |time conn frames|time conn]; cbn [wss_relay_step wss_event]; rewrite ?wss_acceptor_step_eq;
    try by eexists [_].
  - by exists [].
  - exists []. split; [done|]. by destruct (tr_ended t).
  - destruct (tr_ended t); [exists []; split; [set_solver|done]|]. by exists [Accepted].
Qed.

(** ** Properties *)

(** C13. However a relay runs, over TCP or over WebSockets, whatever connects, whatever the
    connections send and however their tasks are interleaved: a client is paired only with a
    connection whose first line, or first text frame, was the hello of the node the client
    asked for, with the relay's secret, at most the time to live before; and no connection is
    handed out twice. *)
Theorem relay_server_pairs_only_authenticated_nodes `{Json relay_hello}
    (bind : string -> result socket_addr) (bind_addr : string) (secret : option string) :
  (forall events t, run_tcp_relay_with_shutdown bind bind_addr secret events = Ok t ->
     (forall p, p ∈ rs_pairs (ac_relay (tr_acceptor t)) ->
        (exists s time input, secret = Some s /\ RelayHelloRead time (pr_node p) input ∈ events /\
           read_relay_hello input = Ok (RelayNode (pr_node_id p) s) /\ pr_time p - time <= RELAY_NODE_SOCKET_TTL) /\
        exists time input, RelayHelloRead time (pr_client p) input ∈ events /\
           read_relay_hello input = Ok (RelayClient (pr_node_id p))) /\
     NoDup (map pr_node (rs_pairs (ac_relay (tr_acceptor t))))) /\
  (forall events t, run_wss_relay_with_shutdown bind bind_addr secret events = Ok t ->
     (forall p, p ∈ rs_pairs (ac_relay (tr_acceptor t)) ->
        (exists s time frames, secret = Some s /\ WssHelloRead time (pr_node p) frames ∈ events /\
           read_wss_relay_hello frames = Ok (RelayNode (pr_node_id p) s) /\ pr_time p - time <= RELAY_NODE_SOCKET_TTL) /\
        exists time frames, WssHelloRead time (pr_client p) frames ∈ events /\
           read_wss_relay_hello frames = Ok (RelayClient (pr_node_id p))) /\
     NoDup (map pr_node (rs_pairs (ac_relay (tr_acceptor t))))).
Proof.
  split; intros events t (local_addr & _ & [= <-])%bind_ok.
  - destruct (server_run secret (tcp_relay_step secret) tcp_event events (TcpRelay local_addr acceptor_init true None)
      (tcp_relay_acts secret)) as (aevs & Hsub & ->).
    destruct (acceptor_pairs secret aevs) as [Hp Hnd]. cbn [tr_acceptor] in *.
    assert (forall time conn hello, HelloRead time conn (Ok hello) ∈ aevs ->
      exists input, RelayHelloRead time conn input ∈ events /\ read_relay_hello input = Ok hello) as Hread.
    { intros time conn hello Hin. apply Hsub, list_elem_of_bind in Hin as (ev & Hin & Hev).
      destruct ev as [|[[]|e]|time' conn' input|time' conn']; cbn [tcp_event] in Hin; set_unfold; naive_solver. }
    split; [|done]. intros p Hin. destruct (Hp p Hin) as [(s & time & Hs & Hn & Ht) [time' Hc]].
    apply Hread in Hn as (i1 & ? & ?), Hc as (i2 & ? & ?). split; eauto 12.
  - destruct (server_run secret (wss_relay_step secret) wss_event events (TcpRelay local_addr acceptor_init true None)
      (wss_relay_acts secret)) as (aevs & Hsub & ->).
    destruct (acceptor_pairs secret aevs) as [Hp Hnd]. cbn [tr_acceptor] in *.
    assert (forall time conn hello, HelloRead time conn (Ok hello) ∈ aevs ->
      exists frames, WssHelloRead time conn frames ∈ events /\ read_wss_relay_hello frames = Ok hello) as Hread.
    { intros time conn hello Hin. apply Hsub, list_elem_of_bind in Hin as (ev & Hin & Hev).
      destruct ev as [|r| |time' conn' frames|time' conn']; cbn [wss_event] in Hin; set_unfold; naive_solver. }
    split; [|done]. intros p Hin. destruct (Hp p Hin) as [(s & time & Hs & Hn & Ht) [time' Hc]].
    apply Hread in Hn as (i1 & ? & ?), Hc as (i2 & ? & ?). split; eauto 12.
Qed.

Definition relay_line (hello : relay_hello) : list byte :=
  default [] (result_ok (@write_json_line _ flat_relay hello)).
Definition relay_session : list tcp_relay_event :=
  [RelayAccept (Ok tt); RelayAccept (Ok tt); RelayHelloRead 0 0 (relay_line (RelayNode "node-1" "s"));
   RelayHelloRead 5 1 (relay_line (RelayClient "node-1")); RelayPolled 5 1].
Definition relay_bind (addr : string) : result socket_addr := Ok (SockV4 (Ipv4 0 0 0 0) 7001).
Definition relay_served : tcp_relay :=
  default (TcpRelay (SockV4 (Ipv4 0 0 0 0) 0) acceptor_init true None)
    (result_ok (@run_tcp_relay_with_shutdown flat_relay relay_bind "0.0.0.0:7001" (Some "s") relay_session)).
Lemma relay_server_pairs_only_authenticated_nodes_witness :
  map (fun p => (pr_client p, pr_node p)) (rs_pairs (ac_relay (tr_acceptor relay_served))) = [(1, 0)]%nat /\
  NoDup (map pr_node (rs_pairs (ac_relay (tr_acceptor relay_served)))).
Proof.
  split; [vm_compute; reflexivity|].
  refine (proj2 (proj1 (@relay_server_pairs_only_authenticated_nodes flat_relay relay_bind "0.0.0.0:7001" (Some "s"))
    relay_session relay_served _)).
  vm_compute. reflexivity.
Defined.

(** A relay starts only with a secret; the loop that accepts goes on until the shutdown, which
    also stops the UDP rendezvous, or the first error of [accept], which takes the rendezvous
    with it. *)
Theorem relay_ends_with_its_listener `{Json relay_hello} (secret : option string) (accepts : list unit)
    (last : tcp_relay_event) (t : tcp_relay) :
  tr_ended t = None ->
  let run := fold_left (tcp_relay_step secret) (map (fun u => RelayAccept (Ok u)) accepts ++ [last]) t in
  ac_next (tr_acceptor run) = (ac_next (tr_acceptor t) + length accepts +
    match last with RelayAccept (Ok _) => 1 | _ => 0 end)%nat /\
  (last = RelayShutdown -> tr_ended run = Some (Ok tt) /\ tr_udp_running run = false) /\
  (forall e, last = RelayAccept (Err e) -> tr_ended run = Some (Err e) /\ tr_udp_running run = false).
Proof.
  intros Hended. cbv zeta. rewrite fold_left_app.
  assert (forall t, tr_ended t = None ->
    let t' := fold_left (tcp_relay_step secret) (map (fun u => RelayAccept (Ok u)) accepts) t in
    tr_ended t' = None /\ ac_next (tr_acceptor t') = (ac_next (tr_acceptor t) + length accepts)%nat) as Hloop.
  { clear. induction accepts as [|u accepts IH]; intros t Ht; cbn [map fold_left length]; [split; [done|lia]|].
    cbn [tcp_relay_step]. rewrite Ht.
    destruct (IH (with_acceptor (acceptor_step secret (tr_acceptor t) Accepted) t) Ht) as [He Hn].
    split; [done|]. cbv zeta in Hn. rewrite Hn. cbn. lia. }
  destruct (Hloop t Hended) as [He Hn]. set (t' := fold_left _ _ _) in *. cbn [fold_left].
  destruct last as [|[[]|e]|time conn input|time conn]; cbn [tcp_relay_step]; rewrite ?He; split_and!; try done;
    cbn [tr_acceptor relay_ends with_acceptor acceptor_step ac_next]; try (rewrite Hn; lia).
  - by intros e1 [= <-].
  - case_decide; cbn; lia.
Qed.
