(* ===== verification/Registry.v ===== *)
(** * The node registry

    [services/control-plane/src/registry.rs] over the schema of [migrations/]: the
    tables of the SQLite database and the statements the store runs on them.  A
    statement is modelled by its SQL meaning: [delete ... where] filters, [insert]
    appends and fails on a primary key that exists, [order by] sorts ([binary]
    collation on text), a transaction that fails leaves the database as it was.  The
    time stamps, which no query reads, are left out. *)

From Stdlib Require Import Sorted.
From stdpp Require Import sorting.
From S2P Require Import Prelude RustStd Order NetAddr Protocol.

(** ** Tables *)

Record endpoint_row := EndpointRow {
  er_id : Z;
  er_node_id : string;
  er_kind : string;
  er_schema_version : Z;
  er_addr : string;
  er_priority : Z
}.
Record service_row := ServiceRow {
  sv_id : string;
  sv_node_id : string;
  sv_kind : string;
  sv_schema_version : Z;
  sv_target : string;
  sv_user_name : option string;
  sv_label : option string
}.
(** [nodes] maps a node to its label; [db_next_id] is the endpoint table's
    autoincrement counter. *)
Record database := Database {
  db_nodes : gmap string string;
  db_endpoints : list endpoint_row;
  db_next_id : Z;
  db_services : list service_row
}.
Definition empty_database : database := Database ∅ [] 1 [].

(** ** [register_node] *)

Definition upsert_node (id label : string) (db : database) : database :=
  Database (<[id := label]> (db_nodes db)) (db_endpoints db) (db_next_id db) (db_services db).
Definition delete_node_endpoints (node_id : string) (db : database) : database :=
  Database (db_nodes db) (filter (fun r => er_node_id r <> node_id) (db_endpoints db)) (db_next_id db)
    (db_services db).
Definition delete_node_services (node_id : string) (db : database) : database :=
  Database (db_nodes db) (db_endpoints db) (db_next_id db)
    (filter (fun r => sv_node_id r <> node_id) (db_services db)).
Definition insert_endpoint (node_id : string) (db : database) (e : node_endpoint) : database :=
  Database (db_nodes db)
    (db_endpoints db ++ [EndpointRow (db_next_id db) node_id (endpoint_kind_str (ne_kind e))
                           (ne_schema_version e) (ne_addr e) (ne_priority e)])
    (db_next_id db + 1) (db_services db).
Definition insert_service (node_id : string) (db : database) (s : published_service) : result database :=
  if existsb (fun r => (sv_node_id r =?s node_id) && (sv_id r =?s ps_id s)) (db_services db)
  then Err (EExt "UNIQUE constraint failed: node_services.node_id, node_services.id")
  else Ok (Database (db_nodes db) (db_endpoints db) (db_next_id db)
             (db_services db ++ [ServiceRow (ps_id s) node_id (service_kind_str (ps_kind s))
                (ps_schema_version s) (ps_target s) (ps_user_name s) (ps_label s)])).

Fixpoint insert_services (node_id : string) (services : list published_service) (db : database)
    : result database :=
  match services with
  | [] => Ok db
  | s :: rest => db ← insert_service node_id db s; insert_services node_id rest db
  end.

(** The statements of the transaction. *)
Definition register_node_statements (request : register_node_request) (db : database)
    : result database :=
  let node_id := rn_node_id request in
  let db := upsert_node node_id (rn_node_label request) db in
  let db := delete_node_endpoints node_id db in
  let db := delete_node_services node_id db in
  let db := fold_left (insert_endpoint node_id) (rn_endpoints request) db in
  insert_services node_id (rn_services request) db.

(** [begin] to [commit]: on an error the transaction is dropped. *)
Definition register_node (request : register_node_request) (db : database) : result unit * database :=
  match register_node_statements request db with
  | Ok db' => (Ok tt, db')
  | Err e => (Err e, db)
  end.

(** A series of registrations. *)
Definition register_all (requests : list register_node_request) (db : database) : database :=
  fold_left (fun db request => (register_node request db).2) requests db.

(** ** Queries *)

(** [order by .. limit 1]. *)
Definition sql_first {A} (le : A -> A -> Prop) `{!RelDecision le} (rows : list A) : option A :=
  head (merge_sort le rows).

(** [order by priority desc, id asc]. *)
Definition endpoint_le (a b : endpoint_row) : Prop :=
  er_priority b < er_priority a \/ (er_priority b = er_priority a /\ er_id a <= er_id b).
#[global] Instance endpoint_le_dec : RelDecision endpoint_le.
Proof. intros a b. unfold endpoint_le. apply _. Defined.

Definition service_le (a b : service_row) : Prop := text_le (sv_id a) (sv_id b).
#[global] Instance service_le_dec : RelDecision service_le.
Proof. intros a b. unfold service_le. apply _. Defined.

(** [order by ne.priority desc, ne.id asc, ns.id asc] on joined rows. *)
Definition joined_le (a b : service_row * endpoint_row) : Prop :=
  er_priority b.2 < er_priority a.2 \/
  (er_priority b.2 = er_priority a.2 /\
   (er_id a.2 < er_id b.2 \/ (er_id a.2 = er_id b.2 /\ text_le (sv_id a.1) (sv_id b.1)))).
#[global] Instance joined_le_dec : RelDecision joined_le.
Proof. intros a b. unfold joined_le. apply _. Defined.

(** [node_services ns join node_endpoints ne on ne.node_id = ns.node_id]. *)
Definition joined (db : database) : list (service_row * endpoint_row) :=
  filter (fun row => er_node_id row.2 = sv_node_id row.1)
    (s ← db_services db; e ← db_endpoints db; [(s, e)]).

Definition is_tcp_proxy (e : endpoint_row) : Prop := er_kind e = "tcp_proxy" /\ er_schema_version e = 1.
#[global] Instance is_tcp_proxy_dec e : Decision (is_tcp_proxy e).
Proof. unfold is_tcp_proxy. apply _. Defined.

Definition parse_service_kind (raw : string) : result service_kind :=
  if raw =?s "http" then Ok KHttp
  else if raw =?s "https" then Ok KHttps
  else if raw =?s "ssh" then Ok KSsh
  else Err (EMsg ("unsupported service kind " +:+ raw)).

Definition split_addr (addr : string) : result (string * Z) :=
  '(host, port) ← ok_or (EMsg ("invalid addr " +:+ addr)) (rsplit_once ":" addr);
  port ← ok_or (EExt "ParseIntError") (parse_u16 port);
  Ok (host, port).

(** The stored [i64] read [as u32]. *)
Definition as_u32 (z : Z) : Z := z mod 2 ^ 32.
(** .. and [as i32]. *)
Definition as_i32 (z : Z) : Z := (z + 2 ^ 31) mod 2 ^ 32 - 2 ^ 31.

Definition service_of_row (r : service_row) : result published_service :=
  kind ← parse_service_kind (sv_kind r);
  Ok (PublishedService (sv_id r) kind (as_u32 (sv_schema_version r)) (sv_label r) (sv_target r)
        (sv_user_name r)).
Definition list_node_services (db : database) (node_id : string) : result (list published_service) :=
  result_map service_of_row
    (merge_sort service_le (filter (fun r => sv_node_id r = node_id) (db_services db))).

(** The row [list_devices] takes a node's SSH endpoint from. *)
Definition ssh_row (db : database) (node_id : string) : option (service_row * endpoint_row) :=
  sql_first joined_le
    (filter (fun row => sv_node_id row.1 = node_id /\ sv_kind row.1 = "ssh" /\
                        sv_schema_version row.1 = 1 /\ is_tcp_proxy row.2) (joined db)).

Definition device_of_node (db : database) (node : string * string) : result device_record :=
  let '(node_id, label) := node in
  services ← list_node_services db node_id;
  ssh ← match ssh_row db node_id with
        | Some (s, e) =>
            match sv_user_name s with
            | Some user_name =>
                '(host, port) ← split_addr (er_addr e);
                Ok (Some (SshEndpoint (sv_id s) host port user_name))
            | None => Ok None
            end
        | None => Ok None
        end;
  Ok (DeviceRecord node_id label ssh services).

Definition node_le (a b : string * string) : Prop := text_le a.1 b.1.
#[global] Instance node_le_dec : RelDecision node_le.
Proof. intros a b. unfold node_le. apply _. Defined.

Definition list_devices (db : database) : result (list device_record) :=
  result_map (device_of_node db) (merge_sort node_le (map_to_list (db_nodes db))).

Record service_endpoint := ServiceEndpoint { sp_addr : string; sp_priority : Z }.
#[global] Instance service_endpoint_eq_dec : EqDecision service_endpoint.
Proof. solve_decision. Defined.
Record service_route := ServiceRoute {
  rt_node_id : string;
  rt_tcp_addr : string;
  rt_ice_udp_endpoints : list service_endpoint;
  rt_user_name : option string
}.

Definition endpoints (db : database) (node_id kind : string) : list service_endpoint :=
  map (fun r => ServiceEndpoint (er_addr r) (as_i32 (er_priority r)))
    (merge_sort endpoint_le
       (filter (fun r => er_node_id r = node_id /\ er_kind r = kind /\ er_schema_version r = 1)
          (db_endpoints db))).

(** [order by ne.priority desc, ne.id asc] on joined rows: an endpoint belongs to one
    node, so rows of one endpoint and one service coincide. *)
Definition route_le (a b : service_row * endpoint_row) : Prop := endpoint_le a.2 b.2.
#[global] Instance route_le_dec : RelDecision route_le.
Proof. intros a b. unfold route_le. apply _. Defined.

Definition route_of (db : database) (row : option (service_row * endpoint_row)) : result service_route :=
  '(s, e) ← ok_or (EExt "RowNotFound") row;
  Ok (ServiceRoute (sv_node_id s) (er_addr e) (endpoints db (sv_node_id s) "ice_udp") (sv_user_name s)).

Definition resolve_service_route (db : database) (service_id : string) : result service_route :=
  route_of db (sql_first route_le
    (filter (fun row => sv_id row.1 = service_id /\ is_tcp_proxy row.2) (joined db))).
Definition resolve_node_service_route (db : database) (node_id service_id : string)
    : result service_route :=
  route_of db (sql_first route_le
    (filter (fun row => sv_node_id row.1 = node_id /\ sv_id row.1 = service_id /\ is_tcp_proxy row.2)
       (joined db))).

(** ** Lemmas: orders *)

#[global] Instance endpoint_le_total : Total endpoint_le.
Proof. intros a b. unfold endpoint_le. lia. Qed.
#[global] Instance endpoint_le_trans : Transitive endpoint_le.
Proof. intros a b c. unfold endpoint_le. lia. Qed.
#[global] Instance route_le_total : Total route_le.
Proof. intros a b. unfold route_le. apply (total endpoint_le). Qed.
#[global] Instance route_le_trans : Transitive route_le.
Proof. intros a b c. unfold route_le. apply transitivity. Qed.
#[global] Instance service_le_total : Total service_le.
Proof. intros a b. unfold service_le. apply (total text_le). Qed.
#[global] Instance joined_le_total : Total joined_le.
Proof. intros a b. unfold joined_le. 
  destruct (Z.lt_trichotomy (er_priority a.2) (er_priority b.2)) as [?|[?|?]]; [auto| |auto].
  destruct (Z.lt_trichotomy (er_id a.2) (er_id b.2)) as [?|[?|?]]; [auto| |auto].
  destruct (total text_le (sv_id a.1) (sv_id b.1)); auto 10.
Qed.
#[global] Instance joined_le_trans : Transitive joined_le.
Proof.
  intros a b c. unfold joined_le.
  intros [?|[? [?|[? Hab]]]] [?|[? [?|[? Hbc]]]]; try (left; lia); right; (split; [lia|]);
    try (left; lia). right. split; [lia|by etrans].
Qed.

Section SqlFirst.
Context {A} (le : A -> A -> Prop) `{!RelDecision le, !Total le, !Transitive le}.
Lemma sql_first_some rows r :
  sql_first le rows = Some r -> r ∈ rows /\ forall r', r' ∈ rows -> le r r'.
Proof.
  unfold sql_first. intros Hh. pose proof (StronglySorted_merge_sort le rows) as Hs.
  pose proof (merge_sort_Permutation le rows) as Hp.
  destruct (merge_sort le rows) as [|x l]; [done|]. injection Hh as ->.
  split; [rewrite <- Hp; set_solver|]. intros r' Hr'. rewrite <- Hp, elem_of_cons in Hr'.
  apply StronglySorted_inv in Hs as [_ Hall]. rewrite Forall_forall in Hall.
  destruct Hr' as [->|Hin]; [destruct (total le r r); done|]. by apply Hall, list_elem_of_In.
Qed.
Lemma sql_first_none rows : sql_first le rows = None -> rows = [].
Proof.
  unfold sql_first. pose proof (merge_sort_Permutation le rows) as Hp.
  destruct (merge_sort le rows); [|done]. intros _. by apply Permutation_nil in Hp.
Qed.
End SqlFirst.

(** ** Lemmas: registration *)

Definition row_of_service (node_id : string) (s : published_service) : service_row :=
  ServiceRow (ps_id s) node_id (service_kind_str (ps_kind s)) (ps_schema_version s) (ps_target s)
    (ps_user_name s) (ps_label s).
Definition row_of_endpoint (node_id : string) (first : Z) (i : nat) (e : node_endpoint) : endpoint_row :=
  EndpointRow (first + Z.of_nat i) node_id (endpoint_kind_str (ne_kind e)) (ne_schema_version e)
    (ne_addr e) (ne_priority e).

Lemma insert_endpoints node_id eps db :
  fold_left (insert_endpoint node_id) eps db =
  Database (db_nodes db) (db_endpoints db ++ imap (row_of_endpoint node_id (db_next_id db)) eps)
    (db_next_id db + Z.of_nat (length eps)) (db_services db).
Proof.
  revert db; induction eps as [|e eps IH]; intros db; simpl.
  - rewrite app_nil_r, Z.add_0_r. by destruct db.
  - rewrite IH. simpl. f_equal; [|lia]. rewrite <- app_assoc. f_equal. simpl.
    unfold row_of_endpoint at 2. rewrite Z.add_0_r. f_equal. apply imap_ext. intros i x _.
    unfold row_of_endpoint, compose. f_equal. lia.
Qed.

Definition has_service (node_id id : string) (rows : list service_row) : bool :=
  existsb (fun r => (sv_node_id r =?s node_id) && (sv_id r =?s id)) rows.
Lemma has_service_true node_id id rows :
  has_service node_id id rows = true <-> exists r, r ∈ rows /\ sv_node_id r = node_id /\ sv_id r = id.
Proof.
  unfold has_service. rewrite existsb_exists. setoid_rewrite andb_true_iff.
  setoid_rewrite bool_decide_eq_true. setoid_rewrite list_elem_of_In. naive_solver.
Qed.

Lemma insert_services_spec node_id ss db :
  match insert_services node_id ss db with
  | Ok db' => NoDup (map ps_id ss) /\
      (forall s, s ∈ ss -> has_service node_id (ps_id s) (db_services db) = false) /\
      db' = Database (db_nodes db) (db_endpoints db) (db_next_id db)
              (db_services db ++ map (row_of_service node_id) ss)
  | Err _ => ~ (NoDup (map ps_id ss) /\
      forall s, s ∈ ss -> has_service node_id (ps_id s) (db_services db) = false)
  end.
Proof.
  revert db; induction ss as [|s ss IH]; intros db; simpl.
  { split_and!; [constructor|set_solver|]. rewrite app_nil_r. by destruct db. }
  unfold mbind, result_bind, insert_service. fold (has_service node_id (ps_id s) (db_services db)).
  destruct (has_service node_id (ps_id s) (db_services db)) eqn:Eh.
  { intros [_ Hall]. rewrite Hall in Eh; [done|set_solver]. }
  set (db1 := Database _ _ _ _).
  assert (forall id, has_service node_id id (db_services db1) = false <->
            has_service node_id id (db_services db) = false /\ id <> ps_id s) as Hhas.
  { intros id. rewrite <- !not_true_iff_false, !has_service_true. simpl.
    setoid_rewrite elem_of_app. setoid_rewrite list_elem_of_singleton. split.
    - intros Hno. split.
      + intros (r & Hr & Hn & Hi). apply Hno. exists r. auto.
      + intros ->. apply Hno. eexists. split; [by right|done].
    - intros [Hno Hne] (r & [Hr| ->] & Hn & Hi); [apply Hno; eauto|by apply Hne]. }
  specialize (IH db1). destruct (insert_services node_id ss db1) as [db'|e].
  - destruct IH as (Hnd & Hall & ->). split_and!.
    + constructor; [|done]. intros (s' & Heq & Hin)%list_elem_of_fmap.
      apply Hall, Hhas in Hin as [_ Hne]. by rewrite Heq in Hne.
    + intros s'. rewrite elem_of_cons. intros [->|Hin]; [done|]. by apply Hall, Hhas in Hin as [? _].
    + simpl. by rewrite <- app_assoc.
  - intros [Hnd Hall]. apply IH. inversion Hnd as [|? ? Hnotin Hnd']; subst. split; [done|].
    intros s' Hs'. apply Hhas. split; [apply Hall; set_solver|]. intros Heq. apply Hnotin.
    rewrite <- Heq. by apply list_elem_of_fmap_2.
Qed.

(** What the transaction leaves. *)
Definition registered (request : register_node_request) (db : database) : database :=
  let node_id := rn_node_id request in
  Database (<[node_id := rn_node_label request]> (db_nodes db))
    (filter (fun r => er_node_id r <> node_id) (db_endpoints db)
     ++ imap (row_of_endpoint node_id (db_next_id db)) (rn_endpoints request))
    (db_next_id db + Z.of_nat (length (rn_endpoints request)))
    (filter (fun r => sv_node_id r <> node_id) (db_services db)
     ++ map (row_of_service node_id) (rn_services request)).

Lemma register_node_spec request db :
  (NoDup (map ps_id (rn_services request)) /\ register_node request db = (Ok tt, registered request db)) \/
  (~ NoDup (map ps_id (rn_services request)) /\ exists e, register_node request db = (Err e, db)).
Proof.
  unfold register_node, register_node_statements. rewrite insert_endpoints. cbn -[insert_services].
  match goal with |- context [insert_services ?n ?ss ?d] =>
    pose proof (insert_services_spec n ss d) as Hspec; destruct (insert_services n ss d) as [db'|e] end.
  - left. destruct Hspec as (Hnd & _ & ->). split; [done|]. done.
  - right. split; [|by exists e]. intros Hnd. apply Hspec. split; [done|].
    intros s _. apply not_true_iff_false. rewrite has_service_true. simpl.
    intros (r & Hr & Hn & _). apply list_elem_of_filter in Hr as [Hne _]. done.
Qed.

Lemma filter_own_services node_id rows ss :
  filter (fun r => sv_node_id r = node_id)
    (filter (fun r => sv_node_id r <> node_id) rows ++ map (row_of_service node_id) ss)
  = map (row_of_service node_id) ss.
Proof.
  rewrite list.filter_app, list_filter_filter.
  rewrite (list_filter_iff _ (fun _ => False)) by naive_solver.
  assert (filter (fun _ : service_row => False) rows = []) as -> by (clear; by induction rows).
  rewrite app_nil_l. induction ss as [|s ss IH]; [done|]. simpl. rewrite filter_cons_True by done. by rewrite IH.
Qed.

(** ** Lemmas: queries *)

Lemma service_of_row_of node_id s :
  0 <= ps_schema_version s < 2 ^ 32 -> service_of_row (row_of_service node_id s) = Ok s.
Proof.
  intros Hv. unfold service_of_row, row_of_service; simpl. unfold as_u32. rewrite Z.mod_small by done.
  destruct s as [id k v l t u]; simpl. by destruct k.
Qed.

Lemma elem_of_joined db s e :
  (s, e) ∈ joined db <-> s ∈ db_services db /\ e ∈ db_endpoints db /\ er_node_id e = sv_node_id s.
Proof.
  unfold joined. rewrite list_elem_of_filter. simpl.
  setoid_rewrite list_elem_of_bind. setoid_rewrite list_elem_of_bind.
  setoid_rewrite list_elem_of_singleton. naive_solver.
Qed.

(** The rows of a node in the join depend on the rows of the node in the tables. *)
Definition node_rows (node_id : string) (db : database) : list (service_row * endpoint_row) :=
  s ← filter (fun r => sv_node_id r = node_id) (db_services db);
  e ← filter (fun r => er_node_id r = node_id) (db_endpoints db);
  [(s, e)].

Lemma filter_bind {A B} (P : B -> Prop) `{!forall x, Decision (P x)} (f : A -> list B) (l : list A) :
  filter P (l ≫= f) = l ≫= (fun a => filter P (f a)).
Proof. induction l as [|a l IH]; [done|]. by rewrite !bind_cons, list.filter_app, IH. Qed.
Lemma bind_filter {A B} (P : A -> Prop) `{!forall x, Decision (P x)} (f : A -> list B) (l : list A) :
  filter P l ≫= f = l ≫= (fun a => if decide (P a) then f a else []).
Proof.
  induction l as [|a l IH]; [done|]. rewrite filter_cons, bind_cons.
  destruct (decide (P a)); [by rewrite bind_cons, IH|by rewrite IH].
Qed.
Lemma bind_single_filter {A B} (P : B -> Prop) `{!forall x, Decision (P x)} (f : A -> B) (l : list A) :
  filter P (l ≫= (fun a => [f a])) = filter (fun a => P (f a)) l ≫= (fun a => [f a]).
Proof.
  rewrite filter_bind, bind_filter. induction l as [|a l IH]; [done|]. rewrite !bind_cons, IH. f_equal.
Qed.

Lemma joined_node_rows node_id db (Q : service_row * endpoint_row -> Prop)
    `{!forall x, Decision (Q x)} :
  filter (fun row => sv_node_id row.1 = node_id /\ Q row) (joined db) = filter Q (node_rows node_id db).
Proof.
  unfold joined, node_rows. rewrite list_filter_filter, !filter_bind, bind_filter.
  induction (db_services db) as [|s ss IH]; [done|]. rewrite !bind_cons, IH. f_equal.
  rewrite !bind_single_filter. destruct (decide (sv_node_id s = node_id)) as [<-|Hne].
  - rewrite list_filter_filter. f_equal. apply list_filter_iff. simpl. intros e. naive_solver.
  - rewrite (list_filter_iff _ (fun _ => False)) by naive_solver. clear.
    by induction (db_endpoints db).
Qed.

(** Registering a node leaves the rows of the others. *)
Lemma registered_other_services request db node_id :
  node_id <> rn_node_id request ->
  filter (fun r => sv_node_id r = node_id) (db_services (registered request db))
  = filter (fun r => sv_node_id r = node_id) (db_services db).
Proof.
  intros Hne. simpl. rewrite list.filter_app, list_filter_filter.
  assert (filter (fun r => sv_node_id r = node_id)
            (map (row_of_service (rn_node_id request)) (rn_services request)) = []) as ->.
  { induction (rn_services request) as [|s ss IH]; [done|]. simpl.
    rewrite filter_cons_False by (simpl; congruence). done. }
  rewrite app_nil_r. apply list_filter_iff. naive_solver.
Qed.
Lemma registered_other_endpoints request db node_id :
  node_id <> rn_node_id request ->
  filter (fun r => er_node_id r = node_id) (db_endpoints (registered request db))
  = filter (fun r => er_node_id r = node_id) (db_endpoints db).
Proof.
  intros Hne. simpl. rewrite list.filter_app, list_filter_filter.
  assert (filter (fun r => er_node_id r = node_id)
            (imap (row_of_endpoint (rn_node_id request) (db_next_id db)) (rn_endpoints request)) = []) as ->.
  { generalize (db_next_id db). induction (rn_endpoints request) as [|e es IH]; intros k; [done|].
    rewrite imap_cons, filter_cons_False by (simpl; congruence).
    erewrite imap_ext; [apply (IH (k + 1))|]. intros i x _. unfold row_of_endpoint, compose. f_equal. lia. }
  rewrite app_nil_r. apply list_filter_iff. naive_solver.
Qed.

Lemma endpoints_ext db db' node_id kind :
  filter (fun r => er_node_id r = node_id) (db_endpoints db)
  = filter (fun r => er_node_id r = node_id) (db_endpoints db') ->
  endpoints db node_id kind = endpoints db' node_id kind.
Proof.
  intros Heq. unfold endpoints. f_equal. f_equal.
  assert (forall l : list endpoint_row, filter (fun r => er_node_id r = node_id /\ er_kind r = kind /\ er_schema_version r = 1) l
    = filter (fun r => er_kind r = kind /\ er_schema_version r = 1)
        (filter (fun r => er_node_id r = node_id) l)) as Hf.
  { intros l. rewrite list_filter_filter. apply list_filter_iff. naive_solver. }
  by rewrite !Hf, Heq.
Qed.

(** The endpoints of the registered node. *)
Lemma registered_endpoint request db e :
  e ∈ db_endpoints (registered request db) /\ er_node_id e = rn_node_id request <->
  exists i ep, rn_endpoints request !! i = Some ep /\
    e = row_of_endpoint (rn_node_id request) (db_next_id db) i ep.
Proof.
  simpl. rewrite elem_of_app, list_elem_of_filter, elem_of_lookup_imap. split.
  - intros [[[Hne _]|(i & ep & -> & Hi)] He]; [done|eauto].
  - intros (i & ep & Hi & ->). split; [right; eauto|done].
Qed.
Lemma registered_service request db s :
  s ∈ db_services (registered request db) /\ sv_node_id s = rn_node_id request <->
  exists ps, ps ∈ rn_services request /\ s = row_of_service (rn_node_id request) ps.
Proof.
  simpl. rewrite elem_of_app, list_elem_of_filter, list_elem_of_fmap. naive_solver.
Qed.

(** ** Properties *)

(** C31. Registration succeeds exactly when the services have distinct identifiers, and
    otherwise leaves the database unchanged.  What the node registered is then what
    the catalogue lists for it, ordered by identifier, in place of what it had before;
    the services of every other node, and the routes to them, are what they were. *)
Theorem registration_replaces_the_node (request : register_node_request) (db db' : database)
    (r : result unit) :
  register_node request db = (r, db') ->
  Forall (fun s => 0 <= ps_schema_version s < 2 ^ 32) (rn_services request) ->
  match r with
  | Ok _ =>
      NoDup (map ps_id (rn_services request)) /\
      (exists l, list_node_services db' (rn_node_id request) = Ok l /\ l ≡ₚ rn_services request /\
         Sorted (fun a b => text_le (ps_id a) (ps_id b)) l) /\
      (forall node_id service_id, node_id <> rn_node_id request ->
         list_node_services db' node_id = list_node_services db node_id /\
         resolve_node_service_route db' node_id service_id
           = resolve_node_service_route db node_id service_id)
  | Err _ => ~ NoDup (map ps_id (rn_services request)) /\ db' = db
  end.
Proof.
  intros Hr Hver.
  destruct (register_node_spec request db) as [[Hnd Heq]|[Hnd [e Heq]]]; rewrite Heq in Hr;
    injection Hr as <- <-; [|done].
  split_and!; [done| |].
  - unfold list_node_services. cbn [db_services registered]. rewrite filter_own_services.
    set (rows := merge_sort service_le (map (row_of_service (rn_node_id request)) (rn_services request))).
    assert (rows ≡ₚ map (row_of_service (rn_node_id request)) (rn_services request)) as Hperm
      by apply merge_sort_Permutation.
    assert (Sorted service_le rows) as Hsorted by (apply Sorted_merge_sort; apply _).
    clearbody rows. apply Permutation_map_inv in Hperm as (l & -> & Hl).
    exists l. split_and!; [|by rewrite Hl|].
    + apply result_map_ok. assert (Forall (fun s => 0 <= ps_schema_version s < 2 ^ 32) l) as Hv
        by (by rewrite <- Hl). clear -Hv.
      induction Hv; simpl; constructor; [by apply service_of_row_of|done].
    + clear -Hsorted. induction l as [|a l IH]; [constructor|]. simpl in Hsorted.
      apply Sorted_inv in Hsorted as [Hs Hh]. constructor; [by apply IH|].
      destruct l; constructor. simpl in Hh. by inversion Hh.
  - intros node_id service_id Hne. pose proof (registered_other_services request db node_id Hne) as Hs.
    pose proof (registered_other_endpoints request db node_id Hne) as He. split.
    + unfold list_node_services. by rewrite Hs.
    + unfold resolve_node_service_route. rewrite !joined_node_rows.
      assert (node_rows node_id (registered request db) = node_rows node_id db) as ->
        by (unfold node_rows; by rewrite Hs, He).
      assert (forall row, row ∈ node_rows node_id db -> sv_node_id row.1 = node_id) as Hrow.
      { intros row (s & Hb & Hin)%list_elem_of_bind.
        apply list_elem_of_bind in Hb as (e & Hb & _). apply list_elem_of_singleton in Hb as ->.
        by apply list_elem_of_filter in Hin as [? _]. }
      unfold route_of. destruct (sql_first _ _) as [[s e]|] eqn:Ef; [|done].
      apply (sql_first_some route_le) in Ef as [Hin _]. apply list_elem_of_filter in Hin as [_ Hin].
      apply Hrow in Hin. simpl in *. unfold mbind, result_bind. simpl. rewrite Hin.
      by rewrite (endpoints_ext _ db).
Qed.

(** ** The schema

    What the tables' declarations ask for, and the enumerations behind their text columns. *)
Record schema_ok (db : database) : Prop := {
  so_counter : 1 <= db_next_id db;
  so_endpoint_key : NoDup (map er_id (db_endpoints db));
  so_autoincrement : Forall (fun r => 1 <= er_id r < db_next_id db) (db_endpoints db);
  so_endpoint_node : Forall (fun r => is_Some (db_nodes db !! er_node_id r)) (db_endpoints db);
  so_endpoint_kind : Forall (fun r => exists k, er_kind r = endpoint_kind_str k) (db_endpoints db);
  so_service_key : NoDup (map (fun r => (sv_node_id r, sv_id r)) (db_services db));
  so_service_node : Forall (fun r => is_Some (db_nodes db !! sv_node_id r)) (db_services db);
  so_service_kind : Forall (fun r => exists k, parse_service_kind (sv_kind r) = Ok k) (db_services db)
}.

Lemma parse_service_kind_str k : parse_service_kind (service_kind_str k) = Ok k.
Proof. by destruct k. Qed.
Lemma new_ids node_id first es :
  map er_id (imap (row_of_endpoint node_id first) es) = map (fun i => first + Z.of_nat i) (seq 0 (length es)).
Proof.
  revert first; induction es as [|e es IH]; intros first; [done|]. cbn [imap map seq length].
  rewrite <- seq_shift, Z.add_0_r. f_equal; [apply Z.add_0_r|]. rewrite map_map.
  transitivity (map er_id (imap (row_of_endpoint node_id (first + 1)) es)).
  - f_equal. apply imap_ext. intros i x _. unfold row_of_endpoint, compose. f_equal. lia.
  - rewrite IH. apply map_ext. intros i. lia.
Qed.
Lemma new_ids_bounds node_id first es :
  Forall (fun r => first <= er_id r < first + Z.of_nat (length es)) (imap (row_of_endpoint node_id first) es).
Proof.
  apply list.Forall_forall. intros r Hr.
  assert (er_id r ∈ map er_id (imap (row_of_endpoint node_id first) es)) as Hid by (by apply list_elem_of_fmap_2).
  rewrite new_ids in Hid. apply list_elem_of_fmap in Hid as (i & -> & Hi). apply elem_of_seq in Hi. lia.
Qed.
Lemma registered_schema request db :
  NoDup (map ps_id (rn_services request)) -> schema_ok db -> schema_ok (registered request db).
Proof.
  intros Hnd [C1 K1 A1 N1 E1 K2 N2 E2]. set (id := rn_node_id request).
  pose proof (new_ids_bounds id (db_next_id db) (rn_endpoints request)) as Hnew.
  assert (forall node, is_Some (db_nodes db !! node) -> is_Some (<[id := rn_node_label request]> (db_nodes db) !! node)) as Hkeep
    by (intros node Hn; destruct (decide (id = node)) as [->|Hne];
        [rewrite lookup_insert_eq; by eexists|by rewrite lookup_insert_ne]).
  assert (is_Some (<[id := rn_node_label request]> (db_nodes db) !! id)) as Hself by (rewrite lookup_insert_eq; by eexists).
  constructor; cbn [db_endpoints db_services db_nodes db_next_id registered]; fold id; rewrite ?map_app, ?list.Forall_app.
  - lia.
  - apply list.NoDup_app. split_and!.
    + eapply sublist_NoDup; [exact K1|]. apply fmap_sublist, sublist_filter.
    + intros x Hx Hx'. apply list_elem_of_fmap in Hx as (r & -> & Hr). apply list_elem_of_filter in Hr as [_ Hr].
      rewrite list.Forall_forall in A1. specialize (A1 r Hr). rewrite new_ids in Hx'.
      apply list_elem_of_fmap in Hx' as (i & Hi & _). lia.
    + rewrite new_ids. apply NoDup_fmap_2; [intros i j Hij; lia|apply NoDup_seq].
  - split.
    + apply Forall_filter_keep. eapply list.Forall_impl; [exact A1|]. simpl. intros. lia.
    + eapply list.Forall_impl; [exact Hnew|]. simpl. intros. lia.
  - split.
    + apply Forall_filter_keep. eapply list.Forall_impl; [exact N1|]. simpl. auto.
    + apply list.Forall_forall. intros r Hr. apply elem_of_lookup_imap in Hr as (i & e & -> & _). done.
  - split; [by apply Forall_filter_keep|]. apply list.Forall_forall. intros r Hr. apply elem_of_lookup_imap in Hr as (i & e & -> & _). by eexists.
  - apply list.NoDup_app. split_and!.
    + eapply sublist_NoDup; [exact K2|]. apply fmap_sublist, sublist_filter.
    + intros x Hx Hx'. apply list_elem_of_fmap in Hx as (r & -> & Hr). apply list_elem_of_filter in Hr as [Hne _].
      apply list_elem_of_fmap in Hx' as (r' & Heq & Hr'). apply list_elem_of_fmap in Hr' as (s & -> & _).
      by injection Heq as Hn _.
    + apply (NoDup_fmap_1 snd). replace (snd <$> _) with (map ps_id (rn_services request)); [done|].
      clear. induction (rn_services request) as [|s l IH]; [done|]. simpl. by rewrite IH.
  - split.
    + apply Forall_filter_keep. eapply list.Forall_impl; [exact N2|]. simpl. auto.
    + apply list.Forall_forall. intros r (s & -> & _)%list_elem_of_fmap. done.
  - split; [by apply Forall_filter_keep|]. apply list.Forall_forall. intros r (s & -> & _)%list_elem_of_fmap.
    exists (ps_kind s). apply parse_service_kind_str.
Qed.
Lemma rows_readable rows :
  Forall (fun r => exists k, parse_service_kind (sv_kind r) = Ok k) rows ->
  exists l, result_map service_of_row rows = Ok l.
Proof.
  induction 1 as [|r rows [k Hk] _ [l Hl]]; [by exists []|]. cbn [result_map]. rewrite Hl.
  unfold service_of_row. rewrite Hk. by eexists.
Qed.

(** C32. Whatever nodes register, in whatever order, the database keeps to its schema: keys are unique,
    new identifiers are fresh, rows belong to nodes that exist, and the text columns hold names
    of the enumerations; so the services of every node can be read back as values. *)
Theorem registrations_keep_the_schema (requests : list register_node_request) :
  let db := fold_left (fun db request => (register_node request db).2) requests empty_database in
  schema_ok db /\ forall node_id, exists services, list_node_services db node_id = Ok services.
Proof.
  cbv zeta. assert (schema_ok empty_database) as H0 by (constructor; simpl; (lia || constructor)).
  assert (forall db, schema_ok db -> schema_ok (fold_left (fun db request => (register_node request db).2) requests db)) as Hkeep.
  { induction requests as [|request requests IH]; intros db Hdb; [done|]. cbn [fold_left]. apply IH.
    destruct (register_node_spec request db) as [[Hnd ->]|[_ [e ->]]]; [by apply registered_schema|done]. }
  specialize (Hkeep _ H0). split; [done|]. intros node_id. unfold list_node_services. apply rows_readable.
  rewrite merge_sort_Permutation. by apply Forall_filter_keep, so_service_kind.
Qed.

Definition toy_service (id : string) : published_service :=
  PublishedService id KSsh 1 None "127.0.0.1:22" (Some "overlay").
Definition toy_register : register_node_request :=
  RegisterNodeRequest "node-1" "Node" [NodeEndpoint TcpProxy 1 "10.0.0.1:17001" 10;
    NodeEndpoint IceUdp 1 "10.0.0.1:17002" 5; NodeEndpoint TcpProxy 1 "10.0.0.9:17001" 20]
    [toy_service "svc_b"; toy_service "svc_a"].
Definition toy_db : database := (register_node toy_register empty_database).2.

Lemma registration_replaces_the_node_witness :
  NoDup (map ps_id (rn_services toy_register)) /\
  (exists l, list_node_services toy_db "node-1" = Ok l /\ l ≡ₚ rn_services toy_register /\
     Sorted (fun a b => text_le (ps_id a) (ps_id b)) l) /\
  (forall node_id service_id, node_id <> "node-1" ->
     list_node_services toy_db node_id = list_node_services empty_database node_id /\
     resolve_node_service_route toy_db node_id service_id
       = resolve_node_service_route empty_database node_id service_id).
Proof.
  exact (registration_replaces_the_node toy_register empty_database toy_db (Ok tt) eq_refl
    ltac:(repeat constructor; vm_compute; first [reflexivity|discriminate])).
Defined.

(** A route to a service of a registered node names that node and user, and the
    address of its TCP proxy endpoint with the highest priority, the first one of
    those listed; a node without such an endpoint has no route. *)
Theorem route_uses_the_best_endpoint (request : register_node_request) (db db' : database)
    (s : published_service) :
  register_node request db = (Ok tt, db') -> s ∈ rn_services request ->
  let usable (e : node_endpoint) := ne_kind e = TcpProxy /\ ne_schema_version e = 1 in
  match resolve_node_service_route db' (rn_node_id request) (ps_id s) with
  | Ok route =>
      rt_node_id route = rn_node_id request /\ rt_user_name route = ps_user_name s /\
      exists i e, rn_endpoints request !! i = Some e /\ usable e /\ rt_tcp_addr route = ne_addr e /\
        forall j e', rn_endpoints request !! j = Some e' -> usable e' ->
          ne_priority e' < ne_priority e \/ (ne_priority e' = ne_priority e /\ (i <= j)%nat)
  | Err _ => forall e, e ∈ rn_endpoints request -> ~ usable e
  end.
Proof.
  intros Hr Hs usable.
  destruct (register_node_spec request db) as [[Hnd Heq]|[_ [e Heq]]]; rewrite Heq in Hr; [|done].
  injection Hr as <-. unfold resolve_node_service_route.
  set (rows := filter _ (joined _)).
  assert (forall r e, (r, e) ∈ rows <-> r = row_of_service (rn_node_id request) s /\
    exists i ep, rn_endpoints request !! i = Some ep /\ usable ep /\
      e = row_of_endpoint (rn_node_id request) (db_next_id db) i ep) as Hrows.
  { intros r e. unfold rows. rewrite list_elem_of_filter, elem_of_joined. simpl. split.
    - intros ((Hn & Hid & Hk & Hv) & Hsv & He & Hne).
      destruct (proj1 (registered_service request db r)) as (ps & Hps & ->); [done|].
      destruct (proj1 (registered_endpoint request db e)) as (i & ep & Hi & ->); [split; [done|congruence]|].
      split.
      + f_equal. simpl in Hid. apply list_elem_of_lookup in Hps as [k1 Hk1], Hs as [k2 Hk2].
        assert (k1 = k2) as ->.
        { apply (NoDup_lookup _ _ _ (ps_id s) Hnd); rewrite list_lookup_fmap;
            [rewrite Hk1; simpl; by f_equal|by rewrite Hk2]. }
        congruence.
      + exists i, ep. split_and!; [done| |done]. simpl in Hk, Hv. split; [by destruct (ne_kind ep)|done].
    - intros (-> & i & ep & Hi & [Hk Hv] & ->). split_and!; try done.
      + split; simpl; [by rewrite Hk|done].
      + apply registered_service. eauto.
      + apply registered_endpoint. eauto. }
  destruct (sql_first route_le rows) as [[r e]|] eqn:Ef.
  - apply (sql_first_some route_le) in Ef as [Hin Hmin].
    apply Hrows in Hin as (-> & i & ep & Hi & Hu & ->). simpl. split_and!; [done|done|].
    exists i, ep. split_and!; [done|done|done|]. intros j e' Hj Hu'.
    assert (route_le (row_of_service (rn_node_id request) s,
                      row_of_endpoint (rn_node_id request) (db_next_id db) i ep)
                     (row_of_service (rn_node_id request) s,
                      row_of_endpoint (rn_node_id request) (db_next_id db) j e')) as Hle.
    { apply Hmin, Hrows. eauto 10. }
    unfold route_le, endpoint_le in Hle. simpl in Hle. lia.
  - apply sql_first_none in Ef. intros e [i Hi]%list_elem_of_lookup Hu.
    assert ((row_of_service (rn_node_id request) s,
             row_of_endpoint (rn_node_id request) (db_next_id db) i e) ∈ rows) as Hin
      by (apply Hrows; eauto 10).
    rewrite Ef in Hin. set_solver.
Qed.

Lemma route_uses_the_best_endpoint_witness :
  let usable (e : node_endpoint) := ne_kind e = TcpProxy /\ ne_schema_version e = 1 in
  match resolve_node_service_route toy_db "node-1" "svc_a" with
  | Ok route =>
      rt_node_id route = "node-1" /\ rt_user_name route = Some "overlay" /\
      exists i e, rn_endpoints toy_register !! i = Some e /\ usable e /\ rt_tcp_addr route = ne_addr e /\
        forall j e', rn_endpoints toy_register !! j = Some e' -> usable e' ->
          ne_priority e' < ne_priority e \/ (ne_priority e' = ne_priority e /\ (i <= j)%nat)
  | Err _ => forall e, e ∈ rn_endpoints toy_register -> ~ usable e
  end.
Proof.
  exact (route_uses_the_best_endpoint toy_register empty_database toy_db (toy_service "svc_a")
    eq_refl ltac:(apply (bool_decide_unpack _); vm_compute; exact I)).
Defined.

(** One node that registers an SSH service with a user and a TCP proxy address without
    a port makes the whole catalogue fail, for every node. *)
Theorem one_bad_address_hides_all_devices (db : database) (node_id label addr : string)
    (s : published_service) (priority : Z) :
  ps_kind s = KSsh -> ps_schema_version s = 1 -> is_Some (ps_user_name s) -> char_in ":" addr = false ->
  let '(r, db') := register_node
    (RegisterNodeRequest node_id label [NodeEndpoint TcpProxy 1 addr priority] [s]) db in
  r = Ok tt /\ is_ok (list_devices db') = false.
Proof.
  intros Hk Hv [user Hu] Haddr. set (request := RegisterNodeRequest _ _ _ _).
  destruct (register_node_spec request db) as [[_ ->]|[Hnd _]];
    [|exfalso; apply Hnd; apply list.NoDup_singleton].
  split; [done|]. destruct (list_devices (registered request db)) as [devices|e] eqn:El; [|done].
  exfalso. unfold list_devices in El. apply result_map_ok in El.
  assert ((node_id, label) ∈ merge_sort node_le (map_to_list (db_nodes (registered request db)))) as Hin.
  { rewrite merge_sort_Permutation. apply elem_of_map_to_list. simpl. apply lookup_insert_eq. }
  apply list_elem_of_lookup in Hin as [i Hi].
  destruct (Forall2_lookup_l _ _ _ _ _ El Hi) as (device & _ & Hd).
  unfold device_of_node in Hd. apply bind_ok in Hd as (services & _ & Hd).
  assert (forall row, row ∈ filter (fun row => sv_node_id row.1 = node_id /\ sv_kind row.1 = "ssh" /\
      sv_schema_version row.1 = 1 /\ is_tcp_proxy row.2) (joined (registered request db)) ->
    row = (row_of_service node_id s, row_of_endpoint node_id (db_next_id db) 0 (NodeEndpoint TcpProxy 1 addr priority)))
    as Honly.
  { intros [r e]. rewrite list_elem_of_filter, elem_of_joined. simpl.
    intros ((Hn & _) & Hr & He & Hne).
    destruct (proj1 (registered_service request db r)) as (ps & Hps & ->); [done|].
    destruct (proj1 (registered_endpoint request db e)) as (j & ep & Hj & ->); [split; [done|exact Hne]|].
    simpl in Hps. apply list_elem_of_singleton in Hps as ->.
    simpl in Hj. destruct j; [|done]. injection Hj as <-. done. }
  unfold ssh_row in Hd. destruct (sql_first joined_le _) as [row|] eqn:Ef.
  - apply (sql_first_some joined_le) in Ef as [Hrow _]. apply Honly in Hrow as ->.
    simpl in Hd. rewrite Hu in Hd. unfold split_addr in Hd.
    rewrite (proj2 (rsplit_once_none ":" addr) Haddr) in Hd. done.
  - apply sql_first_none in Ef.
    assert ((row_of_service node_id s, row_of_endpoint node_id (db_next_id db) 0
               (NodeEndpoint TcpProxy 1 addr priority)) ∈ ([] : list (service_row * endpoint_row))) as Hin2.
    { rewrite <- Ef, list_elem_of_filter, elem_of_joined. simpl. rewrite Hk, Hv. split_and!; try done.
      - apply (registered_service request db). exists s. split; [simpl; set_solver|done].
      - apply (registered_endpoint request db). exists 0%nat. eexists. done. }
    set_solver.
Qed.

Lemma one_bad_address_hides_all_devices_witness :
  let '(r, db') := register_node
    (RegisterNodeRequest "evil" "x" [NodeEndpoint TcpProxy 1 "nowhere" 0] [toy_service "s"]) toy_db in
  r = Ok tt /\ is_ok (list_devices db') = false.
Proof.
  apply (one_bad_address_hides_all_devices toy_db "evil" "x" "nowhere" (toy_service "s") 0);
    [reflexivity|reflexivity|eexists; reflexivity|reflexivity].
Defined.
