(* ===== verification/ControlPlane.v ===== *)
(** * The control plane

    [services/control-plane/src/]: the state built from the environment ([state.rs])
    and the handlers of the routes ([routes/]): registering nodes, listing devices,
    opening sessions, issuing service and SSH certificates, inviting devices.

    A handler is a function of the state, the request and what it takes from outside:
    the clock, random UUIDs (their 32-digit form), rcgen, the [ssh-keygen] process and
    the [http] crate's [Authority].  Its reply is a body or a status code. *)

From S2P Require Import Prelude RustStd NetAddr Protocol PinnedHttp Crypto Net Registry.

Inductive reply (A : Type) := Reply (body : A) | Status (code : Z).
Arguments Reply {_} _.
Arguments Status {_} _.
Definition BAD_REQUEST : Z := 400.
Definition FORBIDDEN : Z := 403.
Definition NOT_FOUND : Z := 404.
Definition INTERNAL_SERVER_ERROR : Z := 500.

(** [.map_err(|_| status)?]. *)
Definition or_status {A B} (r : result A) (status : Z) (k : A -> reply B) : reply B :=
  match r with Ok a => k a | Err _ => Status status end.
(** [.ok_or(status)?]. *)
Definition some_or_status {A B} (o : option A) (status : Z) (k : A -> reply B) : reply B :=
  match o with Some a => k a | None => Status status end.

(** ** State *)

Record control_state := ControlState {
  cs_registry : database;
  cs_shared_secret : string;
  cs_client_secret : string;
  cs_control_pin : string;
  cs_service_ca_cert_pem : option string;
  cs_service_ca_key_pem : option string;
  cs_relay_addr : option string;
  cs_wss_relay_url : option string;
  cs_ice_relay_addr : option string;
  cs_ssh_ca_key_path : option string
}.

(** [env::var(name).ok().filter(|value| !value.trim().is_empty())]. *)
Definition env_non_empty (env : string -> option string) (name : string) : option string :=
  match env name with
  | Some value => if is_empty (trim value) then None else Some value
  | None => None
  end.
(** [.map(read_to_string).transpose()?]. *)
Definition read_if (read_file : string -> result string) (path : option string) : result (option string) :=
  match path with
  | Some p => content ← read_file p; Ok (Some content)
  | None => Ok None
  end.
Definition control_state_from_env (env : string -> option string) (read_file : string -> result string)
    (connect : string -> result database) : result control_state :=
  let database_url := default "sqlite://control-plane.db" (env "OVERLAY_CONTROL_DATABASE_URL") in
  registry ← connect database_url;
  service_ca_cert_pem ← read_if read_file (env_non_empty env "MEDIUM_SERVICE_CA_CERT_PATH");
  service_ca_key_pem ← read_if read_file (env_non_empty env "MEDIUM_SERVICE_CA_KEY_PATH");
  Ok {| cs_registry := registry;
        cs_shared_secret := default "local-dev-secret" (env "OVERLAY_SHARED_SECRET");
        cs_client_secret := default "local-dev-client-secret" (env "MEDIUM_CLIENT_SECRET");
        cs_control_pin := default "" (env "MEDIUM_CONTROL_PIN");
        cs_service_ca_cert_pem := service_ca_cert_pem;
        cs_service_ca_key_pem := service_ca_key_pem;
        cs_relay_addr := env_non_empty env "MEDIUM_RELAY_ADDR";
        cs_wss_relay_url := env_non_empty env "MEDIUM_WSS_RELAY_URL";
        cs_ice_relay_addr := env_non_empty env "MEDIUM_ICE_RELAY_ADDR";
        cs_ssh_ca_key_path := env_non_empty env "MEDIUM_SSH_CA_KEY_PATH" |}.

(** ** Nodes and devices *)

Definition set_registry (db : database) (s : control_state) : control_state :=
  ControlState db (cs_shared_secret s) (cs_client_secret s) (cs_control_pin s)
    (cs_service_ca_cert_pem s) (cs_service_ca_key_pem s) (cs_relay_addr s) (cs_wss_relay_url s)
    (cs_ice_relay_addr s) (cs_ssh_ca_key_path s).

Definition register_node_route (request : register_node_request) (s : control_state)
    : reply unit * control_state :=
  let '(r, db) := register_node request (cs_registry s) in
  (or_status r INTERNAL_SERVER_ERROR (fun _ => Status 204), set_registry db s).
Definition list_devices_route (s : control_state) : reply (list device_record) :=
  or_status (list_devices (cs_registry s)) INTERNAL_SERVER_ERROR Reply.

(** ** Sessions *)

Definition bracket (c : ascii) : bool := bool_decide (c = "["%char) || bool_decide (c = "]"%char).

Definition parse_host_port (value : string) : result (string * Z) :=
  match parse_sock value with
  | Some addr => Ok (show_ip (sock_ip addr), sock_port addr)
  | None =>
      '(host, port) ← ok_or (EMsg "ICE relay address must be host:port") (rsplit_once ":" value);
      _ ← bail_if (is_empty (trim host)) (EMsg "ICE relay host must not be empty");
      port ← ok_or (EExt "ParseIntError") (parse_u16 port);
      Ok (trim_matches bracket host, port)
  end.

(** [(ip.segments()[0] & 0xfe00) == 0xfc00]. *)
Definition is_ipv6_unique_local (a : ipv6) : bool := Z.land (seg 0 a) 65024 =? 64512.

Definition classify_node_udp_candidate (addr : string) : ice_candidate_kind :=
  match parse_ip addr with
  | Some (IpV4 ip) =>
      if v4_is_private ip || v4_is_loopback ip || v4_is_link_local ip || v4_is_unspecified ip
      then Host else Srflx
  | Some (IpV6 ip) =>
      if v6_is_loopback ip || v6_is_unicast_link_local ip || is_ipv6_unique_local ip
         || v6_is_unspecified ip
      then Host else Srflx
  | None => Srflx
  end.

Definition node_candidate (index : nat) (endpoint : service_endpoint) : result ice_candidate :=
  '(addr, port) ← parse_host_port (sp_addr endpoint);
  let kind := classify_node_udp_candidate addr in
  Ok (IceCandidate (ice_kind_str kind +:+ "-udp-" +:+ dec (Z.of_nat index + 1)) 1 "udp"
        (Z.max 0 (sp_priority endpoint)) addr port kind None None).

(** The loop over the node's endpoints, from [index] on. *)
Fixpoint node_candidates (index : nat) (l : list service_endpoint) : result (list ice_candidate) :=
  match l with
  | [] => Ok []
  | e :: rest => c ← node_candidate index e; cs ← node_candidates (S index) rest; Ok (c :: cs)
  end.

Definition build_ice_grant (now : Z) (ufrag_uuid pwd_uuid : string)
    (node_udp_endpoints : list service_endpoint) (relay_candidate_addr : option string)
    : result (option ice_session_grant) :=
  candidates ← node_candidates 0 node_udp_endpoints;
  relay ← match relay_candidate_addr with
          | Some a =>
              '(addr, port) ← parse_host_port a;
              Ok [IceCandidate "relay-udp-1" 1 "udp" 10 addr port Relay None None]
          | None => Ok []
          end;
  match candidates ++ relay with
  | [] => Ok None
  | candidates =>
      Ok (Some (IceSessionGrant
        (IceCredentials ("m" +:+ ufrag_uuid) ("m" +:+ pwd_uuid)
           (now + minutes SESSION_TOKEN_TTL_MINUTES)) candidates))
  end.

Section Sessions.
Context `{TokenEnv}.

(** [uuids] are the session's and the two of the ICE credentials. *)
Definition issue_session_grant (now : Z) (uuids : string * string * string)
    (request : session_open_request) (s : control_state) : result session_open_grant :=
  let '(session_uuid, ufrag_uuid, pwd_uuid) := uuids in
  route ← match so_node_id request with
          | Some node_id => resolve_node_service_route (cs_registry s) node_id (so_service_id request)
          | None => resolve_service_route (cs_registry s) (so_service_id request)
          end;
  let session_id := "sess_" +:+ session_uuid in
  token ← issue_session_token now (cs_shared_secret s) session_id (so_service_id request) (rt_node_id route);
  let candidates :=
    [PeerCandidate DirectTcp (rt_tcp_addr route) 100]
    ++ match cs_relay_addr s with Some a => [PeerCandidate RelayTcp a 10] | None => [] end
    ++ match cs_wss_relay_url s with Some a => [PeerCandidate WssRelay a 10] | None => [] end in
  let ice_relay_addr := match cs_ice_relay_addr s with Some a => Some a | None => cs_relay_addr s end in
  ice ← build_ice_grant now ufrag_uuid pwd_uuid (rt_ice_udp_endpoints route) ice_relay_addr;
  Ok (SessionOpenGrant session_id (so_service_id request) (rt_node_id route) (cs_relay_addr s)
        (SessionAuthorization token (now + minutes SESSION_TOKEN_TTL_MINUTES) candidates ice)).

Definition open_session (now : Z) (uuids : string * string * string)
    (request : session_open_request) (s : control_state) : reply session_open_grant :=
  or_status (issue_session_grant now uuids request s) BAD_REQUEST Reply.
End Sessions.

(** ** Certificates *)

Definition medium_ca (s : control_state) : reply string :=
  some_or_status (cs_service_ca_cert_pem s) NOT_FOUND Reply.

Definition issue_service_certificate
    (signed_by : string -> string -> string -> list string -> result generated_cert)
    (request : service_certificate_request) (s : control_state) : reply service_certificate_response :=
  if negb (sc_shared_secret request =?s cs_shared_secret s) then Status FORBIDDEN
  else match sc_hostnames request with
  | [] => Status BAD_REQUEST
  | hostnames =>
      some_or_status (cs_service_ca_cert_pem s) NOT_FOUND (fun cert =>
      some_or_status (cs_service_ca_key_pem s) NOT_FOUND (fun key =>
      or_status (issue_service_tls_identity signed_by cert key hostnames) INTERNAL_SERVER_ERROR
        (fun identity => Reply (ServiceCertificateResponse (st_cert_pem identity) (st_key_pem identity)))))
  end.

Definition SSH_CERT_VALID_SECONDS : Z := 300.

(** Files by path. *)
Definition files : Type := gmap string string.

(** [Path::with_extension], on a path that ends in a file name: what follows the last dot of
    the name is replaced, but a name that only starts with a dot has no extension. *)
Definition with_extension (extension path : string) : string :=
  let path := trim_end_matches "/" path in
  let '(dir, name) := match rsplit_once "/" path with
                      | Some (dir, name) => (dir +:+ "/", name)
                      | None => (EmptyString, path)
                      end in
  let stem := match rsplit_once "." name with
              | Some (stem, _) => if is_empty stem then name else stem
              | None => name
              end in
  dir +:+ stem +:+ "." +:+ extension.
Definition ssh_ca_public_key (s : control_state) (fs : files) : reply string :=
  match cs_ssh_ca_key_path s with
  | None => Status NOT_FOUND
  | Some ca_key_path =>
      match fs !! with_extension "pub" ca_key_path with
      | Some public_key => Reply public_key
      | None => Status NOT_FOUND
      end
  end.

Section Ssh.
(** [ssh-keygen] with the arguments: whether it succeeded, the files it leaves. *)
Context (ssh_keygen : list string -> files -> result bool * files).
(** [std::env::temp_dir()]; the UUIDs of the temporary file and of the key. *)
Context (temp_dir file_uuid key_uuid : string).

Definition temp_public_key_path : string := temp_dir +:+ "/medium-ssh-" +:+ file_uuid +:+ ".pub".
Definition cert_path : string := temp_dir +:+ "/medium-ssh-" +:+ file_uuid +:+ "-cert.pub".

Definition sign_ssh_public_key (ca_key_path principal public_key : string) : eff files string := fun fs =>
  let fs := <[temp_public_key_path := public_key]> fs in
  let key_id := "medium-" +:+ key_uuid in
  let '(output, fs) := ssh_keygen ["-q"; "-s"; ca_key_path; "-I"; key_id; "-n"; principal; "-V"; "+5m";
                                   temp_public_key_path] fs in
  match output with
  | Err e => (Err e, fs)
  | Ok false => (Err (EMsg "ssh-keygen failed to sign SSH certificate"), fs)
  | Ok true =>
      match fs !! cert_path with
      | None => (Err (EIo OtherIo), fs)
      | Some certificate => (Ok certificate, delete cert_path (delete temp_public_key_path fs))
      end
  end.

Definition issue_ssh_certificate (request : ssh_certificate_request) (s : control_state) (fs : files)
    : reply ssh_certificate_response * files :=
  if negb (sr_client_secret request =?s cs_client_secret s) then (Status FORBIDDEN, fs)
  else
    let route := match sr_node_id request with
      | Some node_id => resolve_node_service_route (cs_registry s) node_id (sr_service_id request)
      | None => resolve_service_route (cs_registry s) (sr_service_id request)
      end in
    match route with
    | Err _ => (Status BAD_REQUEST, fs)
    | Ok route =>
        match rt_user_name route with
        | None => (Status BAD_REQUEST, fs)
        | Some user_name =>
            match cs_ssh_ca_key_path s with
            | None => (Status NOT_FOUND, fs)
            | Some ca_key_path =>
                let '(signed, fs) := sign_ssh_public_key ca_key_path user_name (sr_public_key request) fs in
                (or_status signed INTERNAL_SERVER_ERROR
                   (fun certificate =>
                      Reply (SshCertificateResponse certificate user_name SSH_CERT_VALID_SECONDS)), fs)
            end
        end
    end.
End Ssh.

(** ** Invites *)

Definition DEFAULT_CONTROL_AUTHORITY : string := "127.0.0.1:8080".

(** [str::replacen(from, to, 1)]. *)
Definition replace_first (from to s : string) : string :=
  match split_once from s with Some (a, b) => a +:+ to +:+ b | None => s end.

Definition issue_bootstrap_invite (token_uuid pin_uuid control_url configured_control_pin client_secret : string)
    : bootstrap_invite_response :=
  let bootstrap_token := issue_bootstrap_code token_uuid in
  let control_pin :=
    if is_empty configured_control_pin
    then replace_first "ovr-" "sha256:" (issue_bootstrap_code pin_uuid)
    else configured_control_pin in
  let invite := "medium://join?v=1&control=" +:+ control_url +:+ "&security=pinned-tls&control_pin="
                +:+ control_pin +:+ "&client_secret=" +:+ client_secret in
  BootstrapInviteResponse bootstrap_token invite bootstrap_token "pinned-tls" control_pin None.

(** The first piece of [split(',')], trimmed. *)
Definition first_item (value : string) : option string := trim <$> head (split_on "," value).

(** [headers] gives the text of a header. *)
Definition forwarded_scheme (headers : string -> option string) : string :=
  match headers "x-forwarded-proto" ≫= first_item with
  | Some value =>
      if eq_ignore_ascii_case value "https" then "https"
      else if eq_ignore_ascii_case value "http" then "http" else "http"
  | None => "http"
  end.
Definition forwarded_authority (authority_from_str : string -> option string)
    (headers : string -> option string) : option string :=
  raw ← headers "host"; authority ← first_item raw; authority_from_str authority.
Definition control_url (authority_from_str : string -> option string)
    (headers : string -> option string) : string :=
  forwarded_scheme headers +:+ "://"
  +:+ default DEFAULT_CONTROL_AUTHORITY (forwarded_authority authority_from_str headers).

Definition create_bootstrap_code (authority_from_str : string -> option string)
    (token_uuid pin_uuid : string) (headers : string -> option string) (s : control_state)
    : bootstrap_invite_response :=
  issue_bootstrap_invite token_uuid pin_uuid (control_url authority_from_str headers)
    (cs_control_pin s) (cs_client_secret s).

(** ** Lemmas *)

(** A route comes from a row of the services table. *)
Lemma route_of_registered db rows r :
  (forall row, row ∈ rows -> row ∈ joined db) ->
  route_of db (sql_first route_le rows) = Ok r ->
  exists row, row ∈ rows /\ row.1 ∈ db_services db /\
    rt_node_id r = sv_node_id row.1 /\ rt_user_name r = sv_user_name row.1 /\ rt_tcp_addr r = er_addr row.2.
Proof.
  intros Hsub. unfold route_of. destruct (sql_first route_le rows) as [[sv e]|] eqn:Ef; [|done].
  intros [= <-]. apply (sql_first_some route_le) in Ef as [Hin _].
  exists (sv, e). split_and!; try done. by apply Hsub, elem_of_joined in Hin as [? _].
Qed.

(** The route a request names, as both handlers resolve it. *)
Definition requested_route (node_id : option string) (service_id : string) (db : database)
    : result service_route :=
  match node_id with
  | Some node_id => resolve_node_service_route db node_id service_id
  | None => resolve_service_route db service_id
  end.
Lemma requested_route_registered node_id service_id db r :
  requested_route node_id service_id db = Ok r ->
  (forall n, node_id = Some n -> rt_node_id r = n) /\
  exists row, row ∈ db_services db /\ sv_id row = service_id /\ sv_node_id row = rt_node_id r /\
              sv_user_name row = rt_user_name r.
Proof.
  unfold requested_route. destruct node_id as [n|]; intros Hr;
    apply route_of_registered in Hr as ([sv e] & Hin & Hsv & Hn & Hu & _);
    try (intros row Hrow; by apply list_elem_of_filter in Hrow as [_ ?]);
    apply list_elem_of_filter in Hin as [Hp _]; simpl in *.
  - destruct Hp as (<- & Hid & _). split; [by intros n' [= <-]|]. by exists sv.
  - destruct Hp as [Hid _]. split; [done|]. by exists sv.
Qed.

Lemma first_match_head from to s : replace_first from to (from +:+ s) = to +:+ s.
Proof.
  unfold replace_first. destruct from as [|c from]; simpl.
  - destruct s; done.
  - rewrite bool_decide_eq_true_2 by done. by rewrite strip_prefix_app.
Qed.

(** A grant names the service of the request, and its node if the request has one. *)
Lemma grant_names `{TokenEnv} now uuids request s g :
  issue_session_grant now uuids request s = Ok g ->
  sg_service_id g = so_service_id request /\ forall n, so_node_id request = Some n -> sg_node_id g = n.
Proof.
  unfold issue_session_grant. destruct uuids as [[u1 u2] u3]. intros Hg.
  apply bind_ok in Hg as (route & Hroute & Hg).
  fold (requested_route (so_node_id request) (so_service_id request) (cs_registry s)) in Hroute.
  apply bind_ok in Hg as (token & _ & Hg). apply bind_ok in Hg as (ice & _ & [= <-]).
  destruct (requested_route_registered _ _ _ _ Hroute) as (Hn & _). done.
Qed.
(** The token of a grant is issued for the node and the service the grant names. *)
Lemma grant_token `{TokenEnv} now uuids request s g :
  issue_session_grant now uuids request s = Ok g ->
  exists sid, issue_session_token now (cs_shared_secret s) sid (sg_service_id g) (sg_node_id g)
              = Ok (sa_token (sg_authorization g)).
Proof.
  unfold issue_session_grant. destruct uuids as [[u1 u2] u3]. intros Hg.
  apply bind_ok in Hg as (route & _ & Hg). apply bind_ok in Hg as (token & Htoken & Hg).
  apply bind_ok in Hg as (ice & _ & [= <-]). eauto.
Qed.

(** ** Properties *)

(** C33. A grant names the node the registry routes the service to (the requested one, when
    the request names a node), which registered that service; its token verifies under
    the shared secret to exactly that session, service and node, for fifteen minutes;
    its first candidate is the direct one of the route, and the others are the
    configured relays. *)
Theorem grant_matches_the_registry `{TokenOk} (now : Z) (uuids : string * string * string)
    (request : session_open_request) (s : control_state) (g : session_open_grant) :
  issue_session_grant now uuids request s = Ok g ->
  exists route,
    requested_route (so_node_id request) (so_service_id request) (cs_registry s) = Ok route /\
    sg_node_id g = rt_node_id route /\ sg_service_id g = so_service_id request /\
    (forall n, so_node_id request = Some n -> sg_node_id g = n) /\
    (exists row, row ∈ db_services (cs_registry s) /\ sv_id row = so_service_id request /\
                 sv_node_id row = sg_node_id g) /\
    (forall t, t <= now + minutes 15 ->
       verify_session_token t (cs_shared_secret s) (sa_token (sg_authorization g)) =
         Ok {| tc_session_id := sg_session_id g; tc_service_id := sg_service_id g;
               tc_node_id := sg_node_id g; tc_expires_at := sa_expires_at (sg_authorization g) |}) /\
    (exists relays, sa_candidates (sg_authorization g) = PeerCandidate DirectTcp (rt_tcp_addr route) 100 :: relays /\
       forall c, c ∈ relays -> (pc_kind c = RelayTcp /\ cs_relay_addr s = Some (pc_addr c)) \/
                               (pc_kind c = WssRelay /\ cs_wss_relay_url s = Some (pc_addr c))).
Proof.
  unfold issue_session_grant. destruct uuids as [[u1 u2] u3]. intros Hg.
  apply bind_ok in Hg as (route & Hroute & Hg). fold (requested_route (so_node_id request) (so_service_id request) (cs_registry s)) in Hroute.
  apply bind_ok in Hg as (token & Htoken & Hg). apply bind_ok in Hg as (ice & Hice & [= <-]).
  destruct (requested_route_registered _ _ _ _ Hroute) as (Hn & row & Hrow & Hid & Hnode & _).
  exists route. cbn [sg_node_id sg_service_id sg_session_id sg_authorization sa_token sa_candidates sa_expires_at].
  split_and!; try done.
  - eauto.
  - intros t Ht. rewrite (verify_issued _ _ _ _ _ _ _ Htoken). by rewrite (proj2 (Z.leb_le _ _)).
  - eexists. split; [reflexivity|]. intros c. rewrite elem_of_app.
    destruct (cs_relay_addr s), (cs_wss_relay_url s); simpl; set_solver.
Qed.

Definition toy_state : control_state :=
  ControlState toy_db "s" "client" "" None None (Some "relay.example:7001") None None (Some "/ca").
Definition toy_open : session_open_request := SessionOpenRequest "svc_a" "device" (Some "node-1").
Definition toy_grant : session_open_grant :=
  match @issue_session_grant toy_token_env 100 ("1", "2", "3") toy_open toy_state with
  | Ok g => g
  | Err _ => SessionOpenGrant "" "" "" None (SessionAuthorization "" 0 [] None)
  end.
Lemma grant_matches_the_registry_witness :
  exists route,
    requested_route (Some "node-1") "svc_a" toy_db = Ok route /\
    sg_node_id toy_grant = rt_node_id route /\ sg_service_id toy_grant = "svc_a" /\
    (forall n, Some "node-1" = Some n -> sg_node_id toy_grant = n) /\
    (exists row, row ∈ db_services toy_db /\ sv_id row = "svc_a" /\ sv_node_id row = sg_node_id toy_grant) /\
    (forall t, t <= 100 + minutes 15 ->
       @verify_session_token toy_token_env t "s" (sa_token (sg_authorization toy_grant)) =
         Ok {| tc_session_id := sg_session_id toy_grant; tc_service_id := sg_service_id toy_grant;
               tc_node_id := sg_node_id toy_grant;
               tc_expires_at := sa_expires_at (sg_authorization toy_grant) |}) /\
    (exists relays, sa_candidates (sg_authorization toy_grant)
         = PeerCandidate DirectTcp (rt_tcp_addr route) 100 :: relays /\
       forall c, c ∈ relays -> (pc_kind c = RelayTcp /\ Some "relay.example:7001" = Some (pc_addr c)) \/
                               (pc_kind c = WssRelay /\ None = Some (pc_addr c))).
Proof.
  exact (@grant_matches_the_registry toy_token_env toy_token_ok 100 ("1", "2", "3") toy_open toy_state
    toy_grant ltac:(vm_compute; reflexivity)).
Defined.

(** An SSH certificate is signed only for a caller with the client secret, for the user
    registered with the service it names, and for five minutes; any other request
    leaves the files alone unless it got as far as running the signer. *)
Theorem ssh_certificates_need_the_client_secret
    (ssh_keygen : list string -> files -> result bool * files) (temp_dir file_uuid key_uuid : string)
    (request : ssh_certificate_request) (s : control_state) (fs : files) :
  let '(r, fs') := issue_ssh_certificate ssh_keygen temp_dir file_uuid key_uuid request s fs in
  (r = Status FORBIDDEN <-> sr_client_secret request <> cs_client_secret s) /\
  match r with
  | Reply c =>
      exists row ca_key_path fs1,
        row ∈ db_services (cs_registry s) /\ sv_id row = sr_service_id request /\
        (forall n, sr_node_id request = Some n -> sv_node_id row = n) /\
        sv_user_name row = Some (srr_user_name c) /\ srr_valid_seconds c = 300 /\
        cs_ssh_ca_key_path s = Some ca_key_path /\
        ssh_keygen ["-q"; "-s"; ca_key_path; "-I"; "medium-" +:+ key_uuid; "-n"; srr_user_name c; "-V";
                    "+5m"; temp_public_key_path temp_dir file_uuid]
          (<[temp_public_key_path temp_dir file_uuid := sr_public_key request]> fs) = (Ok true, fs1) /\
        fs1 !! cert_path temp_dir file_uuid = Some (srr_certificate c)
  | Status code => code <> INTERNAL_SERVER_ERROR -> fs' = fs
  end.
Proof.
  unfold issue_ssh_certificate, or_status, BAD_REQUEST, FORBIDDEN, NOT_FOUND, INTERNAL_SERVER_ERROR.
  fold (requested_route (sr_node_id request) (sr_service_id request) (cs_registry s)).
  case_bool_decide as Hsecret; cbn [negb]; [|by split].
  destruct (requested_route _ _ _) as [route|e] eqn:Hroute; [|split; [split; [discriminate|congruence]|done]].
  destruct (requested_route_registered _ _ _ _ Hroute) as (Hn & row & Hrow & Hid & Hnode & Huser).
  destruct (rt_user_name route) as [user|]; [|split; [split; [discriminate|congruence]|done]].
  destruct (cs_ssh_ca_key_path s) as [ca|]; [|split; [split; [discriminate|congruence]|done]].
  unfold sign_ssh_public_key. destruct (ssh_keygen _ _) as [[[|]|e] fs1] eqn:Ek;
    [|split; [split; [discriminate|congruence]|done]..].
  destruct (fs1 !! cert_path temp_dir file_uuid) as [cert|] eqn:Ec;
    [|split; [split; [discriminate|congruence]|done]].
  split; [split; [discriminate|congruence]|].
  exists row, ca, fs1. split_and!; try done. intros n Heq. rewrite Hnode. by apply Hn.
Qed.

(** Without a configured pin the invite carries a pin of 32 digits, which no client
    accepts: its pinned TLS configuration fails, whatever the UUID. *)
Theorem placeholder_pin_is_rejected (token_uuid pin_uuid control_url client_secret : string) :
  String.length pin_uuid = 32%nat ->
  let invite := issue_bootstrap_invite token_uuid pin_uuid control_url "" client_secret in
  bi_control_pin invite = "sha256:" +:+ pin_uuid /\
  pinned_tls_client_config (bi_control_pin invite)
    = Err (EMsg "control pin sha256 digest must be 64 hex characters").
Proof.
  intros Hlen invite.
  assert (bi_control_pin invite = "sha256:" +:+ pin_uuid) as Hpin.
  { unfold invite, issue_bootstrap_invite, issue_bootstrap_code. cbn [bi_control_pin].
    apply (first_match_head "ovr-"). }
  split; [exact Hpin|]. rewrite Hpin. unfold pinned_tls_client_config, parse_sha256_pin.
  rewrite strip_prefix_app. unfold str_len, mbind, result_bind, ok_or. rewrite Hlen. done.
Qed.

Lemma placeholder_pin_is_rejected_witness :
  let invite := issue_bootstrap_invite "t" "0123456789abcdef0123456789abcdef" "https://c" "" "x" in
  bi_control_pin invite = "sha256:0123456789abcdef0123456789abcdef" /\
  pinned_tls_client_config (bi_control_pin invite)
    = Err (EMsg "control pin sha256 digest must be 64 hex characters").
Proof. apply (placeholder_pin_is_rejected "t" "0123456789abcdef0123456789abcdef" "https://c" "x"). reflexivity. Defined.
