(* ===== verification/Queries.v ===== *)
(** * The control plane's requests beside each other

    [services/control-plane/src/registry.rs] again, query by query.  The pool has one
    connection ([max_connections(1)]): a statement, or the transaction of a registration,
    runs alone.  But a route and a listing take several queries outside a transaction,
    and between two of them the registrations of other requests commit.  [Registry.v] and
    [ControlPlane.v] have the same handlers in one step; here is when that is what they do. *)

From Stdlib Require Import Sorted.
From stdpp Require Import sorting.
From S2P Require Import Prelude RustStd Order NetAddr Protocol PinnedHttp Crypto Samples Net Registry ControlPlane.

(** ** Waiting for the connection *)

(** The database, and the registrations that get the connection before each of the next
    queries. *)
Record shared_db := SharedDb { sh_db : database; sh_turns : list (list register_node_request) }.
Definition query {A} (q : database -> A) : eff shared_db A := fun s =>
  match sh_turns s with
  | [] => (Ok (q (sh_db s)), s)
  | before :: later => let db := register_all before (sh_db s) in (Ok (q db), SharedDb db later)
  end.

(** ** Queries of [RegistryStore] *)

Definition fetch_endpoints (node_id kind : string) : eff shared_db (list service_endpoint) :=
  query (fun db => endpoints db node_id kind).
(** After the row of the route is there. *)
Definition fetch_route (row : option (service_row * endpoint_row)) : eff shared_db service_route :=
  '(s, e) ← lift (ok_or (EExt "RowNotFound") row);
  ice_udp_endpoints ← fetch_endpoints (sv_node_id s) "ice_udp";
  mret (ServiceRoute (sv_node_id s) (er_addr e) ice_udp_endpoints (sv_user_name s)).
Definition service_row_query (service_id : string) (db : database) : option (service_row * endpoint_row) :=
  sql_first route_le (filter (fun row => sv_id row.1 = service_id /\ is_tcp_proxy row.2) (joined db)).
Definition node_service_row_query (node_id service_id : string) (db : database) : option (service_row * endpoint_row) :=
  sql_first route_le
    (filter (fun row => sv_node_id row.1 = node_id /\ sv_id row.1 = service_id /\ is_tcp_proxy row.2) (joined db)).
Definition fetch_service_route (service_id : string) : eff shared_db service_route :=
  row ← query (service_row_query service_id); fetch_route row.
Definition fetch_node_service_route (node_id service_id : string) : eff shared_db service_route :=
  row ← query (node_service_row_query node_id service_id); fetch_route row.

Definition ssh_of_row (row : option (service_row * endpoint_row)) : result (option ssh_endpoint) :=
  match row with
  | Some (s, e) =>
      match sv_user_name s with
      | Some user_name => '(host, port) ← split_addr (er_addr e); Ok (Some (SshEndpoint (sv_id s) host port user_name))
      | None => Ok None
      end
  | None => Ok None
  end.
(** An iteration of the loop of [list_devices]. *)
Definition fetch_device (node : string * string) : eff shared_db device_record :=
  let '(node_id, label) := node in
  services ← query (fun db => list_node_services db node_id);
  services ← lift services;
  row ← query (fun db => ssh_row db node_id);
  ssh ← lift (ssh_of_row row);
  mret (DeviceRecord node_id label ssh services).
Fixpoint fetch_devices_of (nodes : list (string * string)) : eff shared_db (list device_record) :=
  match nodes with
  | [] => mret []
  | node :: rest => device ← fetch_device node; devices ← fetch_devices_of rest; mret (device :: devices)
  end.
Definition fetch_devices : eff shared_db (list device_record) :=
  nodes ← query (fun db => merge_sort node_le (map_to_list (db_nodes db)));
  fetch_devices_of nodes.

(** ** A session's grant *)

Section Grant.
Context `{TokenEnv}.
(** [issue_session_grant] after its route. *)
Definition grant_of_route (now : Z) (uuids : string * string * string) (request : session_open_request)
    (s : control_state) (route : service_route) : result session_open_grant :=
  let '(session_uuid, ufrag_uuid, pwd_uuid) := uuids in
  let session_id := "sess_" +:+ session_uuid in
  token ← issue_session_token now (cs_shared_secret s) session_id (so_service_id request) (rt_node_id route);
  let candidates :=
    [PeerCandidate DirectTcp (rt_tcp_addr route) 100]
    ++ match cs_relay_addr s with Some a => [PeerCandidate RelayTcp a 10] | None => [] end
    ++ match cs_wss_relay_url s with Some a => [PeerCandidate WssRelay a 10] | None => [] end in
  let ice_relay_addr := match cs_ice_relay_addr s with Some a => Some a | None => cs_relay_addr s end in
  ice ← build_ice_grant now ufrag_uuid pwd_uuid (rt_ice_udp_endpoints route) ice_relay_addr;
  Ok (SessionOpenGrant session_id (so_service_id request) (rt_node_id route) (cs_relay_addr s)
        (SessionAuthorization token (now + minutes SESSION_TOKEN_TTL_MINUTES) candidates ice)).
Definition fetch_session_grant (now : Z) (uuids : string * string * string) (request : session_open_request)
    (s : control_state) : eff shared_db session_open_grant :=
  route ← match so_node_id request with
          | Some node_id => fetch_node_service_route node_id (so_service_id request)
          | None => fetch_service_route (so_service_id request)
          end;
  lift (grant_of_route now uuids request s route).
End Grant.

(** ** Lemmas *)

(** What the registry has of a node. *)
Definition same_node (node_id : string) (db db' : database) : Prop :=
  filter (fun r => sv_node_id r = node_id) (db_services db') = filter (fun r => sv_node_id r = node_id) (db_services db) /\
  filter (fun r => er_node_id r = node_id) (db_endpoints db') = filter (fun r => er_node_id r = node_id) (db_endpoints db).
Lemma same_node_refl node_id db : same_node node_id db db.
Proof. done. Qed.
Lemma same_node_trans node_id db1 db2 db3 : same_node node_id db1 db2 -> same_node node_id db2 db3 -> same_node node_id db1 db3.
Proof. intros [H1 H2] [H3 H4]. split; congruence. Qed.
(** The registrations of others leave it. *)
Lemma register_all_others node_id requests db :
  node_id ∉ map rn_node_id requests -> same_node node_id db (register_all requests db).
Proof.
  revert db; induction requests as [|request requests IH]; intros db; [done|]. cbn [map].
  intros [Hne Hnin]%not_elem_of_cons. eapply same_node_trans; [|by apply IH].
  destruct (register_node_spec request db) as [[_ ->]|[_ [e ->]]]; [|done].
  split; [by apply registered_other_services|by apply registered_other_endpoints].
Qed.
Lemma endpoints_same node_id kind db db' : same_node node_id db db' -> endpoints db' node_id kind = endpoints db node_id kind.
Proof. intros [_ He]. by apply endpoints_ext. Qed.
Lemma services_same node_id db db' : same_node node_id db db' -> list_node_services db' node_id = list_node_services db node_id.
Proof. intros [Hs _]. unfold list_node_services. by rewrite Hs. Qed.
Lemma ssh_row_same node_id db db' : same_node node_id db db' -> ssh_row db' node_id = ssh_row db node_id.
Proof. intros [Hs He]. unfold ssh_row. rewrite !joined_node_rows. unfold node_rows. by rewrite Hs, He. Qed.

(** The next two queries, with what commits before each. *)
Definition turn (k : nat) (turns : list (list register_node_request)) : list register_node_request := default [] (turns !! k).
Lemma query_eq {A} (q : database -> A) s :
  query q s = (Ok (q (register_all (turn 0 (sh_turns s)) (sh_db s))),
               SharedDb (register_all (turn 0 (sh_turns s)) (sh_db s)) (drop 1 (sh_turns s))).
Proof. unfold query. by destruct s as [db [|before later]]. Qed.
Lemma fetch_route_eq row s :
  (fetch_route row s).1 = route_of (match row with Some _ => register_all (turn 0 (sh_turns s)) (sh_db s) | None => sh_db s end) row.
Proof.
  unfold fetch_route, route_of, mbind, eff_bind, lift, fetch_endpoints. destruct row as [[sv e]|]; [|done].
  cbn [ok_or]. by rewrite query_eq.
Qed.
Lemma route_of_same db db' row :
  (forall sv e, row = Some (sv, e) -> same_node (sv_node_id sv) db db') -> route_of db' row = route_of db row.
Proof.
  intros Hsame. unfold route_of. destruct row as [[sv e]|]; [|done]. cbn. by rewrite (endpoints_same _ _ db db') by eauto.
Qed.
Lemma issue_session_grant_route `{TokenEnv} now uuids request s :
  issue_session_grant now uuids request s
  = (route ← requested_route (so_node_id request) (so_service_id request) (cs_registry s);
     grant_of_route now uuids request s route).
Proof. unfold issue_session_grant, grant_of_route, requested_route. destruct uuids as [[u1 u2] u3]. done. Qed.

(** Nothing that still commits is of a listed node. *)
Definition undisturbed (nodes : list (string * string)) (turns : list (list register_node_request)) : Prop :=
  Forall (fun requests => Forall (fun node => node.1 ∉ map rn_node_id requests) nodes) turns.
Definition as_at (db1 : database) (nodes : list (string * string)) (s : shared_db) : Prop :=
  Forall (fun node => same_node node.1 db1 (sh_db s)) nodes /\ undisturbed nodes (sh_turns s).
Lemma query_as_at {A} (q : database -> A) db1 nodes s :
  as_at db1 nodes s ->
  exists db, query q s = (Ok (q db), SharedDb db (drop 1 (sh_turns s))) /\ as_at db1 nodes (SharedDb db (drop 1 (sh_turns s))).
Proof.
  intros [Hs Ht]. rewrite query_eq. eexists. split; [reflexivity|]. unfold as_at. cbn [sh_db sh_turns].
  destruct s as [db [|requests turns]]; [by split|]. cbn [turn lookup sh_turns drop]. apply list.Forall_cons in Ht as [Hr Ht].
  split; [|done]. eapply list.Forall_impl; [apply list.Forall_and; split; [exact Hs|exact Hr]|].
  intros node [Hn Hnot]. eapply same_node_trans; [exact Hn|]. by apply register_all_others.
Qed.
Lemma fetch_device_as_at db1 node nodes s :
  as_at db1 (node :: nodes) s ->
  exists s', fetch_device node s = (device_of_node db1 node, s') /\ as_at db1 (node :: nodes) s'.
Proof.
  intros Hs. destruct node as [node_id label]. unfold fetch_device, device_of_node.
  destruct (query_as_at (fun db => list_node_services db node_id) _ _ _ Hs) as (db2 & Hq2 & Hs2).
  pose proof (Forall_inv (proj1 Hs2)) as H2. cbn [fst sh_db] in H2. rewrite (services_same _ _ _ H2) in Hq2.
  rewrite (eff_bind_eq _ _ _ _ _ Hq2). destruct (list_node_services db1 node_id) as [services|e]; [|eauto].
  rewrite (eff_bind_eq (lift (Ok services)) _ _ services _ eq_refl), bind_Ok.
  destruct (query_as_at (fun db => ssh_row db node_id) _ _ _ Hs2) as (db3 & Hq3 & Hs3).
  pose proof (Forall_inv (proj1 Hs3)) as H3. cbn [fst sh_db] in H3. rewrite (ssh_row_same _ _ _ H3) in Hq3.
  rewrite (eff_bind_eq _ _ _ _ _ Hq3).
  change (match ssh_row db1 node_id with Some (s, e) => _ | None => _ end) with (ssh_of_row (ssh_row db1 node_id)).
  destruct (ssh_of_row (ssh_row db1 node_id)) as [ssh|e]; eexists; (split; [reflexivity|exact Hs3]).
Qed.
Lemma as_at_tail db1 node nodes s : as_at db1 (node :: nodes) s -> as_at db1 nodes s.
Proof.
  intros [Hs Ht]. split; [by apply list.Forall_cons in Hs as [_ ?]|].
  eapply list.Forall_impl; [exact Ht|]. by intros requests [_ ?]%list.Forall_cons.
Qed.
Lemma fetch_devices_of_same nodes db1 s : as_at db1 nodes s -> (fetch_devices_of nodes s).1 = result_map (device_of_node db1) nodes.
Proof.
  revert s; induction nodes as [|node nodes IH]; intros s Hs; [done|]. cbn [fetch_devices_of result_map].
  destruct (fetch_device_as_at _ _ _ _ Hs) as (s1 & Hdevice & Hnext). destruct (device_of_node db1 node) as [device|e].
  - rewrite (eff_bind_eq _ _ _ _ _ Hdevice), bind_Ok. apply as_at_tail, IH in Hnext as <-. unfold mbind, eff_bind.
    by destruct (fetch_devices_of nodes s1) as [[|] ?].
  - by rewrite (eff_bind_err _ _ _ _ _ Hdevice).
Qed.

Lemma route_endpoints node_id service_id db route :
  requested_route node_id service_id db = Ok route ->
  rt_ice_udp_endpoints route = endpoints db (rt_node_id route) "ice_udp".
Proof.
  unfold requested_route, resolve_node_service_route, resolve_service_route, route_of. intros Hroute.
  destruct node_id as [n|]; by inv_result.
Qed.
(** The grant by its two moments. *)
Lemma fetch_session_grant_eq `{TokenEnv} now uuids request s db turns :
  let db1 := register_all (turn 0 turns) db in
  let db2 := register_all (turn 1 turns) db1 in
  (fetch_session_grant now uuids request s (SharedDb db turns)).1
    = (route ← requested_route (so_node_id request) (so_service_id request) db1;
       grant_of_route now uuids request s
         (ServiceRoute (rt_node_id route) (rt_tcp_addr route) (endpoints db2 (rt_node_id route) "ice_udp") (rt_user_name route))).
Proof.
  intros db1 db2.
  assert (forall q : database -> option (service_row * endpoint_row),
    (route ← (row ← query q; fetch_route row); lift (grant_of_route now uuids request s route)) (SharedDb db turns)
    = (route ← fetch_route (q db1); lift (grant_of_route now uuids request s route)) (SharedDb db1 (drop 1 turns))) as Hq.
  { intros q. unfold mbind at 1 3. unfold eff_bind at 1 3.
    by rewrite (eff_bind_eq (query q) _ _ _ _ (query_eq q (SharedDb db turns))). }
  assert (forall row, ((route ← fetch_route row; lift (grant_of_route now uuids request s route)) (SharedDb db1 (drop 1 turns))).1
    = (route ← route_of db1 row;
       grant_of_route now uuids request s
         (ServiceRoute (rt_node_id route) (rt_tcp_addr route) (endpoints db2 (rt_node_id route) "ice_udp") (rt_user_name route)))) as Hrow.
  { intros [[sv e]|]; [|done]. unfold fetch_route, route_of. cbn [ok_or]. unfold fetch_endpoints.
    unfold mbind, eff_bind, lift. rewrite query_eq. cbn [sh_db sh_turns].
    assert (turn 0 (drop 1 turns) = turn 1 turns) as -> by (by destruct turns as [|? []]). done. }
  unfold fetch_session_grant, requested_route. destruct (so_node_id request) as [n|].
  - unfold fetch_node_service_route. rewrite Hq, Hrow. done.
  - unfold fetch_service_route. rewrite Hq, Hrow. done.
Qed.

(** ** Properties *)

(** C30. Requests beside each other.  A session's grant is made of two queries: the row of the route, from
    the registry as it is at the first, and the UDP endpoints of its node at the second.  So
    it is the grant of one moment, that of the first query, unless the granted node itself
    registers anew between the two.  And a listing of the devices, two queries for each node
    after the first, is that of its first query unless a listed node registers meanwhile. *)
Theorem requests_read_one_moment_unless_their_nodes_register `{TokenEnv}
    (now : Z) (uuids : string * string * string) (request : session_open_request) (s : control_state)
    (db : database) (turns : list (list register_node_request)) :
  let db1 := register_all (turn 0 turns) db in
  let db2 := register_all (turn 1 turns) db1 in
  let route1 := requested_route (so_node_id request) (so_service_id request) db1 in
  (fetch_session_grant now uuids request s (SharedDb db turns)).1
    = (route ← route1;
       grant_of_route now uuids request s
         (ServiceRoute (rt_node_id route) (rt_tcp_addr route) (endpoints db2 (rt_node_id route) "ice_udp") (rt_user_name route))) /\
  ((forall route, route1 = Ok route -> rt_node_id route ∉ map rn_node_id (turn 1 turns)) ->
   (fetch_session_grant now uuids request s (SharedDb db turns)).1 = issue_session_grant now uuids request (set_registry db1 s)) /\
  (undisturbed (map_to_list (db_nodes db1)) (drop 1 turns) ->
   (fetch_devices (SharedDb db turns)).1 = list_devices db1).
Proof.
  intros db1 db2 route1.
  pose proof (fetch_session_grant_eq now uuids request s db turns) as Hgrant. fold db1 db2 route1 in Hgrant.
  split; [exact Hgrant|]. split.
  - intros Hothers. rewrite Hgrant, issue_session_grant_route. cbn [cs_registry set_registry]. fold route1.
    destruct route1 as [route|e] eqn:Hroute; [|done]. rewrite !bind_Ok.
    specialize (Hothers route eq_refl). apply (register_all_others _ _ db1) in Hothers. fold db2 in Hothers.
    rewrite (endpoints_same _ _ _ _ Hothers), <- (route_endpoints _ _ _ _ Hroute). by destruct route.
  - intros Hturns. unfold fetch_devices, list_devices.
    rewrite (eff_bind_eq _ _ _ _ _ (query_eq _ _)). cbn [sh_db sh_turns]. fold db1.
    apply fetch_devices_of_same. split; cbn [sh_db sh_turns].
    + apply list.Forall_forall. intros node _. apply same_node_refl.
    + eapply list.Forall_impl; [exact Hturns|]. intros requests Hr. by rewrite merge_sort_Permutation.
Qed.

(** A node moves while a grant for it is made: the grant has the TCP address it had and the UDP
    address it has, which no registry ever held together. *)
Definition toy_moved : register_node_request :=
  RegisterNodeRequest "node-1" "Node" [NodeEndpoint TcpProxy 1 "10.7.0.1:17001" 10; NodeEndpoint IceUdp 1 "10.7.0.1:17002" 5]
    [toy_service "svc_a"].
Definition toy_other : register_node_request :=
  RegisterNodeRequest "node-2" "Other" [NodeEndpoint TcpProxy 1 "10.8.0.1:17001" 10] [toy_service "svc_a"].
Definition grant_addrs (r : result session_open_grant) : option (list string * list string) :=
  match r with
  | Ok g =>
      Some (map pc_addr (filter (fun c => pc_kind c = DirectTcp) (sa_candidates (sg_authorization g))),
            map ic_addr (filter (fun c => ic_kind c <> Relay) (default [] (ig_candidates <$> sa_ice (sg_authorization g)))))
  | Err _ => None
  end.
Lemma a_grant_can_mix_two_registrations :
  let grant turns := grant_addrs (@fetch_session_grant toy_token_env 100 ("1", "2", "3") toy_open toy_state (SharedDb toy_db turns)).1 in
  grant [] = Some (["10.0.0.9:17001"], ["10.0.0.1"]) /\
  grant [[toy_moved]] = Some (["10.7.0.1:17001"], ["10.7.0.1"]) /\
  grant [[]; [toy_moved]] = Some (["10.0.0.9:17001"], ["10.7.0.1"]).
Proof. vm_compute. done. Qed.

(** ** Witnesses *)

Lemma requests_read_one_moment_unless_their_nodes_register_witness :
  let r := (@fetch_session_grant toy_token_env 100 ("1", "2", "3") toy_open toy_state (SharedDb toy_db [[]; [toy_other]])).1 in
  r = @issue_session_grant toy_token_env 100 ("1", "2", "3") toy_open (set_registry toy_db toy_state) /\ is_ok r = true /\
  (fetch_devices (SharedDb toy_db [[]; [toy_other]; [toy_other]])).1 = list_devices toy_db.
Proof.
  destruct (@requests_read_one_moment_unless_their_nodes_register toy_token_env 100 ("1", "2", "3") toy_open toy_state
    toy_db [[]; [toy_other]]) as (_ & Hgrant & _).
  destruct (@requests_read_one_moment_unless_their_nodes_register toy_token_env 100 ("1", "2", "3") toy_open toy_state
    toy_db [[]; [toy_other]; [toy_other]]) as (_ & _ & Hdevices).
  split; [|split; [vm_compute; reflexivity|]].
  - apply Hgrant. intros route Hroute. assert (rt_node_id route = "node-1") as ->.
    { vm_compute in Hroute. by injection Hroute as <-. }
    apply (bool_decide_unpack _). vm_compute. reflexivity.
  - apply Hdevices. apply (bool_decide_unpack _). vm_compute. reflexivity.
Defined.
