(* ===== verification/Netstack.v ===== *)
(** * The virtual network and its DNS

    [crates/medium-netstack/src/lib.rs]: the addresses and host names of the published
    services ([VirtualNetwork]) and the DNS responder ([dns]).  [TcpStack.v] has the
    TCP side.

    [char::to_lowercase] is modelled as far as the code observes it: exactly on ASCII
    and on the two other characters whose lower case contains an ASCII character
    (U+0130 and U+212A); the lower case of any other character holds no ASCII one and
    is represented by the character itself. *)

From S2P Require Import Prelude RustStd NetAddr.

(** ** Host names *)

Definition char_to_lowercase (c : Z) : list Z :=
  if in_range 65 90 c then [c + 32]
  else if c =? 304 then [105; 775]
  else if c =? 8490 then [107]
  else [c].
Definition char_is_ascii_alphanumeric (c : Z) : bool :=
  in_range 48 57 c || in_range 65 90 c || in_range 97 122 c.

(** The loop of [service_hostname]: the output so far and [last_dash]. *)
Fixpoint hostname_loop (cs : list Z) (out : string) (last_dash : bool) : string :=
  match cs with
  | [] => out
  | c :: rest =>
      if char_is_ascii_alphanumeric c
      then hostname_loop rest (out +:+ String (ascii_of_Z c) EmptyString) false
      else if negb last_dash && negb (is_empty out)
           then hostname_loop rest (out +:+ "-") true
           else hostname_loop rest out last_dash
  end.

Definition hostname_label (value : string) : string :=
  let out := hostname_loop (chars value ≫= char_to_lowercase) EmptyString false in
  let out := trim_end_matches "-" out in
  if is_empty out then "service" else out.
Definition service_hostname (value : string) : string := hostname_label value +:+ ".medium".

(** ** The network *)

Record virtual_service := VirtualService {
  vs_id : string;
  vs_hostname : string;
  vs_addr : ipv4;
  vs_kind : string
}.
(** The published service as the network sees it. *)
Record network_service := NetworkService {
  ns_id : string;
  ns_label : option string;
  ns_kind : string
}.
Record virtual_network := VirtualNetwork {
  vn_client_addr : ipv4;
  vn_dns_addr : ipv4;
  vn_prefix_len : Z;
  vn_services : list virtual_service;
  vn_by_hostname : gmap string nat;
  vn_by_addr : gmap ipv4 nat
}.

Definition DEFAULT_SERVICE_BASE : ipv4 := Ipv4 10 88 0 10.
Definition DEFAULT_DNS_ADDR : ipv4 := Ipv4 10 88 0 1.
Definition DEFAULT_CLIENT_ADDR : ipv4 := Ipv4 10 88 0 2.
Definition DEFAULT_PREFIX_LEN : Z := 24.

Definition service_addr (index : nat) : result ipv4 :=
  let i := Z.of_nat index in
  _ ← bail_if (u16_max <? i) (EExt "TryFromIntError");
  let host := oct3 DEFAULT_SERVICE_BASE + i in
  _ ← bail_if (254 <? host) (EMsg "service address outside default Medium virtual subnet");
  Ok (Ipv4 (oct0 DEFAULT_SERVICE_BASE) (oct1 DEFAULT_SERVICE_BASE) (oct2 DEFAULT_SERVICE_BASE) host).

(** The loop of [VirtualNetwork::new] from [index] on. *)
Fixpoint allocate (index : nat) (services : list network_service)
    (allocated : list virtual_service) (by_hostname : gmap string nat) (by_addr : gmap ipv4 nat)
    : result (list virtual_service * gmap string nat * gmap ipv4 nat) :=
  match services with
  | [] => Ok (allocated, by_hostname, by_addr)
  | service :: rest =>
      _ ← bail_if (Nat.ltb 200 index) (EMsg "too many services for default Medium virtual subnet");
      let hostname := service_hostname (default (ns_id service) (ns_label service)) in
      addr ← service_addr index;
      allocate (S index) rest
        (allocated ++ [VirtualService (ns_id service) hostname addr (ns_kind service)])
        (<[hostname := length allocated]> by_hostname)
        (<[addr := length allocated]> by_addr)
  end.

Definition network_new (services : list network_service) : result virtual_network :=
  '(allocated, by_hostname, by_addr) ← allocate 0 services [] ∅ ∅;
  Ok (VirtualNetwork DEFAULT_CLIENT_ADDR DEFAULT_DNS_ADDR DEFAULT_PREFIX_LEN allocated by_hostname by_addr).

Definition resolve_hostname (hostname : string) (n : virtual_network) : option virtual_service :=
  let hostname := to_ascii_lowercase (trim_end_matches "." hostname) in
  index ← vn_by_hostname n !! hostname; vn_services n !! index.
Definition service_for_addr (addr : ipv4) (n : virtual_network) : option virtual_service :=
  index ← vn_by_addr n !! addr; vn_services n !! index.

(** ** DNS *)

Definition TYPE_A : Z := 1.
Definition CLASS_IN : Z := 1.
Definition FLAG_RESPONSE_NO_ERROR : Z := 33152.   (* 0x8180 *)
Definition FLAG_RESPONSE_NAME_ERROR : Z := 33155. (* 0x8183 *)
Definition TTL_SECONDS : Z := 30.

Record dns_query := DnsQuery {
  dq_name : string;
  dq_qtype : Z;
  dq_qclass : Z;
  dq_question_end : nat
}.

(** [packet[from..from + len]]. *)
Definition sub_bytes (from len : nat) (packet : list byte) : list byte := take len (drop from packet).

(** The loop over the labels: the labels and the offset after the final zero. *)
Fixpoint parse_labels (fuel offset : nat) (packet : list byte) : option (list string * nat) :=
  match fuel with
  | O => None
  | S f =>
      b ← packet !! offset;
      let len := Z.to_nat (u8 b) in
      let offset := S offset in
      if Nat.eqb len 0 then Some ([], offset)
      else if Nat.ltb 63 len || Nat.ltb (length packet) (offset + len) then None
      else
        label ← from_utf8 (sub_bytes offset len packet);
        '(labels, fin) ← parse_labels f (offset + len) packet;
        Some (label :: labels, fin)
  end.

Definition parse_query (packet : list byte) : option dns_query :=
  if Nat.ltb (length packet) 12 || negb (from_be (sub_bytes 4 2 packet) =? 1) then None
  else
    '(labels, offset) ← parse_labels (length packet) 12 packet;
    if Nat.ltb (length packet) (offset + 4) then None
    else Some {| dq_name := to_ascii_lowercase (join "." labels);
                 dq_qtype := from_be (sub_bytes offset 2 packet);
                 dq_qclass := from_be (sub_bytes (offset + 2) 2 packet);
                 dq_question_end := offset + 4 |}.

(** [response[at..at + len].copy_from_slice(bytes)]. *)
Definition patch (at_ : nat) (bytes packet : list byte) : list byte :=
  take at_ packet ++ bytes ++ drop (at_ + length bytes) packet.

Definition octets (a : ipv4) : list byte := map byte_of_Z [oct0 a; oct1 a; oct2 a; oct3 a].

Definition emit_response (request : list byte) (query : dns_query) (addr : option ipv4) : list byte :=
  let found := match addr with Some _ => true | None => false end in
  let response := take (dq_question_end query) request in
  let response := patch 2 (to_be 2 (if found then FLAG_RESPONSE_NO_ERROR else FLAG_RESPONSE_NAME_ERROR)) response in
  let response := patch 6 (to_be 2 (if found then 1 else 0)) response in
  let response := patch 8 (to_be 2 0) response in
  let response := patch 10 (to_be 2 0) response in
  match addr with
  | Some a => response ++ [xc0; x0c] ++ to_be 2 TYPE_A ++ to_be 2 CLASS_IN ++ to_be 4 TTL_SECONDS
                       ++ to_be 2 4 ++ octets a
  | None => response
  end.

Definition answer_query (packet : list byte) (n : virtual_network) : option (list byte) :=
  query ← parse_query packet;
  let addr := match resolve_hostname (dq_name query) n with
              | Some service =>
                  if (dq_qtype query =? TYPE_A) && (dq_qclass query =? CLASS_IN)
                  then Some (vs_addr service) else None
              | None => None
              end in
  Some (emit_response packet query addr).

(** [query_a], of the tests. *)
Definition encode_label (label : string) : list byte :=
  byte_of_Z (str_len label) :: bytes_of label.
Definition query_a (transaction_id : Z) (name : string) : list byte :=
  to_be 2 transaction_id ++ to_be 2 256 ++ to_be 2 1 ++ to_be 2 0 ++ to_be 2 0 ++ to_be 2 0
  ++ (split_on "." (trim_end_matches "." name) ≫= encode_label)
  ++ [x00] ++ to_be 2 TYPE_A ++ to_be 2 CLASS_IN.

(** ** Lemmas: host names *)

Definition label_char (c : ascii) : bool := is_ascii_lower c || is_ascii_digit c.
(** A word of a label: lower-case letters and digits, not empty. *)
Definition word (w : string) : Prop := w <> EmptyString /\ string_all label_char w = true.
Definition words (l : list string) : Prop := l <> [] /\ Forall word l.

(** What the loop has written: nothing, words, or words and a dash. *)
Definition loop_ok (out : string) (last_dash : bool) : Prop :=
  if last_dash then exists l, words l /\ out = join "-" l +:+ "-"
  else out = EmptyString \/ exists l, words l /\ out = join "-" l.

(** After lower-casing, an ASCII alphanumeric character is a lower-case letter or a
    digit. *)
Definition lowered (c : Z) : Prop :=
  char_is_ascii_alphanumeric c = true -> label_char (ascii_of_Z c) = true.
Lemma char_to_lowercase_lowered c d : d ∈ char_to_lowercase c -> lowered d.
Proof.
  unfold char_to_lowercase, lowered, char_is_ascii_alphanumeric, label_char, is_ascii_lower, is_ascii_digit, in_range.
  intros Hd Halnum. rewrite code_ascii_of_Z.
  destruct ((65 <=? c) && (c <=? 90)) eqn:E1;
    [|destruct (c =? 304) eqn:E2; [|destruct (c =? 8490) eqn:E3]];
    set_unfold; destruct_or?; subst; try done; rewrite ?Z.mod_small by lia; lia.
Qed.

Lemma word_join_ne l : words l -> is_empty (join "-" l) = false.
Proof.
  intros [Hne Hl]. destruct l as [|w l]; [done|]. apply Forall_cons_1 in Hl as [[Hw _] _].
  destruct w; [done|]. by destruct l.
Qed.
Lemma words_snoc l w : Forall word l -> word w -> words (l ++ [w]).
Proof. intros Hl Hw. split; [by destruct l|]. apply Forall_app. split; [done|by constructor]. Qed.
Lemma word_extend w c : string_all label_char w = true -> label_char c = true -> word (w +:+ String c EmptyString).
Proof. intros Hw Hc. split; [by destruct w|]. rewrite string_all_app, Hw. simpl. by rewrite Hc. Qed.

Lemma loop_ok_char out ld c :
  label_char c = true -> loop_ok out ld -> loop_ok (out +:+ String c EmptyString) false.
Proof.
  intros Hc. unfold loop_ok. destruct ld.
  - intros (l & [Hne Hl] & ->). right. exists (l ++ [String c EmptyString]). split.
    + apply words_snoc; [done|]. by apply (word_extend EmptyString).
    + rewrite join_snoc by done. by rewrite <- string_app_assoc.
  - intros [->|(l & [Hne Hl] & ->)]; right.
    + exists [String c EmptyString]. split; [|done]. split; [done|]. constructor; [|done].
      by apply (word_extend EmptyString).
    + destruct (exists_last Hne) as (l' & w & ->). apply Forall_app in Hl as [Hl' Hw].
      apply Forall_cons_1 in Hw as [[_ Hw] _]. exists (l' ++ [w +:+ String c EmptyString]). split.
      * apply words_snoc; [done|]. by apply word_extend.
      * destruct l' as [|x l']; [done|]. rewrite !join_snoc by done. by rewrite !string_app_assoc.
Qed.

Lemma hostname_loop_ok cs out ld :
  Forall lowered cs -> loop_ok out ld -> exists ld', loop_ok (hostname_loop cs out ld) ld'.
Proof.
  revert out ld; induction cs as [|c cs IH]; intros out ld Hcs Hok; simpl; [eauto|].
  apply Forall_cons_1 in Hcs as [Hc Hcs].
  destruct (char_is_ascii_alphanumeric c) eqn:E.
  - apply IH; [done|]. eapply loop_ok_char; [by apply Hc|done].
  - destruct (negb ld && negb (is_empty out)) eqn:E2; [|by apply IH].
    apply IH; [done|]. apply andb_true_iff in E2 as [Hld Hne]. destruct ld; [done|].
    destruct Hok as [->|(l & Hl & ->)]; [done|]. exists l. done.
Qed.

Lemma trim_words l : words l -> trim_end_matches "-" (join "-" l) = join "-" l.
Proof.
  intros [Hne Hl]. destruct (exists_last Hne) as (l' & w & ->).
  apply Forall_app in Hl as [_ Hw]. apply Forall_cons_1 in Hw as [[Hwne Hw] _].
  assert (exists s c, w = s +:+ String c EmptyString /\ label_char c = true) as (s & c & -> & Hc).
  { clear -Hwne Hw. induction w as [|c w IH]; [done|]. simpl in Hw. apply andb_true_iff in Hw as [Hc Hw].
    destruct w as [|d w]; [by exists EmptyString, c|].
    destruct IH as (s & e & -> & He); [done|done|]. by exists (String c s), e. }
  assert (bool_decide (c = "-"%char) = false) as Hnd by (apply bool_decide_eq_false; by intros ->).
  unfold trim_end_matches. destruct l' as [|x l']; [by apply trim_end_by_last|].
  rewrite join_snoc by done. rewrite !string_app_assoc. by apply trim_end_by_last.
Qed.

(** A label: words joined by single dashes. *)
Lemma hostname_label_words value : exists l, words l /\ hostname_label value = join "-" l.
Proof.
  assert (Forall lowered (chars value ≫= char_to_lowercase)) as Hlow.
  { apply list.Forall_forall. intros d (c & Hd & _)%list_elem_of_bind. by eapply char_to_lowercase_lowered. }
  destruct (hostname_loop_ok _ EmptyString false Hlow (or_introl eq_refl)) as [ld Hok].
  unfold hostname_label. set (out := hostname_loop _ _ _) in *. clearbody out. clear Hlow.
  assert (words ["service"]) as Hservice.
  { split; [done|]. constructor; [by split|done]. }
  destruct ld; simpl in Hok.
  - destruct Hok as (l & Hl & ->).
    assert (trim_end_matches "-" (join "-" l +:+ "-") = join "-" l) as ->.
    { unfold trim_end_matches. rewrite trim_end_by_drop by done. by apply trim_words. }
    rewrite word_join_ne by done. eauto.
  - destruct Hok as [->|(l & Hl & ->)]; [by exists ["service"]|].
    rewrite trim_words, word_join_ne by done. eauto.
Qed.

Definition host_char (c : ascii) : bool := label_char c || bool_decide (c = "-"%char).
Lemma host_char_lower c : host_char c = true -> ascii_lower c = c.
Proof.
  assert (implb (host_char c) (bool_decide (ascii_lower c = c)) = true) as H
    by (revert c; apply ascii_forallb; vm_compute; done).
  intros Hc. rewrite Hc in H. by apply bool_decide_eq_true in H.
Qed.
Lemma words_host_chars l : words l -> string_all host_char (join "-" l) = true.
Proof.
  intros [_ Hl]. induction Hl as [|w l [_ Hw] Hl IH]; [done|].
  assert (string_all host_char w = true) as Hw'.
  { clear -Hw. induction w as [|c w IH]; [done|]. simpl in *. apply andb_true_iff in Hw as [Hc Hw].
    unfold host_char at 1. rewrite Hc. simpl. by apply IH. }
  destruct l; [done|]. rewrite join_cons by done. rewrite !string_all_app, Hw', IH. done.
Qed.
Lemma hostname_label_chars value : string_all host_char (hostname_label value) = true.
Proof. destruct (hostname_label_words value) as (l & Hl & ->). by apply words_host_chars. Qed.
Lemma string_all_lower s : string_all host_char s = true -> to_ascii_lowercase s = s.
Proof.
  unfold to_ascii_lowercase. induction s as [|c s IH]; [done|]. simpl.
  intros [Hc Hs]%andb_true_iff. by rewrite host_char_lower, IH.
Qed.
Lemma service_hostname_lower value : to_ascii_lowercase (service_hostname value) = service_hostname value.
Proof.
  unfold service_hostname, to_ascii_lowercase. rewrite string_map_app.
  pose proof (string_all_lower _ (hostname_label_chars value)) as H. unfold to_ascii_lowercase in H.
  by rewrite H.
Qed.
Lemma service_hostname_trim value : trim_end_matches "." (service_hostname value) = service_hostname value.
Proof.
  unfold service_hostname, trim_end_matches.
  change ".medium" with (".mediu" +:+ String "m" EmptyString). rewrite string_app_assoc.
  by apply trim_end_by_last.
Qed.

(** ** Lemmas: the network *)

Definition nth_addr (i : nat) : ipv4 := Ipv4 10 88 0 (10 + Z.of_nat i).
Definition virtual_of (i : nat) (s : network_service) : virtual_service :=
  VirtualService (ns_id s) (service_hostname (default (ns_id s) (ns_label s))) (nth_addr i) (ns_kind s).

Lemma service_addr_ok i : (i <= 200)%nat -> service_addr i = Ok (nth_addr i).
Proof.
  intros Hi. unfold service_addr. cbv zeta. change (oct3 DEFAULT_SERVICE_BASE) with 10.
  assert ((u16_max <? Z.of_nat i) = false) as -> by (apply Z.ltb_ge; unfold u16_max; lia).
  assert ((254 <? 10 + Z.of_nat i) = false) as -> by (apply Z.ltb_ge; lia). done.
Qed.
Lemma nth_addr_inj i j : nth_addr i = nth_addr j -> i = j.
Proof. intros [= H]. lia. Qed.

(** The two maps: the address of each service, and the last service of each name. *)
Record maps_ok (services : list virtual_service) (by_hostname : gmap string nat)
    (by_addr : gmap ipv4 nat) : Prop := {
  mo_addr a i : by_addr !! a = Some i <-> (i < length services)%nat /\ a = nth_addr i;
  mo_host h i : by_hostname !! h = Some i <->
    (exists s, services !! i = Some s /\ vs_hostname s = h) /\
    forall j s, services !! j = Some s -> vs_hostname s = h -> (j <= i)%nat
}.

Lemma maps_ok_snoc services bh ba s :
  maps_ok services bh ba -> vs_addr s = nth_addr (length services) ->
  maps_ok (services ++ [s]) (<[vs_hostname s := length services]> bh) (<[vs_addr s := length services]> ba).
Proof.
  intros [Ha Hh] Hs. constructor.
  - intros a i. rewrite lookup_insert_Some, length_app, Ha, Hs. simpl. split.
    + intros [[<- <-]|[Hne [Hi ->]]]; split; (lia || done).
    + intros [Hi ->]. destruct (decide (i = length services)) as [->|]; [by left|right].
      split; [|split; [lia|done]]. intros Heq. by apply nth_addr_inj in Heq.
  - intros h i. rewrite lookup_insert_Some, Hh. split.
    + intros [[<- <-]|[Hne [(s' & Hs' & Hh') Hmax]]].
      * split; [exists s; by rewrite list_lookup_middle|]. intros j s' Hj _.
        apply lookup_lt_Some in Hj. rewrite length_app in Hj. simpl in Hj. lia.
      * split; [exists s'; split; [by apply lookup_app_l_Some|done]|]. intros j s2 Hj Hj2.
        apply lookup_app_Some in Hj as [Hj|[Hlen Hj]]; [by eapply Hmax|].
        destruct (j - length services)%nat; [|done]. injection Hj as <-. done.
    + intros [(s' & Hs' & Hh') Hmax].
      destruct (decide (vs_hostname s = h)) as [Heq|Hne].
      * left. split; [done|]. assert (length services <= i)%nat by (eapply Hmax; [by apply list_lookup_middle|done]).
        apply lookup_lt_Some in Hs'. rewrite length_app in Hs'. simpl in Hs'. lia.
      * right. split; [done|]. apply lookup_app_Some in Hs' as [Hs'|[Hlen Hj]].
        -- split; [eauto|]. intros j s2 Hj Hj2. eapply Hmax; [by apply lookup_app_l_Some|done].
        -- destruct (i - length services)%nat; [|done]. injection Hj as <-. done.
Qed.

(** The loop succeeds as long as no index passes 200. *)
Lemma allocate_ok services alloc bh ba :
  maps_ok alloc bh ba -> (length alloc + length services <= 201)%nat ->
  exists bh' ba', allocate (length alloc) services alloc bh ba
    = Ok (alloc ++ imap (fun i s => virtual_of (length alloc + i) s) services, bh', ba') /\
    maps_ok (alloc ++ imap (fun i s => virtual_of (length alloc + i) s) services) bh' ba'.
Proof.
  revert alloc bh ba; induction services as [|s services IH]; intros alloc bh ba Hok Hlen.
  { simpl. rewrite app_nil_r. eauto. }
  simpl length in Hlen. cbn [allocate]. rewrite (proj2 (Nat.ltb_ge _ _)) by lia.
  cbn [bail_if]. unfold mbind, result_bind. rewrite service_addr_ok by lia.
  set (v := virtual_of (length alloc) s).
  assert (maps_ok (alloc ++ [v]) (<[vs_hostname v := length alloc]> bh) (<[vs_addr v := length alloc]> ba)) as Hok'
    by (by apply maps_ok_snoc).
  destruct (IH _ _ _ Hok') as (bh' & ba' & Heq & Hm); [rewrite length_app; simpl; lia|].
  assert ((alloc ++ [v]) ++ imap (fun i s0 => virtual_of (length (alloc ++ [v]) + i) s0) services
    = alloc ++ imap (fun i s0 => virtual_of (length alloc + i) s0) (s :: services)) as Hlist.
  { rewrite <- app_assoc, imap_cons. simpl. unfold v. rewrite Nat.add_0_r. do 2 f_equal.
    apply imap_ext. intros i x _. rewrite length_app. simpl. f_equal. lia. }
  rewrite Hlist in Heq, Hm. exists bh', ba'. split; [|done]. rewrite <- Heq.
  by rewrite length_app, Nat.add_1_r.
Qed.

(** It fails when one does. *)
Lemma allocate_err services index alloc bh ba :
  services <> [] -> (201 < index + length services)%nat -> is_ok (allocate index services alloc bh ba) = false.
Proof.
  revert index alloc bh ba; induction services as [|s services IH]; intros index alloc bh ba Hne Hlen; [done|].
  cbn [allocate]. destruct (Nat.ltb_spec 200 index) as [Hbig|Hsmall]; [done|].
  cbn [bail_if]. unfold mbind, result_bind. rewrite service_addr_ok by lia. simpl length in Hlen.
  apply IH; [|lia]. intros ->. simpl in *. lia.
Qed.

(** The network of a list of services. *)
Lemma network_new_ok services n : network_new services = Ok n ->
  (length services <= 201)%nat /\ vn_services n = imap virtual_of services /\
  maps_ok (vn_services n) (vn_by_hostname n) (vn_by_addr n) /\
  vn_dns_addr n = DEFAULT_DNS_ADDR /\ vn_client_addr n = DEFAULT_CLIENT_ADDR.
Proof.
  unfold network_new. intros H.
  destruct (Nat.le_gt_cases (length services) 201) as [Hle|Hgt].
  - destruct (allocate_ok services [] ∅ ∅) as (bh & ba & Heq & Hm); [|done|].
    { constructor; intros; rewrite lookup_empty; simpl; split; try done; [lia|]. by intros [(s & Hs & _) _]. }
    simpl length in Heq. rewrite Heq in H. injection H as <-. split_and!; done.
  - assert (is_ok (allocate 0 services [] ∅ ∅) = false) as He by (apply allocate_err; [intros ->; simpl in *; lia|simpl; lia]).
    by destruct (allocate 0 services [] ∅ ∅).
Qed.
Lemma network_addrs services n : network_new services = Ok n -> NoDup (map vs_addr (vn_services n)).
Proof.
  intros (_ & Hs & _)%network_new_ok. rewrite Hs. apply NoDup_alt. intros i j a Hi Hj.
  rewrite list_lookup_fmap, list_lookup_imap in Hi, Hj.
  destruct (services !! i); [|done]. destruct (services !! j); [|done]. simpl in *.
  apply nth_addr_inj. congruence.
Qed.
Lemma network_new_is_ok services : is_ok (network_new services) = bool_decide (length services <= 201)%nat.
Proof.
  case_bool_decide as Hle.
  - destruct (allocate_ok services [] ∅ ∅) as (bh & ba & Heq & Hm); [|done|].
    { constructor; intros; rewrite lookup_empty; simpl; split; try done; [lia|]. by intros [(s & Hs & _) _]. }
    unfold network_new. simpl length in Heq. by rewrite Heq.
  - destruct (network_new services) as [n|e] eqn:E; [|done]. by apply network_new_ok in E as [? _].
Qed.

(** The host name of a published service. *)
Definition host_of (s : network_service) : string := service_hostname (default (ns_id s) (ns_label s)).
(** The index of the last service, from [i] on, whose host name is [h]. *)
Fixpoint last_named (h : string) (i : nat) (services : list network_service) : option nat :=
  match services with
  | [] => None
  | s :: rest =>
      match last_named h (S i) rest with
      | Some j => Some j
      | None => if host_of s =?s h then Some i else None
      end
  end.

Lemma last_named_none h i services :
  last_named h i services = None <-> forall s, s ∈ services -> host_of s <> h.
Proof.
  revert i; induction services as [|s services IH]; intros i; simpl.
  { split; [|done]. intros _ s Hs. by apply not_elem_of_nil in Hs. }
  destruct (last_named h (S i) services) as [j|] eqn:E.
  - split; [done|]. intros Hall. assert (last_named h (S i) services = None) as E2.
    { apply IH. intros s' Hs'. apply Hall. by apply list_elem_of_further. }
    congruence.
  - case_bool_decide as Heq.
    + split; [done|]. intros Hall. exfalso. by apply (Hall s); [apply list_elem_of_here|].
    + split; [|done]. intros _ s' [->|Hs']%elem_of_cons; [done|]. by eapply IH.
Qed.
Lemma last_named_some h i services j :
  last_named h i services = Some j <->
  (i <= j)%nat /\ (exists s, services !! (j - i)%nat = Some s /\ host_of s = h) /\
  forall k s, services !! k = Some s -> host_of s = h -> (k + i <= j)%nat.
Proof.
  revert i j; induction services as [|s services IH]; intros i j; simpl.
  { split; [done|]. intros (_ & (s & Hs & _) & _). by rewrite lookup_nil in Hs. }
  destruct (last_named h (S i) services) as [j'|] eqn:E.
  - pose proof (proj1 (IH (S i) j') E) as (Hle & (t & Ht & Hth) & Hmax). split.
    + intros [= ->]. split; [lia|]. split.
      * exists t. replace (j - i)%nat with (S (j - S i)) by lia. done.
      * intros [|k] u Hu Huh; [lia|]. simpl in Hu. specialize (Hmax k u Hu Huh). lia.
    + intros (Hij & (u & Hu & Huh) & Hmax'). f_equal.
      assert (S (j' - S i) + i <= j)%nat by (exact (Hmax' (S (j' - S i)) t Ht Hth)).
      destruct (j - i)%nat as [|k] eqn:Ek; [lia|]. simpl in Hu. specialize (Hmax k u Hu Huh). lia.
  - pose proof (proj1 (last_named_none _ _ _) E) as Hnone. split.
    + case_bool_decide as Heq; [|done]. intros [= ->].
      split; [done|]. split; [exists s; by rewrite Nat.sub_diag|].
      intros [|k] u Hu Huh; [lia|]. simpl in Hu. apply list_elem_of_lookup_2 in Hu. by destruct (Hnone u Hu).
    + intros (Hij & (u & Hu & Huh) & Hmax). destruct (j - i)%nat as [|k] eqn:Ek; simpl in Hu.
      * injection Hu as ->. rewrite bool_decide_eq_true_2 by done. f_equal. lia.
      * apply list_elem_of_lookup_2 in Hu. by destruct (Hnone u Hu).
Qed.

(** The name map of a new network is [last_named]. *)
Lemma by_hostname_last services n h : network_new services = Ok n ->
  vn_by_hostname n !! h = last_named h 0 services.
Proof.
  intros (_ & Hs & Hm & _)%network_new_ok. apply option_eq. intros i.
  rewrite (mo_host _ _ _ Hm), last_named_some, Nat.sub_0_r, Hs. split.
  - intros ((v & Hv & Hvh) & Hmax). rewrite list_lookup_imap in Hv.
    apply fmap_Some in Hv as (s & Hsi & ->). split; [lia|]. split; [by exists s|].
    intros k t Ht Hth. rewrite Nat.add_0_r. eapply (Hmax k (virtual_of k t)); [|done].
    by rewrite list_lookup_imap, Ht.
  - intros (_ & (s & Hsi & Hsh) & Hmax). split.
    + exists (virtual_of i s). by rewrite list_lookup_imap, Hsi.
    + intros j v Hv Hvh. rewrite list_lookup_imap in Hv. apply fmap_Some in Hv as (t & Ht & ->).
      rewrite <- (Nat.add_0_r j). by eapply Hmax.
Qed.

(** Trailing dots and case do not matter to a lookup. *)
Definition canonical_name (name : string) : string := to_ascii_lowercase (trim_end_matches "." name).
Lemma canonical_name_idemp name : canonical_name (canonical_name name) = canonical_name name.
Proof.
  unfold canonical_name, trim_end_matches, to_ascii_lowercase at 2.
  rewrite trim_end_by_map by (intros c; apply ascii_lower_dot).
  rewrite trim_end_by_idemp. apply to_ascii_lowercase_idemp.
Qed.
Lemma canonical_hostname value : canonical_name (service_hostname value) = service_hostname value.
Proof. unfold canonical_name. by rewrite service_hostname_trim, service_hostname_lower. Qed.

Lemma resolve_last services n name : network_new services = Ok n ->
  resolve_hostname name n =
    (i ← last_named (canonical_name name) 0 services; s ← services !! i; Some (virtual_of i s)).
Proof.
  intros Hn. unfold resolve_hostname. fold (canonical_name name). rewrite (by_hostname_last _ _ _ Hn).
  apply network_new_ok in Hn as (_ & -> & _). destruct (last_named _ _ _) as [i|]; [|done]. simpl.
  rewrite list_lookup_imap. by destruct (services !! i).
Qed.

(** ** Lemmas: DNS *)

Definition good_label (l : string) : Prop :=
  (1 <= String.length l <= 63)%nat /\ is_Some (utf8_chars l).
#[export] Instance good_label_dec l : Decision (good_label l).
Proof. unfold good_label. apply _. Defined.

Lemma from_utf8_bytes_of s : is_Some (utf8_chars s) -> from_utf8 (bytes_of s) = Some s.
Proof. intros [cs H]. unfold from_utf8. by rewrite string_of_bytes_of, H. Qed.
Lemma sub_bytes_app pre mid post n :
  n = length mid -> sub_bytes (length pre) n (pre ++ mid ++ post) = mid.
Proof. intros ->. unfold sub_bytes. by rewrite drop_app_length, take_app_length. Qed.
Lemma sub_bytes_mid pre mid post packet off n :
  packet = pre ++ mid ++ post -> off = length pre -> n = length mid -> sub_bytes off n packet = mid.
Proof. intros -> -> ->. by apply sub_bytes_app. Qed.
Lemma length_encode_label l : length (encode_label l) = S (String.length l).
Proof. unfold encode_label. simpl. by rewrite length_bytes_of. Qed.

Lemma sub_encoded_label pre l post :
  sub_bytes (S (length pre)) (String.length l) ((pre ++ encode_label l) ++ post) = bytes_of l.
Proof.
  replace ((pre ++ encode_label l) ++ post) with ((pre ++ [byte_of_Z (str_len l)]) ++ bytes_of l ++ post)
    by (unfold encode_label; rewrite <- !app_assoc; done).
  replace (S (length pre)) with (length (pre ++ [byte_of_Z (str_len l)])) by (rewrite length_app; simpl; lia).
  apply sub_bytes_app. by rewrite length_bytes_of.
Qed.

(** The label parser reads back encoded labels. *)
Lemma parse_labels_encoded labels fuel pre post packet :
  Forall good_label labels -> (length labels < fuel)%nat ->
  packet = pre ++ (labels ≫= encode_label) ++ [x00] ++ post ->
  parse_labels fuel (length pre) packet
  = Some (labels, (length pre + length (labels ≫= encode_label) + 1)%nat).
Proof.
  revert fuel pre packet; induction labels as [|l labels IH]; intros fuel pre packet Hgood Hfuel ->;
    (destruct fuel as [|fuel]; [simpl in Hfuel; lia|]); cbn [parse_labels].
  { cbn [mbind list_bind app]. rewrite list_lookup_middle by done. simpl. do 2 f_equal. lia. }
  apply Forall_cons_1 in Hgood as [[Hlen Hutf] Hgood]. cbn [mbind list_bind].
  set (rest := labels ≫= encode_label). change (list_bind _ _ encode_label labels) with rest.
  replace (pre ++ (encode_label l ++ rest) ++ [x00] ++ post)
    with ((pre ++ encode_label l) ++ rest ++ [x00] ++ post) by by rewrite <- !app_assoc.
  assert (((pre ++ encode_label l) ++ rest ++ [x00] ++ post) !! length pre = Some (byte_of_Z (str_len l))) as ->.
  { rewrite <- app_assoc. unfold encode_label. simpl. by rewrite list_lookup_middle. }
  simpl mbind. rewrite u8_byte_of_Z. unfold str_len. rewrite Z.mod_small, Nat2Z.id by lia.
  rewrite (proj2 (Nat.eqb_neq _ _)) by lia. rewrite (proj2 (Nat.ltb_ge _ _)) by lia.
  rewrite (proj2 (Nat.ltb_ge _ _))
    by (rewrite !length_app, length_encode_label; simpl; lia).
  cbn [orb].
  rewrite sub_encoded_label.
  rewrite from_utf8_bytes_of by done. cbn [mbind option_bind].
  simpl in Hfuel. specialize (IH fuel (pre ++ encode_label l) _ Hgood ltac:(lia) eq_refl).
  fold rest in IH. rewrite !length_app, length_encode_label in *.
  replace (length pre + S (String.length l))%nat with (S (length pre + String.length l)) in IH by lia.
  simpl in IH |- *. rewrite IH. simpl. do 2 f_equal. lia.
Qed.

(** A packet with one question, whatever its other fields hold and whatever follows the
    question, and the answer to it. *)
Definition question_bytes (labels : list string) (qtype qclass : Z) : list byte :=
  (labels ≫= encode_label) ++ [x00] ++ to_be 2 qtype ++ to_be 2 qclass.
Definition query_packet (transaction_id flags counts : list byte) (labels : list string) (qtype qclass : Z)
    (rest : list byte) : list byte :=
  transaction_id ++ flags ++ [x00; x01] ++ counts ++ question_bytes labels qtype qclass ++ rest.
Definition good_query (transaction_id flags counts : list byte) (labels : list string) (qtype qclass : Z) : Prop :=
  length transaction_id = 2%nat /\ length flags = 2%nat /\ length counts = 6%nat /\ Forall good_label labels /\
  0 <= qtype <= u16_max /\ 0 <= qclass <= u16_max.
Definition address_record (a : ipv4) : list byte :=
  [xc0; x0c; x00; x01; x00; x01; x00; x00; x00; x1e; x00; x04] ++ octets a.
Definition dns_response (transaction_id : list byte) (labels : list string) (qtype qclass : Z) (addr : option ipv4) : list byte :=
  transaction_id
  ++ (if addr is Some _ then [x81; x80] else [x81; x83]) ++ [x00; x01]
  ++ (if addr is Some _ then [x00; x01] else [x00; x00]) ++ [x00; x00; x00; x00]
  ++ question_bytes labels qtype qclass
  ++ (if addr is Some a then address_record a else []).

Lemma length_labels_le labels : (length labels <= length (labels ≫= encode_label))%nat.
Proof.
  induction labels as [|l labels IH]; [done|].
  rewrite bind_cons, length_app, length_encode_label. simpl length. lia.
Qed.

Lemma parse_query_packet id flags counts labels qtype qclass rest :
  good_query id flags counts labels qtype qclass ->
  parse_query (query_packet id flags counts labels qtype qclass rest)
  = Some (DnsQuery (to_ascii_lowercase (join "." labels)) qtype qclass (12 + length (question_bytes labels qtype qclass))).
Proof.
  intros (Hid & Hfl & Hco & Hgood & Hq & Hc). unfold parse_query, u16_max in *.
  set (pre := id ++ flags ++ [x00; x01] ++ counts). set (post := to_be 2 qtype ++ to_be 2 qclass ++ rest).
  set (packet := query_packet id flags counts labels qtype qclass rest).
  assert (length pre = 12%nat) as Hpre by (unfold pre; rewrite !length_app; simpl; lia).
  assert (packet = pre ++ (labels ≫= encode_label) ++ [x00] ++ post) as Hp
    by (unfold packet, query_packet, question_bytes, pre, post; by rewrite <- !app_assoc).
  assert (length (question_bytes labels qtype qclass) = (length (labels ≫= encode_label) + 5)%nat) as Hqb
    by (unfold question_bytes; rewrite !length_app, !length_to_be; simpl; lia).
  assert (length packet = (12 + length (labels ≫= encode_label) + 5 + length rest)%nat) as Hlen.
  { rewrite Hp, !length_app, Hpre. unfold post. rewrite !length_app, !length_to_be. simpl. lia. }
  pose proof (length_labels_le labels) as Hll.
  rewrite (proj2 (Nat.ltb_ge (length packet) _)) by lia.
  rewrite (sub_bytes_mid (id ++ flags) [x00; x01] (counts ++ (labels ≫= encode_label) ++ [x00] ++ post));
    [|by rewrite Hp; unfold pre; rewrite <- !app_assoc|by rewrite length_app, Hid, Hfl|done].
  change (negb (from_be [x00; x01] =? 1)) with false. cbn [orb].
  pose proof (parse_labels_encoded labels (length packet) pre post _ Hgood ltac:(lia) Hp) as Hparse.
  rewrite Hpre in Hparse. rewrite Hparse. cbn [mbind option_bind].
  set (off := (12 + length (labels ≫= encode_label) + 1)%nat) in *.
  assert (off = length (pre ++ (labels ≫= encode_label) ++ [x00])) as Hoff by (rewrite !length_app, Hpre; simpl; lia).
  rewrite (proj2 (Nat.ltb_ge _ _)) by lia. rewrite Hqb.
  rewrite (sub_bytes_mid (pre ++ (labels ≫= encode_label) ++ [x00]) (to_be 2 qtype) (to_be 2 qclass ++ rest)) by
    (rewrite ?Hp; unfold post; rewrite <- ?app_assoc; done).
  rewrite (sub_bytes_mid (pre ++ (labels ≫= encode_label) ++ [x00] ++ to_be 2 qtype) (to_be 2 qclass) rest).
  - rewrite !from_to_be by (simpl; lia). do 2 f_equal. lia.
  - rewrite Hp. unfold post. by rewrite <- !app_assoc.
  - rewrite !(app_assoc _ _ (to_be 2 qtype)), length_app, <- Hoff, length_to_be. lia.
  - by rewrite length_to_be.
Qed.
(** Every packet that parses is such a query. *)
Lemma parse_labels_inv fuel offset packet labels fin :
  parse_labels fuel offset packet = Some (labels, fin) ->
  Forall good_label labels /\ take fin packet = take offset packet ++ (labels ≫= encode_label) ++ [x00].
Proof.
  revert offset labels fin; induction fuel as [|fuel IH]; intros offset labels fin; [done|].
  cbn [parse_labels]. intros (b & Hb & H)%bind_Some.
  destruct (Nat.eqb_spec (Z.to_nat (u8 b)) 0) as [E|E].
  { injection H as <- <-. split; [constructor|]. rewrite (take_S_r _ _ _ Hb). cbn. do 2 f_equal.
    rewrite <- (byte_of_u8 b). pose proof (u8_range b). by replace (u8 b) with 0 by lia. }
  destruct (Nat.ltb 63 _ || _) eqn:E2; [done|]. apply orb_false_iff in E2 as [E1%Nat.ltb_ge E2%Nat.ltb_ge].
  apply bind_Some in H as (l & Hl & H). apply bind_Some in H as ([ls f] & Hls & H).
  injection H as <- <-. apply IH in Hls as [Hgood Htake].
  set (len := Z.to_nat (u8 b)) in *. set (bytes := sub_bytes (S offset) len packet) in *.
  assert (length bytes = len) as Hlen by (unfold bytes, sub_bytes; rewrite length_take, length_drop; lia).
  unfold from_utf8 in Hl. destruct (utf8_chars (string_of bytes)) as [cs|] eqn:Hcs; [|done]. injection Hl as <-.
  assert (String.length (string_of bytes) = len) as Hsl by (by rewrite <- length_bytes_of, bytes_of_string_of).
  assert (encode_label (string_of bytes) = b :: bytes) as Henc.
  { unfold encode_label, str_len. rewrite Hsl, bytes_of_string_of. f_equal. unfold len. pose proof (u8_range b).
    rewrite Z2Nat.id by lia. apply byte_of_u8. }
  split; [constructor; [|done]; split; [lia|by rewrite Hcs]|].
  rewrite Htake, bind_cons, Henc.
  rewrite <- (take_take_drop packet (S offset) len), (take_S_r _ _ _ Hb). fold bytes. unfold sub_bytes in bytes. fold bytes.
  rewrite <- !app_assoc. done.
Qed.
(** Every parsed packet has its question inside: at least the header, the final zero
    and the four bytes of type and class. *)
Lemma parse_labels_bound fuel offset packet labels fin :
  parse_labels fuel offset packet = Some (labels, fin) -> (offset < fin <= length packet)%nat.
Proof.
  revert offset labels fin; induction fuel as [|fuel IH]; intros offset labels fin; [done|].
  cbn [parse_labels]. intros (b & Hb & H)%bind_Some. apply lookup_lt_Some in Hb.
  destruct (Nat.eqb_spec (Z.to_nat (u8 b)) 0) as [E|E]; [injection H as <- <-; lia|].
  destruct (Nat.ltb 63 _ || _) eqn:E2; [done|]. apply orb_false_iff in E2 as [_ E2%Nat.ltb_ge].
  apply bind_Some in H as (l & _ & H). apply bind_Some in H as ([ls f] & Hls & H).
  injection H as <- <-. apply IH in Hls. lia.
Qed.
Lemma parse_query_bound packet query : parse_query packet = Some query ->
  (17 <= dq_question_end query <= length packet)%nat.
Proof.
  unfold parse_query. destruct (Nat.ltb _ 12 || _) eqn:E; [done|]. intros ([ls off] & Hls & H)%bind_Some.
  apply parse_labels_bound in Hls. destruct (Nat.ltb_spec (length packet) (off + 4)) as [?|Hle]; [done|].
  injection H as <-. simpl. lia.
Qed.
Lemma parse_query_inv packet query : parse_query packet = Some query ->
  exists id flags counts labels rest,
    good_query id flags counts labels (dq_qtype query) (dq_qclass query) /\
    packet = query_packet id flags counts labels (dq_qtype query) (dq_qclass query) rest.
Proof.
  unfold parse_query. destruct (Nat.ltb _ 12 || _) eqn:E; [done|].
  apply orb_false_iff in E as [Hlen%Nat.ltb_ge Hone%negb_false_iff%Z.eqb_eq].
  intros ([labels off] & Hls & H)%bind_Some. pose proof Hls as Hbound. apply parse_labels_bound in Hbound.
  apply parse_labels_inv in Hls as [Hgood Htake].
  destruct (Nat.ltb_spec (length packet) (off + 4)) as [?|Hle]; [done|]. injection H as <-. cbn [dq_qtype dq_qclass].
  set (qt := sub_bytes off 2 packet). set (qc := sub_bytes (off + 2) 2 packet).
  assert (length qt = 2%nat) as Hqt by (unfold qt, sub_bytes; rewrite length_take, length_drop; lia).
  assert (length qc = 2%nat) as Hqc by (unfold qc, sub_bytes; rewrite length_take, length_drop; lia).
  exists (take 2 packet), (sub_bytes 2 2 packet), (sub_bytes 6 6 packet), labels, (drop (off + 4) packet). split.
  - pose proof (from_be_bound qt) as H1. pose proof (from_be_bound qc) as H2. rewrite Hqt in H1. rewrite Hqc in H2.
    change (256 ^ Z.of_nat 2) with 65536 in *. fold qt qc. unfold good_query, u16_max. clearbody qt qc.
    split_and!; try done; try lia; unfold sub_bytes; rewrite ?length_take, ?length_drop; lia.
  - unfold query_packet, question_bytes. rewrite !to_from_be_len by done.
    assert (length (sub_bytes 4 2 packet) = 2%nat) as H42 by (unfold sub_bytes; rewrite length_take, length_drop; lia).
    assert (sub_bytes 4 2 packet = [x00; x01]) as Hcount.
    { rewrite <- (to_from_be_len 2 _ H42), Hone. reflexivity. }
    rewrite <- Hcount, <- !app_assoc. rewrite !app_assoc.
    assert (((take 2 packet ++ sub_bytes 2 2 packet) ++ sub_bytes 4 2 packet) ++ sub_bytes 6 6 packet = take 12 packet) as ->.
    { unfold sub_bytes. by rewrite !take_take_drop. }
    rewrite <- (app_assoc (take 12 packet)), <- Htake. unfold qt, qc, sub_bytes. rewrite !take_take_drop.
    replace (off + 2 + 2)%nat with (off + 4)%nat by lia. by rewrite take_drop.
Qed.
(** More fuel does not change a result. *)
Lemma parse_labels_total fuel offset packet :
  (length packet - offset < fuel)%nat ->
  parse_labels (S fuel) offset packet = parse_labels fuel offset packet.
Proof.
  revert offset; induction fuel as [|fuel IH]; intros offset Hf; [lia|].
  remember (S fuel) as fuel' eqn:Hfuel. cbn [parse_labels]. replace (parse_labels fuel' offset packet) with (parse_labels (S fuel) offset packet) by congruence. cbn [parse_labels].
  destruct (packet !! offset) as [b|] eqn:Hb; [|done]. simpl mbind. apply lookup_lt_Some in Hb.
  destruct (Nat.eqb _ 0); [done|]. destruct (Nat.ltb 63 _ || _); [done|].
  destruct (from_utf8 _) as [l|]; [|done]. simpl mbind. rewrite IH by lia. done.
Qed.
Lemma length_patch at_ bytes packet :
  (at_ + length bytes <= length packet)%nat -> length (patch at_ bytes packet) = length packet.
Proof. intros H. unfold patch. rewrite !length_app, length_take, length_drop. lia. Qed.
Lemma drop_patch n at_ bytes packet :
  (at_ + length bytes <= n)%nat -> (n <= length packet)%nat -> drop n (patch at_ bytes packet) = drop n packet.
Proof.
  intros Hn Hlen. unfold patch. rewrite !drop_app, length_take.
  rewrite (drop_ge (take _ _)) by (rewrite length_take; lia). rewrite (drop_ge bytes) by lia.
  simpl. rewrite drop_drop. f_equal. lia.
Qed.
Lemma take_patch n at_ bytes packet :
  (n <= at_)%nat -> (at_ <= length packet)%nat -> take n (patch at_ bytes packet) = take n packet.
Proof.
  intros Hn Hlen. unfold patch. rewrite take_app, length_take, take_take.
  replace (n - _)%nat with 0%nat by lia. rewrite app_nil_r. f_equal. lia.
Qed.

(** The four header writes change neither the length, the id nor what follows the header. *)
Lemma patched_header e packet flags count :
  (17 <= e <= length packet)%nat -> length flags = 2%nat -> length count = 2%nat ->
  let p := patch 10 (to_be 2 0) (patch 8 (to_be 2 0) (patch 6 count (patch 2 flags (take e packet)))) in
  length p = e /\ take 2 p = take 2 packet /\
  take (e - 12) (drop 12 p) = take (e - 12) (drop 12 packet).
Proof.
  intros He Hf Hc. cbv zeta. pose proof (length_to_be 2 0) as H0.
  assert (length (take e packet) = e) as Ht by (rewrite length_take; lia).
  set (p1 := patch 2 flags (take e packet)).
  assert (length p1 = e) as H1 by (unfold p1; rewrite length_patch; lia).
  set (p2 := patch 6 count p1). assert (length p2 = e) as H2 by (unfold p2; rewrite length_patch; lia).
  set (p3 := patch 8 (to_be 2 0) p2). assert (length p3 = e) as H3 by (unfold p3; rewrite length_patch; lia).
  rewrite length_patch, take_patch, drop_patch by lia. unfold p3. rewrite take_patch, drop_patch by lia.
  unfold p2. rewrite take_patch, drop_patch by lia. unfold p1. rewrite take_patch, drop_patch by lia.
  split; [done|]. split; [rewrite take_take; f_equal; lia|].
  rewrite take_drop_commute, take_take, take_drop_commute. do 2 f_equal. lia.
Qed.

Lemma resolve_lower name n : resolve_hostname (to_ascii_lowercase name) n = resolve_hostname name n.
Proof.
  unfold resolve_hostname, trim_end_matches, to_ascii_lowercase at 2.
  rewrite trim_end_by_map by (intros c; apply ascii_lower_dot).
  by rewrite to_ascii_lowercase_idemp.
Qed.
(** What an answer holds once its address is known. *)
Lemma emit_response_query id flags counts labels qtype qclass rest name addr :
  good_query id flags counts labels qtype qclass ->
  emit_response (query_packet id flags counts labels qtype qclass rest)
    (DnsQuery name qtype qclass (12 + length (question_bytes labels qtype qclass))) addr
  = dns_response id labels qtype qclass addr.
Proof.
  intros (Hid & Hfl & Hco & _). unfold emit_response, query_packet. cbn [dq_question_end].
  destruct id as [|i0 [|i1 [|]]], flags as [|f0 [|f1 [|]]]; try done.
  destruct counts as [|c0 [|c1 [|c2 [|c3 [|c4 [|c5 [|]]]]]]]; try done.
  unfold dns_response. cbn [app plus take]. rewrite take_app_length.
  destruct addr; [done|simpl; by rewrite app_nil_r].
Qed.
(** The address a query is given: the one of the last service of its name. *)
Definition dns_address (services : list network_service) (labels : list string) (qtype qclass : Z) : option ipv4 :=
  if (qtype =? TYPE_A) && (qclass =? CLASS_IN)
  then i ← last_named (canonical_name (join "." labels)) 0 services; _ ← services !! i; Some (nth_addr i)
  else None.
Lemma answer_query_packet services n id flags counts labels qtype qclass rest :
  network_new services = Ok n -> good_query id flags counts labels qtype qclass ->
  answer_query (query_packet id flags counts labels qtype qclass rest) n
  = Some (dns_response id labels qtype qclass (dns_address services labels qtype qclass)).
Proof.
  intros Hnet Hgood. unfold answer_query. rewrite parse_query_packet by done.
  cbn [mbind option_bind dq_name dq_qtype dq_qclass]. rewrite resolve_lower, (resolve_last _ _ _ Hnet).
  match goal with |- Some (emit_response _ _ ?a) = _ => assert (a = dns_address services labels qtype qclass) as -> end.
  { unfold dns_address. destruct (last_named _ _ _) as [i|]; simpl; [|by destruct (_ && _)].
    destruct (services !! i); simpl; by destruct (_ && _). }
  by rewrite emit_response_query.
Qed.
(** The queries of the tests. *)
Lemma query_a_packet id name :
  query_a id name = query_packet (to_be 2 id) [x01; x00] [x00; x00; x00; x00; x00; x00]
                      (split_on "." (trim_end_matches "." name)) TYPE_A CLASS_IN [].
Proof. unfold query_packet, question_bytes. by rewrite app_nil_r. Qed.

(** ** Properties *)

(** C39. [VirtualNetwork::new] accepts exactly the lists of at most 201 services; the
    i-th service gets the address 10.88.0.(10+i), inside the subnet and different from
    the addresses of the other services, of the DNS server and of the client; looking
    an address up returns the service that has it. *)
Theorem services_get_distinct_addresses services :
  is_ok (network_new services) = bool_decide (length services <= 201)%nat /\
  forall n, network_new services = Ok n ->
    (forall i s, services !! i = Some s ->
      service_for_addr (Ipv4 10 88 0 (10 + Z.of_nat i)) n
      = Some (VirtualService (ns_id s) (host_of s) (Ipv4 10 88 0 (10 + Z.of_nat i)) (ns_kind s))
      /\ 10 + Z.of_nat i <= 210) /\
    (forall addr v, service_for_addr addr n = Some v ->
      vs_addr v = addr /\ v ∈ vn_services n /\ addr <> vn_dns_addr n /\ addr <> vn_client_addr n) /\
    NoDup (map vs_addr (vn_services n)).
Proof.
  split; [apply network_new_is_ok|]. intros n Hn. destruct (network_new_ok _ _ Hn) as (Hlen & Hs & Hm & Hdns & Hclient). split_and!.
  - intros i s Hi. pose proof (lookup_lt_Some _ _ _ Hi) as Hlt. split; [|lia].
    change (Ipv4 10 88 0 (10 + Z.of_nat i)) with (nth_addr i).
    unfold service_for_addr. rewrite (proj2 (mo_addr _ _ _ Hm (nth_addr i) i)).
    + simpl. by rewrite Hs, list_lookup_imap, Hi.
    + split; [|done]. by rewrite Hs, length_imap.
  - unfold service_for_addr. intros addr v (i & Hi & Hv)%bind_Some. apply (mo_addr _ _ _ Hm) in Hi as [_ ->].
    split_and!; [|by eapply list_elem_of_lookup_2| |].
    + rewrite Hs, list_lookup_imap in Hv. by apply fmap_Some in Hv as (s & _ & ->).
    + rewrite Hdns. unfold nth_addr, DEFAULT_DNS_ADDR. intros [= H]. lia.
    + rewrite Hclient. unfold nth_addr, DEFAULT_CLIENT_ADDR. intros [= H]. lia.
  - by eapply network_addrs.
Qed.

(** The host name of a service is words of lower-case letters and digits joined by
    single dashes, then [.medium], whatever the label holds; a lookup finds the last
    service of that name, and ignores case and trailing dots. *)
Theorem hostnames_resolve services :
  (forall value, exists l, l <> [] /\ Forall word l /\ service_hostname value = join "-" l +:+ ".medium") /\
  forall n, network_new services = Ok n ->
    forall name, resolve_hostname name n =
      (i ← last_named (to_ascii_lowercase (trim_end_matches "." name)) 0 services;
       s ← services !! i; Some (virtual_of i s)) /\
    (forall s, s ∈ services -> name = host_of s ->
      exists v, resolve_hostname name n = Some v /\ vs_hostname v = name).
Proof.
  split.
  { intros value. destruct (hostname_label_words value) as (l & [Hne Hl] & Heq).
    exists l. unfold service_hostname. by rewrite Heq. }
  intros n Hn name. pose proof (resolve_last _ _ name Hn) as Hr. split; [exact Hr|].
  intros s Hs ->. unfold host_of in Hr at 2. rewrite canonical_hostname in Hr. rewrite Hr.
  destruct (last_named _ 0 services) as [i|] eqn:E.
  - apply last_named_some in E as (_ & (t & Ht & Hth) & _). rewrite Nat.sub_0_r in Ht.
    simpl. rewrite Ht. simpl. eauto.
  - by destruct (proj1 (last_named_none _ _ _) E s Hs).
Qed.

(** C38. The DNS responder answers exactly the packets with one whole question, its labels
    UTF-8 text of 1 to 63 bytes, whatever the other fields of the header hold and whatever
    follows the question: a question of
    type A and class IN for the name of a service, in any case and with or without trailing
    dots, gets one address record with a TTL of 30 seconds and the address of that service,
    of the last one when several have the name; a question for another name, of another
    type or of another class gets the name-error flags and no record.  The identifier and
    the question are the packet's, and every other packet gets no answer. *)
Theorem dns_answers_queries services n packet (Hnet : network_new services = Ok n) :
  (forall id flags counts labels qtype qclass rest,
     good_query id flags counts labels qtype qclass ->
     packet = query_packet id flags counts labels qtype qclass rest ->
     answer_query packet n =
     Some (dns_response id labels qtype qclass
       (if (qtype =? TYPE_A) && (qclass =? CLASS_IN)
        then i ← last_named (canonical_name (join "." labels)) 0 services; _ ← services !! i; Some (nth_addr i)
        else None))) /\
  (is_Some (answer_query packet n) ->
     exists id flags counts labels qtype qclass rest,
       good_query id flags counts labels qtype qclass /\
       packet = query_packet id flags counts labels qtype qclass rest).
Proof.
  split.
  - intros id flags counts labels qtype qclass rest Hgood ->. by apply answer_query_packet.
  - intros [response H]. unfold answer_query in H. apply bind_Some in H as (query & Hquery & _).
    apply parse_query_inv in Hquery as (id & flags & counts & labels & rest & H). by eexists _, _, _, _, _, _, _.
Qed.

Definition toy_network_services : list network_service :=
  [NetworkService "svc_ssh" (Some "My Laptop (SSH)") "ssh"; NetworkService "svc_web" None "http"].
Definition toy_network : virtual_network :=
  match network_new toy_network_services with
  | Ok n => n
  | Err _ => VirtualNetwork DEFAULT_CLIENT_ADDR DEFAULT_DNS_ADDR DEFAULT_PREFIX_LEN [] ∅ ∅
  end.

(** The query of the tests is answered; one of class CH for the same name is not, and what
    follows the question is dropped. *)
Definition toy_labels : list string := ["My-Laptop-SSH"; "medium"].
Lemma dns_answers_queries_witness :
  answer_query (query_a 7 "My-Laptop-SSH.medium.") toy_network
  = Some (dns_response [x00; x07] toy_labels 1 1 (Some (Ipv4 10 88 0 10))) /\
  answer_query (query_packet [x00; x07] [x01; x20] [x00; x00; x00; x00; x00; x01] toy_labels 1 3 [x00; x29]) toy_network
  = Some (dns_response [x00; x07] toy_labels 1 3 None).
Proof.
  assert (forall qtype qclass flags counts, 0 <= qtype <= u16_max -> 0 <= qclass <= u16_max -> length flags = 2%nat ->
    length counts = 6%nat -> good_query [x00; x07] flags counts toy_labels qtype qclass) as Hgood.
  { intros. split_and!; try done; lia || (apply (bool_decide_unpack _); vm_compute; exact I). }
  rewrite query_a_packet. split.
  - refine (proj1 (@dns_answers_queries toy_network_services toy_network _ _) [x00; x07] [x01; x00]
      [x00; x00; x00; x00; x00; x00] toy_labels 1 1 [] _ _);
      [vm_compute; reflexivity|apply Hgood; (reflexivity || (unfold u16_max; lia))|reflexivity].
  - refine (proj1 (@dns_answers_queries toy_network_services toy_network _ _) [x00; x07] [x01; x20] _ toy_labels 1 3 _ _ eq_refl);
      [vm_compute; reflexivity|apply Hgood; (reflexivity || (unfold u16_max; lia))].
Defined.

(** The name error is also what a query of another type gets for a name that exists:
    an AAAA query for a published host says that the name does not exist. *)
Theorem existing_name_is_denied_to_other_types services n id flags counts labels qtype qclass rest s
  (Hnet : network_new services = Ok n) (Hs : s ∈ services) (Hname : join "." labels = host_of s)
  (Hgood : good_query id flags counts labels qtype qclass) (Hother : qtype <> TYPE_A) :
  is_Some (resolve_hostname (host_of s) n) /\
  answer_query (query_packet id flags counts labels qtype qclass rest) n
  = Some (id ++ [x81; x83; x00; x01; x00; x00; x00; x00; x00; x00] ++ question_bytes labels qtype qclass).
Proof.
  split.
  - rewrite (resolve_last _ _ _ Hnet). unfold host_of at 1. rewrite canonical_hostname.
    destruct (last_named _ 0 services) as [i|] eqn:E.
    + apply last_named_some in E as (_ & (t & Ht & _) & _). rewrite Nat.sub_0_r in Ht. simpl. by rewrite Ht.
    + by destruct (proj1 (last_named_none _ _ _) E s Hs).
  - rewrite (answer_query_packet services) by done. unfold dns_address. rewrite (proj2 (Z.eqb_neq _ _)) by done.
    unfold dns_response. simpl. by rewrite app_nil_r.
Qed.
Lemma existing_name_is_denied_to_other_types_witness :
  is_Some (resolve_hostname "svc-web.medium" toy_network) /\
  answer_query (query_packet [x00; x09] [x01; x00] [x00; x00; x00; x00; x00; x00] ["svc-web"; "medium"] 28 1 []) toy_network
  = Some ([x00; x09] ++ [x81; x83; x00; x01; x00; x00; x00; x00; x00; x00] ++ question_bytes ["svc-web"; "medium"] 28 1).
Proof.
  refine (@existing_name_is_denied_to_other_types toy_network_services toy_network [x00; x09] [x01; x00] _
    ["svc-web"; "medium"] 28 1 [] (NetworkService "svc_web" None "http") _ _ _ _ _).
  - vm_compute. reflexivity.
  - right. left.
  - vm_compute. reflexivity.
  - split_and!; try done. apply (bool_decide_unpack _). vm_compute. exact I.
  - discriminate.
Defined.

(** Whatever bytes arrive, every slice the responder takes is inside the packet: the
    answer keeps the transaction id and the whole question, which ends inside the packet,
    drops what follows, and is 16 bytes longer when it has a record. *)
Theorem dns_answers_stay_in_bounds packet n response
  (H : answer_query packet n = Some response) :
  exists question_end, (17 <= question_end <= length packet)%nat /\
    take 2 response = take 2 packet /\
    take (question_end - 12) (drop 12 response) = take (question_end - 12) (drop 12 packet) /\
    (length response = question_end \/ length response = (question_end + 16)%nat).
Proof.
  unfold answer_query in H. apply bind_Some in H as (query & Hquery & H).
  apply parse_query_bound in Hquery as Hb. injection H as <-. exists (dq_question_end query). split; [done|].
  match goal with |- context [emit_response _ _ ?a] => generalize a end. intros addr.
  unfold emit_response. cbv zeta.
  match goal with |- context [patch 6 (to_be 2 ?c) (patch 2 (to_be 2 ?f) _)] =>
    destruct (patched_header (dq_question_end query) packet (to_be 2 f) (to_be 2 c) Hb
                (length_to_be 2 f) (length_to_be 2 c)) as (H4 & Hk & Hq) end.
  destruct addr as [a|]; [|split_and!; [done|done|by left]].
  rewrite length_app, H4, take_app_le, drop_app_le, take_app_le by (rewrite ?length_drop; lia).
  split_and!; [done|done|right]. simpl. lia.
Qed.
Lemma dns_answers_stay_in_bounds_witness : exists question_end,
  (17 <= question_end <= length (query_a 7 "svc-web.medium"))%nat /\
  take 2 (dns_response [x00; x07] ["svc-web"; "medium"] 1 1 (Some (Ipv4 10 88 0 11))) = take 2 (query_a 7 "svc-web.medium") /\
  take (question_end - 12) (drop 12 (dns_response [x00; x07] ["svc-web"; "medium"] 1 1 (Some (Ipv4 10 88 0 11))))
  = take (question_end - 12) (drop 12 (query_a 7 "svc-web.medium")) /\
  (length (dns_response [x00; x07] ["svc-web"; "medium"] 1 1 (Some (Ipv4 10 88 0 11))) = question_end \/
   length (dns_response [x00; x07] ["svc-web"; "medium"] 1 1 (Some (Ipv4 10 88 0 11))) = (question_end + 16)%nat).
Proof.
  exact (@dns_answers_stay_in_bounds (query_a 7 "svc-web.medium") toy_network
    (dns_response [x00; x07] ["svc-web"; "medium"] 1 1 (Some (Ipv4 10 88 0 11))) ltac:(vm_compute; reflexivity)).
Defined.
