(* ===== verification/MediumSession.v ===== *)
(** * The client's session

    [crates/medium-session/src/lib.rs]: how a client with a session grant reaches the
    node.  The order in which candidates are tried, what is written to each kind of
    connection, the fallback from ICE to the legacy candidates, the TLS handshake to the
    service, and the byte stream over a WebSocket.

    The operating system and the network are a [dialer]: what each connect, bind and
    WebSocket handshake will give, and what each TLS handshake will see, in order.  A
    TCP connection or a WebSocket is a value that holds what was sent on it.  rustls,
    tungstenite and name resolution are parameters. *)

From Stdlib Require Import Sorted.
From S2P Require Import Prelude RustStd Order NetAddr Protocol PinnedHttp Net Rendezvous UdpPacket UdpSession UdpListener.

(** ** Constants and options *)

Definition CANDIDATE_CONNECT_TIMEOUT : Z := secs 3.
Definition UDP_CONNECTED_POLL_TIMEOUT : Z := secs 15.
Definition SERVICE_TLS_CANDIDATE_HANDSHAKE_TIMEOUT : Z := secs 3.
Definition SERVICE_TLS_DEFAULT_HANDSHAKE_TIMEOUT : Z := secs 10.

Inductive transport_mode := Auto | RelayOnly.
#[global] Instance transport_mode_eq_dec : EqDecision transport_mode.
Proof. solve_decision. Defined.

Record selected_path := SelectedPath { path_kind : string; path_addr : string }.
Record connect_options := ConnectOptions {
  co_mode : transport_mode;
  co_control_pin : option string;
  co_preferred_ice : option ice_candidate
}.
Definition connect_options_default : connect_options := ConnectOptions Auto None None.

(** ** The byte stream over a WebSocket *)

Inductive frame :=
  | FBinary (payload : list byte)
  | FText (payload : list byte)
  | FClose
  | FPing (payload : list byte)
  | FPong (payload : list byte)
  | FRaw (payload : list byte).
(** A WebSocket: the frames and errors that will be received, the outcomes of the next
    sends, the frames sent, the certificate check of the connection, the socket's timeout. *)
Record websocket := WebSocket {
  ws_in : list (result frame);
  ws_sends : list (option io_kind);
  ws_out : list frame;
  ws_pin : option pinned_cert_verifier;
  ws_timeout : option Z
}.
Record wss_byte_stream := WssByteStream {
  wss_socket : websocket;
  wss_pending_read : list byte
}.

(** [socket.send]. *)
Definition ws_send (f : frame) : eff websocket unit := fun s =>
  match ws_sends s with
  | Some k :: rest => (Err (EIo k), WebSocket (ws_in s) rest (ws_out s) (ws_pin s) (ws_timeout s))
  | None :: rest => (Ok tt, WebSocket (ws_in s) rest (ws_out s ++ [f]) (ws_pin s) (ws_timeout s))
  | [] => (Ok tt, WebSocket (ws_in s) [] (ws_out s ++ [f]) (ws_pin s) (ws_timeout s))
  end.
(** [socket.read]: with nothing left to receive the socket's timeout passes. *)
Definition ws_read : eff websocket frame := fun s =>
  match ws_in s with
  | [] => (Err (EIo WouldBlock), s)
  | r :: rest => (r, WebSocket rest (ws_sends s) (ws_out s) (ws_pin s) (ws_timeout s))
  end.

Definition set_socket (s : websocket) (w : wss_byte_stream) : wss_byte_stream :=
  WssByteStream s (wss_pending_read w).
Definition on_socket {A} (m : eff websocket A) : eff wss_byte_stream A :=
  zoom wss_socket set_socket (io_other m).

(** [Read for WssByteStream]: the bytes put in a buffer of [size] bytes.  Each round
    of the loop receives a frame, so the frames bound the rounds. *)
Definition wss_deliver (size : nat) (bytes : list byte) : eff wss_byte_stream (list byte) := fun w =>
  (Ok (take size bytes), WssByteStream (wss_socket w) (wss_pending_read w ++ drop size bytes)).
Fixpoint wss_read_loop (fuel size : nat) : eff wss_byte_stream (list byte) :=
  match fuel with
  | O => throw out_of_fuel
  | S f =>
      message ← on_socket ws_read;
      match message with
      | FBinary bytes => wss_deliver size bytes
      | FText text => wss_deliver size text
      | FClose => mret []
      | FPing payload => _ ← on_socket (ws_send (FPong payload)); wss_read_loop f size
      | FPong _ | FRaw _ => wss_read_loop f size
      end
  end.
Definition wss_read (size : nat) : eff wss_byte_stream (list byte) := fun w =>
  match wss_pending_read w with
  | [] => wss_read_loop (S (length (ws_in (wss_socket w)))) size w
  | pending => (Ok (take size pending), WssByteStream (wss_socket w) (drop size pending))
  end.
(** [Write for WssByteStream]. *)
Definition wss_write (bytes : list byte) : eff wss_byte_stream nat :=
  _ ← on_socket (ws_send (FBinary bytes)); mret (length bytes).

(** ** Streams *)

(** A TCP connection: what was sent on it, what the next [write_all]s will answer, the
    timeout; and once it is read from and written to piecemeal, what will arrive (nothing at
    its end, or an error), and how much each write will take, or its error. *)
Record tcp := Tcp {
  tcp_peer : socket_addr;
  tcp_sent : list byte;
  tcp_writes : list (option io_kind);
  tcp_timeout : option Z;
  tcp_arrivals : list (io_kind + list byte);
  tcp_room : list (io_kind + nat)
}.
(** [write_all]. *)
Definition tcp_write_all (bytes : list byte) (t : tcp) : result tcp :=
  match tcp_writes t with
  | Some k :: _ => Err (EIo k)
  | None :: rest => Ok (Tcp (tcp_peer t) (tcp_sent t ++ bytes) rest (tcp_timeout t) (tcp_arrivals t) (tcp_room t))
  | [] => Ok (Tcp (tcp_peer t) (tcp_sent t ++ bytes) [] (tcp_timeout t) (tcp_arrivals t) (tcp_room t))
  end.

Inductive session_stream :=
  | STcp (t : tcp)
  | SUdp (s : stream) (n : net)
  | SWss (w : wss_byte_stream).
Record connected_session := ConnectedSession {
  cs_stream : session_stream;
  cs_path : selected_path
}.

Definition set_poll_timeout (timeout : Z) (n : net) : net :=
  Net (n_recv n) (n_send n) (n_sent n) (n_now n) timeout.
Definition set_io_timeout (timeout : option Z) (s : session_stream) : session_stream :=
  match s with
  | STcp t => STcp (Tcp (tcp_peer t) (tcp_sent t) (tcp_writes t) timeout (tcp_arrivals t) (tcp_room t))
  | SUdp s n => SUdp s (set_poll_timeout (default UDP_CONNECTED_POLL_TIMEOUT timeout) n)
  | SWss w =>
      let s := wss_socket w in
      SWss (set_socket (WebSocket (ws_in s) (ws_sends s) (ws_out s) (ws_pin s) timeout) w)
  end.

(** ** Candidates *)

Definition ice_candidate_addr (c : ice_candidate) : string :=
  match parse_ip (ic_addr c) with
  | Some (IpV6 _) => "[" +:+ ic_addr c +:+ "]:" +:+ dec (ic_port c)
  | _ => ic_addr c +:+ ":" +:+ dec (ic_port c)
  end.
Definition same_ice_candidate (left right : ice_candidate) : bool :=
  eq_ignore_ascii_case (ic_transport left) (ic_transport right)
  && bool_decide (ic_kind left = ic_kind right)
  && (ic_addr left =?s ic_addr right) && (ic_port left =? ic_port right).
Definition candidate_preference_rank (c : ice_candidate) (preferred : option ice_candidate) : Z :=
  match preferred with
  | Some p => if same_ice_candidate c p then 0 else 1
  | None => 1
  end.
Definition ice_kind_rank (k : ice_candidate_kind) : Z :=
  match k with Host => 0 | Srflx => 1 | Relay => 2 end.

(** [cmp(..).then_with(..)]: the first difference decides. *)
Definition ice_leb (preferred : option ice_candidate) (l r : ice_candidate) : bool :=
  let pl := candidate_preference_rank l preferred in
  let pr := candidate_preference_rank r preferred in
  let kl := ice_kind_rank (ic_kind l) in
  let kr := ice_kind_rank (ic_kind r) in
  (pl <? pr) || ((pl =? pr) &&
    ((kl <? kr) || ((kl =? kr) &&
      ((ic_priority r <? ic_priority l) || ((ic_priority l =? ic_priority r) &&
        text_leb (ic_foundation l) (ic_foundation r)))))).

Definition ice_checklist (grant : session_open_grant) (preferred : option ice_candidate)
    : list ice_candidate :=
  match sa_ice (sg_authorization grant) with
  | None => []
  | Some ice =>
      sort_by (ice_leb preferred)
        (List.filter (fun c => eq_ignore_ascii_case (ic_transport c) "udp") (ig_candidates ice))
  end.

Definition is_relay_kind (c : peer_candidate) : bool :=
  match pc_kind c with RelayTcp | WssRelay => true | DirectTcp => false end.
Definition legacy_leb (l r : peer_candidate) : bool := pc_priority r <=? pc_priority l.
Definition ordered_legacy_candidates_for_mode (grant : session_open_grant) (mode : transport_mode)
    : list peer_candidate :=
  let candidates := sa_candidates (sg_authorization grant) in
  sort_by legacy_leb
    match mode with RelayOnly => List.filter is_relay_kind candidates | Auto => candidates end.

Definition is_unusable_backend_candidate_addr (addr : string) : bool :=
  match parse_sock addr with
  | None => false
  | Some a =>
      match sock_ip a with
      | IpV4 ip => v4_is_unspecified ip || v4_is_loopback ip
                 || ((oct0 ip =? 198) && ((oct1 ip =? 18) || (oct1 ip =? 19)))
      | IpV6 ip => v6_is_unspecified ip || v6_is_loopback ip
      end
  end.

Definition is_timeout (e : error) : bool :=
  match e with EIo WouldBlock | EIo TimedOut | EIo Interrupted => true | _ => false end.

(** ** The world of a client *)

(** One [complete_io] of a TLS handshake: how long it took, and whether it goes on or
    the error. *)
Record tls_event := TlsEvent { te_elapsed : Z; te_result : result bool }.

(** What the next TCP connects, UDP binds, WebSocket handshakes and TLS handshakes will
    give; the clock; how many connects and binds were made. *)
Record dialer := Dialer {
  d_tcp : list (result tcp);
  d_udp : list (result net);
  d_wss : list (result websocket);
  d_tls : list (list tls_event);
  d_now : Z
}.

Definition connect_timeout (addr : socket_addr) : eff dialer tcp := fun d =>
  match d_tcp d with
  | [] => (Err (EIo TimedOut), Dialer [] (d_udp d) (d_wss d) (d_tls d) (d_now d + CANDIDATE_CONNECT_TIMEOUT))
  | r :: rest => ((fun t => Tcp addr [] (tcp_writes t) None (tcp_arrivals t) (tcp_room t)) <$> r,
                  Dialer rest (d_udp d) (d_wss d) (d_tls d) (d_now d))
  end.
(** [UdpSocket::bind]; the socket's clock is the process's. *)
Definition create_udp_socket (addr : socket_addr) : eff dialer net := fun d =>
  match d_udp d with
  | [] => (Err (EIo OtherIo), d)
  | r :: rest => ((fun n => Net (n_recv n) (n_send n) [] (d_now d) 0) <$> r,
                  Dialer (d_tcp d) rest (d_wss d) (d_tls d) (d_now d))
  end.
(** Running code on a socket: the clock goes on. *)
Definition on_udp {A} (n : net) (m : eff net A) : eff dialer (A * net) := fun d =>
  let '(r, n') := m n in
  ((fun a => (a, n')) <$> r, Dialer (d_tcp d) (d_udp d) (d_wss d) (d_tls d) (n_now n')).
(** [tungstenite::client_tls_with_config]. *)
Definition client_tls (pin : option pinned_cert_verifier) : eff dialer websocket := fun d =>
  match d_wss d with
  | [] => (Err (EExt "tungstenite"), d)
  | r :: rest => ((fun s => WebSocket (ws_in s) (ws_sends s) [] pin None) <$> r,
                  Dialer (d_tcp d) (d_udp d) rest (d_tls d) (d_now d))
  end.
Definition sleep_for (d : Z) : eff dialer unit :=
  modify (fun w => Dialer (d_tcp w) (d_udp w) (d_wss w) (d_tls w) (d_now w + d)).

(** ** Connecting *)

Section Connect.
Context `{Json udp_rendezvous_message} `{Json session_hello} `{Json relay_hello} `{Sha256}.
(** Name resolution, [url::Url::parse], the [Display] of an error. *)
Context (to_socket_addrs : string -> result (list socket_addr)).
Context (url_parse : string -> option url).
Context (show_error : error -> string).

Definition hello_of (grant : session_open_grant) : session_hello :=
  SessionHello (sa_token (sg_authorization grant)) (sg_service_id grant) None.

(** The loops over the resolved addresses; [last_error] is the error of the last one. *)
Fixpoint connect_tcp_loop (addr : string) (addrs : list socket_addr) (last_error : option error)
    : eff dialer tcp :=
  match addrs with
  | [] => throw (default (EMsg ("no socket addresses for " +:+ addr)) last_error)
  | socket_addr :: rest =>
      connected ← attempt (connect_timeout socket_addr);
      match connected with
      | Ok stream => mret stream
      | Err error => connect_tcp_loop addr rest (Some error)
      end
  end.
Definition connect_tcp (addr : string) : eff dialer tcp :=
  addrs ← lift (to_socket_addrs addr); connect_tcp_loop addr addrs None.

Fixpoint connect_ice_udp_loop (grant : session_open_grant) (addr : string)
    (addrs : list socket_addr) (last_error : option error) : eff dialer (stream * net) :=
  match addrs with
  | [] => throw (default (EMsg ("no socket addresses for " +:+ addr)) last_error)
  | socket_addr :: rest =>
      created ← attempt (create_udp_socket socket_addr);
      match created with
      | Ok socket => on_udp socket (connect socket_addr (hello_of grant))
      | Err error => connect_ice_udp_loop grant addr rest (Some error)
      end
  end.
Definition connect_ice_udp_candidate (grant : session_open_grant) (addr : string)
    : eff dialer (stream * net) :=
  addrs ← lift (to_socket_addrs addr); connect_ice_udp_loop grant addr addrs None.

Fixpoint connect_ice_udp_via_rendezvous_loop (grant : session_open_grant) (relay_addr : string)
    (addrs : list socket_addr) (last_error : option error) : eff dialer (stream * net) :=
  match addrs with
  | [] => throw (default (EMsg ("no socket addresses for " +:+ relay_addr)) last_error)
  | socket_addr :: rest =>
      created ← attempt (create_udp_socket socket_addr);
      match created with
      | Ok socket =>
          on_udp socket (
            _ ← set_read_timeout (millis 500);
            peer_addr ← resolve_peer socket_addr (sg_node_id grant) (sa_token (sg_authorization grant));
            connect peer_addr (hello_of grant))
      | Err error => connect_ice_udp_via_rendezvous_loop grant relay_addr rest (Some error)
      end
  end.
Definition connect_ice_udp_via_rendezvous (grant : session_open_grant) (relay_addr : string)
    : eff dialer (stream * net) :=
  addrs ← lift (to_socket_addrs relay_addr); connect_ice_udp_via_rendezvous_loop grant relay_addr addrs None.

Definition connect_ice_udp_session_candidate (grant : session_open_grant) (c : ice_candidate)
    : eff dialer connected_session :=
  let addr := ice_candidate_addr c in
  '(s, n) ← match ic_kind c with
            | Relay => connect_ice_udp_via_rendezvous grant addr
            | Host | Srflx => connect_ice_udp_candidate grant addr
            end;
  mret (ConnectedSession (SUdp s (set_poll_timeout UDP_CONNECTED_POLL_TIMEOUT n))
          (SelectedPath ("ice_udp/" +:+ ice_kind_str (ic_kind c)) addr)).

Definition write_session_hello (t : tcp) (grant : session_open_grant) : result tcp :=
  payload ← write_json_line (hello_of grant); tcp_write_all payload t.
Definition session_hello_frame (grant : session_open_grant) : result (list byte) :=
  payload ← to_vec (hello_of grant); Ok (payload ++ [newline]).

Definition websocket_tcp_addr (relay_url : string) : result string :=
  url ← ok_or (EExt "url") (url_parse relay_url);
  host ← ok_or (EMsg "wss relay URL is missing host") (url_host url);
  port ← ok_or (EMsg "wss relay URL is missing port") (url_known_port url);
  Ok (host +:+ ":" +:+ dec port).

(** A send on a WebSocket that the function holds. *)
Definition ws_send_on (s : websocket) (f : frame) : result websocket :=
  match ws_send f s with
  | (Ok _, s') => Ok s'
  | (Err e, _) => Err e
  end.

Definition connect_wss_relay (relay_url : string) (grant : session_open_grant)
    (control_pin : option string) : eff dialer websocket :=
  addr ← lift (websocket_tcp_addr relay_url);
  _ ← connect_tcp addr;
  connector ← match control_pin with
              | Some pin => config ← lift (pinned_tls_client_config pin); mret (Some config)
              | None => mret None
              end;
  socket ← client_tls connector;
  hello ← lift (to_vec (RelayClient (sg_node_id grant)));
  socket ← lift (ws_send_on socket (FText hello));
  payload ← lift (session_hello_frame grant);
  lift (ws_send_on socket (FBinary payload)).

Definition connect_session_candidate (grant : session_open_grant) (control_pin : option string)
    (c : peer_candidate) : eff dialer session_stream :=
  match pc_kind c with
  | DirectTcp =>
      t ← connect_tcp (pc_addr c);
      t ← lift (write_session_hello t grant);
      mret (STcp t)
  | RelayTcp =>
      t ← connect_tcp (pc_addr c);
      payload ← lift (write_json_line (RelayClient (sg_node_id grant)));
      t ← lift (tcp_write_all payload t);
      t ← lift (write_session_hello t grant);
      mret (STcp t)
  | WssRelay =>
      s ← connect_wss_relay (pc_addr c) grant control_pin;
      mret (SWss (WssByteStream s []))
  end.

Definition connect_legacy_session_candidate (grant : session_open_grant)
    (control_pin : option string) (c : peer_candidate) : eff dialer connected_session :=
  s ← connect_session_candidate grant control_pin c;
  mret (ConnectedSession s (SelectedPath (candidate_kind_str (pc_kind c)) (pc_addr c))).

(** ** [connect_session] *)

Fixpoint try_connect_loop (grant : session_open_grant) (candidates : list ice_candidate)
    : eff dialer (option connected_session) :=
  match candidates with
  | [] => mret None
  | c :: rest =>
      if is_unusable_backend_candidate_addr (ice_candidate_addr c) then try_connect_loop grant rest
      else
        connected ← attempt (connect_ice_udp_session_candidate grant c);
        match connected with
        | Ok s => mret (Some s)
        | Err _ => try_connect_loop grant rest
        end
  end.
Definition try_connect_ice_udp (grant : session_open_grant) (preferred_ice : option ice_candidate)
    : eff dialer (option connected_session) :=
  try_connect_loop grant (ice_checklist grant preferred_ice).

Definition no_candidates (mode : transport_mode) : error :=
  match mode with
  | RelayOnly => EMsg "session grant has no relay candidates"
  | Auto => EMsg "session grant has no candidates"
  end.
Fixpoint connect_legacy_loop (grant : session_open_grant) (options : connect_options)
    (candidates : list peer_candidate) (last_error : option error) : eff dialer connected_session :=
  match candidates with
  | [] => throw (default (no_candidates (co_mode options)) last_error)
  | c :: rest =>
      if is_unusable_backend_candidate_addr (pc_addr c)
      then connect_legacy_loop grant options rest last_error
      else
        connected ← attempt (connect_legacy_session_candidate grant (co_control_pin options) c);
        match connected with
        | Ok s => mret s
        | Err error => connect_legacy_loop grant options rest (Some error)
        end
  end.
Definition connect_legacy_candidate (grant : session_open_grant) (options : connect_options)
    : eff dialer connected_session :=
  connect_legacy_loop grant options (ordered_legacy_candidates_for_mode grant (co_mode options)) None.

Definition connect_session (grant : session_open_grant) (options : connect_options)
    : eff dialer connected_session :=
  connected ← (if bool_decide (co_mode options = Auto)
               then try_connect_ice_udp grant (co_preferred_ice options) else mret None);
  match connected with
  | Some s => mret s
  | None => connect_legacy_candidate grant options
  end.

(** ** TLS to the service *)

(** rustls: the certificates of a PEM text, which of them a root store takes, the valid
    server names, the creation of the client. *)
Context (pem_certs : string -> result (list (list byte))) (root_add : list byte -> result unit).
Context (server_name_ok : string -> bool) (client_connection : string -> result unit).

Definition service_tls_client_config (service_ca_pem : string) : result (list (list byte)) :=
  certs ← pem_certs service_ca_pem;
  _ ← bail_if (Nat.eqb (length certs) 0) (EMsg "Medium service CA PEM does not contain a certificate");
  result_map (fun cert => _ ← root_add cert; Ok cert) certs.

(** The handshake loop from a clock value on: the clock it ends at.  Past the events
    each [complete_io] waits for the stream's 100 ms. *)
Definition next_tls_event (events : list tls_event) : tls_event * list tls_event :=
  match events with
  | [] => (TlsEvent (millis 100) (Err (EIo WouldBlock)), [])
  | e :: rest => (e, rest)
  end.
Fixpoint handshake_loop (fuel : nat) (deadline : Z) (timed_out failed : error -> error)
    (events : list tls_event) (is_handshaking : bool) (time : Z) : result unit * Z :=
  match fuel with
  | O => (Err out_of_fuel, time)
  | S f =>
      if negb is_handshaking then (Ok tt, time)
      else
        let '(event, rest) := next_tls_event events in
        let time := time + te_elapsed event in
        match te_result event with
        | Ok more => handshake_loop f deadline timed_out failed rest more time
        | Err error =>
            if is_timeout error && (time <? deadline)
            then handshake_loop f deadline timed_out failed rest is_handshaking (time + millis 5)
            else if is_timeout error then (Err (timed_out error), time)
            else (Err (failed error), time)
        end
  end.
(** One round for each event, and one for each 105 ms until the deadline. *)
Definition handshake_fuel (events : list tls_event) (timeout : Z) : nat :=
  length events + Z.to_nat (timeout / millis 105) + 3.

(** The handshake that the next [StreamOwned] will see. *)
Definition run_handshake (timeout : Z) (timed_out failed : error -> error) : eff dialer unit := fun d =>
  let '(events, rest) := match d_tls d with [] => ([], []) | e :: r => (e, r) end in
  let '(r, time) := handshake_loop (handshake_fuel events timeout) (d_now d + timeout) timed_out failed
                      events true (d_now d) in
  (r, Dialer (d_tcp d) (d_udp d) (d_wss d) rest time).

Definition connect_service_tls_with_timeout (connected : connected_session)
    (server_name service_ca_pem : string) (handshake_timeout : Z) : eff dialer connected_session :=
  let path := cs_path connected in
  let stream := set_io_timeout (Some (millis 100)) (cs_stream connected) in
  _ ← lift (service_tls_client_config service_ca_pem);
  _ ← lift (bail_if (negb (server_name_ok server_name))
              (EMsg ("invalid Medium service TLS server name " +:+ server_name)));
  _ ← lift (client_connection server_name);
  let via := " for " +:+ server_name +:+ " via " +:+ path_kind path +:+ " " +:+ path_addr path +:+ ": " in
  _ ← run_handshake handshake_timeout
        (fun error => EMsg ("Medium service TLS handshake timed out after "
           +:+ dec (handshake_timeout / secs 1) +:+ "s" +:+ via +:+ show_error error))
        (fun error => EMsg ("Medium service TLS handshake failed" +:+ via +:+ show_error error));
  mret (ConnectedSession stream path).
Definition connect_service_tls (connected : connected_session) (server_name service_ca_pem : string)
    : eff dialer connected_session :=
  connect_service_tls_with_timeout connected server_name service_ca_pem SERVICE_TLS_DEFAULT_HANDSHAKE_TIMEOUT.

(** ** [connect_session_service_tls] *)

Definition candidate_failure (candidate : string) (n : nat) (error : error) : string :=
  candidate +:+ " attempt " +:+ dec (Z.of_nat n) +:+ ": " +:+ show_error error.

Section ServiceTls.
Context (grant : session_open_grant) (options : connect_options).
Context (server_name service_ca_pem : string) (attempts : nat) (retry_delay : Z).

Definition with_tls (m : eff dialer connected_session) : eff dialer connected_session :=
  connected ← m;
  connect_service_tls_with_timeout connected server_name service_ca_pem
    SERVICE_TLS_CANDIDATE_HANDSHAKE_TIMEOUT.

(** The ICE loop: a session, or the failures. *)
Fixpoint ice_tls_loop (candidates : list ice_candidate) (failures : list string)
    : eff dialer (connected_session + list string) :=
  match candidates with
  | [] => mret (inr failures)
  | c :: rest =>
      let addr := ice_candidate_addr c in
      if is_unusable_backend_candidate_addr addr then ice_tls_loop rest failures
      else
        connected ← attempt (with_tls (connect_ice_udp_session_candidate grant c));
        match connected with
        | Ok s => mret (inl s)
        | Err error =>
            ice_tls_loop rest (failures ++
              [candidate_failure ("ice_udp/" +:+ ice_kind_str (ic_kind c) +:+ " " +:+ addr) 1 error])
        end
  end.

(** [for attempt in n..=attempts], with [left] attempts to go. *)
Fixpoint attempt_loop (c : peer_candidate) (n left : nat) (failures : list string)
    : eff dialer (connected_session + list string) :=
  match left with
  | O => mret (inr failures)
  | S left' =>
      connected ← attempt (with_tls (connect_legacy_session_candidate grant (co_control_pin options) c));
      match connected with
      | Ok s => mret (inl s)
      | Err error =>
          let failures := failures ++
            [candidate_failure (candidate_kind_str (pc_kind c) +:+ " " +:+ pc_addr c) n error] in
          _ ← (if Nat.eqb left' 0 then mret tt else sleep_for retry_delay);
          attempt_loop c (S n) left' failures
      end
  end.
Fixpoint legacy_tls_loop (attempts : nat) (candidates : list peer_candidate) (failures : list string)
    : eff dialer (connected_session + list string) :=
  match candidates with
  | [] => mret (inr failures)
  | c :: rest =>
      outcome ← attempt_loop c 1 attempts failures;
      match outcome with
      | inl s => mret (inl s)
      | inr failures => legacy_tls_loop attempts rest failures
      end
  end.

Definition tls_failure (attempts : nat) (failures : list string) : error :=
  let error := match failures with
               | [] => match co_mode options with
                       | RelayOnly => "session grant has no relay candidates"
                       | Auto => "session grant has no usable candidates"
                       end
               | _ => join "; " failures
               end in
  EMsg ("Medium end-to-end service connection failed after up to " +:+ dec (Z.of_nat attempts)
        +:+ " attempt(s) per candidate for " +:+ server_name +:+ " on node " +:+ sg_node_id grant
        +:+ ": " +:+ error).

Definition connect_session_service_tls : eff dialer connected_session :=
  let attempts := Nat.max attempts 1 in
  outcome ← (if bool_decide (co_mode options = Auto)
             then ice_tls_loop (ice_checklist grant (co_preferred_ice options)) []
             else mret (inr []));
  match outcome with
  | inl s => mret s
  | inr failures =>
      outcome ← legacy_tls_loop attempts (ordered_legacy_candidates_for_mode grant (co_mode options)) failures;
      match outcome with
      | inl s => mret s
      | inr failures => throw (tls_failure attempts failures)
      end
  end.
End ServiceTls.
End Connect.

(** ** Lemmas: the order of candidates *)

Lemma ice_leb_total preferred l r : ice_leb preferred l r = true \/ ice_leb preferred r l = true.
Proof.
  unfold ice_leb. rewrite !orb_true_iff, !andb_true_iff, !orb_true_iff, !andb_true_iff, !orb_true_iff,
    !andb_true_iff, !Z.ltb_lt, !Z.eqb_eq.
  destruct (total text_le (ic_foundation l) (ic_foundation r)) as [H|H]; unfold text_le in H; rewrite H; lia.
Qed.
Lemma ice_leb_trans preferred a b c :
  ice_leb preferred a b = true -> ice_leb preferred b c = true -> ice_leb preferred a c = true.
Proof.
  unfold ice_leb. rewrite !orb_true_iff, !andb_true_iff, !orb_true_iff, !andb_true_iff, !orb_true_iff,
    !andb_true_iff, !Z.ltb_lt, !Z.eqb_eq.
  intros H1 H2.
  assert (text_leb (ic_foundation a) (ic_foundation b) = true ->
          text_leb (ic_foundation b) (ic_foundation c) = true ->
          text_leb (ic_foundation a) (ic_foundation c) = true) as Ht by apply text_le_trans.
  destruct H1 as [?|[? [?|[? [?|[? ?]]]]]], H2 as [?|[? [?|[? [?|[? ?]]]]]]; try lia.
  right. split; [lia|]. right. split; [lia|]. right. split; [lia|]. auto.
Qed.
Lemma legacy_leb_total l r : legacy_leb l r = true \/ legacy_leb r l = true.
Proof. unfold legacy_leb. lia. Qed.
Lemma legacy_leb_trans a b c : legacy_leb a b = true -> legacy_leb b c = true -> legacy_leb a c = true.
Proof. unfold legacy_leb. lia. Qed.

(** What a sorted list says of two positions. *)
Lemma strongly_sorted_lookup {A} (R : A -> A -> Prop) l i j a b :
  StronglySorted R l -> (i < j)%nat -> l !! i = Some a -> l !! j = Some b -> R a b.
Proof.
  intros Hs. revert i j; induction Hs as [|x l Hs IH Hall]; intros i j Hij Hi Hj; [done|].
  destruct j as [|j]; [lia|]. simpl in Hj. destruct i as [|i]; simpl in Hi.
  - injection Hi as <-. rewrite list.Forall_forall in Hall. apply Hall. by eapply list_elem_of_lookup_2.
  - apply (IH i j); [lia|done|done].
Qed.

Lemma elem_of_List_filter {A} (p : A -> bool) x l : x ∈ List.filter p l <-> p x = true /\ x ∈ l.
Proof. rewrite !list_elem_of_In, filter_In. tauto. Qed.
Lemma legacy_mode grant c mode :
  c ∈ ordered_legacy_candidates_for_mode grant mode ->
  c ∈ sa_candidates (sg_authorization grant) /\ (mode = RelayOnly -> is_relay_kind c = true).
Proof.
  unfold ordered_legacy_candidates_for_mode. rewrite sort_by_perm. destruct mode; [done|].
  rewrite elem_of_List_filter. tauto.
Qed.

(** ** Lemmas: frames *)

(** The bytes that the frames carry. *)
Definition frame_bytes (r : result frame) : list byte :=
  match r with Ok (FBinary bytes) | Ok (FText bytes) => bytes | _ => [] end.
Definition no_close (rs : list (result frame)) : Prop := Ok FClose ∉ rs.
(** All the bytes a WebSocket stream still has to deliver. *)
Definition undelivered (w : wss_byte_stream) : list byte :=
  wss_pending_read w ++ (ws_in (wss_socket w) ≫= frame_bytes).

Lemma on_socket_read w : on_socket ws_read w =
  match ws_in (wss_socket w) with
  | [] => (Err (EIo OtherIo), WssByteStream (wss_socket w) (wss_pending_read w))
  | Ok f :: rest =>
      (Ok f, WssByteStream (WebSocket rest (ws_sends (wss_socket w)) (ws_out (wss_socket w))
               (ws_pin (wss_socket w)) (ws_timeout (wss_socket w))) (wss_pending_read w))
  | Err _ :: rest =>
      (Err (EIo OtherIo), WssByteStream (WebSocket rest (ws_sends (wss_socket w)) (ws_out (wss_socket w))
               (ws_pin (wss_socket w)) (ws_timeout (wss_socket w))) (wss_pending_read w))
  end.
Proof.
  unfold on_socket, zoom, io_other, ws_read, set_socket. by destruct (ws_in (wss_socket w)) as [|[f|e] rest].
Qed.
Lemma on_socket_send f w : exists r s,
  on_socket (ws_send f) w = (r, WssByteStream s (wss_pending_read w)) /\ ws_in s = ws_in (wss_socket w)
  /\ (r = Ok tt \/ r = Err (EIo OtherIo)).
Proof.
  unfold on_socket, zoom, io_other, ws_send, set_socket.
  destruct (ws_sends (wss_socket w)) as [|[k|] rest]; simpl; eexists _, _; (split; [reflexivity|]); auto.
Qed.

(** A round of the reading loop neither loses nor repeats a byte, and it ends. *)
Lemma wss_read_loop_bytes fuel size w r w' :
  (length (ws_in (wss_socket w)) < fuel)%nat -> wss_pending_read w = [] ->
  wss_read_loop fuel size w = (r, w') ->
  default [] (result_ok r) ++ undelivered w' = undelivered w /\ r <> Err out_of_fuel.
Proof.
  revert w; induction fuel as [|fuel IH]; intros w Hf Hp; [lia|]. cbn [wss_read_loop].
  unfold mbind, eff_bind at 1. rewrite on_socket_read. unfold undelivered. rewrite Hp.
  destruct (ws_in (wss_socket w)) as [|[f|e] rest] eqn:Ein.
  - intros [= <- <-]. simpl. by rewrite Ein.
  - simpl in Hf.
    destruct f as [b|b| |b|b|b]; cbn [wss_deliver mret eff_ret];
      try (intros [= <- <-]; simpl; rewrite ?app_assoc, ?take_drop; done).
    + set (w1 := WssByteStream _ []). destruct (on_socket_send (FPong b) w1) as (r1 & s & Hs & Hin & Hr).
      unfold eff_bind. rewrite Hs. destruct Hr as [-> | ->].
      * intros Hl. apply IH in Hl; simpl in *; [|rewrite Hin; lia|done].
        unfold undelivered in Hl. simpl in Hl. by rewrite Hin in Hl.
      * intros [= <- <-]. simpl. by rewrite Hin.
    + intros Hl. apply IH in Hl; [done|simpl; lia|done].
    + intros Hl. apply IH in Hl; [done|simpl; lia|done].
  - intros [= <- <-]. done.
Qed.
Lemma wss_read_bytes size w r w' : wss_read size w = (r, w') ->
  default [] (result_ok r) ++ undelivered w' = undelivered w /\ r <> Err out_of_fuel.
Proof.
  unfold wss_read. destruct (wss_pending_read w) as [|b pending] eqn:Hp.
  - apply wss_read_loop_bytes; [lia|done].
  - intros [= <- <-]. unfold undelivered. rewrite Hp. simpl. by rewrite app_assoc, take_drop.
Qed.

(** Frames that carry bytes or need no answer, on a connection whose sends succeed. *)
Definition data_frame (r : result frame) : Prop :=
  match r with
  | Ok (FBinary bytes) | Ok (FText bytes) => bytes <> []
  | Ok (FPing _) | Ok (FPong _) | Ok (FRaw _) => True
  | Ok FClose | Err _ => False
  end.
Definition healthy (w : wss_byte_stream) : Prop :=
  Forall data_frame (ws_in (wss_socket w)) /\ ws_sends (wss_socket w) = [].

Lemma wss_read_loop_progress fuel size w :
  (length (ws_in (wss_socket w)) < fuel)%nat -> wss_pending_read w = [] -> (0 < size)%nat ->
  healthy w -> undelivered w <> [] ->
  exists b out w', wss_read_loop fuel size w = (Ok (b :: out), w') /\ healthy w'.
Proof.
  intros Hf Hp Hsize. revert w Hf Hp; induction fuel as [|fuel IH]; intros w Hf Hp [Hdata Hsends] Hne; [lia|].
  cbn [wss_read_loop]. unfold mbind, eff_bind at 1. rewrite on_socket_read.
  unfold undelivered in Hne. rewrite Hp in Hne.
  destruct (ws_in (wss_socket w)) as [|[f|e] rest] eqn:Ein; [done| |by apply Forall_cons_1 in Hdata as [? _]].
  simpl in Hf. apply Forall_cons_1 in Hdata as [Hd Hdata]. rewrite Hsends, Hp.
  destruct size as [|size]; [lia|].
  destruct f as [b|b| |b|b|b]; cbn [wss_deliver]; simpl in Hd; try done.
  - destruct b as [|x b]; [done|]. simpl. eexists _, _, _. split; [reflexivity|]. by split.
  - destruct b as [|x b]; [done|]. simpl. eexists _, _, _. split; [reflexivity|]. by split.
  - cbn. apply IH; simpl; [lia|done|by split|done].
  - cbn. apply IH; simpl; [lia|done|by split|done].
  - cbn. apply IH; simpl; [lia|done|by split|done].
Qed.
Lemma wss_read_progress size w :
  (0 < size)%nat -> healthy w -> undelivered w <> [] ->
  exists b out w', wss_read size w = (Ok (b :: out), w') /\ healthy w'.
Proof.
  intros Hsize Hw Hne. unfold wss_read. destruct (wss_pending_read w) as [|b pending] eqn:Hp.
  - by apply wss_read_loop_progress; [lia|..].
  - destruct size; [lia|]. simpl. eexists _, _, _. split; [reflexivity|]. done.
Qed.

(** A client that reads with buffers of the given sizes: the bytes it gets. *)
Fixpoint run_reads (sizes : list nat) (w : wss_byte_stream) : list byte * wss_byte_stream :=
  match sizes with
  | [] => ([], w)
  | size :: rest =>
      let '(r, w1) := wss_read size w in
      let '(out, w2) := run_reads rest w1 in
      (default [] (result_ok r) ++ out, w2)
  end.

Lemma run_reads_all sizes w :
  healthy w -> Forall (fun n => 0 < n)%nat sizes -> (length (undelivered w) <= length sizes)%nat ->
  (run_reads sizes w).1 = undelivered w.
Proof.
  revert w; induction sizes as [|n sizes IH]; intros w Hw Hs Hlen.
  { simpl in *. destruct (undelivered w); [done|simpl in Hlen; lia]. }
  apply Forall_cons_1 in Hs as [Hn Hs]. cbn [run_reads].
  destruct (decide (undelivered w = [])) as [Hnil|Hne].
  - destruct (wss_read n w) as [r w1] eqn:Hr. destruct (run_reads sizes w1) as [out w2] eqn:Hrun.
    assert (forall l w w', run_reads sizes w = (l, w') -> l ++ undelivered w' = undelivered w) as Hall.
    { clear. induction sizes as [|n sizes IH]; intros l w w'; simpl; [by intros [= <- <-]|].
      destruct (wss_read n w) as [r w1] eqn:Hr. destruct (run_reads sizes w1) as [out w2] eqn:Hrun.
      intros [= <- <-]. apply wss_read_bytes in Hr as [<- _]. apply IH in Hrun as <-. by rewrite app_assoc. }
    apply wss_read_bytes in Hr as [Hr _]. apply Hall in Hrun. rewrite Hnil, <- Hrun in Hr.
    apply app_eq_nil in Hr as [-> Hr]. apply app_eq_nil in Hr as [-> _]. done.
  - destruct (wss_read_progress n w Hn Hw Hne) as (b & out & w1 & Hr & Hw1). rewrite Hr.
    apply wss_read_bytes in Hr as [Hr _]. simpl in Hr. specialize (IH w1 Hw1 Hs).
    assert (length (undelivered w1) <= length sizes)%nat as Hle.
    { rewrite <- Hr in Hlen. simpl in Hlen. rewrite length_app in Hlen. lia. }
    specialize (IH Hle). destruct (run_reads sizes w1) as [out2 w2]. simpl in *. by rewrite IH.
Qed.
Lemma run_reads_bytes sizes w :
  (run_reads sizes w).1 ++ undelivered (run_reads sizes w).2 = undelivered w.
Proof.
  revert w; induction sizes as [|n sizes IH]; intros w; [done|]. simpl.
  destruct (wss_read n w) as [r w1] eqn:Hr. specialize (IH w1).
  destruct (run_reads sizes w1) as [out w2] eqn:Hrun. simpl in *.
  apply wss_read_bytes in Hr as [<- _]. by rewrite <- app_assoc, IH.
Qed.

(** ** Lemmas: the handshake loop *)

Lemma handshake_loop_ends fuel deadline timed_out failed events hs time :
  Forall (fun e => 0 <= te_elapsed e) events ->
  (length events + 1 + Z.to_nat ((deadline - time) / millis 105 + 1) < fuel)%nat ->
  (forall e, timed_out e <> out_of_fuel) -> (forall e, failed e <> out_of_fuel) ->
  (handshake_loop fuel deadline timed_out failed events hs time).1 <> Err out_of_fuel.
Proof.
  intros He Hf Ht Hb. revert events hs time He Hf.
  induction fuel as [|fuel IH]; intros events hs time He Hf; [lia|]. cbn [handshake_loop].
  destruct hs; [|done]. simpl negb. destruct events as [|ev events]; cbn [next_tls_event].
  - cbn [te_elapsed te_result]. simpl length in Hf.
    destruct (Z.ltb_spec (time + millis 100) deadline) as [Hlt|Hge]; simpl; [|intros [= H]; by eapply Ht].
    apply IH; [done|]. simpl. revert Hf Hlt. unfold millis. intros Hf Hlt.
    replace (deadline - (time + 100 * 1000000 + 5 * 1000000)) with (deadline - time + (-1) * (105 * 1000000)) by lia.
    rewrite Z.div_add by lia. set (q := (deadline - time) / (105 * 1000000)) in *.
    assert (0 <= q) by (apply Z.div_pos; lia). lia.
  - apply Forall_cons_1 in He as [Hev He]. simpl length in Hf.
    assert (forall t, time <= t -> (Z.to_nat ((deadline - t) / millis 105 + 1)
             <= Z.to_nat ((deadline - time) / millis 105 + 1))%nat) as Hmono.
    { intros t Htt. assert ((deadline - t) / millis 105 <= (deadline - time) / millis 105)
        by (apply Z.div_le_mono; unfold millis; lia). lia. }
    destruct (te_result ev) as [more|e].
    + apply IH; [done|]. specialize (Hmono (time + te_elapsed ev)). lia.
    + destruct (is_timeout e); simpl; [|intros [= H]; by eapply Hb].
      destruct (Z.ltb_spec (time + te_elapsed ev) deadline) as [Hlt|Hge]; [|intros [= H]; by eapply Ht].
      apply IH; [done|]. specialize (Hmono (time + te_elapsed ev + millis 5)). unfold millis in *. lia.
Qed.

(** ** Lemmas: the attempts as one plan *)

Section PlanFacts.
Context `{Json udp_rendezvous_message} `{Json session_hello} `{Json relay_hello} `{Sha256}.
Context (to_socket_addrs : string -> result (list socket_addr)) (url_parse : string -> option url).
Context (show_error : error -> string).
Context (pem_certs : string -> result (list (list byte))) (root_add : list byte -> result unit).
Context (server_name_ok : string -> bool) (client_connection : string -> result unit).
Context (grant : session_open_grant) (options : connect_options).
Context (server_name service_ca_pem : string) (retry_delay : Z).

(** One attempt: what the error report calls it, its number, the path it leads to, what it
    does, and whether it is an ICE path. *)
Record step := Step {
  step_label : string;
  step_attempt : nat;
  step_path : selected_path;
  step_pause : bool;
  step_connect : eff dialer connected_session
}.
Definition step_run (s : step) : eff dialer connected_session :=
  with_tls show_error pem_certs root_add server_name_ok client_connection server_name service_ca_pem
    (step_connect s).
Definition ice_step (c : ice_candidate) : step :=
  Step ("ice_udp/" +:+ ice_kind_str (ic_kind c) +:+ " " +:+ ice_candidate_addr c) 1
    (SelectedPath ("ice_udp/" +:+ ice_kind_str (ic_kind c)) (ice_candidate_addr c)) false
    (connect_ice_udp_session_candidate to_socket_addrs grant c).
Definition legacy_step (c : peer_candidate) (n left : nat) : step :=
  Step (candidate_kind_str (pc_kind c) +:+ " " +:+ pc_addr c) n
    (SelectedPath (candidate_kind_str (pc_kind c)) (pc_addr c)) (negb (Nat.eqb left 0))
    (connect_legacy_session_candidate to_socket_addrs url_parse grant (co_control_pin options) c).
(** [left] attempts at a candidate, from number [n]. *)
Fixpoint legacy_steps (c : peer_candidate) (n left : nat) : list step :=
  match left with
  | O => []
  | S left' => legacy_step c n left' :: legacy_steps c (S n) left'
  end.
Definition ice_steps : list step :=
  match co_mode options with
  | Auto => map ice_step
      (List.filter (fun c => negb (is_unusable_backend_candidate_addr (ice_candidate_addr c)))
         (ice_checklist grant (co_preferred_ice options)))
  | RelayOnly => []
  end.
(** Every usable ICE candidate once, then every legacy candidate [attempts] times. *)
Definition plan (attempts : nat) : list step :=
  ice_steps ++ (ordered_legacy_candidates_for_mode grant (co_mode options)
                ≫= (fun c => legacy_steps c 1 (Nat.max attempts 1))).

(** [run_plan p]: the attempts one by one until one succeeds. *)
Fixpoint run_plan (p : list step) (failures : list string) : eff dialer (connected_session + list string) :=
  match p with
  | [] => mret (inr failures)
  | s :: rest => fun d =>
      match step_run s d with
      | (Ok c, d') => (Ok (inl c), d')
      | (Err e, d') =>
          run_plan rest (failures ++ [candidate_failure show_error (step_label s) (step_attempt s) e])
            (if step_pause s then (sleep_for retry_delay d').2 else d')
      end
  end.

Lemma ice_loop_plan cs failures d :
  ice_tls_loop to_socket_addrs show_error pem_certs root_add server_name_ok client_connection grant
    server_name service_ca_pem cs failures d
  = run_plan (map ice_step
      (List.filter (fun c => negb (is_unusable_backend_candidate_addr (ice_candidate_addr c))) cs)) failures d.
Proof.
  revert failures d; induction cs as [|c cs IH]; intros failures d; [done|]. simpl.
  destruct (is_unusable_backend_candidate_addr (ice_candidate_addr c)); simpl; [apply IH|].
  unfold mbind, eff_bind, attempt, step_run. simpl.
  destruct (with_tls _ _ _ _ _ _ _ _ d) as [[s|e] d']; [done|]. apply IH.
Qed.

Lemma run_plan_app p q failures d :
  run_plan (p ++ q) failures d =
  match run_plan p failures d with
  | (Ok (inr fs), d') => run_plan q fs d'
  | r => r
  end.
Proof.
  revert failures d; induction p as [|s p IH]; intros failures d; [done|]. simpl.
  destruct (step_run s d) as [[c|e] d']; [done|]. apply IH.
Qed.
Lemma run_plan_ok p failures d : exists r d', run_plan p failures d = (Ok r, d').
Proof.
  revert failures d; induction p as [|s p IH]; intros failures d; simpl; [eauto|].
  destruct (step_run s d) as [[c|e] d']; [eauto|]. apply IH.
Qed.
Lemma attempt_loop_plan c n left failures d :
  attempt_loop to_socket_addrs url_parse show_error pem_certs root_add server_name_ok client_connection grant
    options server_name service_ca_pem retry_delay c n left failures d
  = run_plan (legacy_steps c n left) failures d.
Proof.
  revert n failures d; induction left as [|left IH]; intros n failures d; [done|]. simpl.
  unfold mbind, eff_bind, attempt at 1, step_run. simpl.
  destruct (with_tls _ _ _ _ _ _ _ _ d) as [[s|e] d']; [done|].
  destruct left; [done|]. apply IH.
Qed.
Lemma legacy_loop_plan k cs failures d :
  legacy_tls_loop to_socket_addrs url_parse show_error pem_certs root_add server_name_ok client_connection grant
    options server_name service_ca_pem retry_delay k cs failures d
  = run_plan (cs ≫= (fun c => legacy_steps c 1 k)) failures d.
Proof.
  revert failures d; induction cs as [|c cs IH]; intros failures d; [done|].
  rewrite bind_cons, run_plan_app, <- attempt_loop_plan. cbn [legacy_tls_loop].
  unfold mbind, eff_bind.
  rewrite attempt_loop_plan. destruct (run_plan_ok (legacy_steps c 1 k) failures d) as (r & d' & ->).
  destruct r as [s|fs]; [done|]. apply IH.
Qed.

(** [connect_session_service_tls] runs the plan. *)
Lemma service_tls_plan attempts d :
  connect_session_service_tls to_socket_addrs url_parse show_error pem_certs root_add server_name_ok
    client_connection grant options server_name service_ca_pem attempts retry_delay d
  = match run_plan (plan attempts) [] d with
    | (Ok (inl s), d') => (Ok s, d')
    | (Ok (inr fs), d') => (Err (tls_failure grant options server_name (Nat.max attempts 1) fs), d')
    | (Err e, d') => (Err e, d')
    end.
Proof.
  unfold connect_session_service_tls, plan, ice_steps. cbv zeta. rewrite run_plan_app.
  unfold mbind, eff_bind. destruct (co_mode options).
  - rewrite bool_decide_eq_true_2 by done. rewrite ice_loop_plan.
    destruct (run_plan_ok (map ice_step
      (List.filter (fun c => negb (is_unusable_backend_candidate_addr (ice_candidate_addr c)))
         (ice_checklist grant (co_preferred_ice options)))) [] d) as (r & d' & ->).
    destruct r as [s|fs]; [done|]. rewrite legacy_loop_plan.
    destruct (run_plan_ok (ordered_legacy_candidates_for_mode grant Auto
                ≫= (fun c => legacy_steps c 1 (Nat.max attempts 1))) fs d') as (r2 & d2 & E).
    unfold mbind in *. rewrite E. by destruct r2.
  - rewrite bool_decide_eq_false_2 by done. cbn [mret eff_ret]. rewrite legacy_loop_plan. simpl run_plan at 2.
    unfold mret, eff_ret.
    destruct (run_plan_ok (ordered_legacy_candidates_for_mode grant RelayOnly
                ≫= (fun c => legacy_steps c 1 (Nat.max attempts 1))) [] d) as (r2 & d2 & E).
    unfold mbind in *. rewrite E. by destruct r2.
Qed.

(** The steps that failed, one after the other, with their reports. *)
Inductive all_fail : list step -> dialer -> list string -> dialer -> Prop :=
  | all_fail_nil d : all_fail [] d [] d
  | all_fail_cons s rest d e d1 fs d2 :
      step_run s d = (Err e, d1) ->
      all_fail rest (if step_pause s then (sleep_for retry_delay d1).2 else d1) fs d2 ->
      all_fail (s :: rest) d (candidate_failure show_error (step_label s) (step_attempt s) e :: fs) d2.

Lemma run_plan_spec p failures d :
  match run_plan p failures d with
  | (Ok (inl c), d') => exists before s after fs d1, p = before ++ s :: after /\
      all_fail before d fs d1 /\ step_run s d1 = (Ok c, d')
  | (Ok (inr fs), d') => exists new, fs = failures ++ new /\ all_fail p d new d'
  | (Err _, _) => False
  end.
Proof.
  revert failures d; induction p as [|s p IH]; intros failures d; simpl.
  { exists []. rewrite app_nil_r. split; [done|constructor]. }
  destruct (step_run s d) as [[c|e] d1] eqn:E.
  { exists [], s, p, [], d. split_and!; [done|constructor|done]. }
  specialize (IH (failures ++ [candidate_failure show_error (step_label s) (step_attempt s) e])
                 (if step_pause s then (sleep_for retry_delay d1).2 else d1)).
  destruct (run_plan p _ _) as [[[c|fs]|e'] d'].
  - destruct IH as (b & s' & a & fs & d2 & -> & Hf & Hs). eexists (s :: b), s', a, _, d2.
    split_and!; [done|by econstructor|done].
  - destruct IH as (new & -> & Hf). eexists. rewrite <- app_assoc. split; [reflexivity|by econstructor].
  - done.
Qed.

(** The path of a session is the one of its step. *)
Lemma with_tls_path m d s d' :
  with_tls show_error pem_certs root_add server_name_ok client_connection server_name service_ca_pem m d
    = (Ok s, d') -> exists s0 d0, m d = (Ok s0, d0) /\ cs_path s0 = cs_path s.
Proof.
  unfold with_tls, connect_service_tls_with_timeout. intros Hr. inv_eff. eauto.
Qed.
Lemma legacy_candidate_path c d s d' :
  connect_legacy_session_candidate to_socket_addrs url_parse grant (co_control_pin options) c d = (Ok s, d') ->
  cs_path s = SelectedPath (candidate_kind_str (pc_kind c)) (pc_addr c).
Proof. unfold connect_legacy_session_candidate. intros Hr. by inv_eff. Qed.
Lemma ice_candidate_path c d s d' :
  connect_ice_udp_session_candidate to_socket_addrs grant c d = (Ok s, d') ->
  cs_path s = SelectedPath ("ice_udp/" +:+ ice_kind_str (ic_kind c)) (ice_candidate_addr c).
Proof.
  unfold connect_ice_udp_session_candidate. intros Hr. apply eff_bind_ok in Hr as ([s0 n0] & d0 & _ & Hr).
  by inv_eff.
Qed.
End PlanFacts.

(** Without ICE no UDP socket is made. *)
Section NoUdp.
Context `{Json udp_rendezvous_message} `{Json session_hello} `{Json relay_hello} `{Sha256}.
Context (to_socket_addrs : string -> result (list socket_addr)) (url_parse : string -> option url).
Context (show_error : error -> string).
Context (pem_certs : string -> result (list (list byte))) (root_add : list byte -> result unit).
Context (server_name_ok : string -> bool) (client_connection : string -> result unit).
Context (udp : list (result net)).
Local Definition same_udp (d : dialer) : Prop := d_udp d = udp.

Lemma keeps_connect_timeout a : preserves same_udp (connect_timeout a).
Proof. intros d r d' Hd. unfold connect_timeout. by destruct (d_tcp d); intros [= <- <-]. Qed.
Lemma keeps_client_tls p : preserves same_udp (client_tls p).
Proof. intros d r d' Hd. unfold client_tls. by destruct (d_wss d); intros [= <- <-]. Qed.
Lemma keeps_sleep_for t : preserves same_udp (sleep_for t).
Proof. by apply preserves_modify. Qed.
Lemma keeps_handshake t f g : preserves same_udp (run_handshake t f g).
Proof.
  intros d r d' Hd. unfold run_handshake. destruct (d_tls d) as [|ev rest];
    (destruct (handshake_loop _ _ _ _ _ _ _) as [r1 t1]; by intros [= <- <-]).
Qed.
#[local] Hint Resolve keeps_connect_timeout keeps_client_tls keeps_sleep_for keeps_handshake : preserves.

Lemma keeps_connect_tcp addr : preserves same_udp (connect_tcp to_socket_addrs addr).
Proof.
  unfold connect_tcp. apply preserves_bind; [auto with preserves|]. intros addrs.
  generalize (@None error). induction addrs as [|a addrs IH]; intros le; simpl; [auto with preserves|].
  apply preserves_bind; [auto with preserves|]. intros [t|e]; auto with preserves.
Qed.
#[local] Hint Resolve keeps_connect_tcp : preserves.
Lemma keeps_legacy_candidate grant pin c :
  preserves same_udp (connect_legacy_session_candidate to_socket_addrs url_parse grant pin c).
Proof.
  unfold connect_legacy_session_candidate, connect_session_candidate, connect_wss_relay.
  apply preserves_bind; [|auto with preserves].
  destruct (pc_kind c); repeat (apply preserves_bind; [auto with preserves|intros ?]); auto with preserves.
  repeat (apply preserves_bind; [|intros ?]); auto with preserves.
  destruct pin; auto with preserves.
Qed.
#[local] Hint Resolve keeps_legacy_candidate : preserves.
Lemma keeps_with_tls name ca m : preserves same_udp m ->
  preserves same_udp (with_tls show_error pem_certs root_add server_name_ok client_connection name ca m).
Proof.
  intros Hm. unfold with_tls, connect_service_tls_with_timeout. apply preserves_bind; [done|]. intros c.
  repeat (apply preserves_bind; [auto with preserves|intros ?]); auto with preserves.
Qed.
Lemma keeps_legacy_loop grant options cs le :
  preserves same_udp (connect_legacy_loop to_socket_addrs url_parse grant options cs le).
Proof.
  revert le; induction cs as [|c cs IH]; intros le; simpl; [auto with preserves|].
  destruct (is_unusable_backend_candidate_addr _); [done|].
  apply preserves_bind; [auto with preserves|]. intros [s|e]; auto with preserves.
Qed.
Lemma keeps_plan_steps name ca steps d fs d' pause :
  (forall s, s ∈ steps -> preserves same_udp (step_connect s)) ->
  all_fail show_error pem_certs root_add server_name_ok client_connection name ca pause steps d fs d' ->
  same_udp d -> same_udp d'.
Proof.
  intros Hs Hf. induction Hf as [|s rest d e d1 fs d2 Hr Hf IH]; intros Hd; [done|].
  apply IH; [intros s' Hs'; apply Hs; by right|].
  assert (same_udp d1) as Hd1 by (eapply keeps_with_tls; [apply Hs; by left|exact Hd|exact Hr]).
  destruct (step_pause s); [|done]. done.
Qed.
End NoUdp.

Lemma legacy_steps_elem `{Json udp_rendezvous_message} `{Json session_hello} `{Json relay_hello}
    to_socket_addrs url_parse grant options c n left s :
  s ∈ legacy_steps to_socket_addrs url_parse grant options c n left ->
  step_connect s = connect_legacy_session_candidate to_socket_addrs url_parse grant (co_control_pin options) c.
Proof.
  revert n; induction left as [|left IH]; intros n Hs; [by apply not_elem_of_nil in Hs|].
  apply elem_of_cons in Hs as [->|Hs]; [done|]. by eapply IH.
Qed.
Lemma legacy_loop_ok `{Json udp_rendezvous_message} `{Json session_hello} `{Json relay_hello}
    to_socket_addrs url_parse grant options cs le d s d' :
  connect_legacy_loop to_socket_addrs url_parse grant options cs le d = (Ok s, d') ->
  exists c, c ∈ cs /\ cs_path s = SelectedPath (candidate_kind_str (pc_kind c)) (pc_addr c).
Proof.
  revert le d; induction cs as [|c cs IH]; intros le d; cbn [connect_legacy_loop]; [done|].
  assert (forall le d, connect_legacy_loop to_socket_addrs url_parse grant options cs le d = (Ok s, d') ->
    exists c', c' ∈ c :: cs /\ cs_path s = SelectedPath (candidate_kind_str (pc_kind c')) (pc_addr c')) as IH'.
  { intros le' d0 Hr. apply IH in Hr as (c' & Hc & Hp). exists c'. split; [by right|done]. }
  destruct (is_unusable_backend_candidate_addr _); [apply IH'|]. unfold mbind, eff_bind, attempt.
  destruct (connect_legacy_session_candidate _ _ _ _ _ d) as [[s1|e] d1] eqn:E; [|apply IH'].
  intros [= <- <-]. exists c. split; [by left|by eapply legacy_candidate_path].
Qed.

(** What a connection has carried: the hellos a node or a relay reads from it. *)
Definition hellos_sent `{Json session_hello} `{Json relay_hello} (grant : session_open_grant)
    (c : peer_candidate) (s : session_stream) : Prop :=
  match pc_kind c, s with
  | DirectTcp, STcp t => read_json_line (tcp_sent t) = Ok (hello_of grant, [])
  | RelayTcp, STcp t => exists rest, read_json_line (tcp_sent t) = Ok (RelayClient (sg_node_id grant), rest) /\
      read_json_line rest = Ok (hello_of grant, [])
  | WssRelay, SWss w => exists relay_bytes line,
      ws_out (wss_socket w) = [FText relay_bytes; FBinary line] /\ wss_pending_read w = [] /\
      from_slice relay_bytes = Ok (RelayClient (sg_node_id grant)) /\ read_json_line line = Ok (hello_of grant, [])
  | _, _ => False
  end.

Lemma connect_tcp_fresh to_socket_addrs addr d t d' :
  connect_tcp to_socket_addrs addr d = (Ok t, d') -> tcp_sent t = [].
Proof.
  unfold connect_tcp. intros Hr. apply eff_bind_ok in Hr as (addrs & d0 & _ & Hr).
  revert d0 Hr. generalize (@None error). induction addrs as [|a addrs IH]; intros le d0; cbn [connect_tcp_loop]; [done|].
  unfold mbind, eff_bind, attempt. destruct (connect_timeout a d0) as [[t1|e] d1] eqn:E; [|apply IH].
  intros [= <- <-]. unfold connect_timeout in E. destruct (d_tcp d0) as [|[t2|e2] rest]; [done| |done].
  by injection E as <- <-.
Qed.
Lemma tcp_write_all_sent bytes t t' : tcp_write_all bytes t = Ok t' -> tcp_sent t' = tcp_sent t ++ bytes.
Proof. unfold tcp_write_all. by destruct (tcp_writes t) as [|[k|] rest]; intros [= <-]. Qed.
Lemma write_session_hello_sent `{Json session_hello} t grant t' : write_session_hello t grant = Ok t' ->
  exists p, write_json_line (hello_of grant) = Ok p /\ tcp_sent t' = tcp_sent t ++ p.
Proof.
  unfold write_session_hello. unfold_result. destruct (write_json_line (hello_of grant)) as [p|e]; [|done].
  intros Hw%tcp_write_all_sent. eauto.
Qed.
Lemma ws_send_on_out s f s' : ws_send_on s f = Ok s' -> ws_out s' = ws_out s ++ [f] /\ ws_pin s' = ws_pin s.
Proof. unfold ws_send_on, ws_send. by destruct (ws_sends s) as [|[k|] rest]; intros [= <-]. Qed.
Lemma client_tls_fresh pin d s d' : client_tls pin d = (Ok s, d') -> ws_out s = [] /\ ws_pin s = pin.
Proof. unfold client_tls. destruct (d_wss d) as [|[s0|e] rest]; [done| |done]. by intros [= <- <-]. Qed.

(** A connection to a legacy candidate carried exactly the hellos its reader expects. *)
Lemma candidate_hellos
    `{JsonOk session_hello} `{JsonOk relay_hello}
    (to_socket_addrs : string -> result (list socket_addr)) (url_parse : string -> option url)
    (grant : session_open_grant) (control_pin : option string) (c : peer_candidate)
    (d d' : dialer) (s : session_stream)
    (Hshort1 : forall p, to_vec (hello_of grant) = Ok p -> (length p <= hello_limit)%nat)
    (Hshort2 : forall p, to_vec (RelayClient (sg_node_id grant)) = Ok p -> (length p <= hello_limit)%nat)
    (Hconnected : connect_session_candidate to_socket_addrs url_parse grant control_pin c d = (Ok s, d')) :
  hellos_sent grant c s.
Proof.
  assert (forall p rest, write_json_line (hello_of grant) = Ok p -> read_json_line (p ++ rest) = Ok (hello_of grant, rest)) as Hhello.
  { intros p rest Hp. apply read_json_line_written; [done|]. unfold write_json_line in Hp. unfold_result.
    destruct (to_vec (hello_of grant)) as [q|e]; [|done]. injection Hp as <-. rewrite length_app. simpl.
    specialize (Hshort1 _ eq_refl). lia. }
  assert (forall p rest, write_json_line (RelayClient (sg_node_id grant)) = Ok p ->
    read_json_line (p ++ rest) = Ok (RelayClient (sg_node_id grant), rest)) as Hrelay.
  { intros p rest Hp. apply read_json_line_written; [done|]. unfold write_json_line in Hp. unfold_result.
    destruct (to_vec (RelayClient (sg_node_id grant))) as [q|e]; [|done]. injection Hp as <-. rewrite length_app. simpl.
    specialize (Hshort2 _ eq_refl). lia. }
  assert (forall p, write_json_line (hello_of grant) = Ok p -> read_json_line p = Ok (hello_of grant, [])) as Hhello'.
  { intros p Hp. rewrite <- (app_nil_r p). by apply Hhello. }
  unfold connect_session_candidate in Hconnected. unfold hellos_sent.
  destruct (pc_kind c); apply eff_bind_ok in Hconnected as (t & d1 & Ht & Hr).
  - apply connect_tcp_fresh in Ht. apply eff_bind_ok in Hr as (t' & d2 & Hw & Hr). inv_eff.
    apply write_session_hello_sent in Hw as (p & Hp & ->). rewrite Ht. by apply Hhello'.
  - apply connect_tcp_fresh in Ht. apply eff_bind_ok in Hr as (q & d2 & Hq & Hr).
    apply eff_bind_ok in Hr as (t1 & d3 & Hw1 & Hr). apply eff_bind_ok in Hr as (t2 & d4 & Hw2 & Hr). inv_eff.
    apply tcp_write_all_sent in Hw1. apply write_session_hello_sent in Hw2 as (p & Hp & ->).
    exists p. rewrite Hw1, Ht. split; [by apply Hrelay|]. by apply Hhello'.
  - unfold connect_wss_relay in Ht.
    apply eff_bind_ok in Ht as (addr & d2 & _ & Ht). apply eff_bind_ok in Ht as (tcp & d3 & _ & Ht).
    apply eff_bind_ok in Ht as (pin & d4 & _ & Ht). apply eff_bind_ok in Ht as (ws & d5 & Hws & Ht).
    apply client_tls_fresh in Hws as [Hout _].
    apply eff_bind_ok in Ht as (q & d6 & Hq & Ht). apply eff_bind_ok in Ht as (ws1 & d7 & Hw1 & Ht).
    apply eff_bind_ok in Ht as (p & d8 & Hp & Ht). inv_eff.
    apply ws_send_on_out in Hw1 as [Hw1 _]. apply ws_send_on_out in Ht as [Ht _].
    exists q, p. simpl. rewrite Ht, Hw1, Hout. split_and!; [done|done|by apply json_roundtrip|].
    by apply Hhello'.
Qed.

(** ** Properties *)

(** The ICE checklist holds exactly the UDP candidates of the grant; the preferred one
    comes first, then host before server-reflexive before relay candidates, and higher
    priorities first.  The legacy candidates come by descending priority, equal
    priorities in the grant's order, and a relay-only session keeps only the relays. *)
Theorem candidates_are_tried_in_order (grant : session_open_grant) (preferred : option ice_candidate)
    (mode : transport_mode) :
  (forall c, c ∈ ice_checklist grant preferred <->
     exists ice, sa_ice (sg_authorization grant) = Some ice /\ c ∈ ig_candidates ice /\
       eq_ignore_ascii_case (ic_transport c) "udp" = true) /\
  (forall i j a b, (i < j)%nat -> ice_checklist grant preferred !! i = Some a ->
     ice_checklist grant preferred !! j = Some b ->
     candidate_preference_rank a preferred <= candidate_preference_rank b preferred /\
     (candidate_preference_rank a preferred = candidate_preference_rank b preferred ->
        ice_kind_rank (ic_kind a) <= ice_kind_rank (ic_kind b) /\
        (ic_kind a = ic_kind b -> ic_priority b <= ic_priority a))) /\
  let legacy := ordered_legacy_candidates_for_mode grant mode in
  legacy ≡ₚ List.filter (fun c => bool_decide (mode = Auto) || is_relay_kind c) (sa_candidates (sg_authorization grant)) /\
  (forall i j a b, (i < j)%nat -> legacy !! i = Some a -> legacy !! j = Some b -> pc_priority b <= pc_priority a) /\
  forall p, List.filter (fun c => pc_priority c =? p) legacy =
    List.filter (fun c => pc_priority c =? p)
      (List.filter (fun c => bool_decide (mode = Auto) || is_relay_kind c) (sa_candidates (sg_authorization grant))).
Proof.
  assert (match mode with RelayOnly => List.filter is_relay_kind (sa_candidates (sg_authorization grant))
          | Auto => sa_candidates (sg_authorization grant) end =
          List.filter (fun c => bool_decide (mode = Auto) || is_relay_kind c) (sa_candidates (sg_authorization grant))) as Hmode.
  { destruct mode; simpl; [|done]. induction (sa_candidates _) as [|c l IH]; [done|]. simpl. by rewrite <- IH. }
  unfold ordered_legacy_candidates_for_mode. cbv zeta. rewrite Hmode. split_and!.
  - intros c. unfold ice_checklist. destruct (sa_ice (sg_authorization grant)) as [ice|].
    + rewrite sort_by_perm, elem_of_List_filter. naive_solver.
    + split; [by intros ?%not_elem_of_nil|naive_solver].
  - intros i j a b Hij Hi Hj. unfold ice_checklist in Hi, Hj.
    destruct (sa_ice (sg_authorization grant)) as [ice|]; [|done].
    pose proof (strongly_sorted_lookup _ _ i j a b
      (sort_by_sorted _ (ice_leb_total preferred) (ice_leb_trans preferred) _) Hij Hi Hj) as Hle.
    cbv beta in Hle. unfold ice_leb in Hle. revert Hle.
    rewrite !orb_true_iff, !andb_true_iff, !orb_true_iff, !andb_true_iff, !orb_true_iff,
      !andb_true_iff, !Z.ltb_lt, !Z.eqb_eq. intros Hle.
    split; [lia|]. intros Hr. split; [lia|]. intros Hk. rewrite Hk in Hle. lia.
  - apply sort_by_perm.
  - intros i j a b Hij Hi Hj.
    pose proof (strongly_sorted_lookup _ _ i j a b (sort_by_sorted _ legacy_leb_total legacy_leb_trans _) Hij Hi Hj) as Hle.
    cbv beta in Hle. unfold legacy_leb in Hle. lia.
  - intros p. apply sort_by_stable. unfold legacy_leb. intros a b. lia.
Qed.

(** C16. [connect_session_service_tls] is one pass over a plan: the usable ICE candidates
    once each (not for a relay-only session), then each legacy candidate as often as
    asked.  It returns the session of the first step that succeeds, every step before
    it having failed, or, when all fail, one error that reports every failure. *)
Theorem service_connection_takes_the_first_success
    `{Json udp_rendezvous_message} `{Json session_hello} `{Json relay_hello} `{Sha256}
    (to_socket_addrs : string -> result (list socket_addr)) (url_parse : string -> option url)
    (show_error : error -> string) (pem_certs : string -> result (list (list byte)))
    (root_add : list byte -> result unit) (server_name_ok : string -> bool)
    (client_connection : string -> result unit) (grant : session_open_grant) (options : connect_options)
    (server_name service_ca_pem : string) (attempts : nat) (retry_delay : Z) (d : dialer) :
  let steps := plan to_socket_addrs url_parse grant options attempts in
  let run := step_run show_error pem_certs root_add server_name_ok client_connection server_name service_ca_pem in
  let failed := all_fail show_error pem_certs root_add server_name_ok client_connection server_name
                  service_ca_pem retry_delay in
  match connect_session_service_tls to_socket_addrs url_parse show_error pem_certs root_add server_name_ok
          client_connection grant options server_name service_ca_pem attempts retry_delay d with
  | (Ok s, d') => exists before step after failures d1, steps = before ++ step :: after /\
      failed before d failures d1 /\ run step d1 = (Ok s, d')
  | (Err e, d') => exists failures, failed steps d failures d' /\ length failures = length steps /\
      e = tls_failure grant options server_name (Nat.max attempts 1) failures
  end.
Proof.
  cbv zeta. rewrite service_tls_plan.
  pose proof (run_plan_spec show_error pem_certs root_add server_name_ok client_connection server_name
    service_ca_pem retry_delay (plan to_socket_addrs url_parse grant options attempts) [] d) as Hs.
  destruct (run_plan _ _ _ _ _ _ _ _ _ _ d) as [[[c|fs]|e] d']; [|clear -Hs|done].
  - exact Hs.
  - destruct Hs as (new & -> & Hf). exists new. split_and!; [done| |done].
    induction Hf as [|s rest d e d1 fs d2 _ _ IH]; [done|]. simpl. by rewrite IH.
Qed.

(** A relay-only session goes through a relay candidate of its grant, whichever way it is
    opened, and no UDP socket is made for it. *)
Theorem relay_only_sessions_use_a_relay
    `{Json udp_rendezvous_message} `{Json session_hello} `{Json relay_hello} `{Sha256}
    (to_socket_addrs : string -> result (list socket_addr)) (url_parse : string -> option url)
    (show_error : error -> string) (pem_certs : string -> result (list (list byte)))
    (root_add : list byte -> result unit) (server_name_ok : string -> bool)
    (client_connection : string -> result unit) (grant : session_open_grant) (options : connect_options)
    (server_name service_ca_pem : string) (attempts : nat) (retry_delay : Z) (d d' : dialer)
    (s : connected_session)
    (Hmode : co_mode options = RelayOnly)
    (Hconnected :
       connect_session to_socket_addrs url_parse grant options d = (Ok s, d') \/
       connect_session_service_tls to_socket_addrs url_parse show_error pem_certs root_add server_name_ok
         client_connection grant options server_name service_ca_pem attempts retry_delay d = (Ok s, d')) :
  d_udp d' = d_udp d /\
  exists c, c ∈ sa_candidates (sg_authorization grant) /\ is_relay_kind c = true /\
    cs_path s = SelectedPath (candidate_kind_str (pc_kind c)) (pc_addr c).
Proof.
  destruct Hconnected as [Hc|Hc].
  - unfold connect_session in Hc. rewrite Hmode in Hc. rewrite bool_decide_eq_false_2 in Hc by done.
    change (connect_legacy_candidate to_socket_addrs url_parse grant options d = (Ok s, d')) in Hc.
    unfold connect_legacy_candidate in Hc. split; [by eapply keeps_legacy_loop|].
    apply legacy_loop_ok in Hc as (c & Hin & Hp). exists c. rewrite Hmode in Hin.
    apply legacy_mode in Hin as [Hin Hr]. auto.
  - rewrite service_tls_plan in Hc.
    pose proof (run_plan_spec show_error pem_certs root_add server_name_ok client_connection server_name
      service_ca_pem retry_delay (plan to_socket_addrs url_parse grant options attempts) [] d) as Hs.
    destruct (run_plan _ _ _ _ _ _ _ _ _ _ d) as [[[c|fs]|e] d2]; [|done|done].
    injection Hc as <- <-. destruct Hs as (before & step & after & fs & d1 & Hplan & Hf & Hr).
    assert (forall st, st ∈ plan to_socket_addrs url_parse grant options attempts -> exists c,
      c ∈ sa_candidates (sg_authorization grant) /\ is_relay_kind c = true /\
      step_connect st = connect_legacy_session_candidate to_socket_addrs url_parse grant (co_control_pin options) c) as Hst.
    { unfold plan, ice_steps. rewrite Hmode. simpl. intros st (c0 & Hst & Hin)%list_elem_of_bind.
      apply legacy_mode in Hin as [Hin Hrel]. apply legacy_steps_elem in Hst. eauto. }
    rewrite Hplan in Hst. split.
    + assert (d_udp d1 = d_udp d) as <-.
      { eapply keeps_plan_steps; [|exact Hf|reflexivity]. intros st Hin.
        destruct (Hst st) as (c0 & _ & _ & ->); [apply elem_of_app; by left|]. apply keeps_legacy_candidate. }
      destruct (Hst step) as (c0 & _ & _ & Hconn); [apply elem_of_app; right; by left|].
      eapply keeps_with_tls; [|reflexivity|exact Hr]. rewrite Hconn. apply keeps_legacy_candidate.
    + destruct (Hst step) as (c0 & Hin & Hrel & Hconn); [apply elem_of_app; right; by left|].
      exists c0. split_and!; [done|done|]. unfold step_run in Hr. apply with_tls_path in Hr as (s0 & d0 & Hr & <-).
      rewrite Hconn in Hr. by eapply legacy_candidate_path.
Qed.

(** What a connection to a legacy candidate has carried when it is handed out: on a
    direct connection the session hello that the node's [read_json_line] reads; on a relay
    connection first the relay hello, which leaves the session hello to be read by the
    node; on a WebSocket relay the same two, each in a frame of the kind its reader
    accepts.  Nothing else is sent. *)
Theorem candidate_connections_carry_the_hellos
    `{JsonOk session_hello} `{JsonOk relay_hello}
    (to_socket_addrs : string -> result (list socket_addr)) (url_parse : string -> option url)
    (grant : session_open_grant) (control_pin : option string) (c : peer_candidate)
    (d d' : dialer) (s : session_stream)
    (Hshort1 : forall p, to_vec (hello_of grant) = Ok p -> (length p <= hello_limit)%nat)
    (Hshort2 : forall p, to_vec (RelayClient (sg_node_id grant)) = Ok p -> (length p <= hello_limit)%nat)
    (Hconnected : connect_session_candidate to_socket_addrs url_parse grant control_pin c d = (Ok s, d')) :
  hellos_sent grant c s.
Proof. by eapply candidate_hellos. Qed.

(** C17. Reads on a WebSocket stream, with any buffer sizes: the bytes read, then the bytes
    still held, then the payloads of the frames to come are always the same sequence, so
    no byte is lost, repeated or reordered; and enough reads with room get all of it
    when the frames are data, pings and pongs. *)
Theorem wss_reads_deliver_every_byte (sizes : list nat) (w : wss_byte_stream) :
  let '(out, w') := run_reads sizes w in
  out ++ undelivered w' = undelivered w /\
  (healthy w -> Forall (fun n => 0 < n)%nat sizes -> (length (undelivered w) <= length sizes)%nat ->
   out = undelivered w).
Proof.
  destruct (run_reads sizes w) as [out w'] eqn:E.
  pose proof (run_reads_bytes sizes w) as H1. pose proof (run_reads_all sizes w) as H2. by rewrite E in H1, H2.
Qed.

(** The WebSocket stream reports a read timeout as an error of another kind, so a TLS
    handshake over it fails at the first 100 ms of silence, however far the deadline is,
    where the same silence on a TCP or UDP stream is waited out. *)
Theorem wss_handshake_fails_at_the_first_silence (w : wss_byte_stream) (size : nat)
    (fuel : nat) (deadline time elapsed : Z) (timed_out failed : error -> error) (rest : list tls_event)
    (Hsilent : ws_in (wss_socket w) = []) (Hempty : wss_pending_read w = []) (Hearly : time + elapsed < deadline) :
  (ws_read (wss_socket w)).1 = Err (EIo WouldBlock) /\
  exists k, (wss_read size w).1 = Err (EIo k) /\
    handshake_loop (S fuel) deadline timed_out failed (TlsEvent elapsed (Err (EIo k)) :: rest) true time
    = (Err (failed (EIo k)), time + elapsed) /\
    handshake_loop (S fuel) deadline timed_out failed (TlsEvent elapsed (Err (EIo WouldBlock)) :: rest) true time
    = handshake_loop fuel deadline timed_out failed rest true (time + elapsed + millis 5).
Proof.
  unfold wss_read. rewrite Hempty, Hsilent. split; [unfold ws_read; by rewrite Hsilent|].
  exists OtherIo. split_and!.
  - cbn [wss_read_loop length]. unfold mbind, eff_bind. rewrite on_socket_read, Hsilent. done.
  - done.
  - cbn [handshake_loop negb next_tls_event te_elapsed te_result is_timeout andb].
    by rewrite (proj2 (Z.ltb_lt _ _)).
Qed.

(** ** Witnesses *)

#[local] Instance relay_hello_countable : Countable relay_hello.
Proof.
  refine (inj_countable' (fun h => match h with RelayNode a b => inl (a, b) | RelayClient a => inr a end)
    (fun x => match x with inl (a, b) => RelayNode a b | inr a => RelayClient a end) _). by intros [].
Defined.
Definition toy_relay_json : Json relay_hello := countable_json.
Lemma toy_relay_json_ok : @JsonOk relay_hello toy_relay_json.
Proof. apply countable_json_ok. Qed.
Lemma toy_hello_json_ok : @JsonOk session_hello toy_hello_json.
Proof. apply countable_json_ok. Qed.
Definition toy_relay_candidate : peer_candidate := PeerCandidate RelayTcp "203.0.113.10:7001" 10.
Definition toy_session_grant : session_open_grant :=
  SessionOpenGrant "sess_1" "svc_ssh" "node-1" None
    (SessionAuthorization "t" 0 [PeerCandidate DirectTcp "10.0.0.9:17001" 100; toy_relay_candidate] None).
Definition toy_resolve (addr : string) : result (list socket_addr) :=
  match parse_sock addr with Some a => Ok [a] | None => Err (EExt "resolve") end.
(** The first connect is answered, and so is the first TLS handshake. *)
Definition toy_dialer : dialer :=
  Dialer [Ok (Tcp (SockV4 (Ipv4 0 0 0 0) 0) [] [] None [] [])] [] [] [[TlsEvent 10 (Ok false)]] 0.
Definition toy_connected (d : dialer) : connected_session :=
  match @connect_session toy_rv_json toy_hello_json toy_relay_json toy_sha256 toy_resolve (fun _ => None)
          toy_session_grant (ConnectOptions RelayOnly None None) d with
  | (Ok s, _) => s
  | (Err _, _) => ConnectedSession (STcp (Tcp (SockV4 (Ipv4 0 0 0 0) 0) [] [] None [] [])) (SelectedPath EmptyString EmptyString)
  end.
Definition toy_dialed : dialer := Dialer [] [] [] [[TlsEvent 10 (Ok false)]] 0.

Lemma relay_only_sessions_use_a_relay_witness :
  d_udp toy_dialed = d_udp toy_dialer /\
  exists c, c ∈ sa_candidates (sg_authorization toy_session_grant) /\ is_relay_kind c = true /\
    cs_path (toy_connected toy_dialer) = SelectedPath (candidate_kind_str (pc_kind c)) (pc_addr c).
Proof.
  refine (@relay_only_sessions_use_a_relay toy_rv_json toy_hello_json toy_relay_json toy_sha256 toy_resolve
    (fun _ => None) (fun _ => EmptyString) (fun _ => Ok []) (fun _ => Ok tt) (fun _ => true) (fun _ => Ok tt)
    toy_session_grant (ConnectOptions RelayOnly None None) "svc-ssh.medium" "pem" 2 0 toy_dialer toy_dialed
    (toy_connected toy_dialer) _ (or_introl _)); vm_compute; reflexivity.
Defined.

Definition toy_relay_stream : session_stream :=
  match @connect_session_candidate toy_hello_json toy_relay_json toy_resolve (fun _ => None)
          toy_session_grant None toy_relay_candidate toy_dialer with
  | (Ok s, _) => s
  | (Err _, _) => cs_stream (toy_connected toy_dialer)
  end.
Lemma candidate_connections_carry_the_hellos_witness :
  @hellos_sent toy_hello_json toy_relay_json toy_session_grant toy_relay_candidate toy_relay_stream.
Proof.
  refine (@candidate_connections_carry_the_hellos toy_hello_json toy_hello_json_ok toy_relay_json toy_relay_json_ok
    toy_resolve (fun _ => None) toy_session_grant None toy_relay_candidate toy_dialer toy_dialed
    toy_relay_stream _ _ _).
  - intros p Hp. vm_compute in Hp. injection Hp as <-. apply (bool_decide_unpack _). vm_compute. exact I.
  - intros p Hp. vm_compute in Hp. injection Hp as <-. apply (bool_decide_unpack _). vm_compute. exact I.
  - vm_compute. reflexivity.
Defined.

Definition toy_silent_wss : wss_byte_stream := WssByteStream (WebSocket [] [] [] None (Some (millis 100))) [].
Lemma wss_handshake_fails_at_the_first_silence_witness :
  (ws_read (wss_socket toy_silent_wss)).1 = Err (EIo WouldBlock) /\
  exists k, (wss_read 16 toy_silent_wss).1 = Err (EIo k) /\
    handshake_loop 5 (secs 3) id id [TlsEvent (millis 100) (Err (EIo k)); TlsEvent 0 (Ok false)] true 0
    = (Err (id (EIo k)), 0 + millis 100) /\
    handshake_loop 5 (secs 3) id id [TlsEvent (millis 100) (Err (EIo WouldBlock)); TlsEvent 0 (Ok false)] true 0
    = handshake_loop 4 (secs 3) id id [TlsEvent 0 (Ok false)] true (0 + millis 100 + millis 5).
Proof.
  refine (@wss_handshake_fails_at_the_first_silence toy_silent_wss 16 4 (secs 3) 0 (millis 100) id id
    [TlsEvent 0 (Ok false)] _ _ _); vm_compute; reflexivity.
Defined.
