(* ===== verification/TcpStack.v ===== *)
(** * The TCP side of the virtual network

    [crates/medium-netstack/src/lib.rs], modules [stack], [tcp] and [tun]: the sockets that
    listen for the published services, the streams accepted on them and the events they
    give, the redirect of plain HTTP, the DNS socket and the packet queues.

    The smoltcp crate is the parameter [Smoltcp]: its sockets with their operations, and
    its interface, which moves packets between the queues and the sockets.  A slot holds
    its socket instead of a handle into the socket set; every handle belongs to one slot. *)

From S2P Require Import Prelude RustStd NetAddr Netstack.

(** ** smoltcp *)

Inductive tcp_state :=
  | Closed | Listen | SynSent | SynReceived | Established | FinWait1 | FinWait2 | CloseWait
  | Closing | LastAck | TimeWait.
#[global] Instance tcp_state_eq_dec : EqDecision tcp_state.
Proof. solve_decision. Defined.

(** ** The packet queues: [tun] *)

Record packet_device := PacketDevice {
  pd_rx : list (list byte);
  pd_tx : list (list byte);
  pd_mtu : Z
}.
Definition device_new (mtu : Z) : packet_device := PacketDevice [] [] mtu.
Definition device_push_tun_packet (packet : list byte) (d : packet_device) : packet_device :=
  PacketDevice (pd_rx d ++ [packet]) (pd_tx d) (pd_mtu d).
Definition device_pop_tun_packet (d : packet_device) : option (list byte) * packet_device :=
  match pd_tx d with
  | [] => (None, d)
  | packet :: rest => (Some packet, PacketDevice (pd_rx d) rest (pd_mtu d))
  end.
(** [Device::receive] with the packet its token gives, [TxToken::consume] with what was
    written in the packet. *)
Definition device_receive (d : packet_device) : option (list byte * packet_device) :=
  match pd_rx d with
  | [] => None
  | packet :: rest => Some (packet, PacketDevice rest (pd_tx d) (pd_mtu d))
  end.
Definition device_transmit (packet : list byte) (d : packet_device) : packet_device :=
  PacketDevice (pd_rx d) (pd_tx d ++ [packet]) (pd_mtu d).

(** The sockets and the interface of smoltcp.  [sk_recv_all] is
    [recv(|buffer| (buffer.len(), buffer.to_vec()))]; [udp_queued] is the number of datagrams
    in the receive buffer; [if_new] fails when the interface has no room for the
    addresses. *)
Class Smoltcp := {
  tcp_socket : Type;
  sk_new : tcp_socket;
  sk_state : tcp_socket -> tcp_state;
  sk_is_open : tcp_socket -> bool;
  sk_is_active : tcp_socket -> bool;
  sk_may_recv : tcp_socket -> bool;
  sk_can_recv : tcp_socket -> bool;
  sk_can_send : tcp_socket -> bool;
  sk_local : tcp_socket -> option socket_addr;
  sk_listen : ipv4 -> Z -> tcp_socket -> result tcp_socket;
  sk_recv_all : tcp_socket -> result (list byte * tcp_socket);
  sk_send_slice : list byte -> tcp_socket -> result (nat * tcp_socket);
  sk_close : tcp_socket -> tcp_socket;
  udp_socket : Type;
  udp_new : udp_socket;
  udp_is_open : udp_socket -> bool;
  udp_bind : Z -> udp_socket -> result udp_socket;
  udp_queued : udp_socket -> nat;
  udp_can_recv : udp_socket -> bool;
  udp_recv : udp_socket -> result (list byte * socket_addr * udp_socket);
  udp_send_slice : list byte -> socket_addr -> udp_socket -> result udp_socket;
  interface : Type;
  if_new : list (ipv4 * Z) -> option interface;
  if_poll : Z -> interface -> packet_device -> udp_socket -> list tcp_socket ->
            interface * packet_device * udp_socket * list tcp_socket
}.

(** ** Events: [tcp] *)

Inductive tcp_pump_event :=
  | Connected (stream_id service_id : string)
  | Received (stream_id service_id : string) (bytes : list byte)
  | StreamClosed (stream_id service_id : string).
Definition event_stream (e : tcp_pump_event) : string :=
  match e with Connected id _ | Received id _ _ | StreamClosed id _ => id end.

Definition DNS_PORT : Z := 53.
Definition HTTP_PORT : Z := 80.
Definition HTTPS_PORT : Z := 443.

(** What a client of the stack uses: [send_tcp] and [close_tcp]. *)
Class StreamStack (S : Type) := {
  stack_send : string -> list byte -> S -> result (nat * S);
  stack_close : string -> S -> result S
}.

Section Stack.
Context `{Smoltcp}.

Definition poll_socket (socket : tcp_socket) (network : virtual_network) (stream_id fallback_service_id : string)
    : result (tcp_socket * list tcp_pump_event) :=
  let service_id :=
    match (endpoint ← sk_local socket;
           match sock_ip endpoint with IpV4 addr => service_for_addr addr network | IpV6 _ => None end) with
    | Some service => vs_id service
    | None => fallback_service_id
    end in
  if sk_can_recv socket then
    '(bytes, socket) ← sk_recv_all socket;
    Ok (socket, [Received stream_id service_id bytes])
  else Ok (socket, []).

Definition redirect_response (hostname : string) : list byte :=
  bytes_of ("HTTP/1.1 308 Permanent Redirect" +:+ crlf +:+ "Location: https://" +:+ hostname +:+ "/" +:+ crlf
            +:+ "Content-Length: 0" +:+ crlf +:+ "Connection: close" +:+ crlf +:+ crlf).
Definition redirect_http_to_https (socket : tcp_socket) (hostname : string) : result tcp_socket :=
  if negb (sk_can_recv socket) then Ok socket
  else
    '(_, socket) ← sk_recv_all socket;
    socket ← (if sk_can_send socket
              then '(_, socket) ← sk_send_slice (redirect_response hostname) socket; Ok socket
              else Ok socket);
    Ok (sk_close socket).

(** ** The stack *)

Record tcp_slot := TcpSlot {
  ts_socket : tcp_socket;
  ts_service_id : string;
  ts_hostname : string;
  ts_port : Z;
  ts_stream_id : option string
}.
Definition set_socket (socket : tcp_socket) (slot : tcp_slot) : tcp_slot :=
  TcpSlot socket (ts_service_id slot) (ts_hostname slot) (ts_port slot) (ts_stream_id slot).
Definition set_stream (stream_id : option string) (slot : tcp_slot) : tcp_slot :=
  TcpSlot (ts_socket slot) (ts_service_id slot) (ts_hostname slot) (ts_port slot) stream_id.

Record medium_stack := MediumStack {
  ms_network : virtual_network;
  ms_iface : interface;
  ms_device : packet_device;
  ms_dns : udp_socket;
  ms_tcp_slots : list tcp_slot;
  ms_next_tcp_stream : Z
}.
Definition set_slots (slots : list tcp_slot) (s : medium_stack) : medium_stack :=
  MediumStack (ms_network s) (ms_iface s) (ms_device s) (ms_dns s) slots (ms_next_tcp_stream s).
Definition set_device (d : packet_device) (s : medium_stack) : medium_stack :=
  MediumStack (ms_network s) (ms_iface s) d (ms_dns s) (ms_tcp_slots s) (ms_next_tcp_stream s).
Definition set_dns (u : udp_socket) (s : medium_stack) : medium_stack :=
  MediumStack (ms_network s) (ms_iface s) (ms_device s) u (ms_tcp_slots s) (ms_next_tcp_stream s).

Definition new_slots (network : virtual_network) : list tcp_slot :=
  vs ← vn_services network;
  map (fun port => TcpSlot sk_new (vs_id vs) (vs_hostname vs) port None) [HTTP_PORT; HTTPS_PORT].
(** [MediumStack::new]; [unwrap] panics when the interface has no room. *)
Definition stack_new (network : virtual_network) : result medium_stack :=
  iface ← ok_or panic
            (if_new ((vn_dns_addr network, vn_prefix_len network)
                     :: map (fun s => (vs_addr s, 32)) (vn_services network)));
  Ok (MediumStack network iface (device_new 1500) udp_new (new_slots network) 0).

Definition push_tun_packet (packet : list byte) (s : medium_stack) : medium_stack :=
  set_device (device_push_tun_packet packet (ms_device s)) s.
Definition pop_tun_packet (s : medium_stack) : option (list byte) * medium_stack :=
  let '(packet, d) := device_pop_tun_packet (ms_device s) in (packet, set_device d s).

(** The first slot of a stream, changed. *)
Fixpoint with_stream {A} (stream_id : string) (f : tcp_slot -> result (A * tcp_slot)) (slots : list tcp_slot)
    : result (A * list tcp_slot) :=
  match slots with
  | [] => Err (EMsg ("unknown tcp stream: " +:+ stream_id))
  | slot :: rest =>
      if bool_decide (ts_stream_id slot = Some stream_id)
      then '(a, slot) ← f slot; Ok (a, slot :: rest)
      else '(a, rest) ← with_stream stream_id f rest; Ok (a, slot :: rest)
  end.
Definition send_tcp (stream_id : string) (bytes : list byte) (s : medium_stack) : result (nat * medium_stack) :=
  '(n, slots) ← with_stream stream_id
                  (fun slot => '(n, socket) ← sk_send_slice bytes (ts_socket slot); Ok (n, set_socket socket slot))
                  (ms_tcp_slots s);
  Ok (n, set_slots slots s).
Definition close_tcp (stream_id : string) (s : medium_stack) : result medium_stack :=
  '(_, slots) ← with_stream stream_id
                  (fun slot => Ok (tt, set_stream None (set_socket (sk_close (ts_socket slot)) slot)))
                  (ms_tcp_slots s);
  Ok (set_slots slots s).

Definition ensure_dns_bound (s : medium_stack) : result medium_stack :=
  if negb (udp_is_open (ms_dns s)) then dns ← udp_bind DNS_PORT (ms_dns s); Ok (set_dns dns s) else Ok s.

Definition service_of (service_id : string) (network : virtual_network) : option virtual_service :=
  List.find (fun s => vs_id s =?s service_id) (vn_services network).
(** The two loops of [ensure_tcp_listeners]. *)
Fixpoint relisten (network : virtual_network) (slots : list tcp_slot) : result (list tcp_slot) :=
  match slots with
  | [] => Ok []
  | slot :: rest =>
      slot ← match service_of (ts_service_id slot) network with
             | None => Ok slot
             | Some service =>
                 if negb (sk_is_open (ts_socket slot)) then
                   socket ← sk_listen (vs_addr service) (ts_port slot) (ts_socket slot);
                   Ok (set_socket socket slot)
                 else Ok slot
             end;
      rest ← relisten network rest;
      Ok (slot :: rest)
  end.
Definition is_listener (service_id : string) (port : Z) (slot : tcp_slot) : bool :=
  (ts_service_id slot =?s service_id) && (ts_port slot =? port) && bool_decide (ts_stream_id slot = None)
  && bool_decide (sk_state (ts_socket slot) = Listen).
Fixpoint add_listeners (network : virtual_network) (desired : list (string * ipv4 * Z)) (slots : list tcp_slot)
    : result (list tcp_slot) :=
  match desired with
  | [] => Ok slots
  | (service_id, addr, port) :: rest =>
      if existsb (is_listener service_id port) slots then add_listeners network rest slots
      else
        socket ← sk_listen addr port sk_new;
        let hostname := match service_of service_id network with
                        | Some service => vs_hostname service
                        | None => service_id
                        end in
        add_listeners network rest (slots ++ [TcpSlot socket service_id hostname port None])
  end.
Definition desired_listeners (network : virtual_network) : list (string * ipv4 * Z) :=
  vs ← vn_services network;
  map (fun port => (vs_id vs, vs_addr vs, port)) [HTTP_PORT; HTTPS_PORT].
Definition ensure_tcp_listeners (s : medium_stack) : result medium_stack :=
  slots ← relisten (ms_network s) (ms_tcp_slots s);
  slots ← add_listeners (ms_network s) (desired_listeners (ms_network s)) slots;
  Ok (set_slots slots s).

(** [iface.poll] on the sockets of the slots. *)
Definition iface_poll (now : Z) (s : medium_stack) : medium_stack :=
  let '(iface, device, dns, sockets) :=
    if_poll now (ms_iface s) (ms_device s) (ms_dns s) (map ts_socket (ms_tcp_slots s)) in
  MediumStack (ms_network s) iface device dns (zip_with set_socket sockets (ms_tcp_slots s))
    (ms_next_tcp_stream s).

(** The loop takes one datagram a round, so the queued ones bound the rounds. *)
Fixpoint pump_dns_loop (fuel : nat) (network : virtual_network) (socket : udp_socket) : result udp_socket :=
  if negb (udp_can_recv socket) then Ok socket
  else
    match fuel with
    | O => Err out_of_fuel
    | S f =>
        '(data, remote, socket) ← udp_recv socket;
        socket ← match answer_query data network with
                 | Some response => udp_send_slice response remote socket
                 | None => Ok socket
                 end;
        pump_dns_loop f network socket
    end.
Definition pump_dns (s : medium_stack) : result medium_stack :=
  dns ← pump_dns_loop (udp_queued (ms_dns s)) (ms_network s) (ms_dns s);
  Ok (set_dns dns s).

(** The body of the loop of [pump_tcp] and the loop.  [+= 1] overflows after 2^64
    streams. *)
Definition start_stream (slot : tcp_slot) (next : Z) : result (tcp_slot * Z * list tcp_pump_event) :=
  if bool_decide (sk_state (ts_socket slot) = Established) && bool_decide (ts_stream_id slot = None) then
    let next := next + 1 in
    _ ← bail_if (usize_max <? next) panic;
    let stream_id := "tcp-" +:+ dec next in
    Ok (set_stream (Some stream_id) slot, next,
        if ts_port slot =? HTTPS_PORT then [Connected stream_id (ts_service_id slot)] else [])
  else Ok (slot, next, []).
Definition pump_slot (network : virtual_network) (slot : tcp_slot) (next : Z)
    : result (tcp_slot * Z * list tcp_pump_event) :=
  '(slot, next, connected) ← start_stream slot next;
  match ts_stream_id slot with
  | None => Ok (slot, next, connected)
  | Some stream_id =>
      '(socket, received) ←
        (if ts_port slot =? HTTP_PORT
         then socket ← redirect_http_to_https (ts_socket slot) (ts_hostname slot); Ok (socket, [])
         else poll_socket (ts_socket slot) network stream_id (ts_service_id slot));
      let slot := set_socket socket slot in
      if negb (sk_is_active socket) && negb (sk_may_recv socket)
      then Ok (set_stream None slot, next, connected ++ received ++ [StreamClosed stream_id (ts_service_id slot)])
      else Ok (slot, next, connected ++ received)
  end.
Fixpoint pump_slots (network : virtual_network) (slots : list tcp_slot) (next : Z)
    : result (list tcp_slot * Z * list tcp_pump_event) :=
  match slots with
  | [] => Ok ([], next, [])
  | slot :: rest =>
      '(slot, next, events) ← pump_slot network slot next;
      '(rest, next, more) ← pump_slots network rest next;
      Ok (slot :: rest, next, events ++ more)
  end.
Definition pump_tcp (s : medium_stack) : result (list tcp_pump_event * medium_stack) :=
  '(slots, next, events) ← pump_slots (ms_network s) (ms_tcp_slots s) (ms_next_tcp_stream s);
  Ok (events, MediumStack (ms_network s) (ms_iface s) (ms_device s) (ms_dns s) slots next).

Definition poll (now_millis : Z) (s : medium_stack) : result (list tcp_pump_event * medium_stack) :=
  s ← ensure_dns_bound s;
  s ← ensure_tcp_listeners s;
  let s := iface_poll now_millis s in
  s ← pump_dns s;
  '(events, s) ← pump_tcp s;
  Ok (events, iface_poll now_millis s).

#[global] Instance medium_stack_streams : StreamStack medium_stack := {
  stack_send := send_tcp;
  stack_close := close_tcp
}.
End Stack.

(** ** The life of a stream *)

(** A stream is connected, then received on, then closed; a stream of plain HTTP is only
    closed. *)
Inductive stream_phase := Fresh | Open | Done.
Definition advance (p : option stream_phase) (e : tcp_pump_event) : option stream_phase :=
  match p, e with
  | Some Fresh, Connected _ _ => Some Open
  | Some Open, Received _ _ _ => Some Open
  | Some (Fresh | Open), StreamClosed _ _ => Some Done
  | _, _ => None
  end.
Definition stream_events (id : string) (events : list tcp_pump_event) : list tcp_pump_event :=
  List.filter (fun e => event_stream e =?s id) events.
Definition phase (id : string) (events : list tcp_pump_event) : option stream_phase :=
  fold_left advance (stream_events id events) (Some Fresh).

Lemma phase_snoc id events e :
  phase id (events ++ [e]) = if event_stream e =?s id then advance (phase id events) e else phase id events.
Proof.
  unfold phase, stream_events. rewrite filter_app, fold_left_app. simpl. by case_bool_decide.
Qed.
Lemma phase_done id events more :
  phase id events = Some Done -> is_Some (phase id (events ++ more)) -> Forall (fun e => event_stream e <> id) more.
Proof.
  intros Hd. induction more as [|e more IH] using rev_ind; [constructor|].
  rewrite app_assoc, phase_snoc. intros Hs. apply list.Forall_app.
  case_bool_decide as He; [|split; [by apply IH|by constructor]]. exfalso.
  assert (forall p, is_Some (advance p e) -> p = Some Fresh \/ p = Some Open) as Hadv.
  { intros [[]|]; simpl; eauto; intros [? [=]]. }
  assert (phase id (events ++ more) = Some Done) as Hp; [|destruct (Hadv _ Hs); congruence].
  assert (stream_events id more = []) as Hnone.
  { destruct (Hadv _ Hs) as [Hp|Hp].
    all: assert (is_Some (phase id (events ++ more))) as Hm by (by rewrite Hp).
    all: apply IH in Hm. all: unfold stream_events. all: clear -Hm.
    all: induction Hm as [|x l Hx _ IH]; [done|]. all: simpl. all: by rewrite bool_decide_eq_false_2. }
  unfold phase, stream_events in *. rewrite filter_app, fold_left_app, Hd. by rewrite Hnone.
Qed.
Lemma phase_fresh id events : Forall (fun e => event_stream e <> id) events -> phase id events = Some Fresh.
Proof.
  unfold phase, stream_events. induction 1 as [|e l He _ IH]; [done|]. simpl. by rewrite bool_decide_eq_false_2.
Qed.

Definition issued (next : Z) (id : string) : Prop := exists k, 0 < k <= next /\ id = "tcp-" +:+ dec k.
Lemma issued_mono next next' id : next <= next' -> issued next id -> issued next' id.
Proof. intros Hle (k & Hk & ->). exists k. split; [lia|done]. Qed.
Lemma dec_inj a b : 0 <= a <= usize_max -> 0 <= b <= usize_max -> dec a = dec b -> a = b.
Proof.
  intros Ha Hb Heq. assert (from_str_radix 10 usize_max (dec a) = Some a) as H1 by (apply from_str_radix_digits; lia).
  assert (from_str_radix 10 usize_max (dec b) = Some b) as H2 by (apply from_str_radix_digits; lia). congruence.
Qed.
Lemma not_issued next : 0 <= next < usize_max -> ~ issued next ("tcp-" +:+ dec (next + 1)).
Proof. intros Hn (k & Hk & Heq). injection Heq as Heq. apply dec_inj in Heq; lia. Qed.

(** The stream and port of each slot, [next_tcp_stream] and the events so far. *)
Definition key : Type := option string * Z.
Record streams_ok (keys : list key) (next : Z) (events : list tcp_pump_event) : Prop := {
  so_next : 0 <= next <= usize_max;
  so_unique : NoDup (omap fst keys);
  so_ports : Forall (fun k => k.2 = HTTP_PORT \/ k.2 = HTTPS_PORT) keys;
  so_events : Forall (fun e => issued next (event_stream e)) events;
  so_phase : forall id, is_Some (phase id events);
  so_held : forall id port, (Some id, port) ∈ keys ->
    issued next id /\ phase id events = Some (if port =? HTTP_PORT then Fresh else Open)
}.

Lemma held_in (keys : list key) id : id ∈ omap fst keys <-> exists port, (Some id, port) ∈ keys.
Proof.
  rewrite list_elem_of_omap. split.
  - intros ([o port] & Hk & Ho). simpl in Ho. subst. eauto.
  - intros (port & Hk). by exists (Some id, port).
Qed.
Lemma streams_ok_prefix keys rest next events : streams_ok (keys ++ rest) next events -> streams_ok keys next events.
Proof.
  intros [Hn Hu Hp He Hph Hh]. rewrite omap_app in Hu. apply list.NoDup_app in Hu as (Hu & _ & _).
  apply list.Forall_app in Hp as [Hp _]. split; try done.
  intros id port Hin. apply Hh. apply elem_of_app. by left.
Qed.
(** A slot without a stream, put anywhere. *)
Lemma streams_ok_free l r port next events :
  port = HTTP_PORT \/ port = HTTPS_PORT ->
  streams_ok (l ++ r) next events -> streams_ok (l ++ (None, port) :: r) next events.
Proof.
  intros Hport [Hn Hu Hp He Hph Hh]. split; try done.
  - rewrite omap_app in *. done.
  - apply list.Forall_app in Hp as [Hl Hr]. apply list.Forall_app. split; [done|]. by constructor.
  - intros id p Hin. apply Hh. apply elem_of_app in Hin as [Hin|Hin]; apply elem_of_app; [by left|].
    apply elem_of_cons in Hin as [[=]|Hin]. by right.
Qed.
(** A stream leaves its slot. *)
Lemma streams_ok_drop l k r next events : streams_ok (l ++ k :: r) next events -> streams_ok (l ++ r) next events.
Proof.
  intros [Hn Hu Hp He Hph Hh]. split; try done.
  - rewrite omap_app in *. simpl in Hu. destruct k as [[id|] p]; [|done]. simpl in Hu.
    apply list.NoDup_app in Hu as (Hl & Hd & Hr). apply list.NoDup_cons in Hr as [_ Hr]. apply list.NoDup_app.
    split_and!; [done| |done]. intros x Hx Hx'. eapply Hd; [done|]. by right.
  - apply list.Forall_app in Hp as [Hl Hr]. apply list.Forall_app. split; [done|]. by inversion Hr.
  - intros id p Hin. apply Hh. apply elem_of_app in Hin as [Hin|Hin]; apply elem_of_app; [by left|right; by right].
Qed.
Lemma streams_ok_release l id port r next events :
  streams_ok (l ++ (Some id, port) :: r) next events -> streams_ok (l ++ (None, port) :: r) next events.
Proof.
  intros Hok. apply streams_ok_free; [|by eapply streams_ok_drop].
  pose proof (so_ports _ _ _ Hok) as Hp. apply list.Forall_app in Hp as [_ Hp]. by inversion Hp.
Qed.
(** The stream of a slot is in no other slot. *)
Lemma held_once l id port r next events p :
  streams_ok (l ++ (Some id, port) :: r) next events -> (Some id, p) ∉ l ++ r.
Proof.
  intros Hok Hin. pose proof (so_unique _ _ _ Hok) as Hu. rewrite omap_app in Hu. simpl in Hu.
  apply list.NoDup_app in Hu as (_ & Hd & Hr). apply list.NoDup_cons in Hr as [Hr _].
  apply elem_of_app in Hin as [Hin|Hin].
  - apply (Hd id); [apply held_in; eauto|by left].
  - apply Hr. apply held_in. eauto.
Qed.
(** An event of a stream that a slot holds. *)
Lemma streams_ok_event l id port r next events e ph :
  streams_ok (l ++ (Some id, port) :: r) next events ->
  event_stream e = id -> advance (Some (if port =? HTTP_PORT then Fresh else Open)) e = Some ph ->
  streams_ok (l ++ r) next (events ++ [e]) /\ phase id (events ++ [e]) = Some ph.
Proof.
  intros Hok He Hadv. pose proof (streams_ok_drop _ _ _ _ _ Hok) as [Hn Hu Hp Hev Hph Hh].
  destruct (so_held _ _ _ Hok id port) as [Hiss Hphid]; [apply elem_of_app; right; by left|].
  assert (phase id (events ++ [e]) = Some ph) as Hnew.
  { rewrite phase_snoc, He, bool_decide_eq_true_2 by done. by rewrite Hphid. }
  split; [|done]. split; try done.
  - apply list.Forall_app. split; [done|]. constructor; [by rewrite He|done].
  - intros i. destruct (decide (i = id)) as [-> |Hne]; [by rewrite Hnew|].
    rewrite phase_snoc, bool_decide_eq_false_2 by congruence. apply Hph.
  - intros i p Hin. destruct (decide (i = id)) as [-> |Hne]; [by destruct (held_once _ _ _ _ _ _ _ Hok Hin)|].
    rewrite phase_snoc, bool_decide_eq_false_2 by congruence. by apply Hh.
Qed.
Lemma streams_ok_hold l id port r next events :
  port = HTTP_PORT \/ port = HTTPS_PORT -> issued next id ->
  phase id events = Some (if port =? HTTP_PORT then Fresh else Open) ->
  (forall p, (Some id, p) ∉ l ++ r) ->
  streams_ok (l ++ r) next events -> streams_ok (l ++ (Some id, port) :: r) next events.
Proof.
  intros Hport Hiss Hph Hnew [Hn Hu Hp Hev Hphs Hh]. split; try done.
  - rewrite omap_app in *. simpl. apply list.NoDup_app in Hu as (Hl & Hd & Hr). apply list.NoDup_app.
    assert (id ∉ omap fst l) as Hnl.
    { intros (p & Hin)%held_in. apply (Hnew p). apply elem_of_app. by left. }
    assert (id ∉ omap fst r) as Hnr.
    { intros (p & Hin)%held_in. apply (Hnew p). apply elem_of_app. by right. }
    split_and!; [done| |by constructor]. intros x Hx [->|Hx']%elem_of_cons; [done|by eapply Hd].
  - apply list.Forall_app in Hp as [Hl Hr]. apply list.Forall_app. split; [done|]. by constructor.
  - intros i p Hin. apply elem_of_app in Hin as [Hin|[Heq|Hin]%elem_of_cons].
    + apply Hh, elem_of_app. by left.
    + injection Heq as -> ->. done.
    + apply Hh, elem_of_app. by right.
Qed.
Lemma streams_ok_mono keys next next' events :
  next <= next' <= usize_max -> streams_ok keys next events -> streams_ok keys next' events.
Proof.
  intros Hle [Hn Hu Hp He Hph Hh]. split; try done.
  - lia.
  - eapply Forall_impl; [|exact He]. intros e. apply issued_mono. lia.
  - intros id port Hin. destruct (Hh id port Hin) as [Hi Hphid]. split; [|done]. by eapply issued_mono; [|done]; lia.
Qed.
(** A new stream takes a free slot. *)
Lemma streams_ok_start l r port service_id next events :
  next + 1 <= usize_max -> let id := "tcp-" +:+ dec (next + 1) in
  streams_ok (l ++ (None, port) :: r) next events ->
  streams_ok (l ++ (Some id, port) :: r) (next + 1)
    (events ++ if port =? HTTPS_PORT then [Connected id service_id] else []).
Proof.
  intros Hle id Hok. pose proof (so_next _ _ _ Hok) as Hn.
  assert (port = HTTP_PORT \/ port = HTTPS_PORT) as Hport.
  { pose proof (so_ports _ _ _ Hok) as Hp. apply list.Forall_app in Hp as [_ Hp]. by inversion Hp. }
  assert (~ issued next id) as Hnew by (apply not_issued; lia).
  assert (issued (next + 1) id) as Hiss by (exists (next + 1); split; [lia|done]).
  assert (phase id events = Some Fresh) as Hph.
  { apply phase_fresh. eapply Forall_impl; [|apply (so_events _ _ _ Hok)]. by intros e He <-. }
  assert (forall p, (Some id, p) ∉ l ++ r) as Hnin.
  { intros p Hin. apply Hnew. apply (so_held _ _ _ Hok id p). apply elem_of_app in Hin as [Hin|Hin]; apply elem_of_app; [by left|right; by right]. }
  apply streams_ok_drop in Hok. apply (streams_ok_mono _ _ (next + 1)) in Hok; [|lia].
  destruct Hport as [-> | ->]; simpl.
  - rewrite app_nil_r. by apply streams_ok_hold; [left| | | |].
  - assert (phase id (events ++ [Connected id service_id]) = Some Open) as Hopen.
    { rewrite phase_snoc, bool_decide_eq_true_2 by done. by rewrite Hph. }
    apply streams_ok_hold; [by right|done|done|done|].
    destruct Hok as [Hn' Hu Hp He Hphs Hh]. split; try done.
    + apply list.Forall_app. split; [done|]. by constructor.
    + intros i. destruct (decide (i = id)) as [-> |Hne]; [by rewrite Hopen|].
      rewrite phase_snoc, bool_decide_eq_false_2 by (simpl; congruence). apply Hphs.
    + intros i p Hin. destruct (decide (i = id)) as [-> |Hne]; [by destruct (Hnin p)|].
      rewrite phase_snoc, bool_decide_eq_false_2 by (simpl; congruence). by apply Hh.
Qed.

Section StackFacts.
Context `{Smoltcp}.

Definition slot_key (slot : tcp_slot) : key := (ts_stream_id slot, ts_port slot).
Definition keys (s : medium_stack) : list key := map slot_key (ms_tcp_slots s).

Lemma start_stream_ok l r slot next events slot' next' evs :
  streams_ok (l ++ slot_key slot :: r) next events -> start_stream slot next = Ok (slot', next', evs) ->
  streams_ok (l ++ slot_key slot' :: r) next' (events ++ evs) /\ ts_port slot' = ts_port slot /\ next <= next'.
Proof.
  intros Hok. unfold start_stream. case_bool_decide as Hst; simpl.
  2: { intros [= <- <- <-]. rewrite app_nil_r. split_and!; [done|done|lia]. }
  case_bool_decide as Hnone; simpl.
  2: { intros [= <- <- <-]. rewrite app_nil_r. split_and!; [done|done|lia]. }
  intros Hr. apply bind_ok in Hr as ([] & Hb & Hr). apply bail_if_ok in Hb. apply Z.ltb_ge in Hb.
  injection Hr as <- <- <-. unfold slot_key in *. simpl. rewrite Hnone in Hok.
  split_and!; [by apply streams_ok_start|done|lia].
Qed.

Lemma poll_socket_events socket network id fallback socket' evs :
  poll_socket socket network id fallback = Ok (socket', evs) ->
  evs = [] \/ exists service_id bytes, evs = [Received id service_id bytes].
Proof.
  unfold poll_socket. destruct (sk_can_recv socket); [|intros [= <- <-]; by left].
  intros Hr. apply bind_ok in Hr as ([bytes s] & _ & [= <- <-]). right. eauto.
Qed.

Lemma pump_slot_ok network l r slot next events slot' next' evs :
  streams_ok (l ++ slot_key slot :: r) next events -> pump_slot network slot next = Ok (slot', next', evs) ->
  streams_ok (l ++ slot_key slot' :: r) next' (events ++ evs).
Proof.
  intros Hok Hr. unfold pump_slot in Hr. apply bind_ok in Hr as ([[slot1 next1] connected] & Hst & Hr).
  destruct (start_stream_ok _ _ _ _ _ _ _ _ Hok Hst) as (Hok1 & Hport & _). clear Hok Hst.
  destruct (ts_stream_id slot1) as [id|] eqn:Hid; [|by injection Hr as <- <- <-].
  apply bind_ok in Hr as ([socket received] & Hsock & Hr).
  assert (streams_ok (l ++ (Some id, ts_port slot1) :: r) next1 ((events ++ connected) ++ received)) as Hok2.
  { unfold slot_key in Hok1. rewrite Hid in Hok1. destruct (ts_port slot1 =? HTTP_PORT) eqn:Hp.
    - apply bind_ok in Hsock as (? & _ & [= <- <-]). by rewrite app_nil_r.
    - apply poll_socket_events in Hsock as [-> |(sid & bytes & ->)]; [by rewrite app_nil_r|].
      destruct (streams_ok_event _ _ _ _ _ _ (Received id sid bytes) Open Hok1) as [Hdrop Hph]; [done|by rewrite Hp|].
      pose proof (so_ports _ _ _ Hok1) as Hports. apply list.Forall_app in Hports as [_ Hports].
      apply streams_ok_hold; [by inversion Hports| | |by intros p; eapply held_once|done].
      + apply (so_held _ _ _ Hok1 id (ts_port slot1)). apply elem_of_app. right. by left.
      + by rewrite Hp. }
  destruct (negb (sk_is_active socket) && negb (sk_may_recv socket)); injection Hr as <- <- <-; unfold slot_key; simpl.
  - rewrite !app_assoc. destruct (streams_ok_event _ _ _ _ _ _ (StreamClosed id (ts_service_id slot1)) Done Hok2) as [Hdrop _];
      [done|by case_match|]. apply streams_ok_free; [|exact Hdrop].
    pose proof (so_ports _ _ _ Hok2) as Hports. apply list.Forall_app in Hports as [_ Hports]. by inversion Hports.
  - rewrite Hid, app_assoc. done.
Qed.
Lemma pump_slots_ok network l slots next events slots' next' evs :
  streams_ok (l ++ map slot_key slots) next events -> pump_slots network slots next = Ok (slots', next', evs) ->
  streams_ok (l ++ map slot_key slots') next' (events ++ evs).
Proof.
  revert l next events slots' next' evs; induction slots as [|slot slots IH]; intros l next events slots' next' evs Hok Hr.
  { injection Hr as <- <- <-. simpl in *; rewrite !app_nil_r in *; done. }
  simpl in Hr. apply bind_ok in Hr as ([[slot1 next1] evs1] & Hslot & Hr).
  apply bind_ok in Hr as ([[slots1 next2] evs2] & Hrest & [= <- <- <-]). simpl in Hok.
  pose proof (pump_slot_ok _ _ _ _ _ _ _ _ _ Hok Hslot) as Hok1. simpl. rewrite app_assoc.
  change (slot_key slot1 :: map slot_key slots1) with ([slot_key slot1] ++ map slot_key slots1). rewrite app_assoc.
  eapply IH; [|done]. by rewrite <- app_assoc.
Qed.

Lemma relisten_keys network slots slots' : relisten network slots = Ok slots' -> map slot_key slots' = map slot_key slots.
Proof.
  revert slots'; induction slots as [|slot slots IH]; intros slots'; simpl; [by intros [= <-]|].
  intros Hr. apply bind_ok in Hr as (slot1 & Hslot & Hr). apply bind_ok in Hr as (rest & Hrest & [= <-]).
  simpl. f_equal; [|by apply IH].
  destruct (service_of _ _) as [v|]; [|by injection Hslot as <-].
  destruct (negb _); [|by injection Hslot as <-]. by apply bind_ok in Hslot as (? & _ & [= <-]).
Qed.
Lemma desired_port network service_id addr port :
  (service_id, addr, port) ∈ desired_listeners network -> port = HTTP_PORT \/ port = HTTPS_PORT.
Proof.
  unfold desired_listeners. intros Hin. apply list_elem_of_bind in Hin as (v & Hin & _).
  apply list_elem_of_fmap in Hin as (p & [= -> -> ->] & Hp).
  apply elem_of_cons in Hp as [-> |Hp]; [by left|]. apply list_elem_of_singleton in Hp. by right.
Qed.
Lemma add_listeners_ok network desired slots slots' next events :
  desired ⊆ desired_listeners network -> add_listeners network desired slots = Ok slots' ->
  streams_ok (map slot_key slots) next events -> streams_ok (map slot_key slots') next events.
Proof.
  revert slots; induction desired as [|[[service_id addr] port] desired IH]; intros slots Hsub Hr Hok; simpl in Hr.
  { by injection Hr as <-. }
  destruct (existsb _ slots).
  { eapply IH; [|done|done]. intros x Hx. apply Hsub. by right. }
  apply bind_ok in Hr as (socket & _ & Hr). eapply IH; [|exact Hr|].
  { intros x Hx. apply Hsub. by right. }
  rewrite map_app. simpl. unfold slot_key at 2. simpl. apply streams_ok_free; [|by rewrite app_nil_r].
  eapply desired_port. apply Hsub. by left.
Qed.
Lemma zip_sockets_keys sockets slots :
  exists rest, map slot_key slots = map slot_key (zip_with set_socket sockets slots) ++ rest.
Proof.
  revert sockets; induction slots as [|slot slots IH]; intros [|socket sockets]; simpl; try by eexists.
  destruct (IH sockets) as [rest ->]. eexists. reflexivity.
Qed.
Lemma iface_poll_ok now s next events :
  streams_ok (keys s) next events ->
  streams_ok (keys (iface_poll now s)) next events /\ ms_next_tcp_stream (iface_poll now s) = ms_next_tcp_stream s.
Proof.
  intros Hok. unfold iface_poll. destruct (if_poll _ _ _ _ _) as [[[iface device] dns] sockets]. split; [|done].
  unfold keys in *. simpl. destruct (zip_sockets_keys sockets (ms_tcp_slots s)) as [rest Hrest].
  rewrite Hrest in Hok. by eapply streams_ok_prefix.
Qed.
Definition stack_ok (s : medium_stack) (events : list tcp_pump_event) : Prop :=
  streams_ok (keys s) (ms_next_tcp_stream s) events.

Lemma poll_ok now s events evs s' : stack_ok s events -> poll now s = Ok (evs, s') -> stack_ok s' (events ++ evs).
Proof.
  unfold stack_ok, poll. intros Hok Hr.
  apply bind_ok in Hr as (s1 & Hdns & Hr). apply bind_ok in Hr as (s2 & Hlist & Hr).
  apply bind_ok in Hr as (s3 & Hpump & Hr). apply bind_ok in Hr as ([evs' s4] & Htcp & [= <- <-]).
  assert (keys s1 = keys s /\ ms_next_tcp_stream s1 = ms_next_tcp_stream s) as [Hk1 Hn1].
  { unfold ensure_dns_bound in Hdns. destruct (negb _); [|by injection Hdns as <-].
    by apply bind_ok in Hdns as (? & _ & [= <-]). }
  rewrite <- Hk1, <- Hn1 in Hok. clear Hk1 Hn1 Hdns.
  assert (streams_ok (keys s2) (ms_next_tcp_stream s2) events) as Hok2.
  { unfold ensure_tcp_listeners in Hlist. apply bind_ok in Hlist as (slots1 & Hre & Hlist).
    apply bind_ok in Hlist as (slots2 & Hadd & [= <-]). unfold keys. simpl.
    eapply add_listeners_ok; [done|exact Hadd|]. by rewrite (relisten_keys _ _ _ Hre). }
  destruct (iface_poll_ok now s2 _ _ Hok2) as [Hok3 Hn3]. rewrite <- Hn3 in Hok3.
  assert (keys s3 = keys (iface_poll now s2) /\ ms_next_tcp_stream s3 = ms_next_tcp_stream (iface_poll now s2)) as [Hk4 Hn4].
  { unfold pump_dns in Hpump. by apply bind_ok in Hpump as (? & _ & [= <-]). }
  rewrite <- Hk4, <- Hn4 in Hok3.
  assert (streams_ok (keys s4) (ms_next_tcp_stream s4) (events ++ evs')) as Hok4.
  { unfold pump_tcp in Htcp. apply bind_ok in Htcp as ([[slots next] evs2] & Hslots & [= <- <-]).
    unfold keys. simpl. by eapply (pump_slots_ok _ []). }
  destruct (iface_poll_ok now s4 _ _ Hok4) as [Hok5 Hn5]. by rewrite Hn5.
Qed.

(** A slot of a stream, and the slots around it. *)
Lemma with_stream_ok {A} id (f : tcp_slot -> result (A * tcp_slot)) slots a slots' :
  with_stream id f slots = Ok (a, slots') ->
  exists l slot slot' r, slots = l ++ slot :: r /\ slots' = l ++ slot' :: r /\
    ts_stream_id slot = Some id /\ f slot = Ok (a, slot').
Proof.
  revert slots'; induction slots as [|slot slots IH]; intros slots' Hr; [done|]. simpl in Hr.
  case_bool_decide as Hid.
  - apply bind_ok in Hr as ([a' slot1] & Hf & [= <- <-]). by exists [], slot, slot1, slots.
  - apply bind_ok in Hr as ([a' rest] & Hrest & [= <- <-]).
    destruct (IH _ Hrest) as (l & slot1 & slot1' & r & -> & -> & Hs & Hf). by exists (slot :: l), slot1, slot1', r.
Qed.
Lemma send_ok id bytes s n s' events : send_tcp id bytes s = Ok (n, s') -> stack_ok s events -> stack_ok s' events.
Proof.
  unfold send_tcp, stack_ok, keys. intros Hr. apply bind_ok in Hr as ([m slots] & Hr & [= <- <-]). simpl.
  apply with_stream_ok in Hr as (l & slot & slot' & r & -> & -> & _ & Hf).
  apply bind_ok in Hf as ([k socket] & _ & [= <- <-]). by rewrite !map_app.
Qed.
(** Closing a stream, with and without an event for it. *)
Lemma close_ok id s s' events :
  close_tcp id s = Ok s' -> stack_ok s events ->
  stack_ok s' events /\ stack_ok s' (events ++ [StreamClosed id EmptyString]).
Proof.
  unfold close_tcp, stack_ok, keys. intros Hr Hok. apply bind_ok in Hr as ([[] slots] & Hr & [= <-]). simpl.
  apply with_stream_ok in Hr as (l & slot & slot' & r & Hs & -> & Hid & [= <-]).
  rewrite Hs, map_app in Hok. simpl in Hok. unfold slot_key at 2 in Hok. rewrite Hid in Hok.
  rewrite map_app. simpl. unfold slot_key at 2 5. simpl. split; [by eapply streams_ok_release|].
  destruct (streams_ok_event _ _ _ _ _ _ (StreamClosed id EmptyString) Done Hok) as [Hdrop _]; [done|by case_match|].
  apply streams_ok_free; [|exact Hdrop].
  pose proof (so_ports _ _ _ Hok) as Hp. apply list.Forall_app in Hp as [_ Hp]. by inversion Hp.
Qed.

(** A run of the stack: packets in and out, polls, and what its user sends and closes.
    An error of [send_tcp] or [close_tcp] leaves the stack; an error of [poll] ends the
    run. *)
Inductive stack_op :=
  | OpPush (packet : list byte)
  | OpPop
  | OpPoll (now : Z)
  | OpSend (stream_id : string) (bytes : list byte)
  | OpClose (stream_id : string).
Definition step_stack (op : stack_op) (s : medium_stack) : result (list tcp_pump_event * medium_stack) :=
  match op with
  | OpPush packet => Ok ([], push_tun_packet packet s)
  | OpPop => Ok ([], (pop_tun_packet s).2)
  | OpPoll now => poll now s
  | OpSend id bytes => Ok ([], match send_tcp id bytes s with Ok (_, s') => s' | Err _ => s end)
  | OpClose id => Ok ([], match close_tcp id s with Ok s' => s' | Err _ => s end)
  end.
Fixpoint run_stack (ops : list stack_op) (s : medium_stack) : result (list tcp_pump_event * medium_stack) :=
  match ops with
  | [] => Ok ([], s)
  | op :: rest => '(events, s) ← step_stack op s; '(more, s) ← run_stack rest s; Ok (events ++ more, s)
  end.

Lemma run_stack_ok ops s events evs s' : stack_ok s events -> run_stack ops s = Ok (evs, s') -> stack_ok s' (events ++ evs).
Proof.
  revert s events evs; induction ops as [|op ops IH]; intros s events evs Hok Hr; simpl in Hr.
  { injection Hr as <- <-. by rewrite app_nil_r. }
  apply bind_ok in Hr as ([e1 s1] & Hstep & Hr). apply bind_ok in Hr as ([e2 s2] & Hrest & [= <- <-]).
  rewrite app_assoc. eapply IH; [|done]. destruct op as [packet| |now|id bytes|id]; simpl in Hstep.
  - injection Hstep as <- <-. by rewrite app_nil_r.
  - injection Hstep as <- <-. rewrite app_nil_r. unfold pop_tun_packet. by destruct (device_pop_tun_packet _).
  - by eapply poll_ok.
  - injection Hstep as <- <-. rewrite app_nil_r. destruct (send_tcp id bytes s) as [[n s']|] eqn:E; [by eapply send_ok|done].
  - injection Hstep as <- <-. rewrite app_nil_r. destruct (close_tcp id s) as [s'|] eqn:E; [by eapply close_ok|done].
Qed.
Lemma stack_new_ok network s : stack_new network = Ok s -> stack_ok s [].
Proof.
  unfold stack_new, stack_ok, keys. intros Hr. apply bind_ok in Hr as (iface & _ & [= <-]). simpl.
  assert (forall k, k ∈ map slot_key (new_slots network) -> k = (None, HTTP_PORT) \/ k = (None, HTTPS_PORT)) as Hk.
  { intros k (slot & -> & Hin)%list_elem_of_fmap. unfold new_slots in Hin.
    apply list_elem_of_bind in Hin as (v & Hin & _). apply list_elem_of_fmap in Hin as (p & -> & Hp).
    apply elem_of_cons in Hp as [-> |Hp]; [by left|]. apply list_elem_of_singleton in Hp. subst. by right. }
  split; try done.
  - assert (omap fst (map slot_key (new_slots network)) = []) as ->; [|constructor].
    induction (map slot_key (new_slots network)) as [|k ks IH]; [done|]. simpl.
    destruct (Hk k) as [-> | ->]; [by left|apply IH; intros; apply Hk; by right|apply IH; intros; apply Hk; by right].
  - apply Forall_forall. intros k Hin. apply list_elem_of_In, Hk in Hin as [-> | ->]; auto.
  - by intros id port [[=]|[=]]%Hk.
Qed.
End StackFacts.

(** ** Listening *)

(** What the program relies on in smoltcp's sockets: [sk_endpoint] is what
    [tcp::Socket::listen_endpoint] returns.  A call of [listen] sets it, nothing else
    changes it to another address, and a listening socket has one. *)
Class SmoltcpOk `{Smoltcp} := {
  sk_endpoint : tcp_socket -> option (ipv4 * Z);
  endpoint_new : sk_endpoint sk_new = None;
  endpoint_listen : forall addr port s s', sk_listen addr port s = Ok s' ->
    sk_state s' = Listen /\ sk_endpoint s' = Some (addr, port);
  endpoint_recv : forall s bytes s', sk_recv_all s = Ok (bytes, s') ->
    sk_endpoint s' = sk_endpoint s \/ sk_endpoint s' = None;
  endpoint_send : forall bytes s n s', sk_send_slice bytes s = Ok (n, s') ->
    sk_endpoint s' = sk_endpoint s \/ sk_endpoint s' = None;
  endpoint_close : forall s, sk_endpoint (sk_close s) = sk_endpoint s \/ sk_endpoint (sk_close s) = None;
  endpoint_poll : forall now iface device dns sockets,
    Forall2 (fun s s' => sk_endpoint s' = sk_endpoint s \/ sk_endpoint s' = None)
      sockets (if_poll now iface device dns sockets).2;
  endpoint_listening : forall s, sk_state s = Listen -> is_Some (sk_endpoint s)
}.

Section ListenFacts.
Context `{SmoltcpOk}.

(** A slot listens nowhere but at the address of the first service with its id. *)
Definition slot_place (network : virtual_network) (slot : tcp_slot) : Prop :=
  sk_endpoint (ts_socket slot) = None \/
  exists first, service_of (ts_service_id slot) network = Some first /\
    sk_endpoint (ts_socket slot) = Some (vs_addr first, ts_port slot).
Definition places (s : medium_stack) : Prop := Forall (slot_place (ms_network s)) (ms_tcp_slots s).

Lemma slot_place_socket network slot socket :
  sk_endpoint socket = sk_endpoint (ts_socket slot) \/ sk_endpoint socket = None ->
  slot_place network slot -> slot_place network (set_socket socket slot).
Proof. unfold slot_place. simpl. intros [-> | ->]; auto. Qed.
Lemma service_of_some network service_id v : service_of service_id network = Some v ->
  v ∈ vn_services network /\ vs_id v = service_id.
Proof.
  unfold service_of. intros Hf. apply List.find_some in Hf as [Hin Hb]. split; [by apply list_elem_of_In|].
  by apply bool_decide_eq_true in Hb.
Qed.
Lemma service_of_ex network v : v ∈ vn_services network -> exists first, service_of (vs_id v) network = Some first.
Proof.
  intros Hin. destruct (service_of (vs_id v) network) as [w|] eqn:E; [eauto|]. exfalso.
  pose proof (List.find_none _ _ E v (proj1 (list_elem_of_In _ _) Hin)) as Hv. simpl in Hv.
  by apply bool_decide_eq_false in Hv.
Qed.

Lemma relisten_places network slots slots' :
  relisten network slots = Ok slots' -> Forall (slot_place network) slots -> Forall (slot_place network) slots'.
Proof.
  revert slots'; induction slots as [|slot slots IH]; intros slots'; simpl; [by intros [= <-]|].
  intros Hr Hok. apply bind_ok in Hr as (slot1 & Hslot & Hr). apply bind_ok in Hr as (rest & Hrest & [= <-]).
  apply list.Forall_cons in Hok as [Hs Hok]. apply list.Forall_cons. split; [|by apply IH].
  destruct (service_of _ _) as [v|] eqn:Hv; [|by injection Hslot as <-].
  destruct (negb _); [|by injection Hslot as <-]. apply bind_ok in Hslot as (socket & Hl & [= <-]).
  right. exists v. apply endpoint_listen in Hl as [_ Hep]. simpl. by rewrite Hep.
Qed.
(** The services whose listeners were checked are served; a service whose id has come
    before adds none. *)
Definition served (slots : list tcp_slot) (d : string * ipv4 * Z) : Prop :=
  existsb (is_listener d.1.1 d.2) slots = true.
Lemma served_app slots more d : served slots d -> served (slots ++ more) d.
Proof. unfold served. rewrite existsb_app. by intros ->. Qed.
(** A desired listener is for the first service of its id, or its id and port came
    before. *)
Lemma desired_first (services : list virtual_service) (done todo : list (string * ipv4 * Z)) service_id addr port :
  (v ← services; map (fun port => (vs_id v, vs_addr v, port)) [HTTP_PORT; HTTPS_PORT])
    = done ++ (service_id, addr, port) :: todo ->
  (exists addr', (service_id, addr', port) ∈ done) \/
  exists first, List.find (fun s => vs_id s =?s service_id) services = Some first /\ vs_addr first = addr.
Proof.
  revert done; induction services as [|v services IH]; intros done Heq; [by destruct done|].
  rewrite bind_cons in Heq. simpl in Heq.
  destruct done as [|a done]; [|destruct done as [|b done]].
  - injection Heq as <- <- <- _. right. exists v. simpl. by rewrite bool_decide_eq_true_2.
  - injection Heq as _ <- <- <- _. right. exists v. simpl. by rewrite bool_decide_eq_true_2.
  - injection Heq as Ha Hb Heq. destruct (IH done Heq) as [(addr' & Hin)|(first & Hf & Haddr)].
    + left. exists addr'. right. by right.
    + simpl. case_bool_decide as Hid; [|right; by exists first]. left. exists (vs_addr v).
      assert (port = HTTP_PORT \/ port = HTTPS_PORT) as [-> | ->].
      { assert ((service_id, addr, port) ∈ done ++ (service_id, addr, port) :: todo) as Hin
          by (apply elem_of_app; right; by left).
        rewrite <- Heq in Hin. apply list_elem_of_bind in Hin as (w & Hin & _).
        apply elem_of_cons in Hin as [[= _ _ ->]|Hin]; [by left|].
        apply list_elem_of_singleton in Hin as [= _ _ ->]. by right. }
      * rewrite <- Ha, Hid. by left.
      * rewrite <- Hb, Hid. right. by left.
Qed.
Lemma add_listeners_served network done todo slots slots' :
  desired_listeners network = done ++ todo -> add_listeners network todo slots = Ok slots' ->
  Forall (served slots) done -> Forall (slot_place network) slots ->
  Forall (served slots') (done ++ todo) /\ Forall (slot_place network) slots'.
Proof.
  revert done slots; induction todo as [|[[service_id addr] port] todo IH]; intros done slots Hdes Hr Hd Hp; simpl in Hr.
  { injection Hr as <-. by rewrite app_nil_r. }
  pose proof (desired_first _ _ _ _ _ _ Hdes) as Hfirst.
  replace (done ++ (service_id, addr, port) :: todo) with ((done ++ [(service_id, addr, port)]) ++ todo) in *
    by (by rewrite <- app_assoc).
  destruct (existsb _ slots) eqn:He.
  - eapply IH; [done|done| |done]. apply list.Forall_app. split; [done|]. by constructor.
  - apply bind_ok in Hr as (socket & Hl & Hr). apply endpoint_listen in Hl as [Hst Hep]. eapply IH; [done|exact Hr| |].
    + apply list.Forall_app. split; [by eapply Forall_impl; [intros x; apply served_app|]|]. constructor; [|done].
      unfold served. simpl. rewrite existsb_app. simpl. unfold is_listener at 2. simpl.
      rewrite !bool_decide_eq_true_2, Z.eqb_refl by done. simpl. apply orb_true_r.
    + apply list.Forall_app. split; [done|]. constructor; [|done]. right.
      destruct Hfirst as [(addr' & Hin)|(first & Hf & Ha)].
      * rewrite Forall_forall in Hd. apply list_elem_of_In, Hd in Hin. unfold served in Hin. simpl in Hin. congruence.
      * exists first. simpl. split; [exact Hf|]. by rewrite Hep, Ha.
Qed.
Definition keeps (s s' : tcp_socket) : Prop := sk_endpoint s' = sk_endpoint s \/ sk_endpoint s' = None.
Lemma keeps_refl s : keeps s s.
Proof. by left. Qed.
Lemma keeps_trans a b c : keeps a b -> keeps b c -> keeps a c.
Proof. unfold keeps. intros [H1|H1] [H2|H2]; [left|right|right|right]; congruence. Qed.

Lemma redirect_keeps socket hostname socket' : redirect_http_to_https socket hostname = Ok socket' -> keeps socket socket'.
Proof.
  unfold redirect_http_to_https. destruct (negb _); [intros [= <-]; apply keeps_refl|].
  intros Hr. apply bind_ok in Hr as ([bytes s1] & Hrecv & Hr). apply bind_ok in Hr as (s2 & Hsend & [= <-]).
  eapply keeps_trans; [by eapply endpoint_recv|]. eapply keeps_trans; [|apply endpoint_close].
  destruct (sk_can_send s1); [|injection Hsend as <-; apply keeps_refl].
  apply bind_ok in Hsend as ([n s3] & Hsend & [= <-]). by eapply endpoint_send.
Qed.
Lemma poll_socket_keeps socket network id fallback socket' evs :
  poll_socket socket network id fallback = Ok (socket', evs) -> keeps socket socket'.
Proof.
  unfold poll_socket. destruct (sk_can_recv socket); [|intros [= <- <-]; apply keeps_refl].
  intros Hr. apply bind_ok in Hr as ([bytes s] & Hrecv & [= <- <-]). by eapply endpoint_recv.
Qed.
Lemma pump_slot_place network slot next slot' next' evs :
  pump_slot network slot next = Ok (slot', next', evs) -> slot_place network slot -> slot_place network slot'.
Proof.
  unfold pump_slot. intros Hr Hp. apply bind_ok in Hr as ([[slot1 next1] connected] & Hst & Hr).
  assert (slot_place network slot1) as Hp1.
  { unfold start_stream in Hst. destruct (_ && _); [|by injection Hst as <- _ _].
    apply bind_ok in Hst as ([] & _ & [= <- _ _]). exact Hp. }
  destruct (ts_stream_id slot1); [|by injection Hr as <- _ _].
  apply bind_ok in Hr as ([socket received] & Hsock & Hr).
  assert (keeps (ts_socket slot1) socket) as Hk.
  { destruct (ts_port slot1 =? HTTP_PORT).
    - apply bind_ok in Hsock as (s1 & Hs & [= <- _]). by eapply redirect_keeps.
    - by eapply poll_socket_keeps. }
  apply (slot_place_socket network _ socket Hk) in Hp1. by destruct (_ && _); injection Hr as <- _ _.
Qed.
Lemma pump_slots_places network slots next slots' next' evs :
  pump_slots network slots next = Ok (slots', next', evs) ->
  Forall (slot_place network) slots -> Forall (slot_place network) slots'.
Proof.
  revert next slots' next' evs; induction slots as [|slot slots IH]; intros next slots' next' evs Hr Hp; simpl in Hr.
  { by injection Hr as <- _ _. }
  apply bind_ok in Hr as ([[slot1 next1] evs1] & Hslot & Hr). apply bind_ok in Hr as ([[rest next2] evs2] & Hrest & [= <- _ _]).
  apply list.Forall_cons in Hp as [Hs Hp]. constructor; [by eapply pump_slot_place|by eapply IH].
Qed.
Lemma iface_poll_places now s : places s -> places (iface_poll now s) /\ ms_network (iface_poll now s) = ms_network s.
Proof.
  unfold places, iface_poll. intros Hp.
  pose proof (endpoint_poll now (ms_iface s) (ms_device s) (ms_dns s) (map ts_socket (ms_tcp_slots s))) as Hk.
  destruct (if_poll _ _ _ _ _) as [[[iface device] dns] sockets]. simpl in *. split; [|done].
  revert sockets Hk; induction (ms_tcp_slots s) as [|slot slots IH]; intros sockets Hk; inversion Hk; subst; simpl; [constructor|].
  apply list.Forall_cons in Hp as [Hs Hp]. constructor; [by apply slot_place_socket|by apply IH].
Qed.
Lemma listeners_places s s' : ensure_tcp_listeners s = Ok s' -> places s ->
  places s' /\ ms_network s' = ms_network s /\ Forall (served (ms_tcp_slots s')) (desired_listeners (ms_network s)).
Proof.
  unfold ensure_tcp_listeners, places. intros Hr Hp. apply bind_ok in Hr as (slots1 & Hre & Hr).
  apply bind_ok in Hr as (slots2 & Hadd & [= <-]). simpl.
  destruct (add_listeners_served (ms_network s) [] _ _ _ eq_refl Hadd) as [Hserved Hplaces]; [constructor|by eapply relisten_places|].
  done.
Qed.
Lemma poll_places now s evs s' : poll now s = Ok (evs, s') -> places s -> places s' /\ ms_network s' = ms_network s.
Proof.
  unfold poll. intros Hr Hp.
  apply bind_ok in Hr as (s1 & Hdns & Hr). apply bind_ok in Hr as (s2 & Hlist & Hr).
  apply bind_ok in Hr as (s3 & Hpump & Hr). apply bind_ok in Hr as ([evs' s4] & Htcp & [= <- <-]).
  assert (places s1 /\ ms_network s1 = ms_network s) as [Hp1 Hn1].
  { unfold ensure_dns_bound in Hdns. destruct (negb _); [|by injection Hdns as <-].
    by apply bind_ok in Hdns as (? & _ & [= <-]). }
  destruct (listeners_places _ _ Hlist Hp1) as (Hp2 & Hn2 & _). destruct (iface_poll_places now s2 Hp2) as [Hp3 Hn3].
  assert (places s3 /\ ms_network s3 = ms_network s) as [Hp4 Hn4].
  { unfold pump_dns in Hpump. apply bind_ok in Hpump as (? & _ & [= <-]). split; [exact Hp3|]. simpl. congruence. }
  assert (places s4 /\ ms_network s4 = ms_network s) as [Hp5 Hn5].
  { unfold pump_tcp in Htcp. apply bind_ok in Htcp as ([[slots next] evs2] & Hslots & [= _ <-]).
    unfold places. simpl. split; [by eapply pump_slots_places|done]. }
  destruct (iface_poll_places now s4 Hp5) as [Hp6 Hn6]. split; [done|]. congruence.
Qed.
Lemma with_stream_places {A} network id (f : tcp_slot -> result (A * tcp_slot)) slots a slots' :
  (forall slot a slot', f slot = Ok (a, slot') -> slot_place network slot -> slot_place network slot') ->
  with_stream id f slots = Ok (a, slots') -> Forall (slot_place network) slots -> Forall (slot_place network) slots'.
Proof.
  intros Hf (l & slot & slot' & r & -> & -> & _ & Hslot)%with_stream_ok Hp.
  apply list.Forall_app in Hp as [Hl [Hs Hr]%list.Forall_cons]. apply list.Forall_app. split; [done|].
  constructor; [by eapply Hf|done].
Qed.
Lemma run_stack_places ops s evs s' : run_stack ops s = Ok (evs, s') -> places s ->
  places s' /\ ms_network s' = ms_network s.
Proof.
  revert s evs; induction ops as [|op ops IH]; intros s evs Hr Hp; simpl in Hr; [by injection Hr as _ <-|].
  apply bind_ok in Hr as ([e1 s1] & Hstep & Hr). apply bind_ok in Hr as ([e2 s2] & Hrest & [= _ <-]).
  assert (places s1 /\ ms_network s1 = ms_network s) as [Hp1 <-]; [|by eapply IH].
  destruct op as [packet| |now|id bytes|id]; simpl in Hstep.
  - by injection Hstep as _ <-.
  - injection Hstep as _ <-. unfold pop_tun_packet. by destruct (device_pop_tun_packet _).
  - by eapply poll_places.
  - injection Hstep as _ <-. unfold send_tcp. destruct (with_stream _ _ _) as [[n slots]|] eqn:E; [|done]. split; [|done].
    eapply with_stream_places; [|exact E|exact Hp]. intros slot a slot' Hf. apply bind_ok in Hf as ([k socket] & Hs & [= _ <-]).
    apply slot_place_socket. by eapply endpoint_send.
  - injection Hstep as _ <-. unfold close_tcp. destruct (with_stream _ _ _) as [[[] slots]|] eqn:E; [|done]. split; [|done].
    eapply with_stream_places; [|exact E|exact Hp]. intros slot a slot' [= _ <-] Hs.
    apply (slot_place_socket (ms_network s) slot (sk_close (ts_socket slot))); [apply endpoint_close|done].
Qed.
Lemma stack_new_places network s : stack_new network = Ok s -> places s /\ ms_network s = network.
Proof.
  unfold stack_new, places. intros Hr. apply bind_ok in Hr as (iface & _ & [= <-]). simpl. split; [|done].
  apply Forall_forall. intros slot Hin. apply list_elem_of_In in Hin. unfold new_slots in Hin.
  apply list_elem_of_bind in Hin as (v & Hin & _). apply list_elem_of_fmap in Hin as (p & -> & Hp).
  left. apply endpoint_new.
Qed.
End ListenFacts.

(** ** Properties *)

(** C18. Over any run of the stack, polls, packets, sends and closes in any order: every stream
    has its own slot; the events of a stream of HTTPS are one connection, then what is
    received, then at most one close, and a stream of plain HTTP gives at most a close;
    a stream that a slot still holds was connected and is not closed; and after
    [close_tcp] a stream gives no event any more. *)
Theorem streams_follow_the_protocol `{Smoltcp} (network : virtual_network) (s0 s : medium_stack)
    (ops : list stack_op) (events : list tcp_pump_event)
    (Hnew : stack_new network = Ok s0) (Hrun : run_stack ops s0 = Ok (events, s)) :
  NoDup (omap ts_stream_id (ms_tcp_slots s)) /\
  (forall id, is_Some (phase id events)) /\
  (forall slot id, slot ∈ ms_tcp_slots s -> ts_stream_id slot = Some id ->
     phase id events = Some (if ts_port slot =? HTTP_PORT then Fresh else Open)) /\
  (forall id closed later more s', close_tcp id s = Ok closed -> run_stack later closed = Ok (more, s') ->
     Forall (fun e => event_stream e <> id) more).
Proof.
  pose proof (run_stack_ok _ _ _ _ _ (stack_new_ok _ _ Hnew) Hrun) as Hok. simpl in Hok. split_and!.
  - pose proof (so_unique _ _ _ Hok) as Hu. unfold keys in Hu.
    assert (omap fst (map slot_key (ms_tcp_slots s)) = omap ts_stream_id (ms_tcp_slots s)) as <-; [|done].
    clear. induction (ms_tcp_slots s) as [|slot slots IH]; [done|]. simpl. destruct (ts_stream_id slot); [by f_equal|done].
  - apply (so_phase _ _ _ Hok).
  - intros slot id Hin Hid. apply (so_held _ _ _ Hok). rewrite <- Hid. apply list_elem_of_fmap. by exists slot.
  - intros id closed later more s' Hclose Hlater. destruct (close_ok _ _ _ _ Hclose Hok) as [_ Hclosed].
    pose proof (run_stack_ok _ _ _ _ _ Hclosed Hlater) as Hfinal.
    eapply phase_done; [|apply (so_phase _ _ _ Hfinal)].
    pose proof (so_phase _ _ _ Hclosed id) as [ph Hph]. rewrite Hph. f_equal.
    rewrite phase_snoc, bool_decide_eq_true_2 in Hph by done.
    destruct (phase id events) as [[]|]; simpl in Hph; congruence.
Qed.

(** Whatever has happened, when a poll has ensured its listeners every published service
    has a free socket listening on both ports; but all the sockets of an id listen at the
    address of the first service with that id.  A later service with the same id, which
    another node may publish, has a host name and an address at which nothing listens. *)
Theorem listeners_serve_the_first_service_of_an_id `{SmoltcpOk} (services : list network_service)
    (network : virtual_network) (s0 s s' : medium_stack) (ops : list stack_op) (events : list tcp_pump_event)
    (Hnet : network_new services = Ok network) (Hnew : stack_new network = Ok s0)
    (Hrun : run_stack ops s0 = Ok (events, s)) (Hlisten : ensure_tcp_listeners s = Ok s') :
  (forall v port, v ∈ vn_services network -> port = HTTP_PORT \/ port = HTTPS_PORT ->
     exists slot first, slot ∈ ms_tcp_slots s' /\ ts_stream_id slot = None /\
       sk_state (ts_socket slot) = Listen /\ service_of (vs_id v) network = Some first /\
       sk_endpoint (ts_socket slot) = Some (vs_addr first, port)) /\
  (forall v, v ∈ vn_services network -> service_of (vs_id v) network <> Some v ->
     forall slot port, slot ∈ ms_tcp_slots s' -> sk_endpoint (ts_socket slot) <> Some (vs_addr v, port)).
Proof.
  destruct (stack_new_places _ _ Hnew) as [Hp0 Hn0]. destruct (run_stack_places _ _ _ _ Hrun Hp0) as [Hp1 Hn1].
  destruct (listeners_places _ _ Hlisten Hp1) as (Hp2 & Hn2 & Hserved). unfold places in Hp2.
  rewrite Hn1, Hn0 in Hserved. rewrite Hn2, Hn1, Hn0 in Hp2. rewrite Forall_forall in Hp2, Hserved. split.
  - intros v port Hv Hport.
    assert ((vs_id v, vs_addr v, port) ∈ desired_listeners network) as Hd.
    { unfold desired_listeners. apply list_elem_of_bind. exists v. split; [|done].
      destruct Hport as [-> | ->]; [by left|right; by left]. }
    apply list_elem_of_In, Hserved in Hd. unfold served in Hd. simpl in Hd.
    apply existsb_exists in Hd as (slot & Hin & Hlist). unfold is_listener in Hlist.
    apply andb_true_iff in Hlist as [Hlist Hst]. apply andb_true_iff in Hlist as [Hlist Hfree].
    apply andb_true_iff in Hlist as [Hid Hprt]. apply bool_decide_eq_true in Hst, Hfree, Hid. apply Z.eqb_eq in Hprt.
    destruct (endpoint_listening _ Hst) as [ep Hep]. destruct (Hp2 _ Hin) as [Hnone|(first & Hf & He)]; [congruence|].
    exists slot, first. rewrite Hid in Hf. rewrite Hprt in He. split_and!; try done. by apply list_elem_of_In.
  - intros v Hv Hne slot port Hin Heq. apply list_elem_of_In in Hin. destruct (Hp2 _ Hin) as [Hnone|(first & Hf & He)]; [congruence|].
    rewrite He in Heq. injection Heq as Haddr _. destruct (service_of_some _ _ _ Hf) as [Hfin Hfid].
    assert (first = v) as ->; [|by rewrite Hfid in Hne].
    pose proof (network_addrs _ _ Hnet) as Hnd.
    apply list_elem_of_lookup_1 in Hv as [i Hi]. apply list_elem_of_lookup_1 in Hfin as [j Hj].
    assert (j = i) as ->; [|congruence]. eapply (NoDup_lookup _ _ _ (vs_addr v) Hnd); rewrite list_lookup_fmap.
    + by rewrite Hj; simpl; rewrite Haddr.
    + by rewrite Hi.
Qed.

(** ** Witnesses *)

(** Sockets and an interface whose packets name a socket and carry its bytes: the first
    packet for a listening socket connects it, an empty one resets it. *)
Record toy_socket := ToySocket {
  toy_state : tcp_state; toy_rx : list byte; toy_tx : list byte; toy_ep : option (ipv4 * Z)
}.
Definition toy_sk_state (s : toy_socket) : tcp_state :=
  match toy_state s, toy_ep s with Listen, None => Closed | st, _ => st end.
Definition toy_may_recv (s : toy_socket) : bool :=
  match toy_sk_state s with Established | FinWait1 | FinWait2 => true | _ => false end.
Definition toy_deliver (packet : list byte) (sockets : list toy_socket) : list toy_socket :=
  match packet with
  | [] => sockets
  | i :: bytes =>
      alter (fun s =>
        match toy_sk_state s, bytes with
        | Listen, _ => ToySocket Established bytes [] (toy_ep s)
        | Established, _ :: _ => ToySocket Established (toy_rx s ++ bytes) (toy_tx s) (toy_ep s)
        | Established, [] => ToySocket Closed [] [] (toy_ep s)
        | _, _ => s
        end) (Z.to_nat (u8 i)) sockets
  end.
#[global] Instance toy_smoltcp : Smoltcp := {
  tcp_socket := toy_socket;
  sk_new := ToySocket Closed [] [] None;
  sk_state := toy_sk_state;
  sk_is_open s := negb (bool_decide (toy_sk_state s = Closed));
  sk_is_active s := match toy_sk_state s with Closed | Listen | TimeWait => false | _ => true end;
  sk_may_recv := toy_may_recv;
  sk_can_recv s := toy_may_recv s && negb (Nat.eqb (length (toy_rx s)) 0);
  sk_can_send s := bool_decide (toy_sk_state s = Established);
  sk_local s := (fun a => SockV4 a.1 a.2) <$> toy_ep s;
  sk_listen addr port s := if bool_decide (toy_sk_state s = Closed)
                           then Ok (ToySocket Listen [] [] (Some (addr, port))) else Err (EExt "InvalidState");
  sk_recv_all s := if toy_may_recv s then Ok (toy_rx s, ToySocket (toy_state s) [] (toy_tx s) (toy_ep s))
                   else Err (EExt "InvalidState");
  sk_send_slice bytes s := if bool_decide (toy_sk_state s = Established)
                           then let n := Nat.min (length bytes) (4 - length (toy_tx s)) in
                                Ok (n, ToySocket (toy_state s) (toy_rx s) (toy_tx s ++ take n bytes) (toy_ep s))
                           else Err (EExt "InvalidState");
  sk_close s := ToySocket (match toy_state s with Established => FinWait1 | _ => Closed end) (toy_rx s) (toy_tx s) (toy_ep s);
  udp_socket := bool;
  udp_new := false;
  udp_is_open u := u;
  udp_bind _ _ := Ok true;
  udp_queued _ := O;
  udp_can_recv _ := false;
  udp_recv _ := Err (EExt "Exhausted");
  udp_send_slice _ _ u := Ok u;
  interface := unit;
  if_new _ := Some tt;
  if_poll _ i d u sockets :=
    (i, PacketDevice [] (pd_tx d) (pd_mtu d), u, fold_left (fun s p => toy_deliver p s) (pd_rx d) sockets)
}.
Lemma toy_deliver_keeps packet sockets :
  Forall2 (fun s s' => toy_ep s' = toy_ep s \/ toy_ep s' = None) sockets (toy_deliver packet sockets).
Proof.
  destruct packet as [|i bytes]; simpl; [by apply Forall_Forall2_diag, Forall_true; left|].
  generalize (Z.to_nat (u8 i)) as k. induction sockets as [|s sockets IH]; intros k; [constructor|].
  destruct k as [|k]; simpl; constructor.
  - left. by destruct (toy_sk_state s), bytes.
  - apply Forall_Forall2_diag, Forall_true. by left.
  - by left.
  - apply IH.
Qed.
#[global, program] Instance toy_smoltcp_ok : SmoltcpOk := { sk_endpoint := toy_ep }.
Next Obligation. done. Qed.
Next Obligation. simpl. intros addr port s s'. case_bool_decide; [|done]. by intros [= <-]. Qed.
Next Obligation. simpl. intros s bytes s'. destruct (toy_may_recv s); [|done]. intros [= _ <-]. by left. Qed.
Next Obligation. simpl. intros bytes s n s'. case_bool_decide; [|done]. intros [= _ <-]. by left. Qed.
Next Obligation. intros s. by left. Qed.
Next Obligation.
  simpl. intros _ _ d _ sockets. generalize (pd_rx d). intros rx. revert sockets.
  induction rx as [|p rx IH]; intros sockets; simpl; [by apply Forall_Forall2_diag, Forall_true; left|].
  assert (Transitive (fun s s' => toy_ep s' = toy_ep s \/ toy_ep s' = None)) as Htrans.
  { intros x y z [H1|H1] [H2|H2]; [left|right|right|right]; congruence. }
  etrans; [apply toy_deliver_keeps|apply IH].
Qed.
Next Obligation. simpl. intros s. unfold toy_sk_state. by destruct (toy_state s), (toy_ep s). Qed.

(** Two nodes publish a service of the same id. *)
Definition toy_two_nodes : list network_service :=
  [NetworkService "hello" (Some "Docs") "https"; NetworkService "hello" (Some "Photos") "https"].
Definition toy_two_network : virtual_network :=
  match network_new toy_two_nodes with Ok n => n | Err _ => VirtualNetwork DEFAULT_CLIENT_ADDR DEFAULT_DNS_ADDR 0 [] ∅ ∅ end.
Definition toy_stack : medium_stack :=
  match stack_new toy_two_network with Ok s => s | Err _ => MediumStack toy_two_network tt (device_new 0) false [] 0 end.
Definition toy_ops : list stack_op :=
  [OpPoll 0; OpPush [x01; x47]; OpPoll 250; OpPush [x01; x45; x54]; OpPush [x00; x47]; OpPoll 500].
Definition toy_run : list tcp_pump_event * medium_stack :=
  match run_stack toy_ops toy_stack with Ok r => r | Err _ => ([], toy_stack) end.
Definition toy_listened : medium_stack := match ensure_tcp_listeners toy_run.2 with Ok s => s | Err _ => toy_stack end.
Lemma streams_follow_the_protocol_witness :
  toy_run.1 = [Connected "tcp-1" "hello"; Received "tcp-1" "hello" [x47]; Received "tcp-1" "hello" [x45; x54]] /\
  phase "tcp-1" toy_run.1 = Some Open /\
  Forall (fun e => event_stream e <> "tcp-1")
    (match close_tcp "tcp-1" toy_run.2 with
     | Ok s => match run_stack toy_ops s with Ok (more, _) => more | Err _ => [] end
     | Err _ => []
     end).
Proof.
  destruct (@streams_follow_the_protocol toy_smoltcp toy_two_network toy_stack toy_run.2 toy_ops toy_run.1)
    as (_ & _ & Hheld & Hclosed); [vm_compute; reflexivity|vm_compute; reflexivity|].
  split; [vm_compute; reflexivity|]. split.
  - refine (Hheld (TcpSlot (ToySocket Established [] [] (Some (Ipv4 10 88 0 10, 443))) "hello" "docs.medium" 443 (Some "tcp-1")) "tcp-1" _ _).
    + apply (list_elem_of_lookup_2 _ 1). vm_compute. reflexivity.
    + reflexivity.
  - refine (Hclosed "tcp-1" (match close_tcp "tcp-1" toy_run.2 with Ok s => s | Err _ => toy_stack end) toy_ops _
              (match run_stack toy_ops (match close_tcp "tcp-1" toy_run.2 with Ok s => s | Err _ => toy_stack end) with
               | Ok (_, s) => s | Err _ => toy_stack end) _ _); vm_compute; reflexivity.
Defined.
Lemma listeners_serve_the_first_service_of_an_id_witness :
  resolve_hostname "photos.medium" toy_two_network = Some (VirtualService "hello" "photos.medium" (Ipv4 10 88 0 11) "https") /\
  length (ms_tcp_slots toy_listened) = 4%nat /\
  (exists slot first, slot ∈ ms_tcp_slots toy_listened /\ ts_stream_id slot = None /\
     sk_state (ts_socket slot) = Listen /\ service_of "hello" toy_two_network = Some first /\
     toy_ep (ts_socket slot) = Some (vs_addr first, 443)) /\
  forall slot port, slot ∈ ms_tcp_slots toy_listened -> toy_ep (ts_socket slot) <> Some (Ipv4 10 88 0 11, port).
Proof.
  destruct (@listeners_serve_the_first_service_of_an_id toy_smoltcp toy_smoltcp_ok toy_two_nodes toy_two_network
              toy_stack toy_run.2 toy_listened toy_ops toy_run.1) as [Hfirst Hlater]; try (vm_compute; reflexivity).
  split; [vm_compute; reflexivity|]. split; [vm_compute; reflexivity|]. split.
  - refine (Hfirst (VirtualService "hello" "docs.medium" (Ipv4 10 88 0 10) "https") 443 _ (or_intror eq_refl)).
    apply (list_elem_of_lookup_2 _ 0). vm_compute. reflexivity.
  - refine (Hlater (VirtualService "hello" "photos.medium" (Ipv4 10 88 0 11) "https") _ _).
    + apply (list_elem_of_lookup_2 _ 1). vm_compute. reflexivity.
    + vm_compute. discriminate.
Defined.
