(* ===== verification/AndroidConnect.v ===== *)
(** * The backends of the Android network stack: connecting

    [crates/medium-android-netstack/src/lib.rs]: the catalogue of services the app passes,
    the connections to their backends ([ActiveBackend]) and how they are made.  The
    functions that make them are copies of the ones of [medium-session] with every socket
    protected from the VPN; [same_attempts] relates the two.

    As in [MediumSession.v], the network is a [dialer], and connecting takes the calls that
    set the options of a socket as done; the outcomes of the ones that make a backend
    non-blocking are a parameter, as are [VpnService.protect] and serde_json's [json!] objects. *)

From S2P Require Import Prelude RustStd Order NetAddr Protocol PinnedHttp Net Rendezvous UdpPacket UdpSession UdpListener MediumSession Netstack.

(** ** The catalogue *)

Record android_service := AndroidService {
  as_id : string;
  as_label : option string;
  as_kind : string;
  as_target : string;
  as_grant : option session_open_grant;
  as_control_pin : option string
}.
Definition default_service_kind : string := "https".

Inductive backend_route :=
  | DirectTarget (target : string)
  | SessionGrant (grant : session_open_grant) (control_pin : option string).
Record service_catalog := ServiceCatalog {
  ct_services : list network_service;
  ct_routes : gmap string backend_route
}.
Definition route_of (service : android_service) : backend_route :=
  match as_grant service with
  | Some grant => SessionGrant grant (as_control_pin service)
  | None => DirectTarget (as_target service)
  end.
(** [parse_services] on the services that serde_json read. *)
Definition parse_services (android_services : list android_service) : service_catalog :=
  ServiceCatalog (map (fun s => NetworkService (as_id s) (as_label s) (as_kind s)) android_services)
    (fold_left (fun routes s => <[as_id s := route_of s]> routes) android_services ∅).

(** ** Backends *)

Inductive active_backend :=
  | BTcp (t : tcp)
  | BWebSocket (s : websocket)
  | BUdp (s : stream) (w : world).
Record backend_connect_outcome := BackendConnectOutcome {
  bo_backend : active_backend;
  bo_selected_ice_path : option ice_candidate
}.

(** [TcpStream::read] and [write], non-blocking: a read takes what fits of the next arrival. *)
Definition tcp_read (size : nat) : eff tcp (list byte) := fun t =>
  let rest_of arrivals := Tcp (tcp_peer t) (tcp_sent t) (tcp_writes t) (tcp_timeout t) arrivals (tcp_room t) in
  match tcp_arrivals t with
  | [] => (Err (EIo WouldBlock), t)
  | inl k :: rest => (Err (EIo k), rest_of rest)
  | inr bytes :: rest =>
      (Ok (take size bytes), rest_of (match drop size bytes with [] => rest | more => inr more :: rest end))
  end.
Definition tcp_write (bytes : list byte) : eff tcp nat := fun t =>
  let wrote n room := Tcp (tcp_peer t) (tcp_sent t ++ take n bytes) (tcp_writes t) (tcp_timeout t) (tcp_arrivals t) room in
  match tcp_room t with
  | [] => (Ok (length bytes), wrote (length bytes) [])
  | inl k :: rest => (Err (EIo k), wrote O rest)
  | inr n :: rest => let n := Nat.min n (length bytes) in (Ok n, wrote n rest)
  end.

Definition set_websocket_timeouts (timeout : option Z) (s : websocket) : websocket :=
  WebSocket (ws_in s) (ws_sends s) (ws_out s) (ws_pin s) timeout.
(** [configure_nonblocking]; [set_options] is what [set_nonblocking] and the calls that set the
    timeouts answer for a backend. *)
Definition configure_nonblocking (set_options : active_backend -> eff dialer unit) (b : active_backend)
    : eff dialer active_backend :=
  _ ← set_options b;
  mret match b with
       | BTcp t => BTcp t
       | BWebSocket s => BWebSocket (set_websocket_timeouts (Some (millis 10)) s)
       | BUdp s w => BUdp s (set_net (set_poll_timeout (millis 10) (w_net w)) w)
       end.

Section Io.
Context `{Aead}.

Definition on_tcp {A} (t : tcp) (m : eff tcp A) : result A * active_backend :=
  let '(r, t') := m t in (r, BTcp t').
Definition on_websocket {A} (s : websocket) (m : eff websocket A) : result A * active_backend :=
  let '(r, s') := m s in (r, BWebSocket s').
Definition on_stream {A} (s : stream) (w : world) (m : eff world A) : result A * active_backend :=
  let '(r, w') := m w in (r, BUdp s w').

(** [Read for ActiveBackend] on a WebSocket.  Each round receives a frame, so the frames
    bound the rounds. *)
Fixpoint websocket_read_loop (fuel size : nat) : eff websocket (list byte) :=
  match fuel with
  | O => throw out_of_fuel
  | S f =>
      message ← attempt ws_read;
      match message with
      | Ok (FBinary payload) => mret (take size payload)
      | Ok FClose => mret []
      | Ok (FPing payload) => _ ← attempt (ws_send (FPong payload)); websocket_read_loop f size
      | Ok _ => websocket_read_loop f size
      | Err e => if is_retry_kind e then throw e else throw (EIo OtherIo)
      end
  end.
Definition backend_read (size : nat) : eff active_backend (list byte) := fun b =>
  match b with
  | BTcp t => on_tcp t (tcp_read size)
  | BUdp s w => on_stream s w (read s size)
  | BWebSocket s => on_websocket s (websocket_read_loop (S (length (ws_in s))) size)
  end.
Definition backend_write (bytes : list byte) : eff active_backend nat := fun b =>
  match b with
  | BTcp t => on_tcp t (tcp_write bytes)
  | BUdp s w => on_stream s w (write s bytes)
  | BWebSocket s => on_websocket s (_ ← io_other (ws_send (FBinary bytes)); mret (length bytes))
  end.
End Io.

(** ** The copies of the client's helpers *)

(** [parse_sha256_pin]: the error of a bad byte names the reason too, which for two bytes is
    always the same [ParseIntError]. *)
Definition bad_pin_byte (pair : string) : string := "invalid control pin hex byte " +:+ pair.
Fixpoint android_parse_hex_pairs (s : string) : result (list byte) :=
  match s with
  | String a (String b rest) =>
      let pair := String a (String b EmptyString) in
      _ ← ok_or (EExt "utf8") (utf8_chars pair);
      v ← ok_or (EMsg (bad_pin_byte pair +:+ ": invalid digit found in string")) (from_str_radix 16 255 pair);
      vs ← android_parse_hex_pairs rest;
      Ok (byte_of_Z v :: vs)
  | _ => Ok []
  end.
Definition android_parse_sha256_pin (pin : string) : result (list byte) :=
  hex ← ok_or (EMsg "control pin must start with sha256:") (strip_prefix "sha256:" pin);
  _ ← bail_if (negb (str_len hex =? 64)) (EMsg "control pin sha256 digest must be 64 hex characters");
  android_parse_hex_pairs hex.
Definition android_pinned_tls_client_config (control_pin : string) : result pinned_cert_verifier :=
  pin ← android_parse_sha256_pin control_pin; Ok (PinnedCertVerifier pin).
Definition android_verify_server_cert `{Sha256} (v : pinned_cert_verifier) (end_entity : list byte) : result unit :=
  if bool_decide (sha256 end_entity = expected_pin v) then Ok tt else Err (EMsg "control TLS pin mismatch").

Definition android_ice_candidate_addr (c : ice_candidate) : string :=
  match parse_ip (ic_addr c) with
  | Some (IpV6 _) => "[" +:+ ic_addr c +:+ "]:" +:+ dec (ic_port c)
  | _ => ic_addr c +:+ ":" +:+ dec (ic_port c)
  end.
Definition android_unusable_candidate_addr (addr : string) : bool :=
  match parse_sock addr with
  | None => false
  | Some a =>
      match sock_ip a with
      | IpV4 ip => v4_is_unspecified ip || v4_is_loopback ip
                 || ((oct0 ip =? 198) && ((oct1 ip =? 18) || (oct1 ip =? 19)))
      | IpV6 ip => v6_is_unspecified ip || v6_is_loopback ip
      end
  end.
Definition ice_checklist_with_preference (grant : session_open_grant) (preferred : option ice_candidate)
    : list ice_candidate := ice_checklist grant preferred.
Definition android_websocket_tcp_addr (url_parse : string -> option url) (relay_url : string) : result string :=
  url ← ok_or (EExt "url") (url_parse relay_url);
  host ← ok_or (EMsg "wss relay URL is missing host") (url_host url);
  port ← ok_or (EMsg "wss relay URL is missing port") (url_known_port url);
  Ok (host +:+ ":" +:+ dec port).

(** ** Connecting *)

Section Connect.
Context `{Json udp_rendezvous_message} `{Json session_hello} `{Sha256}.
(** Name resolution, [url::Url::parse], [TcpStream::connect] on a name, [json!] on an
    object of strings. *)
Context (to_socket_addrs : string -> result (list socket_addr)).
Context (url_parse : string -> option url).
Context (tcp_connect : string -> eff dialer tcp).
Context (json_object : list (string * string) -> result (list byte)).
(** [SocketProtector::protect], when there is one. *)
Context (protector : option (eff dialer unit)).

Definition protect_socket : eff dialer unit :=
  match protector with Some protect => protect | None => mret tt end.
Definition connect_protected_socket (protect : eff dialer unit) (addr : socket_addr) : eff dialer tcp :=
  _ ← protect; connect_timeout addr.
Fixpoint connect_protected_loop (protect : eff dialer unit) (addr : string) (addrs : list socket_addr)
    (last_error : option error) : eff dialer tcp :=
  match addrs with
  | [] => throw (default (EMsg ("no socket addresses for " +:+ addr)) last_error)
  | socket_addr :: rest =>
      connected ← attempt (connect_protected_socket protect socket_addr);
      match connected with
      | Ok stream => mret stream
      | Err error => connect_protected_loop protect addr rest (Some error)
      end
  end.
Definition connect_protected_tcp (addr : string) : eff dialer tcp :=
  match protector with
  | Some protect => addrs ← lift (to_socket_addrs addr); connect_protected_loop protect addr addrs None
  | None => tcp_connect addr
  end.

Definition create_protected_udp_socket (addr : socket_addr) : eff dialer net :=
  _ ← protect_socket; create_udp_socket addr.
Fixpoint android_connect_ice_udp_loop (grant : session_open_grant) (addr : string)
    (addrs : list socket_addr) (last_error : option error) : eff dialer (stream * net) :=
  match addrs with
  | [] => throw (default (EMsg ("no socket addresses for " +:+ addr)) last_error)
  | socket_addr :: rest =>
      created ← attempt (create_protected_udp_socket socket_addr);
      match created with
      | Ok socket => on_udp socket (connect socket_addr (hello_of grant))
      | Err error => android_connect_ice_udp_loop grant addr rest (Some error)
      end
  end.
Definition android_connect_ice_udp_candidate (grant : session_open_grant) (addr : string)
    : eff dialer (stream * net) :=
  addrs ← lift (to_socket_addrs addr); android_connect_ice_udp_loop grant addr addrs None.
Fixpoint android_via_rendezvous_loop (grant : session_open_grant) (relay_addr : string)
    (addrs : list socket_addr) (last_error : option error) : eff dialer (stream * net) :=
  match addrs with
  | [] => throw (default (EMsg ("no socket addresses for " +:+ relay_addr)) last_error)
  | socket_addr :: rest =>
      created ← attempt (create_protected_udp_socket socket_addr);
      match created with
      | Ok socket =>
          on_udp socket (
            _ ← set_read_timeout (millis 500);
            peer_addr ← resolve_peer socket_addr (sg_node_id grant) (sa_token (sg_authorization grant));
            connect peer_addr (hello_of grant))
      | Err error => android_via_rendezvous_loop grant relay_addr rest (Some error)
      end
  end.
Definition android_connect_ice_udp_via_rendezvous (grant : session_open_grant) (relay_addr : string)
    : eff dialer (stream * net) :=
  addrs ← lift (to_socket_addrs relay_addr); android_via_rendezvous_loop grant relay_addr addrs None.

(** A connected UDP stream: its socket, no listener, its state. *)
Definition udp_world (n : net) : world := World n [] [] initial_state.
Fixpoint android_try_connect_loop (grant : session_open_grant) (candidates : list ice_candidate)
    : eff dialer (option (stream * net * ice_candidate)) :=
  match candidates with
  | [] => mret None
  | c :: rest =>
      let addr := android_ice_candidate_addr c in
      if android_unusable_candidate_addr addr then android_try_connect_loop grant rest
      else
        connection ← attempt match ic_kind c with
                             | Relay => android_connect_ice_udp_via_rendezvous grant addr
                             | Host | Srflx => android_connect_ice_udp_candidate grant addr
                             end;
        match connection with
        | Ok stream => mret (Some (stream, c))
        | Err _ => android_try_connect_loop grant rest
        end
  end.
Definition android_try_connect_ice_udp (grant : session_open_grant) (preferred : option ice_candidate)
    : eff dialer (option (stream * net * ice_candidate)) :=
  match sa_ice (sg_authorization grant) with
  | None => mret None
  | Some _ => android_try_connect_loop grant (ice_checklist_with_preference grant preferred)
  end.

Definition hello_fields (grant : session_open_grant) : list (string * string) :=
  [("token", sa_token (sg_authorization grant)); ("service_id", sg_service_id grant)].
Definition client_fields (grant : session_open_grant) : list (string * string) :=
  [("role", "client"); ("node_id", sg_node_id grant)].
Definition android_write_json_line (fields : list (string * string)) (t : tcp) : result tcp :=
  payload ← json_object fields; tcp_write_all (payload ++ [newline]) t.
Definition android_write_session_hello (grant : session_open_grant) (t : tcp) : result tcp :=
  android_write_json_line (hello_fields grant) t.
Definition android_session_hello_frame (grant : session_open_grant) : result (list byte) :=
  payload ← json_object (hello_fields grant); Ok (payload ++ [newline]).
Definition android_connect_wss_relay (relay_url : string) (grant : session_open_grant)
    (control_pin : option string) : eff dialer websocket :=
  addr ← lift (android_websocket_tcp_addr url_parse relay_url);
  _ ← connect_protected_tcp addr;
  connector ← match control_pin with
              | Some pin => config ← lift (android_pinned_tls_client_config pin); mret (Some config)
              | None => mret None
              end;
  socket ← client_tls connector;
  hello ← lift (json_object (client_fields grant));
  socket ← lift (ws_send_on socket (FText hello));
  payload ← lift (android_session_hello_frame grant);
  lift (ws_send_on socket (FBinary payload)).
Definition android_connect_session_candidate (grant : session_open_grant) (control_pin : option string)
    (c : peer_candidate) : eff dialer active_backend :=
  match pc_kind c with
  | DirectTcp =>
      t ← connect_protected_tcp (pc_addr c);
      t ← lift (android_write_session_hello grant t);
      mret (BTcp t)
  | RelayTcp =>
      t ← connect_protected_tcp (pc_addr c);
      t ← lift (android_write_json_line (client_fields grant) t);
      t ← lift (android_write_session_hello grant t);
      mret (BTcp t)
  | WssRelay =>
      s ← android_connect_wss_relay (pc_addr c) grant control_pin;
      mret (BWebSocket (set_websocket_timeouts (Some (millis 10)) s))
  end.
Fixpoint android_candidates_loop (grant : session_open_grant) (control_pin : option string)
    (candidates : list peer_candidate) (last_error : option error) : eff dialer backend_connect_outcome :=
  match candidates with
  | [] => throw (default (EMsg "session grant has no candidates") last_error)
  | c :: rest =>
      if android_unusable_candidate_addr (pc_addr c)
      then android_candidates_loop grant control_pin rest last_error
      else
        connected ← attempt (android_connect_session_candidate grant control_pin c);
        match connected with
        | Ok stream => mret (BackendConnectOutcome stream None)
        | Err error => android_candidates_loop grant control_pin rest (Some error)
        end
  end.
Definition connect_session_grant (grant : session_open_grant) (control_pin : option string)
    (preferred_ice_path : option ice_candidate) : eff dialer backend_connect_outcome :=
  connected ← android_try_connect_ice_udp grant preferred_ice_path;
  match connected with
  | Some (s, n, c) => mret (BackendConnectOutcome (BUdp s (udp_world n)) (Some c))
  | None =>
      android_candidates_loop grant control_pin
        (sort_by legacy_leb (sa_candidates (sg_authorization grant))) None
  end.
Definition connect_backend (route : backend_route) (preferred_ice_path : option ice_candidate)
    : eff dialer backend_connect_outcome :=
  match route with
  | DirectTarget target => t ← connect_protected_tcp target; mret (BackendConnectOutcome (BTcp t) None)
  | SessionGrant grant control_pin => connect_session_grant grant control_pin preferred_ice_path
  end.
End Connect.

(** ** The same attempts as the client's *)

Section SameAttempts.
Context `{Json udp_rendezvous_message} `{Json session_hello} `{Json relay_hello} `{Sha256}.
Context (to_socket_addrs : string -> result (list socket_addr)) (url_parse : string -> option url).
Context (tcp_connect : string -> eff dialer tcp) (json_object : list (string * string) -> result (list byte)).
Context (protect : eff dialer unit) (Hprotect : forall d, protect d = (Ok tt, d)).
Context (grant : session_open_grant) (control_pin : option string) (preferred : option ice_candidate).
(** The two lines as each program writes them. *)
Context (a_hello a_client c_hello c_client : list byte).
Context (Ha_hello : json_object (hello_fields grant) = Ok a_hello)
        (Ha_client : json_object (client_fields grant) = Ok a_client)
        (Hc_hello : to_vec (hello_of grant) = Ok c_hello)
        (Hc_client : to_vec (RelayClient (sg_node_id grant)) = Ok c_client).

(** A backend and a client's stream that were connected alike: the same peer and script
    underneath, the same lines sent, each in its program's JSON. *)
Definition same_connection (b : active_backend) (s : session_stream) : Prop :=
  match b, s with
  | BTcp t, STcp t' => tcp_peer t = tcp_peer t' /\ tcp_writes t = tcp_writes t' /\
      ((tcp_sent t = a_hello ++ [newline] /\ tcp_sent t' = c_hello ++ [newline]) \/
       (tcp_sent t = (a_client ++ [newline]) ++ a_hello ++ [newline] /\
        tcp_sent t' = (c_client ++ [newline]) ++ c_hello ++ [newline]))
  | BWebSocket s, SWss w =>
      let s' := wss_socket w in
      ws_in s = ws_in s' /\ ws_pin s = ws_pin s' /\ ws_sends s = ws_sends s' /\ wss_pending_read w = [] /\
      ws_out s = [FText a_client; FBinary (a_hello ++ [newline])] /\
      ws_out s' = [FText c_client; FBinary (c_hello ++ [newline])]
  | BUdp s v, SUdp s' n => s = s' /\ v = udp_world (w_net v) /\
      n = set_poll_timeout UDP_CONNECTED_POLL_TIMEOUT (w_net v)
  | _, _ => False
  end.
(** The same error, but for the text about a bad byte of the pin. *)
Definition same_error (e e' : error) : Prop :=
  e = e' \/ exists pair, e' = EMsg (bad_pin_byte pair) /\
    e = EMsg (bad_pin_byte pair +:+ ": invalid digit found in string").
(** Outcomes in lockstep: the same world, the same error or related values. *)
Definition lockstep {A B} (R : A -> B -> Prop) (x : result A * dialer) (y : result B * dialer) : Prop :=
  x.2 = y.2 /\
  match x.1, y.1 with
  | Ok a, Ok b => R a b
  | Err e, Err e' => same_error e e'
  | _, _ => False
  end.

Lemma same_error_refl e : same_error e e.
Proof. by left. Qed.
#[local] Hint Resolve same_error_refl : core.
Lemma lockstep_eq {A} (x : result A * dialer) : lockstep eq x x.
Proof. split; [done|]. by destruct x.1. Qed.
Lemma lockstep_bind {A A' B B'} (R : A -> A' -> Prop) (Q : B -> B' -> Prop) (m : eff dialer A) (m' : eff dialer A')
    (f : A -> eff dialer B) (f' : A' -> eff dialer B') d :
  lockstep R (m d) (m' d) -> (forall a a' d, R a a' -> lockstep Q (f a d) (f' a' d)) ->
  lockstep Q (mbind f m d) (mbind f' m' d).
Proof.
  unfold mbind, eff_bind. destruct (m d) as [r d1], (m' d) as [r' d1']. intros [Hd HR] Hf. simpl in *. subst d1'.
  destruct r, r'; try done. by apply Hf.
Qed.
Lemma lockstep_ret {A A' B'} (R : A -> A' -> Prop) (Q : A -> B' -> Prop) x (m' : eff dialer A') (f : A' -> B') d :
  lockstep R x (m' d) -> (forall a a', R a a' -> Q a (f a')) -> lockstep Q x (mbind (fun a => mret (f a)) m' d).
Proof.
  unfold mbind, eff_bind. destruct x as [r d1], (m' d) as [r' d1']. intros [Hd HR] Hf. simpl in *. subst d1'.
  destruct r, r'; try done. split; [done|]. by apply Hf.
Qed.
Lemma bind_lift_ok {A B} (a : A) (f : A -> eff dialer B) d : mbind f (lift (Ok a)) d = f a d.
Proof. done. Qed.
Lemma lockstep_lift {A A'} (R : A -> A' -> Prop) a a' d : R a a' -> lockstep R (lift (Ok a) d) (lift (Ok a') d).
Proof. by split. Qed.

Lemma same_connect_tcp addr d :
  connect_protected_tcp to_socket_addrs tcp_connect (Some protect) addr d = connect_tcp to_socket_addrs addr d.
Proof.
  unfold connect_protected_tcp, connect_tcp. unfold mbind, eff_bind, lift.
  destruct (to_socket_addrs addr) as [addrs|e]; [|done]. generalize (@None error). revert d.
  induction addrs as [|a addrs IH]; intros d le; [done|]. cbn [connect_protected_loop connect_tcp_loop].
  unfold connect_protected_socket, mbind, eff_bind, attempt. rewrite Hprotect.
  destruct (connect_timeout a d) as [[t|e] d1]; [done|apply IH].
Qed.
Lemma same_create_udp addr d : create_protected_udp_socket (Some protect) addr d = create_udp_socket addr d.
Proof. unfold create_protected_udp_socket, mbind, eff_bind. simpl. by rewrite Hprotect. Qed.
Lemma same_ice_candidate_connection addr d :
  android_connect_ice_udp_candidate to_socket_addrs (Some protect) grant addr d
  = connect_ice_udp_candidate to_socket_addrs grant addr d.
Proof.
  unfold android_connect_ice_udp_candidate, connect_ice_udp_candidate. unfold mbind, eff_bind, lift.
  destruct (to_socket_addrs addr) as [addrs|e]; [|done]. generalize (@None error). revert d.
  induction addrs as [|a addrs IH]; intros d le; [done|]. cbn [android_connect_ice_udp_loop connect_ice_udp_loop].
  unfold mbind, eff_bind, attempt. rewrite same_create_udp.
  destruct (create_udp_socket a d) as [[t|e] d1]; [done|apply IH].
Qed.
Lemma same_rendezvous_connection addr d :
  android_connect_ice_udp_via_rendezvous to_socket_addrs (Some protect) grant addr d
  = connect_ice_udp_via_rendezvous to_socket_addrs grant addr d.
Proof.
  unfold android_connect_ice_udp_via_rendezvous, connect_ice_udp_via_rendezvous. unfold mbind, eff_bind, lift.
  destruct (to_socket_addrs addr) as [addrs|e]; [|done]. generalize (@None error). revert d.
  induction addrs as [|a addrs IH]; intros d le; [done|]. cbn [android_via_rendezvous_loop connect_ice_udp_via_rendezvous_loop].
  unfold mbind, eff_bind, attempt. rewrite same_create_udp.
  destruct (create_udp_socket a d) as [[t|e] d1]; [done|apply IH].
Qed.

(** The UDP session and the candidate it was made with. *)
Definition same_ice (x : option (stream * net * ice_candidate)) (y : option connected_session) : Prop :=
  match x, y with
  | None, None => True
  | Some (s, n, c), Some y => y = ConnectedSession (SUdp s (set_poll_timeout UDP_CONNECTED_POLL_TIMEOUT n))
      (SelectedPath ("ice_udp/" +:+ ice_kind_str (ic_kind c)) (ice_candidate_addr c))
  | _, _ => False
  end.
(** The copies that are the same. *)
Lemma same_candidate_addr c : android_ice_candidate_addr c = ice_candidate_addr c.
Proof. done. Qed.
Lemma same_unusable addr : android_unusable_candidate_addr addr = is_unusable_backend_candidate_addr addr.
Proof. done. Qed.
Lemma same_try_connect cs d :
  lockstep same_ice (android_try_connect_loop to_socket_addrs (Some protect) grant cs d)
    (try_connect_loop to_socket_addrs grant cs d).
Proof.
  revert d; induction cs as [|c cs IH]; intros d; [by split|]. cbn [android_try_connect_loop try_connect_loop].
  rewrite same_candidate_addr, same_unusable.
  destruct (is_unusable_backend_candidate_addr _); [apply IH|].
  unfold connect_ice_udp_session_candidate. unfold mbind, eff_bind, attempt.
  destruct (ic_kind c) eqn:Hk; [rewrite same_ice_candidate_connection|rewrite same_ice_candidate_connection|
                                rewrite same_rendezvous_connection].
  all: match goal with |- context [match ?m with _ => _ end] => destruct m as [[[s n]|e] d1] end; [|apply IH].
  all: split; [done|]; simpl; by rewrite Hk.
Qed.

Lemma write_all_same x y t t' :
  tcp_peer t = tcp_peer t' -> tcp_writes t = tcp_writes t' ->
  match tcp_write_all x t, tcp_write_all y t' with
  | Ok u, Ok u' => tcp_peer u = tcp_peer u' /\ tcp_writes u = tcp_writes u' /\
      tcp_sent u = tcp_sent t ++ x /\ tcp_sent u' = tcp_sent t' ++ y
  | Err e, Err e' => e = e'
  | _, _ => False
  end.
Proof. unfold tcp_write_all. intros Hp <-. by destruct (tcp_writes t) as [|[k|] rest]. Qed.
Lemma ws_send_same s s' f f' : ws_sends s = ws_sends s' -> ws_in s = ws_in s' -> ws_pin s = ws_pin s' ->
  match ws_send_on s f, ws_send_on s' f' with
  | Ok u, Ok u' => ws_sends u = ws_sends u' /\ ws_in u = ws_in u' /\ ws_pin u = ws_pin u' /\
      ws_out u = ws_out s ++ [f] /\ ws_out u' = ws_out s' ++ [f']
  | Err e, Err e' => e = e'
  | _, _ => False
  end.
Proof. unfold ws_send_on, ws_send. intros <- Hi Hp. by destruct (ws_sends s) as [|[k|] rest]. Qed.

Lemma same_hex_pairs s :
  match android_parse_hex_pairs s, parse_hex_pairs s with
  | Ok v, Ok v' => v = v'
  | Err e, Err e' => same_error e e'
  | _, _ => False
  end.
Proof.
  induction s as [s IH] using (induction_ltof1 _ String.length). unfold ltof in IH.
  destruct s as [|a [|b rest]]; [done..|]. cbn [android_parse_hex_pairs parse_hex_pairs].
  destruct (utf8_chars _); [|by left]. cbn [ok_or]. rewrite !bind_Ok.
  destruct (from_str_radix 16 255 _); cbn [ok_or]; [|by right; eexists]. rewrite !bind_Ok.
  specialize (IH rest ltac:(simpl; lia)). unfold mbind, result_bind.
  by destruct (android_parse_hex_pairs rest), (parse_hex_pairs rest); subst.
Qed.
(** The same pin is expected, or both fail. *)
Lemma same_pin pin d :
  lockstep eq (lift (android_pinned_tls_client_config pin) d) (lift (pinned_tls_client_config pin) d).
Proof.
  split; [done|]. unfold lift, android_pinned_tls_client_config, pinned_tls_client_config, android_parse_sha256_pin, parse_sha256_pin.
  cbn [fst]. destruct (strip_prefix _ pin) as [hex|]; [|by left]. cbn [ok_or]. rewrite !bind_Ok.
  destruct (bail_if _ _); [|by left]. rewrite !bind_Ok. pose proof (same_hex_pairs hex) as Hs. unfold mbind, result_bind.
  by destruct (android_parse_hex_pairs hex), (parse_hex_pairs hex); subst.
Qed.

(** A verifier accepts the same certificates; only the text of the refusal differs. *)
Lemma same_verifier v cert : is_ok (android_verify_server_cert v cert) = is_ok (verify_server_cert v cert).
Proof. unfold android_verify_server_cert, verify_server_cert. by case_bool_decide. Qed.

Lemma same_wss addr d :
  lockstep (fun s w => same_connection (BWebSocket s) (SWss (WssByteStream w [])))
    (android_connect_wss_relay to_socket_addrs url_parse tcp_connect json_object (Some protect) addr grant control_pin d)
    (connect_wss_relay to_socket_addrs url_parse addr grant control_pin d).
Proof.
  unfold android_connect_wss_relay, connect_wss_relay.
  eapply lockstep_bind; [apply lockstep_eq|]. intros a a' d1 <-.
  eapply lockstep_bind; [rewrite same_connect_tcp; apply lockstep_eq|]. intros t t' d2 <-.
  eapply lockstep_bind.
  { instantiate (1 := eq). destruct control_pin as [pin|]; [|apply lockstep_eq].
    eapply lockstep_bind; [apply same_pin|]. intros v v' d3 <-. apply lockstep_eq. }
  intros pin pin' d3 <-.
  eapply (lockstep_bind (fun s s' => s = s' /\ ws_out s = [])).
  { unfold client_tls. destruct (d_wss d3) as [|[s|e] rest]; (split; [done|first [by left | done]]). }
  intros s s' d4 [<- Hout]. rewrite Ha_client, Hc_client. unfold android_session_hello_frame, session_hello_frame.
  rewrite Ha_hello, Hc_hello.
  eapply (lockstep_bind (fun a b => a = a_client /\ b = c_client)); [by apply lockstep_lift|]. intros ? ? d5 [-> ->].
  pose proof (ws_send_same s s (FText a_client) (FText c_client) eq_refl eq_refl eq_refl) as Hsend1.
  eapply (lockstep_bind (fun u u' => ws_sends u = ws_sends u' /\ ws_in u = ws_in u' /\ ws_pin u = ws_pin u' /\
            ws_out u = [FText a_client] /\ ws_out u' = [FText c_client])).
  { split; [done|]. simpl. rewrite Hout in Hsend1. destruct (ws_send_on s (FText a_client)), (ws_send_on s (FText c_client)); subst; by eauto. }
  intros u u' d6 (Hs & Hi & Hp & Hu & Hu').
  eapply (lockstep_bind (fun a b => a = a_hello ++ [newline] /\ b = c_hello ++ [newline])); [by apply lockstep_lift|]. intros ? ? d7 [-> ->].
  pose proof (ws_send_same u u' (FBinary (a_hello ++ [newline])) (FBinary (c_hello ++ [newline])) Hs Hi Hp) as Hsend2.
  split; [done|]. simpl. rewrite Hu, Hu' in Hsend2.
  destruct (ws_send_on u _), (ws_send_on u' _); [naive_solver|done|done|by left].
Qed.
Lemma same_candidate c d :
  lockstep (fun b s => same_connection b (cs_stream s) /\ cs_path s = SelectedPath (candidate_kind_str (pc_kind c)) (pc_addr c))
    (android_connect_session_candidate to_socket_addrs url_parse tcp_connect json_object (Some protect) grant control_pin c d)
    (connect_legacy_session_candidate to_socket_addrs url_parse grant control_pin c d).
Proof.
  unfold connect_legacy_session_candidate, connect_session_candidate, android_connect_session_candidate.
  assert (forall addr d, lockstep (fun t t' => t = t' /\ tcp_sent t = [])
    (connect_protected_tcp to_socket_addrs tcp_connect (Some protect) addr d) (connect_tcp to_socket_addrs addr d)) as Htcp.
  { intros addr d0. rewrite same_connect_tcp. destruct (connect_tcp to_socket_addrs addr d0) as [[t|e] d1] eqn:E; [|split; [done|by left]].
    split; [done|]. split; [done|]. by eapply connect_tcp_fresh. }
  assert (forall x y t t' d, tcp_peer t = tcp_peer t' -> tcp_writes t = tcp_writes t' ->
    lockstep (fun u u' => tcp_peer u = tcp_peer u' /\ tcp_writes u = tcp_writes u' /\
        tcp_sent u = tcp_sent t ++ x ++ [newline] /\ tcp_sent u' = tcp_sent t' ++ y ++ [newline])
      (lift (tcp_write_all (x ++ [newline]) t) d) (lift (tcp_write_all (y ++ [newline]) t') d)) as Hwrite.
  { intros x y t t' d0 Hp Hw. split; [done|]. simpl.
    pose proof (write_all_same (x ++ [newline]) (y ++ [newline]) t t' Hp Hw) as Hs. destruct (tcp_write_all _ t), (tcp_write_all _ t'); subst; by eauto. }
  assert (write_json_line (hello_of grant) = Ok (c_hello ++ [newline])) as Hl1
    by (unfold write_json_line; by rewrite Hc_hello).
  assert (write_json_line (RelayClient (sg_node_id grant)) = Ok (c_client ++ [newline])) as Hl2
    by (unfold write_json_line; by rewrite Hc_client).
  unfold android_write_session_hello, android_write_json_line, write_session_hello. rewrite Ha_hello, Ha_client, Hl1, Hl2.
  eapply (lockstep_ret same_connection); [|done].
  destruct (pc_kind c).
  - eapply lockstep_bind; [apply Htcp|]. intros t t' d1 [<- Ht].
    eapply lockstep_bind; [by apply Hwrite|]. intros u u' d2 (Hp & Hw & Hu & Hu'). rewrite Ht in Hu, Hu'.
    split; [done|]. simpl. auto.
  - eapply lockstep_bind; [apply Htcp|]. intros t t' d1 [<- Ht]. rewrite (bind_lift_ok (c_client ++ [newline])).
    eapply lockstep_bind; [by apply Hwrite|]. intros u u' d2 (Hp & Hw & Hu & Hu'). rewrite Ht in Hu, Hu'.
    eapply lockstep_bind; [by apply Hwrite|]. intros v v' d3 (Hp' & Hw' & Hv & Hv'). rewrite Hu in Hv. rewrite Hu' in Hv'.
    split; [done|]. simpl. auto.
  - eapply lockstep_bind; [apply same_wss|]. intros s s' d1 Hs. split; [done|]. simpl in *.
    destruct s. simpl in *. done.
Qed.
Lemma same_candidates cs le le' d :
  (forall e, same_error (default e le) (default e le')) ->
  lockstep (fun o s => same_connection (bo_backend o) (cs_stream s) /\ bo_selected_ice_path o = None /\
              exists c, c ∈ cs /\ cs_path s = SelectedPath (candidate_kind_str (pc_kind c)) (pc_addr c))
    (android_candidates_loop to_socket_addrs url_parse tcp_connect json_object (Some protect) grant control_pin cs le d)
    (connect_legacy_loop to_socket_addrs url_parse grant (ConnectOptions Auto control_pin preferred) cs le' d).
Proof.
  revert le le' d; induction cs as [|c cs IH]; intros le le' d Hle.
  { split; [done|]. exact (Hle (EMsg "session grant has no candidates")). }
  cbn [android_candidates_loop connect_legacy_loop].
  assert (forall le le' d, (forall e, same_error (default e le) (default e le')) ->
    lockstep (fun o s => same_connection (bo_backend o) (cs_stream s) /\ bo_selected_ice_path o = None /\
              exists c', c' ∈ c :: cs /\ cs_path s = SelectedPath (candidate_kind_str (pc_kind c')) (pc_addr c'))
    (android_candidates_loop to_socket_addrs url_parse tcp_connect json_object (Some protect) grant control_pin cs le d)
    (connect_legacy_loop to_socket_addrs url_parse grant (ConnectOptions Auto control_pin preferred) cs le' d)) as IH'.
  { intros l l' d' Hl. destruct (IH l l' d' Hl) as [Hd HR]. split; [done|].
    destruct (fst _), (fst _); try done. destruct HR as (? & ? & c' & ? & ?). split_and!; try done.
    exists c'. split; [by right|done]. }
  rewrite same_unusable. destruct (is_unusable_backend_candidate_addr _); [by apply IH'|].
  pose proof (same_candidate c d) as [Hd HR]. unfold mbind, eff_bind, attempt.
  destruct (android_connect_session_candidate _ _ _ _ _ _ _ _ d) as [r d1],
    (connect_legacy_session_candidate _ _ _ _ _ d) as [r' d1']. simpl in *. subst d1'.
  destruct r as [b|e], r' as [s|e']; try done; [|by apply IH'].
  destruct HR as [HR Hpath]. split; [done|]. simpl. split_and!; [done|done|]. exists c. split; [by left|done].
Qed.
End SameAttempts.

(** ** Properties *)

(** C19. Opening a session on Android makes the same connections in the same order as
    [medium_session::connect_session] would with the same grant, pin and preferred path,
    once sockets can be protected: the two end in the same world, with the same error (but
    for the text about a bad byte of the pin), or connected to the same peer over the same kind of connection, on which each has
    written the same hellos in its own JSON; the path kept for later is the candidate of
    the UDP session. *)
Theorem android_connects_like_the_client
    `{Json udp_rendezvous_message} `{Json session_hello} `{Json relay_hello} `{Sha256}
    (to_socket_addrs : string -> result (list socket_addr)) (url_parse : string -> option url)
    (tcp_connect : string -> eff dialer tcp) (json_object : list (string * string) -> result (list byte))
    (protect : eff dialer unit) (grant : session_open_grant) (control_pin : option string)
    (preferred : option ice_candidate) (a_hello a_client c_hello c_client : list byte) (d : dialer)
    (Hprotect : forall d, protect d = (Ok tt, d))
    (Ha : json_object (hello_fields grant) = Ok a_hello /\ json_object (client_fields grant) = Ok a_client)
    (Hc : to_vec (hello_of grant) = Ok c_hello /\ to_vec (RelayClient (sg_node_id grant)) = Ok c_client) :
  let android := connect_session_grant to_socket_addrs url_parse tcp_connect json_object (Some protect)
                   grant control_pin preferred d in
  let client := connect_session to_socket_addrs url_parse grant (ConnectOptions Auto control_pin preferred) d in
  android.2 = client.2 /\
  match android.1, client.1 with
  | Ok o, Ok s =>
      same_connection a_hello a_client c_hello c_client (bo_backend o) (cs_stream s) /\
      match bo_selected_ice_path o with
      | Some c => cs_path s = SelectedPath ("ice_udp/" +:+ ice_kind_str (ic_kind c)) (ice_candidate_addr c)
      | None => exists c, c ∈ sa_candidates (sg_authorization grant) /\
                  cs_path s = SelectedPath (candidate_kind_str (pc_kind c)) (pc_addr c)
      end
  | Err e, Err e' => same_error e e'
  | _, _ => False
  end.
Proof.
  destruct Ha as [Ha1 Ha2], Hc as [Hc1 Hc2]. cbv zeta. unfold connect_session_grant, connect_session. simpl.
  assert (lockstep same_ice (android_try_connect_ice_udp to_socket_addrs (Some protect) grant preferred d)
            (try_connect_ice_udp to_socket_addrs grant preferred d)) as [Hd HR].
  { pose proof (same_try_connect to_socket_addrs protect Hprotect grant) as Hs.
    unfold android_try_connect_ice_udp, try_connect_ice_udp.
    destruct (sa_ice _) eqn:Hice; [apply Hs|]. unfold ice_checklist. rewrite Hice. by split. }
  unfold mbind, eff_bind.
  destruct (android_try_connect_ice_udp _ _ _ _ d) as [r d1], (try_connect_ice_udp _ _ _ d) as [r' d1'].
  simpl in *. subst d1'. destruct r as [x|e], r' as [y|e']; try done.
  destruct x as [[[s n] c]|], y as [y|]; try done; [simpl in HR; rewrite HR; by simpl|].
  destruct (same_candidates to_socket_addrs url_parse tcp_connect json_object protect Hprotect grant control_pin
    preferred a_hello a_client c_hello c_client Ha1 Ha2 Hc1 Hc2
    (sort_by legacy_leb (sa_candidates (sg_authorization grant))) None None d1 (fun e => same_error_refl e)) as [Hd2 HR2].
  unfold connect_legacy_candidate, ordered_legacy_candidates_for_mode. simpl. split; [done|].
  destruct (fst _) as [o|e], (fst _) as [s|e']; try done.
  destruct HR2 as (Hsame & -> & c & Hin & Hpath). split; [done|]. exists c. split; [|done].
  by rewrite sort_by_perm in Hin.
Qed.

(** ** Witnesses *)

Definition toy_json_object (fields : list (string * string)) : result (list byte) :=
  Ok (bytes_of (join "," (map (fun f => f.1 +:+ "=" +:+ f.2) fields))).
Lemma android_connects_like_the_client_witness :
  let android := @connect_session_grant toy_rv_json toy_hello_json toy_sha256 toy_resolve (fun _ => None)
    (fun _ => throw (EIo TimedOut)) toy_json_object (Some (mret tt)) toy_session_grant None None toy_dialer in
  let client := @connect_session toy_rv_json toy_hello_json toy_relay_json toy_sha256 toy_resolve (fun _ => None)
    toy_session_grant (ConnectOptions Auto None None) toy_dialer in
  is_ok android.1 = true /\ android.2 = client.2.
Proof.
  split; [vm_compute; reflexivity|].
  refine (proj1 (@android_connects_like_the_client toy_rv_json toy_hello_json toy_relay_json toy_sha256 toy_resolve
    (fun _ => None) (fun _ => throw (EIo TimedOut)) toy_json_object (mret tt) toy_session_grant None None
    (match toy_json_object (hello_fields toy_session_grant) with Ok p => p | Err _ => [] end)
    (match toy_json_object (client_fields toy_session_grant) with Ok p => p | Err _ => [] end)
    (match @to_vec _ toy_hello_json (hello_of toy_session_grant) with Ok p => p | Err _ => [] end)
    (match @to_vec _ toy_relay_json (RelayClient (sg_node_id toy_session_grant)) with Ok p => p | Err _ => [] end)
    toy_dialer (fun _ => eq_refl) _ _)); split; vm_compute; reflexivity.
Defined.
