(* ===== verification/Android.v ===== *)
(** * The Android network stack: streams and their backends

    [crates/medium-android-netstack/src/lib.rs]: [StreamBackends], which joins the TCP
    streams of the stack ([TcpStack.v]) to backend connections ([AndroidConnect.v]), the
    pool of warmed connections, and the loop that drives both.

    The code is written against two interfaces: a stack that sends and closes
    ([StreamStack]) and backends that are connected, read and written ([BackendIo]).
    The iteration order of a [HashMap] is a parameter. *)

From S2P Require Import Prelude RustStd NetAddr Protocol PinnedHttp Net Rendezvous UdpPacket UdpSession UdpListener MediumSession Netstack TcpStack AndroidConnect.

(** ** The interface of a backend

    [b_read_budget] and [b_write_budget] bound how often a backend that is read, or written to,
    gives something before it blocks; they are the fuel of the loops that run until then, and
    [BackendIoOk] is what makes them enough. *)
Class BackendIo (B W : Type) := {
  b_read : nat -> eff B (list byte);
  b_write : list byte -> eff B nat;
  b_configure : B -> eff W B;
  b_read_budget : B -> nat;
  b_write_budget : B -> nat;
  b_connect : backend_route -> option ice_candidate -> eff W (B * option ice_candidate)
}.

(** ** The idle pool *)

Record idle_pool (T : Type) := IdlePool {
  ip_max_per_service : nat;
  ip_backends : gmap string (list T)
}.
Arguments IdlePool {_} _ _.
Arguments ip_max_per_service {_} _.
Arguments ip_backends {_} _.

Section IdlePool.
Context {T : Type}.

Definition pool_new (max_per_service : nat) : idle_pool T := IdlePool max_per_service ∅.
(** [push]: the pool, and the backend again when there is no room. *)
Definition pool_push (service_id : string) (backend : T) (p : idle_pool T) : idle_pool T * option T :=
  let entries := default [] (ip_backends p !! service_id) in
  if Nat.leb (ip_max_per_service p) (length entries)
  then (IdlePool (ip_max_per_service p) (<[service_id := entries]> (ip_backends p)), Some backend)
  else (IdlePool (ip_max_per_service p) (<[service_id := entries ++ [backend]]> (ip_backends p)), None).
Definition pool_pop (service_id : string) (p : idle_pool T) : option T * idle_pool T :=
  match ip_backends p !! service_id with
  | None => (None, p)
  | Some entries =>
      let rest := tail entries in
      (head entries,
       IdlePool (ip_max_per_service p)
         (match rest with [] => delete service_id (ip_backends p) | _ => <[service_id := rest]> (ip_backends p) end))
  end.
Definition pool_len (service_id : string) (p : idle_pool T) : nat :=
  length (default [] (ip_backends p !! service_id)).
End IdlePool.

Definition IDLE_BACKENDS_PER_SERVICE : nat := 1.

(** ** Diagnostics *)

Definition html_escape (value : string) : string :=
  replace_char (ascii_of_Z 34) "&quot;" (replace_char ">" "&gt;" (replace_char "<" "&lt;" (replace_char "&" "&amp;" value))).
Definition diagnostic_http_response (status : Z) (title body : string) : string :=
  let body :=
    "<!doctype html><html><head><meta charset=" +:+ dquote +:+ "utf-8" +:+ dquote +:+ "><title>"
    +:+ html_escape title +:+ "</title></head><body style=" +:+ dquote
    +:+ "font-family: sans-serif; padding: 24px; line-height: 1.45" +:+ dquote +:+ "><h1>" +:+ html_escape title
    +:+ "</h1><pre style=" +:+ dquote +:+ "white-space: pre-wrap" +:+ dquote +:+ ">" +:+ html_escape body
    +:+ "</pre></body></html>" in
  "HTTP/1.1 " +:+ dec status +:+ " " +:+ title +:+ crlf +:+ "Content-Type: text/html; charset=utf-8" +:+ crlf
  +:+ "Content-Length: " +:+ dec (str_len body) +:+ crlf +:+ "Connection: close" +:+ crlf +:+ crlf +:+ body.

(** ** Stream backends *)

Record stream_backends (B : Type) := StreamBackends {
  sb_routes : gmap string backend_route;
  sb_streams : gmap string B;
  sb_stream_services : gmap string string;
  sb_idle_backends : idle_pool B;
  sb_pending_writes : gmap string (list byte);
  sb_selected_ice_paths : gmap string ice_candidate
}.
Arguments StreamBackends {_} _ _ _ _ _ _.
Arguments sb_routes {_} _.
Arguments sb_streams {_} _.
Arguments sb_stream_services {_} _.
Arguments sb_idle_backends {_} _.
Arguments sb_pending_writes {_} _.
Arguments sb_selected_ice_paths {_} _.
Definition backends_new {B} (routes : gmap string backend_route) : stream_backends B :=
  StreamBackends routes ∅ ∅ (pool_new IDLE_BACKENDS_PER_SERVICE) ∅ ∅.

(** The stack, the backends and the network. *)
Record android (S B W : Type) := Android {
  an_stack : S;
  an_backends : stream_backends B;
  an_world : W
}.
Arguments Android {_ _ _} _ _ _.
Arguments an_stack {_ _ _} _.
Arguments an_backends {_ _ _} _.
Arguments an_world {_ _ _} _.

(** The keys of a map. *)
Definition keys_of {A} (m : gmap string A) : list string := elements (dom m).

Section Backends.
Context {S B W : Type} `{StreamStack S} `{BackendIo B W}.
(** The order in which a [HashMap]'s keys come; [Display] of an error. *)
Context (order : list string -> list string) (show_error : error -> string).

Definition set_streams (m : gmap string B) (b : stream_backends B) : stream_backends B :=
  StreamBackends (sb_routes b) m (sb_stream_services b) (sb_idle_backends b) (sb_pending_writes b) (sb_selected_ice_paths b).
Definition set_services (m : gmap string string) (b : stream_backends B) : stream_backends B :=
  StreamBackends (sb_routes b) (sb_streams b) m (sb_idle_backends b) (sb_pending_writes b) (sb_selected_ice_paths b).
Definition set_idle (p : idle_pool B) (b : stream_backends B) : stream_backends B :=
  StreamBackends (sb_routes b) (sb_streams b) (sb_stream_services b) p (sb_pending_writes b) (sb_selected_ice_paths b).
Definition set_pending (m : gmap string (list byte)) (b : stream_backends B) : stream_backends B :=
  StreamBackends (sb_routes b) (sb_streams b) (sb_stream_services b) (sb_idle_backends b) m (sb_selected_ice_paths b).
Definition set_selected (m : gmap string ice_candidate) (b : stream_backends B) : stream_backends B :=
  StreamBackends (sb_routes b) (sb_streams b) (sb_stream_services b) (sb_idle_backends b) (sb_pending_writes b) m.

Definition on_backends (f : stream_backends B -> stream_backends B) : eff (android S B W) unit :=
  modify (fun a => Android (an_stack a) (f (an_backends a)) (an_world a)).
Definition on_world {A} : eff W A -> eff (android S B W) A :=
  zoom an_world (fun w a => Android (an_stack a) (an_backends a) w).
Definition send_tcp_of (stream_id : string) (bytes : list byte) : eff (android S B W) nat := fun a =>
  match stack_send stream_id bytes (an_stack a) with
  | Ok (n, s) => (Ok n, Android s (an_backends a) (an_world a))
  | Err e => (Err e, a)
  end.
Definition close_tcp_of (stream_id : string) : eff (android S B W) unit := fun a =>
  match stack_close stream_id (an_stack a) with
  | Ok s => (Ok tt, Android s (an_backends a) (an_world a))
  | Err e => (Err e, a)
  end.

(** *** Connections *)

(** What [take_or_connect_backend] and [ensure_idle_backend] share: connect, configure,
    remember the selected path. *)
Definition connect_and_remember (service_id : string) (route : backend_route) : eff (android S B W) B :=
  selected ← gets (fun a => sb_selected_ice_paths (an_backends a) !! service_id);
  '(backend, selected_ice_path) ← on_world (b_connect route selected);
  backend ← on_world (b_configure backend);
  _ ← match selected_ice_path with
      | Some c => on_backends (fun b => set_selected (<[service_id := c]> (sb_selected_ice_paths b)) b)
      | None => mret tt
      end;
  mret backend.
Definition take_or_connect_backend (service_id : string) (route : backend_route) : eff (android S B W) B :=
  '(popped, idle) ← gets (fun a => pool_pop service_id (sb_idle_backends (an_backends a)));
  _ ← on_backends (set_idle idle);
  match popped with
  | Some stream => mret stream
  | None => connect_and_remember service_id route
  end.
Definition ensure_idle_backend (service_id : string) : eff (android S B W) unit :=
  len ← gets (fun a => pool_len service_id (sb_idle_backends (an_backends a)));
  if Nat.leb IDLE_BACKENDS_PER_SERVICE len then mret tt
  else
    route ← gets (fun a => sb_routes (an_backends a) !! service_id);
    match route with
    | Some (SessionGrant grant control_pin) =>
        connected ← attempt (connect_and_remember service_id (SessionGrant grant control_pin));
        match connected with
        | Ok backend => on_backends (fun b => set_idle (pool_push service_id backend (sb_idle_backends b)).1 b)
        | Err _ => mret tt
        end
    | _ => mret tt
    end.
Definition is_session_grant (route : backend_route) : bool :=
  match route with SessionGrant _ _ => true | DirectTarget _ => false end.
Fixpoint ensure_idle_backends (service_ids : list string) : eff (android S B W) unit :=
  match service_ids with
  | [] => mret tt
  | service_id :: rest => _ ← ensure_idle_backend service_id; ensure_idle_backends rest
  end.
Definition warm_up : eff (android S B W) unit :=
  routes ← gets (fun a => sb_routes (an_backends a));
  ensure_idle_backends
    (List.filter (fun service_id => match routes !! service_id with Some r => is_session_grant r | None => false end)
       (order (keys_of routes))).

Definition remove_stream (stream_id : string) : eff (android S B W) unit :=
  service ← gets (fun a => sb_stream_services (an_backends a) !! stream_id);
  _ ← on_backends (fun b => set_streams (delete stream_id (sb_streams b)) b);
  _ ← on_backends (fun b => set_pending (delete stream_id (sb_pending_writes b)) b);
  _ ← on_backends (fun b => set_services (delete stream_id (sb_stream_services b)) b);
  match service with
  | Some service_id => ensure_idle_backend service_id
  | None => mret tt
  end.
(** [remove_stream] and an ignored [close_tcp]. *)
Definition drop_stream (stream_id : string) : eff (android S B W) unit :=
  _ ← remove_stream stream_id; _ ← attempt (close_tcp_of stream_id); mret tt.

(** *** Towards the backends *)

(** [flush_pending_to_writer].  A round writes at least a byte or is an interruption. *)
Definition SCRATCH : nat := 8 * 1024.
Fixpoint flush_loop (fuel : nat) (stream : B) (pending : list byte) : result unit * B * list byte :=
  match fuel with
  | O => (Err out_of_fuel, stream, pending)
  | Datatypes.S f =>
      match pending with
      | [] => (Ok tt, stream, [])
      | _ =>
          match b_write (take SCRATCH pending) stream with
          | (Ok O, stream) => (Ok tt, stream, pending)
          | (Ok written, stream) => flush_loop f stream (drop written pending)
          | (Err (EIo Interrupted), stream) => flush_loop f stream pending
          | (Err e, stream) => (if is_retry_kind e then Ok tt else Err e, stream, pending)
          end
      end
  end.
Definition flush_pending_to_writer (stream : B) (pending : list byte) : result unit * B * list byte :=
  flush_loop (Datatypes.S (length pending + b_write_budget stream)) stream pending.
Definition flush_pending_backend (stream_id : string) : eff (android S B W) unit :=
  b ← gets an_backends;
  match sb_streams b !! stream_id with
  | None => on_backends (fun b => set_pending (delete stream_id (sb_pending_writes b)) b)
  | Some stream =>
      match sb_pending_writes b !! stream_id with
      | None => mret tt
      | Some pending =>
          let '(r, stream, pending) := flush_pending_to_writer stream pending in
          _ ← on_backends (fun b => set_pending (<[stream_id := pending]> (sb_pending_writes b))
                                      (set_streams (<[stream_id := stream]> (sb_streams b)) b));
          _ ← lift r;
          match pending with
          | [] => on_backends (fun b => set_pending (delete stream_id (sb_pending_writes b)) b)
          | _ => mret tt
          end
      end
  end.
Definition queue_backend_write (stream_id : string) (bytes : list byte) : eff (android S B W) unit :=
  b ← gets an_backends;
  match sb_streams b !! stream_id with
  | None => mret tt
  | Some _ =>
      _ ← on_backends (fun b => set_pending
            (<[stream_id := default [] (sb_pending_writes b !! stream_id) ++ bytes]> (sb_pending_writes b)) b);
      flush_pending_backend stream_id
  end.
Fixpoint flush_each (stream_ids : list string) : eff (android S B W) (list string) :=
  match stream_ids with
  | [] => mret []
  | stream_id :: rest =>
      flushed ← attempt (flush_pending_backend stream_id);
      closed ← flush_each rest;
      mret (match flushed with Ok _ => closed | Err _ => stream_id :: closed end)
  end.
Fixpoint drop_each (stream_ids : list string) : eff (android S B W) unit :=
  match stream_ids with
  | [] => mret tt
  | stream_id :: rest => _ ← drop_stream stream_id; drop_each rest
  end.
Definition pump_writes : eff (android S B W) unit :=
  stream_ids ← gets (fun a => order (keys_of (sb_pending_writes (an_backends a))));
  closed ← flush_each stream_ids;
  drop_each closed.

(** *** Towards the stack *)

(** The reads of one backend: whether it is closed.  A round reads something or is an
    interruption. *)
Definition READ_BUFFER : nat := 8 * 1024.
Fixpoint read_backend_loop (fuel : nat) (stream_id : string) (stream : B) (stack : S) : result bool * B * S :=
  match fuel with
  | O => (Err out_of_fuel, stream, stack)
  | Datatypes.S f =>
      match b_read READ_BUFFER stream with
      | (Ok [], stream) => (Ok true, stream, stack)
      | (Ok bytes, stream) =>
          match stack_send stream_id bytes stack with
          | Ok (_, stack) => read_backend_loop f stream_id stream stack
          | Err e => (Err e, stream, stack)
          end
      | (Err (EIo WouldBlock), stream) => (Ok false, stream, stack)
      | (Err (EIo Interrupted), stream) => read_backend_loop f stream_id stream stack
      | (Err _, stream) => (Ok true, stream, stack)
      end
  end.
Definition read_backend (stream_id : string) (stream : B) (stack : S) : result bool * B * S :=
  read_backend_loop (Datatypes.S (b_read_budget stream)) stream_id stream stack.
Fixpoint read_each (stream_ids : list string) : eff (android S B W) (list string) :=
  match stream_ids with
  | [] => mret []
  | stream_id :: rest =>
      a ← gets id;
      match sb_streams (an_backends a) !! stream_id with
      | None => read_each rest
      | Some stream =>
          let '(r, stream, stack) := read_backend stream_id stream (an_stack a) in
          _ ← modify (fun a => Android stack
                (set_streams (<[stream_id := stream]> (sb_streams (an_backends a))) (an_backends a)) (an_world a));
          is_closed ← lift r;
          closed ← read_each rest;
          mret (if is_closed : bool then stream_id :: closed else closed)
      end
  end.
Definition pump_reads : eff (android S B W) unit :=
  stream_ids ← gets (fun a => order (keys_of (sb_streams (an_backends a))));
  closed ← read_each stream_ids;
  drop_each closed.

(** *** Events *)

Definition unavailable_response (service_id : string) (e : error) : list byte :=
  let nl2 := String lf (String lf EmptyString) in
  bytes_of (diagnostic_http_response 502 "Medium backend unavailable"
    ("Medium resolved the service and accepted the browser TCP connection, "
     +:+ "but no backend candidate could be reached for service `" +:+ service_id +:+ "`." +:+ nl2
     +:+ "Last error:" +:+ String lf EmptyString +:+ show_error e +:+ nl2
     +:+ "Check that the node-agent is running and that either direct TCP is reachable "
     +:+ "or relay/WSS relay is configured and reachable from this phone.")).
Definition open_backend (stream_id service_id : string) : eff (android S B W) unit :=
  route ← gets (fun a => sb_routes (an_backends a) !! service_id);
  match route with
  | None => close_tcp_of stream_id
  | Some route =>
      taken ← attempt (take_or_connect_backend service_id route);
      match taken with
      | Ok stream =>
          _ ← on_backends (fun b => set_streams (<[stream_id := stream]> (sb_streams b)) b);
          on_backends (fun b => set_services (<[stream_id := service_id]> (sb_stream_services b)) b)
      | Err error =>
          _ ← attempt (send_tcp_of stream_id (unavailable_response service_id error));
          close_tcp_of stream_id
      end
  end.
Definition handle_event (event : tcp_pump_event) : eff (android S B W) unit :=
  match event with
  | Connected stream_id service_id => open_backend stream_id service_id
  | Received stream_id _ bytes =>
      queued ← attempt (queue_backend_write stream_id bytes);
      match queued with
      | Ok _ => mret tt
      | Err _ => drop_stream stream_id
      end
  | StreamClosed stream_id _ => remove_stream stream_id
  end.
Fixpoint handle_events (events : list tcp_pump_event) : eff (android S B W) unit :=
  match events with
  | [] => mret tt
  | event :: rest => _ ← handle_event event; handle_events rest
  end.
End Backends.

(** ** The loop of the TUN device *)

Section Loop.
Context {B W : Type} `{Smoltcp} `{BackendIo B W}.
Context (order : list string -> list string) (show_error : error -> string).
(** [tun.write_all] on a packet. *)
Context (tun_write : list byte -> result unit).

Definition on_stack {A} (f : medium_stack -> result (A * medium_stack)) : eff (android medium_stack B W) A := fun a =>
  match f (an_stack a) with
  | Ok (x, s) => (Ok x, Android s (an_backends a) (an_world a))
  | Err e => (Err e, a)
  end.
(** [while let Some(outbound) = stack.pop_tun_packet()]: a round takes a packet from the
    queue. *)
Fixpoint write_outbound (fuel : nat) : eff (android medium_stack B W) (list (list byte)) :=
  match fuel with
  | O => throw out_of_fuel
  | Datatypes.S f =>
      packet ← on_stack (fun s => Ok (pop_tun_packet s));
      match packet with
      | None => mret []
      | Some outbound => _ ← lift (tun_write outbound); rest ← write_outbound f; mret (outbound :: rest)
      end
  end.
(** The rest of a round once the device was read. *)
Definition tun_round (now_millis : Z) : eff (android medium_stack B W) (list tcp_pump_event * list (list byte)) :=
  events ← on_stack (poll now_millis);
  _ ← handle_events show_error events;
  _ ← pump_writes order;
  _ ← pump_reads order;
  _ ← pump_writes order;
  fuel ← gets (fun a => Datatypes.S (length (pd_tx (ms_device (an_stack a)))));
  outbound ← write_outbound fuel;
  mret (events, outbound).
(** What [wait_readable] and [tun.read] give in a round.  The loop ends with the device or
    when it is told to stop, after the last of them; it gives the events it logs and the
    packets it wrote. *)
Definition tun_input : Type := option (result (list byte)).
Fixpoint run_tun_loop (inputs : list tun_input) (now_millis : Z)
    : eff (android medium_stack B W) (list tcp_pump_event * list (list byte)) :=
  match inputs with
  | [] => mret ([], [])
  | input :: rest =>
      let round :=
        '(events, outbound) ← tun_round now_millis;
        '(more, more_outbound) ← run_tun_loop rest (now_millis + 250);
        mret (events ++ more, outbound ++ more_outbound) in
      match input with
      | None | Some (Err (EIo WouldBlock)) => round
      | Some (Ok []) => mret ([], [])
      | Some (Ok packet) => _ ← on_stack (fun s => Ok (tt, push_tun_packet packet s)); round
      | Some (Err e) => throw e
      end
  end.
(** A run from its network: the stack, the backends and their warm-up; then the loop. *)
Definition tun_thread (network : virtual_network) (routes : gmap string backend_route) (inputs : list tun_input) (w : W)
    : result (result (list tcp_pump_event * list (list byte)) * android medium_stack B W) :=
  stack ← stack_new network;
  Ok ((_ ← warm_up order; run_tun_loop inputs 0) (Android stack (backends_new routes) w)).
Definition start_tun_loop (catalog : service_catalog) (inputs : list tun_input) (w : W)
    : result (result (list tcp_pump_event * list (list byte)) * android medium_stack B W) :=
  network ← network_new (ct_services catalog); tun_thread network (ct_routes catalog) inputs w.
End Loop.

(** ** Starting and stopping from Java *)

(** [Runner]: what its thread runs on, and whether it is told to go on. *)
Record runner := Runner { rn_network : virtual_network; rn_routes : gmap string backend_route; rn_running : bool }.
Definition runner_start (catalog : service_catalog) : result runner :=
  network ← network_new (ct_services catalog); Ok (Runner network (ct_routes catalog) true).
Definition runner_stop (r : runner) : runner := Runner (rn_network r) (rn_routes r) false.

(** The runners on the heap, by the address that Java holds as a handle, and those whose
    thread was joined. *)
Record jni := Jni { jn_heap : gmap Z runner; jn_joined : list runner }.
(** [services] is what serde_json reads of the argument; [address] is where the allocator puts
    the runner.  Zero stands for a failure. *)
Definition native_start_tun (services : result (list android_service)) (address : Z) (j : jni) : Z * jni :=
  match services ≫= (fun services => runner_start (parse_services services)) with
  | Ok runner => (address, Jni (<[address := runner]> (jn_heap j)) (jn_joined j))
  | Err _ => (0, j)
  end.
(** [None]: the handle is no longer a runner's, so the behaviour is undefined. *)
Definition native_stop_tun (handle : Z) (j : jni) : option jni :=
  if handle =? 0 then Some j
  else
    runner ← jn_heap j !! handle;
    Some (Jni (delete handle (jn_heap j)) (jn_joined j ++ [runner_stop runner])).
Inductive jni_call := StartTun (services : result (list android_service)) (address : Z) | StopTun (handle : Z).
Definition jni_step (j : jni) (c : jni_call) : option jni :=
  match c with
  | StartTun services address => Some (native_start_tun services address j).2
  | StopTun handle => native_stop_tun handle j
  end.
Fixpoint run_jni (j : jni) (calls : list jni_call) : option jni :=
  match calls with [] => Some j | c :: rest => j' ← jni_step j c; run_jni j' rest end.

(** ** The actual backends *)

(** How often a backend can still be read before it blocks, and how often a write to it can
    still be interrupted. *)
Definition backend_read_budget `{Aead} (b : active_backend) : nat :=
  match b with
  | BTcp t => list_sum (map (fun r => match r with inl _ => 1 | inr bytes => Datatypes.S (length bytes) end) (tcp_arrivals t))%nat
  | BWebSocket s => length (ws_in s)
  | BUdp s w => readable s w
  end.
Definition backend_write_budget (b : active_backend) : nat :=
  match b with
  | BTcp t => length (tcp_room t)
  | BWebSocket s => O
  | BUdp s w => budget w
  end.
Definition active_backend_io `{Aead} `{Json udp_rendezvous_message} `{Json session_hello} `{Sha256}
    (to_socket_addrs : string -> result (list socket_addr)) (url_parse : string -> option url)
    (tcp_connect : string -> eff dialer tcp) (json_object : list (string * string) -> result (list byte))
    (protector : option (eff dialer unit)) (set_options : active_backend -> eff dialer unit)
    : BackendIo active_backend dialer := {|
  b_read := backend_read;
  b_write := backend_write;
  b_configure := configure_nonblocking set_options;
  b_read_budget := backend_read_budget;
  b_write_budget := backend_write_budget;
  b_connect route preferred :=
    outcome ← connect_backend to_socket_addrs url_parse tcp_connect json_object protector route preferred;
    mret (bo_backend outcome, bo_selected_ice_path outcome)
|}.

(** ** Backends with a log *)

(** What the loops rely on in a backend: a write takes at most what it is given, and the
    budgets bound the rounds; and what [carries] says: the bytes a connection was given since it
    was made, which only a write that succeeds adds to.  The program's connections keep
    it ([active_backend_io_ok]). *)
Class BackendIoOk {B W} (io : BackendIo B W) (carries : B -> list byte -> Prop) := {
  write_bound : forall bytes b n b', b_write bytes b = (Ok n, b') -> (n <= length bytes)%nat;
  write_spends_budget : forall bytes b r b', b_write bytes b = (r, b') ->
    (b_write_budget b' <= b_write_budget b)%nat /\ (r = Err (EIo Interrupted) -> b_write_budget b' < b_write_budget b)%nat;
  write_fuel : forall bytes b b', b_write bytes b <> (Err out_of_fuel, b');
  read_spends_budget : forall size b r b', (0 < size)%nat -> b_read size b = (r, b') ->
    r = Ok [] \/ (b_read_budget b' < b_read_budget b)%nat \/ exists e, r = Err e /\ e <> EIo Interrupted;
  read_fuel : forall size b b', b_read size b <> (Err out_of_fuel, b');
  carries_connect : forall route preferred w b c w', b_connect route preferred w = (Ok (b, c), w') -> carries b [];
  carries_configure : forall b l w b' w', b_configure b w = (Ok b', w') -> carries b l -> carries b' l;
  carries_read : forall size b l r b', b_read size b = (r, b') -> carries b l -> carries b' l;
  carries_write : forall bytes b l r b', b_write bytes b = (r, b') -> carries b l ->
    carries b' (match r with Ok n => l ++ take n bytes | Err _ => l end)
}.

Section ActualBackends.
Context `{Aead} `{Json udp_rendezvous_message} `{Json session_hello} `{Sha256}.
Context (to_socket_addrs : string -> result (list socket_addr)) (url_parse : string -> option url).
Context (tcp_connect : string -> eff dialer tcp) (json_object : list (string * string) -> result (list byte)).
Context (protector : option (eff dialer unit)) (set_options : active_backend -> eff dialer unit).

(** The bytes a connection was given, at the end of what was sent on it: on a TCP connection as
    they are, on a WebSocket as binary frames, on a UDP stream as the chunks of its data
    packets, each sent to the peer encrypted under its number. *)
Definition binary_of (f : frame) : list byte := match f with FBinary payload => payload | _ => [] end.
Definition sent_chunk (s : stream) (w : world) (seq : Z) (chunk : list byte) : Prop :=
  exists c d, aead_encrypt (st_key s) (nonce_bytes (st_direction s) seq) chunk = Some c /\
    encode_packet (Packet Data seq c) = Ok d /\ (st_peer_addr s, d) ∈ n_sent (w_net w).
Definition carries (b : active_backend) (l : list byte) : Prop :=
  match b with
  | BTcp t => l `suffix_of` tcp_sent t
  | BWebSocket s => l `suffix_of` (ws_out s ≫= binary_of)
  | BUdp s w => inbox_ok w /\ exists chunks, concat chunks = l /\
      send_seq (w_state w) = Z.of_nat (length chunks) mod u64_modulus /\
      forall i chunk, chunks !! i = Some chunk -> sent_chunk s w (Z.of_nat i mod u64_modulus) chunk
  end.
Lemma suffix_app_same (l k more : list byte) : l `suffix_of` k -> l ++ more `suffix_of` k ++ more.
Proof. intros [pre ->]. exists pre. by rewrite <- app_assoc. Qed.
Lemma websocket_out fuel size s r s' : websocket_read_loop fuel size s = (r, s') -> ws_out s' ≫= binary_of = ws_out s ≫= binary_of.
Proof.
  revert s; induction fuel as [|fuel IH]; intros s; cbn [websocket_read_loop]; [by intros [= <- <-]|].
  unfold mbind at 1, eff_bind at 1, attempt, ws_read. destruct (ws_in s) as [|m rest]; [by intros [= <- <-]|].
  destruct m as [[payload|text| |payload|payload|raw]|e]; try (by intros [= <- <-]); try (intros Hr; by apply IH in Hr).
  - unfold mbind at 1, eff_bind, attempt. destruct (ws_send (FPong payload) _) as [r1 s2] eqn:Es. intros Hr. apply IH in Hr. rewrite Hr.
    unfold ws_send in Es. cbn in Es. destruct (ws_sends s) as [|[|] ?]; injection Es as <- <-; cbn; try done;
      rewrite bind_app; cbn; by rewrite app_nil_r.
  - destruct (is_retry_kind e); by intros [= <- <-].
Qed.
Lemma udp_read_carries size s w l r w' : read s size w = (r, w') -> carries (BUdp s w) l -> carries (BUdp s w') l.
Proof.
  intros Hr (Hi & chunks & Hl & Hseq & Hsent).
  assert (state_ok (fun st => send_seq st = send_seq (w_state w)) w') as [Hk Hi'].
  { eapply (read_state s (fun _ st => send_seq st = send_seq (w_state w)) []); [| | |exact Hr].
    - intros _. apply send_seq_keeps.
    - by intros d len st.
    - by split. }
  split; [done|]. exists chunks. split; [done|]. rewrite Hk. split; [done|]. intros i chunk Hc.
  destruct (Hsent i chunk Hc) as (c & d & Hc1 & Hd & Hin). exists c, d. split; [done|]. split; [done|].
  eapply (preserves_net_read s _ (sent_keeps (st_peer_addr s, d))); [exact Hin|exact Hr].
Qed.
Lemma udp_write_carries bytes s w l r w' : write s bytes w = (r, w') -> carries (BUdp s w) l ->
  carries (BUdp s w') (match r with Ok n => l ++ take n bytes | Err _ => l end).
Proof.
  intros Hr (Hi & chunks & Hl & Hseq & Hsent).
  assert (inbox_ok w') as Hi'.
  { eapply (preserves_write s (fun _ => True)) in Hr; [by destruct Hr|done|done|by split]. }
  assert (forall i chunk, chunks !! i = Some chunk -> sent_chunk s w' (Z.of_nat i mod u64_modulus) chunk) as Hsent'.
  { intros i chunk Hc. destruct (Hsent i chunk Hc) as (c & d & Hc1 & Hd & Hin). exists c, d. split; [done|]. split; [done|].
    eapply (preserves_net_write s _ (sent_keeps (st_peer_addr s, d))); [exact Hin|exact Hr]. }
  apply write_result in Hr; [|done]. split; [done|]. destruct r as [n|e].
  - destruct Hr as (_ & Hnext & c & d & Hc & Hd & Hin). exists (chunks ++ [take n bytes]).
    rewrite concat_app, length_app. cbn [concat length]. rewrite app_nil_r, Hl. split; [done|]. split.
    + rewrite Hnext, Hseq, Zplus_mod_idemp_l. f_equal. lia.
    + intros i chunk. rewrite lookup_app_Some. intros [Hi1|[Hge Hi1]]; [by apply Hsent'|].
      apply list_lookup_singleton_Some in Hi1 as [Hi1 <-]. exists c, d. rewrite Hseq in Hc, Hd.
      replace i with (length chunks) by lia. done.
  - exists chunks. by rewrite Hr.
Qed.
(** A connection that was just made. *)
Lemma candidates_carry grant pin cs le d o d' :
  android_candidates_loop to_socket_addrs url_parse tcp_connect json_object protector grant pin cs le d = (Ok o, d') ->
  carries (bo_backend o) [].
Proof.
  revert le d; induction cs as [|c cs IH]; intros le d; cbn [android_candidates_loop]; [done|].
  destruct (android_unusable_candidate_addr _); [apply IH|]. intros Hr.
  apply eff_bind_ok in Hr as (connected & d1 & Hc & Hr). destruct connected as [b|e]; [|by eapply IH].
  unfold mret, eff_ret in Hr. injection Hr as <- _. cbn [bo_backend]. unfold attempt in Hc.
  destruct (android_connect_session_candidate _ _ _ _ _ _ _ _ d) as [r1 d2] eqn:E. injection Hc as -> _.
  unfold android_connect_session_candidate in E. destruct (pc_kind c); inv_eff; apply suffix_nil.
Qed.
Lemma connect_carries route preferred d o d' :
  connect_backend to_socket_addrs url_parse tcp_connect json_object protector route preferred d = (Ok o, d') ->
  carries (bo_backend o) [].
Proof.
  unfold connect_backend. destruct route as [target|grant pin].
  - intros Hr. inv_eff. apply suffix_nil.
  - unfold connect_session_grant. intros Hr. apply eff_bind_ok in Hr as (connected & d1 & _ & Hr).
    destruct connected as [[[s n] c]|]; [|by eapply candidates_carry].
    unfold mret, eff_ret in Hr. injection Hr as <- _. split; [split; constructor|]. by exists [].
Qed.

Lemma tcp_read_spends size t r t' : (0 < size)%nat -> tcp_read size t = (r, t') ->
  r = Ok [] \/ (backend_read_budget (BTcp t') < backend_read_budget (BTcp t))%nat \/ exists e, r = Err e /\ e <> EIo Interrupted.
Proof.
  intros Hsize. unfold tcp_read, backend_read_budget. destruct (tcp_arrivals t) as [|[k|bytes] rest].
  - intros [= <- <-]. right; right. by eexists.
  - intros [= <- <-]. right; left. cbn. unfold list_sum. cbn. lia.
  - intros [= <- <-]. destruct bytes as [|b bytes]; [left; by destruct size|]. right; left.
    destruct (drop size (b :: bytes)) as [|c more] eqn:E; cbn -[list_sum]; [unfold list_sum; cbn; lia|].
    apply (f_equal length) in E. rewrite length_drop in E. cbn in E. unfold list_sum. cbn. lia.
Qed.
Lemma websocket_read_spends fuel size s r s' : (length (ws_in s) < fuel)%nat -> websocket_read_loop fuel size s = (r, s') ->
  (length (ws_in s') < length (ws_in s))%nat \/ exists e, r = Err e /\ is_retry_kind e = true.
Proof.
  revert s; induction fuel as [|fuel IH]; intros s Hf; [lia|]. cbn [websocket_read_loop].
  unfold mbind, eff_bind at 1, attempt, ws_read. destruct (ws_in s) as [|m rest] eqn:E.
  { intros [= <- <-]. right. by eexists. }
  set (s1 := WebSocket rest _ _ _ _). simpl in Hf.
  assert (forall s2, ws_in s2 = rest -> websocket_read_loop fuel size s2 = (r, s') ->
    (length (ws_in s') < length (m :: rest))%nat \/ exists e, r = Err e /\ is_retry_kind e = true) as Hnext.
  { intros s2 Hin Hr. apply IH in Hr; rewrite Hin in *; [|lia]. destruct Hr; [left; simpl; lia|by right]. }
  destruct m as [[payload|text| |payload|payload|raw]|e].
  - intros [= <- <-]. left. simpl. lia.
  - by apply Hnext.
  - intros [= <- <-]. left. simpl. lia.
  - unfold eff_bind, attempt. destruct (ws_send (FPong payload) s1) as [r1 s2] eqn:Es. apply Hnext.
    unfold ws_send in Es. destruct (ws_sends s1) as [|[|] ?]; by injection Es as <- <-.
  - by apply Hnext.
  - by apply Hnext.
  - destruct (is_retry_kind e) eqn:Ek; intros [= <- <-]; left; simpl; lia.
Qed.
Lemma websocket_read_fuel fuel size s : (length (ws_in s) < fuel)%nat -> (websocket_read_loop fuel size s).1 <> Err out_of_fuel.
Proof.
  revert s; induction fuel as [|fuel IH]; intros s Hf; [lia|]. cbn [websocket_read_loop].
  unfold mbind, eff_bind at 1, attempt, ws_read. destruct (ws_in s) as [|m rest] eqn:E; [done|].
  set (s1 := WebSocket rest _ _ _ _). simpl in Hf.
  assert (forall s2, ws_in s2 = rest -> (websocket_read_loop fuel size s2).1 <> Err out_of_fuel) as Hnext.
  { intros s2 Hin. apply IH. rewrite Hin. lia. }
  destruct m as [[payload|text| |payload|payload|raw]|e]; try done; try by apply Hnext.
  - unfold eff_bind, attempt. destruct (ws_send (FPong payload) s1) as [r1 s2] eqn:Es. apply Hnext.
    unfold ws_send in Es. destruct (ws_sends s1) as [|[|] ?]; by injection Es as <- <-.
  - destruct (is_retry_kind e) eqn:Ek; [|done]. intros [= ->]. done.
Qed.

(** The connections of the program keep the interface's laws. *)
#[export] Instance active_backend_io_ok :
  BackendIoOk (active_backend_io to_socket_addrs url_parse tcp_connect json_object protector set_options) carries.
Proof.
  split; cbn [active_backend_io b_read b_write b_read_budget b_write_budget b_connect b_configure].
  - intros bytes [t|s|s w] n b'; unfold backend_write.
    + unfold on_tcp, tcp_write. destruct (tcp_room t) as [|[k|m] rest]; intros [= <- _]; lia.
    + unfold on_websocket, mbind, eff_bind. destruct (io_other _ s) as [[u|e] s1]; [|done]. by intros [= <- _].
    + unfold on_stream. destruct (write s bytes w) as [r w'] eqn:E. intros [= -> _]. by apply write_takes in E.
  - intros bytes [t|s|s w] r b'; unfold backend_write, backend_write_budget.
    + unfold on_tcp, tcp_write. destruct (tcp_room t) as [|[k|m] rest] eqn:E; intros [= <- <-]; cbn; rewrite ?E; cbn; split; (lia || done).
    + unfold on_websocket, mbind, eff_bind. destruct (io_other _ s) as [[u|e] s1] eqn:E; intros [= <- <-]; (split; [done|]); [done|].
      by apply io_other_kind in E as ->.
    + unfold on_stream. destruct (write s bytes w) as [r1 w'] eqn:E. intros [= <- <-]. by apply write_spends in E.
  - intros bytes [t|s|s w] b'; unfold backend_write.
    + unfold on_tcp, tcp_write. by destruct (tcp_room t) as [|[k|m] rest].
    + unfold on_websocket, mbind, eff_bind. destruct (io_other _ s) as [[u|e] s1] eqn:E; [done|]. by apply io_other_kind in E as ->.
    + unfold on_stream. destruct (write s bytes w) as [r1 w'] eqn:E. apply write_in_fuel in E. by intros [= -> _].
  - intros size [t|s|s w] r b' Hsize; unfold backend_read.
    + unfold on_tcp. destruct (tcp_read size t) as [r1 t'] eqn:E. intros [= <- <-]. by apply tcp_read_spends in E.
    + unfold on_websocket. destruct (websocket_read_loop _ size s) as [r1 s'] eqn:E. intros [= <- <-].
      apply websocket_read_spends in E as [Hlt|(e & -> & He)]; [by right; left| |lia]. right; right. exists e. split; [done|].
      by intros ->.
    + unfold on_stream. destruct (read s size w) as [r1 w'] eqn:E. intros [= <- <-]. by apply read_readable in E.
  - intros size [t|s|s w] b'; unfold backend_read.
    + unfold on_tcp, tcp_read. by destruct (tcp_arrivals t) as [|[k|m] rest].
    + unfold on_websocket. pose proof (websocket_read_fuel (Datatypes.S (length (ws_in s))) size s ltac:(lia)) as Hf.
      destruct (websocket_read_loop _ size s) as [r1 s']. intros [= -> _]. by apply Hf.
    + unfold on_stream. destruct (read s size w) as [r1 w'] eqn:E. apply read_in_fuel in E. by intros [= -> _].
  - intros route preferred d b c d' Hr. apply eff_bind_ok in Hr as (o & d1 & Ho & Hr). unfold mret, eff_ret in Hr.
    injection Hr as <- _ _. by eapply connect_carries.
  - intros b l d b' d' Hr. unfold configure_nonblocking in Hr. apply eff_bind_ok in Hr as (u & d1 & _ & Hr).
    unfold mret, eff_ret in Hr. injection Hr as <- _. by destruct b.
  - intros size [t|s|s w] l r b'; unfold backend_read.
    + unfold on_tcp, tcp_read. destruct (tcp_arrivals t) as [|[k|m] rest]; by intros [= <- <-].
    + unfold on_websocket. destruct (websocket_read_loop _ size s) as [r1 s'] eqn:E. intros [= <- <-]. unfold carries.
      by rewrite (websocket_out _ _ _ _ _ E).
    + unfold on_stream. destruct (read s size w) as [r1 w'] eqn:E. intros [= <- <-]. by eapply udp_read_carries.
  - intros bytes [t|s|s w] l r b'; unfold backend_write.
    + unfold on_tcp, tcp_write. destruct (tcp_room t) as [|[k|m] rest]; intros [= <- <-] Hl; cbn in *;
        rewrite ?app_nil_r; try done; by apply suffix_app_same.
    + unfold on_websocket, mbind, eff_bind, io_other, ws_send. destruct (ws_sends s) as [|[k|] rest]; intros [= <- <-] Hl; cbn in *;
        try done; rewrite bind_app; cbn; rewrite app_nil_r, firstn_all; by apply suffix_app_same.
    + unfold on_stream. destruct (write s bytes w) as [r1 w'] eqn:E. intros [= <- <-]. by eapply udp_write_carries.
Qed.
End ActualBackends.

(** A backend and the bytes its writes have taken since it was connected. *)
Record logged (B : Type) := Logged { lg_backend : B; lg_written : list byte }.
Arguments Logged {_} _ _.
Arguments lg_backend {_} _.
Arguments lg_written {_} _.
#[global] Instance logged_io {B W} `{BackendIo B W} : BackendIo (logged B) W := {
  b_read size x := let '(r, b) := b_read size (lg_backend x) in (r, Logged b (lg_written x));
  b_write bytes x :=
    let '(r, b) := b_write bytes (lg_backend x) in
    (r, Logged b (match r with Ok n => lg_written x ++ take n bytes | Err _ => lg_written x end));
  b_configure x := b ← b_configure (lg_backend x); mret (Logged b (lg_written x));
  b_read_budget x := b_read_budget (lg_backend x);
  b_write_budget x := b_write_budget (lg_backend x);
  b_connect route preferred := '(b, c) ← b_connect route preferred; mret (Logged b [], c)
}.

(** ** What the client sends reaches the backend *)

(** The bytes received on a stream. *)
Definition received (id : string) (events : list tcp_pump_event) : list byte :=
  e ← events; match e with Received id' _ bytes => if id' =?s id then bytes else [] | _ => [] end.
Lemma received_snoc id events e : received id (events ++ [e]) = received id events ++ received id [e].
Proof. unfold received. by rewrite bind_app. Qed.
Lemma received_none id events : Forall (fun e => event_stream e <> id) events -> received id events = [].
Proof.
  induction 1 as [|e l He _ IH]; [done|]. unfold received. rewrite bind_cons. fold (received id l). rewrite IH.
  destruct e; simpl in *; try done. by rewrite bool_decide_eq_false_2.
Qed.
(** A stream is connected by its first event. *)
Lemma phase_fresh_inv id events : phase id events = Some Fresh -> Forall (fun e => event_stream e <> id) events.
Proof.
  induction events as [|e events IH] using rev_ind; [constructor|]. rewrite phase_snoc. intros Hp.
  apply list.Forall_app. case_bool_decide as He.
  - destruct (phase id events) as [[]|], e; simpl in Hp; done.
  - split; [by apply IH|by constructor].
Qed.
Lemma phase_app_some id events more : is_Some (phase id (events ++ more)) -> is_Some (phase id events).
Proof.
  induction more as [|e more IH] using rev_ind; [by rewrite app_nil_r|]. rewrite app_assoc, phase_snoc.
  case_bool_decide; [|apply IH]. intros [p Hp]. apply IH. destruct (phase id (events ++ more)); [done|by destruct e].
Qed.
Lemma phase_connected id service_id events more :
  is_Some (phase id (events ++ Connected id service_id :: more)) -> Forall (fun e => event_stream e <> id) events.
Proof.
  change (Connected id service_id :: more) with ([Connected id service_id] ++ more). rewrite app_assoc.
  intros Hp. apply phase_app_some in Hp. rewrite phase_snoc, bool_decide_eq_true_2 in Hp by done.
  apply phase_fresh_inv. destruct (phase id events) as [[]|]; [done| | |]; by destruct Hp.
Qed.

Section DataFacts.
Context {S B W : Type} `{StreamStack S} `{HB : BackendIo B W} {carries : B -> list byte -> Prop} `{HBok : !BackendIoOk HB carries}.
Context (order : list string -> list string) (show_error : error -> string).
(** An invariant of the stack that sending and closing keep. *)
Context (stack_inv : S -> Prop) (routes : gmap string backend_route).
Context (Hsend : forall id bytes s n s', stack_send id bytes s = Ok (n, s') -> stack_inv s -> stack_inv s').
Context (Hclose : forall id s s', stack_close id s = Ok s' -> stack_inv s -> stack_inv s').

(** What a backend has taken, its connection carries. *)
Definition carried (x : logged B) : Prop := carries (lg_backend x) (lg_written x).
Definition fresh (x : logged B) : Prop := lg_written x = [] /\ carried x.

(** The backends after some events: each open stream was connected by one of them, and its
    backend has taken, and carries, all that was received on it but what is pending; only open streams
    have something pending; a stream is open with its service; each service with a grant
    has at most one idle backend, on which nothing was written. *)
Record backends_ok (handled : list tcp_pump_event) (b : stream_backends (logged B)) : Prop := {
  bk_opened : forall id, is_Some (sb_streams b !! id) -> exists service_id, Connected id service_id ∈ handled;
  bk_pending : forall id, is_Some (sb_pending_writes b !! id) -> is_Some (sb_streams b !! id);
  bk_written : forall id x, sb_streams b !! id = Some x ->
    lg_written x ++ default [] (sb_pending_writes b !! id) = received id handled;
  bk_carried : forall id x, sb_streams b !! id = Some x -> carried x;
  bk_services : forall id, is_Some (sb_streams b !! id) <-> is_Some (sb_stream_services b !! id);
  bk_max : ip_max_per_service (sb_idle_backends b) = IDLE_BACKENDS_PER_SERVICE;
  bk_idle : forall service_id l, ip_backends (sb_idle_backends b) !! service_id = Some l ->
    exists x grant pin, l = [x] /\ fresh x /\
      sb_routes b !! service_id = Some (SessionGrant grant pin);
  bk_routes : sb_routes b = routes
}.
Definition an_ok (handled : list tcp_pump_event) (a : android S (logged B) W) : Prop :=
  stack_inv (an_stack a) /\ backends_ok handled (an_backends a).

Lemma flush_loop_bytes fuel x pending r x' pending' :
  flush_loop fuel x pending = (r, x', pending') -> lg_written x' ++ pending' = lg_written x ++ pending.
Proof using HBok.
  revert x pending; induction fuel as [|fuel IH]; intros x pending; cbn [flush_loop]; [by intros [= _ <- <-]|].
  destruct pending as [|p pending]; [by intros [= _ <- <-]|]. set (all := p :: pending). clearbody all.
  cbn [b_write logged_io]. destruct (b_write (take SCRATCH all) (lg_backend x)) as [[n|e] b] eqn:Hw.
  - destruct n as [|n]; [intros [= _ <- <-]; simpl; by rewrite app_nil_r|].
    apply write_bound in Hw. intros Hr. rewrite (IH _ _ Hr). cbn [lg_written]. rewrite <- app_assoc. f_equal.
    rewrite take_take, Nat.min_l; [apply take_drop|]. rewrite length_take in Hw. lia.
  - destruct e as [m|[]|o]; try (intros [= _ <- <-]; done). intros Hr. by rewrite (IH _ _ Hr).
Qed.
Lemma flush_loop_carried fuel x pending r x' pending' :
  flush_loop fuel x pending = (r, x', pending') -> carried x -> carried x'.
Proof using HBok.
  revert x pending; induction fuel as [|fuel IH]; intros x pending; cbn [flush_loop]; [by intros [= _ <- _]|].
  destruct pending as [|p pending]; [by intros [= _ <- _]|]. set (all := p :: pending). clearbody all.
  cbn [b_write logged_io]. destruct (b_write (take SCRATCH all) (lg_backend x)) as [rw b] eqn:Hw. intros Hr Hx.
  pose proof (carries_write _ _ _ _ _ Hw Hx) as Hb.
  destruct rw as [[|n]|e]; [by injection Hr as _ <- _|eapply IH; [exact Hr|exact Hb]|].
  destruct e as [m|[]|o]; try (injection Hr as _ <- _; exact Hb). eapply IH; [exact Hr|exact Hb].
Qed.
Lemma flush_bytes x pending r x' pending' :
  flush_pending_to_writer x pending = (r, x', pending') -> lg_written x' ++ pending' = lg_written x ++ pending.
Proof using HBok. apply flush_loop_bytes. Qed.

Lemma on_backends_ok handled f :
  (forall b, backends_ok handled b -> backends_ok handled (f b)) -> preserves (an_ok handled) (on_backends f).
Proof. intros Hf. apply preserves_modify. intros a [Hs Hb]. split; [done|by apply Hf]. Qed.
Lemma on_world_ok {A} handled (m : eff W A) : preserves (an_ok handled) (on_world m).
Proof. apply preserves_zoom. by intros a w [Hs Hb] _. Qed.
Lemma close_tcp_of_ok handled id : preserves (an_ok handled) (close_tcp_of id).
Proof using Hclose.
  intros a r a' [Hs Hb]. unfold close_tcp_of. destruct (stack_close id (an_stack a)) as [s|e] eqn:E.
  - intros [= <- <-]. split; [by eapply Hclose|done].
  - by intros [= <- <-].
Qed.
Lemma send_tcp_of_ok handled id bytes : preserves (an_ok handled) (send_tcp_of id bytes).
Proof using Hsend.
  intros a r a' [Hs Hb]. unfold send_tcp_of. destruct (stack_send id bytes (an_stack a)) as [[n s]|e] eqn:E.
  - intros [= <- <-]. split; [by eapply Hsend|done].
  - by intros [= <- <-].
Qed.

Lemma selected_ok handled m b : backends_ok handled b -> backends_ok handled (set_selected m b).
Proof. by intros []. Qed.
Lemma connect_and_remember_ok handled service_id route :
  preserves (an_ok handled) (connect_and_remember service_id route) /\
  returns (an_ok handled) (connect_and_remember service_id route) fresh.
Proof using HBok.
  split.
  - unfold connect_and_remember. apply preserves_bind; [apply preserves_gets|]. intros selected.
    apply preserves_bind; [apply on_world_ok|]. intros [x path]. apply preserves_bind; [apply on_world_ok|]. intros y.
    apply preserves_bind; [|intros _; apply preserves_ret]. destruct path; [|apply preserves_ret]. apply on_backends_ok. intros b. apply selected_ok.
  - intros a x a' _ Hr. unfold connect_and_remember in Hr.
    apply eff_bind_ok in Hr as (selected & a1 & _ & Hr). apply eff_bind_ok in Hr as ([y path] & a2 & Hw & Hr).
    apply eff_bind_ok in Hr as (z & a3 & Hconf & Hr). apply eff_bind_ok in Hr as ([] & a4 & _ & Hr).
    unfold mret, eff_ret in Hr. injection Hr as <- _.
    assert (fresh y -> fresh z) as Hfresh.
    { unfold on_world, zoom in Hconf. cbn [b_configure logged_io] in Hconf. unfold mbind, eff_bind in Hconf.
      destruct (b_configure (lg_backend y) _) as [[b|e] w] eqn:Hb; [|done]. unfold mret, eff_ret in Hconf. injection Hconf as <- _.
      intros [Hw0 Hc]. split; [done|]. by eapply carries_configure. }
    apply Hfresh. unfold on_world, zoom in Hw. destruct (b_connect route _ _) as [r w] eqn:Hc. injection Hw as -> _.
    cbn [b_connect logged_io] in Hc. apply eff_bind_ok in Hc as ([b c] & w1 & Hc & Hr).
    unfold mret, eff_ret in Hr. injection Hr as <- _ _. split; [done|]. by eapply carries_connect.
Qed.
Lemma push_ok handled service_id x grant pin b :
  fresh x -> routes !! service_id = Some (SessionGrant grant pin) -> backends_ok handled b ->
  backends_ok handled (set_idle (pool_push service_id x (sb_idle_backends b)).1 b).
Proof.
  intros Hx Hroute [Ho Hp Hw Hcar Hs Hm Hi Hr]. unfold pool_push. rewrite Hm. unfold IDLE_BACKENDS_PER_SERVICE.
  destruct (ip_backends (sb_idle_backends b) !! service_id) as [old|] eqn:Hold; simpl.
  - destruct (Hi _ _ Hold) as (y & g & p & -> & Hy). simpl. split; simpl; try done.
    intros svc l. rewrite insert_id by done. apply Hi.
  - split; simpl; try done. intros svc l. destruct (decide (svc = service_id)) as [-> |Hne].
    + rewrite lookup_insert_eq. intros [= <-]. exists x, grant, pin. by rewrite Hr.
    + rewrite lookup_insert_ne by done. apply Hi.
Qed.
Lemma pop_ok handled service_id b :
  backends_ok handled b ->
  backends_ok handled (set_idle (pool_pop service_id (sb_idle_backends b)).2 b) /\
  forall x, (pool_pop service_id (sb_idle_backends b)).1 = Some x -> fresh x.
Proof.
  intros [Ho Hp Hw Hcar Hs Hm Hi Hr]. unfold pool_pop.
  destruct (ip_backends (sb_idle_backends b) !! service_id) as [l|] eqn:Hl; [|by split].
  destruct (Hi _ _ Hl) as (x & grant & pin & -> & Hx & _). split; [|by intros y [= <-]].
  split; simpl; try done. intros svc l. rewrite lookup_delete_Some. intros [_ Hsvc]. by apply Hi.
Qed.

Lemma ensure_idle_ok handled service_id : preserves (an_ok handled) (ensure_idle_backend service_id).
Proof.
  intros a r a' Ha. unfold ensure_idle_backend. unfold mbind at 1, eff_bind at 1, gets at 1.
  destruct (Nat.leb _ _); [by intros [= <- <-]|]. unfold mbind at 1, eff_bind at 1, gets at 1.
  destruct (sb_routes (an_backends a) !! service_id) as [[target|grant pin]|] eqn:Hroute; try (by intros [= <- <-]).
  destruct (connect_and_remember_ok handled service_id (SessionGrant grant pin)) as [Hpre Hret].
  unfold mbind at 1, eff_bind at 1, attempt.
  destruct (connect_and_remember service_id (SessionGrant grant pin) a) as [[x|e] a1] eqn:Hc; specialize (Hpre _ _ _ Ha Hc).
  - rewrite (bk_routes _ _ (proj2 Ha)) in Hroute. apply (on_backends_ok handled); [|done]. intros b.
    eapply push_ok; [exact (Hret _ _ _ Ha Hc)|exact Hroute].
  - by intros [= <- <-].
Qed.
Lemma ensure_idles_ok handled service_ids : preserves (an_ok handled) (ensure_idle_backends service_ids).
Proof.
  induction service_ids as [|service_id rest IH]; [apply preserves_ret|].
  apply preserves_bind; [apply ensure_idle_ok|intros _; exact IH].
Qed.
Lemma warm_up_ok handled : preserves (an_ok handled) (warm_up order).
Proof. apply preserves_bind; [apply preserves_gets|]. intros m. apply ensure_idles_ok. Qed.

Lemma delete_ok handled id b : backends_ok handled b ->
  backends_ok handled (set_services (delete id (sb_stream_services b))
    (set_pending (delete id (sb_pending_writes b)) (set_streams (delete id (sb_streams b)) b))).
Proof.
  intros [Ho Hp Hw Hcar Hs Hm Hi Hr]. split; simpl; try done.
  - intros i. destruct (decide (i = id)) as [-> |Hne]; [rewrite lookup_delete_eq; by intros []|].
    rewrite lookup_delete_ne by done. apply Ho.
  - intros i. destruct (decide (i = id)) as [-> |Hne]; [rewrite lookup_delete_eq; by intros []|].
    rewrite !lookup_delete_ne by done. apply Hp.
  - intros i x. rewrite lookup_delete_Some. intros [Hne Hx]. rewrite lookup_delete_ne by done. by apply Hw.
  - intros i x. rewrite lookup_delete_Some. intros [Hne Hx]. by eapply Hcar.
  - intros i. destruct (decide (i = id)) as [-> |Hne]; [by rewrite !lookup_delete_eq|].
    rewrite !lookup_delete_ne by done. apply Hs.
Qed.
Lemma remove_stream_ok handled id : preserves (an_ok handled) (remove_stream id).
Proof.
  intros a r a' [Hst Hb] Hr. unfold remove_stream, on_backends, mbind, eff_bind, gets, modify in Hr. cbn in Hr.
  apply (delete_ok handled id) in Hb. destruct (sb_stream_services (an_backends a) !! id) as [svc|].
  - eapply ensure_idle_ok; [|exact Hr]. by split.
  - unfold mret, eff_ret in Hr. injection Hr as <- <-. by split.
Qed.
Lemma drop_stream_ok handled id : preserves (an_ok handled) (drop_stream id).
Proof using Hclose HBok.
  apply preserves_bind; [apply remove_stream_ok|intros _]. apply preserves_bind; [|intros _; apply preserves_ret].
  apply preserves_attempt, close_tcp_of_ok.
Qed.
Lemma drop_each_ok handled ids : preserves (an_ok handled) (drop_each ids).
Proof using Hclose HBok.
  induction ids as [|id ids IH]; [apply preserves_ret|]. apply preserves_bind; [apply drop_stream_ok|intros _; exact IH].
Qed.

(** A stream's backend and pending bytes change together. *)
Lemma rewrite_ok handled handled' id x pending b :
  backends_ok handled b -> is_Some (sb_streams b !! id) ->
  (forall i, i <> id -> received i handled' = received i handled) ->
  (forall e, e ∈ handled -> e ∈ handled') ->
  carried x -> lg_written x ++ pending = received id handled' ->
  backends_ok handled' (set_pending (<[id := pending]> (sb_pending_writes b))
    (set_streams (<[id := x]> (sb_streams b)) b)).
Proof.
  intros [Ho Hp Hw Hcar Hs Hm Hi Hr] Hid Hother Hmono Hx Heq. split; simpl; try done.
  - intros i [y Hy]. destruct (Ho i) as (svc & Hin); [|by exists svc; auto].
    destruct (decide (i = id)) as [-> |Hne]; [done|]. rewrite lookup_insert_ne in Hy by done. by exists y.
  - intros i. destruct (decide (i = id)) as [-> |Hne]; [rewrite !lookup_insert_eq; by eauto|].
    rewrite !lookup_insert_ne by done. apply Hp.
  - intros i y. destruct (decide (i = id)) as [-> |Hne].
    + rewrite !lookup_insert_eq. intros [= <-]. simpl. done.
    + rewrite !lookup_insert_ne, Hother by done. apply Hw.
  - intros i y. rewrite lookup_insert_Some. intros [[_ <-]|[_ Hy]]; [done|by eapply Hcar].
  - intros i. rewrite <- Hs. destruct (decide (i = id)) as [-> |Hne]; [rewrite lookup_insert_eq|by rewrite lookup_insert_ne].
    split; [done|by eauto].
Qed.
Lemma unpend_ok handled id b : backends_ok handled b -> default [] (sb_pending_writes b !! id) = [] ->
  backends_ok handled (set_pending (delete id (sb_pending_writes b)) b).
Proof.
  intros [Ho Hp Hw Hcar Hs Hm Hi Hr] He. split; simpl; try done.
  - intros i. destruct (decide (i = id)) as [-> |Hne]; [rewrite lookup_delete_eq; by intros []|].
    rewrite lookup_delete_ne by done. apply Hp.
  - intros i x Hx. rewrite <- (Hw i x Hx). destruct (decide (i = id)) as [-> |Hne].
    + rewrite lookup_delete_eq. simpl. by rewrite He.
    + by rewrite lookup_delete_ne.
Qed.
Lemma flush_backend_ok handled id : preserves (an_ok handled) (flush_pending_backend id).
Proof using HBok.
  intros a r a' [Hst Hb] Hr. unfold flush_pending_backend, mbind at 1, eff_bind at 1, gets in Hr.
  destruct (sb_streams (an_backends a) !! id) as [x|] eqn:Hx.
  2: { unfold on_backends, modify in Hr. injection Hr as <- <-. split; [done|]. simpl. apply unpend_ok; [done|].
       destruct (sb_pending_writes (an_backends a) !! id) as [p|] eqn:Hp; [|done].
       destruct (bk_pending _ _ Hb id) as [y Hy]; [by eauto|congruence]. }
  destruct (sb_pending_writes (an_backends a) !! id) as [pending|] eqn:Hp; [|by injection Hr as <- <-].
  destruct (flush_pending_to_writer x pending) as [[r1 x'] pending'] eqn:Hf.
  pose proof (flush_loop_carried _ _ _ _ _ _ Hf (bk_carried _ _ Hb id x Hx)) as Hcarried.
  apply flush_bytes in Hf. pose proof (bk_written _ _ Hb id x Hx) as Hwritten. rewrite Hp in Hwritten. simpl in Hwritten.
  rewrite Hwritten in Hf.
  pose proof (rewrite_ok handled handled id x' pending' _ Hb (ex_intro _ x Hx) (fun _ _ => eq_refl) (fun _ He => He) Hcarried Hf) as Hb'.
  unfold on_backends, mbind, eff_bind, modify, lift in Hr. cbn in Hr.
  destruct r1 as [[]|e]; [|injection Hr as <- <-; by split].
  destruct pending' as [|p pending']; [|injection Hr as <- <-; by split].
  injection Hr as <- <-. split; [done|]. simpl. apply (unpend_ok handled id) in Hb'; [done|]. simpl. by rewrite lookup_insert_eq.
Qed.
(** An event that brings no byte to an open stream. *)
Lemma extend_ok handled e b :
  backends_ok handled b -> (forall i x, sb_streams b !! i = Some x -> received i [e] = []) -> backends_ok (handled ++ [e]) b.
Proof.
  intros [Ho Hp Hw Hcar Hs Hm Hi Hr] He. split; try done.
  - intros i Hi'. destruct (Ho i Hi') as (svc & Hin). exists svc. apply elem_of_app. by left.
  - intros i x Hx. rewrite received_snoc, (He i x Hx), app_nil_r. by apply Hw.
Qed.
Lemma queue_ok handled id service_id bytes a r a' :
  an_ok handled a -> queue_backend_write id bytes a = (r, a') -> an_ok (handled ++ [Received id service_id bytes]) a'.
Proof using HBok.
  intros [Hst Hb] Hr. unfold queue_backend_write, mbind at 1, eff_bind at 1, gets in Hr.
  assert (forall i, i <> id -> received i [Received id service_id bytes] = []) as Hother.
  { intros i Hne. unfold received. simpl. by rewrite bool_decide_eq_false_2. }
  destruct (sb_streams (an_backends a) !! id) as [x|] eqn:Hx.
  2: { injection Hr as <- <-. split; [done|]. apply extend_ok; [done|]. intros i y Hy. apply Hother. congruence. }
  unfold on_backends, mbind, eff_bind, modify in Hr. cbn in Hr.
  eapply flush_backend_ok; [|exact Hr]. split; [done|]. simpl.
  pose proof (rewrite_ok handled (handled ++ [Received id service_id bytes]) id x
    (default [] (sb_pending_writes (an_backends a) !! id) ++ bytes) _ Hb (ex_intro _ x Hx)) as Hb'.
  unfold set_streams in Hb'. simpl in Hb'. rewrite (insert_id (sb_streams (an_backends a)) id x) in Hb' by done.
  destruct (an_backends a). apply Hb'.
  - intros i Hne. by rewrite received_snoc, Hother, app_nil_r.
  - intros e He. apply elem_of_app. by left.
  - by eapply bk_carried.
  - rewrite received_snoc, app_assoc. rewrite (bk_written _ _ Hb id x Hx). f_equal. unfold received. simpl.
    rewrite bool_decide_eq_true_2 by done. by rewrite app_nil_r.
Qed.

(** The connection functions change the pool, the selected paths and the network only. *)
Lemma connect_and_remember_pres (P : android S (logged B) W -> Prop) service_id route :
  (forall a w, P a -> P (Android (an_stack a) (an_backends a) w)) ->
  (forall a m, P a -> P (Android (an_stack a) (set_selected m (an_backends a)) (an_world a))) ->
  preserves P (connect_and_remember service_id route).
Proof.
  intros Hw Hsel. unfold connect_and_remember. apply preserves_bind; [apply preserves_gets|]. intros selected.
  apply preserves_bind; [apply preserves_zoom; intros a w Ha _; by apply Hw|]. intros [x path].
  apply preserves_bind; [apply preserves_zoom; intros a w Ha _; by apply Hw|]. intros y.
  apply preserves_bind; [|intros _; apply preserves_ret].
  destruct path; [|apply preserves_ret]. apply preserves_modify. intros a. apply Hsel.
Qed.
Lemma take_or_connect_ok handled id service_id route a r a' :
  an_ok handled a -> sb_streams (an_backends a) !! id = None -> take_or_connect_backend service_id route a = (r, a') ->
  (an_ok handled a' /\ sb_streams (an_backends a') !! id = None) /\ forall x, r = Ok x -> fresh x.
Proof.
  intros [Hst Hb] Hid Hr. unfold take_or_connect_backend, mbind at 1, eff_bind at 1, gets in Hr.
  destruct (pop_ok handled service_id _ Hb) as [Hb' Hx]. destruct (pool_pop _ _) as [popped idle]. simpl in Hb', Hx.
  unfold on_backends, mbind at 1, eff_bind at 1, modify in Hr. cbn in Hr.
  destruct popped as [y|]; [injection Hr as <- <-; split; [by split|]; intros x [= <-]; by apply Hx|].
  assert (an_ok handled (Android (an_stack a) (set_idle idle (an_backends a)) (an_world a))) as Ha by (by split).
  split.
  - eapply (connect_and_remember_pres (fun a => an_ok handled a /\ sb_streams (an_backends a) !! id = None)); [| | |exact Hr].
    + by intros b w [[? ?] ?].
    + intros b m [[? Hsel] ?]. split; [|done]. split; [done|]. by apply selected_ok.
    + split; [done|]. simpl. done.
  - intros x ->. destruct (connect_and_remember_ok handled service_id route) as [_ Hret]. exact (Hret _ _ _ Ha Hr).
Qed.
Lemma open_ok handled id service_id x b :
  backends_ok handled b -> sb_streams b !! id = None -> Connected id service_id ∈ handled ->
  received id handled = [] -> fresh x ->
  backends_ok handled (set_services (<[id := service_id]> (sb_stream_services b))
    (set_streams (<[id := x]> (sb_streams b)) b)).
Proof.
  intros [Ho Hp Hw Hcar Hs Hm Hi Hr] Hid Hin Hnone Hx. split; simpl; try done.
  - intros i [y Hy]. destruct (decide (i = id)) as [-> |Hne]; [by exists service_id|].
    rewrite lookup_insert_ne in Hy by done. apply Ho. by exists y.
  - intros i Hpi. destruct (decide (i = id)) as [-> |Hne]; [rewrite lookup_insert_eq; by eauto|].
    rewrite lookup_insert_ne by done. by apply Hp.
  - intros i y. destruct (decide (i = id)) as [-> |Hne].
    + rewrite lookup_insert_eq. intros [= <-]. rewrite (proj1 Hx), Hnone. simpl.
      destruct (sb_pending_writes b !! id) as [p|] eqn:Hpid; [|done]. destruct (Hp id) as [z Hz]; [by eauto|congruence].
    + rewrite lookup_insert_ne by done. apply Hw.
  - intros i y. rewrite lookup_insert_Some. intros [[_ <-]|[_ Hy]]; [apply Hx|by eapply Hcar].
  - intros i. destruct (decide (i = id)) as [-> |Hne]; [rewrite !lookup_insert_eq; split; by eauto|].
    rewrite !lookup_insert_ne by done. apply Hs.
Qed.
Lemma open_backend_ok handled id service_id a r a' :
  an_ok handled a -> Forall (fun e => event_stream e <> id) handled ->
  open_backend show_error id service_id a = (r, a') -> an_ok (handled ++ [Connected id service_id]) a'.
Proof using Hsend Hclose HBok.
  intros [Hst Hb] Hnew Hr.
  assert (sb_streams (an_backends a) !! id = None) as Hid.
  { destruct (sb_streams (an_backends a) !! id) eqn:E; [|done]. destruct (bk_opened _ _ Hb id) as (svc & Hin); [by eauto|].
    rewrite Forall_forall in Hnew. by destruct (Hnew _ (proj1 (list_elem_of_In _ _) Hin)). }
  assert (an_ok (handled ++ [Connected id service_id]) a) as Ha by (split; [done|by apply extend_ok]).
  set (handled' := handled ++ [Connected id service_id]) in *.
  assert (received id handled' = []) as Hnone.
  { subst handled'. rewrite received_snoc, received_none by done. done. }
  assert (Connected id service_id ∈ handled') as Hin by (apply elem_of_app; right; by left).
  clearbody handled'. clear Hst Hb Hnew.
  unfold open_backend, mbind at 1, eff_bind at 1, gets in Hr.
  destruct (sb_routes (an_backends a) !! service_id) as [route|]; [|by eapply close_tcp_of_ok].
  unfold mbind at 1, eff_bind at 1, attempt in Hr.
  destruct (take_or_connect_backend service_id route a) as [[x|e] a1] eqn:Ht;
    destruct (take_or_connect_ok _ id _ _ _ _ _ Ha Hid Ht) as [[Ha1 Hid1] Hx].
  - unfold on_backends, mbind, eff_bind, modify in Hr. cbn in Hr. injection Hr as <- <-.
    split; [apply Ha1|]. simpl. apply open_ok; try done; [apply Ha1|by apply Hx].
  - revert Hr. apply (preserves_bind (an_ok handled') (attempt (send_tcp_of id (unavailable_response show_error service_id e)))
      (fun _ => close_tcp_of id)); [apply preserves_attempt, send_tcp_of_ok|intros _; apply close_tcp_of_ok|done].
Qed.

Lemma handle_event_ok handled e a r a' :
  an_ok handled a -> (forall id service_id, e = Connected id service_id -> Forall (fun e => event_stream e <> id) handled) ->
  handle_event show_error e a = (r, a') -> an_ok (handled ++ [e]) a'.
Proof using HBok Hsend Hclose.
  intros Ha Hnew Hr. destruct e as [id service_id|id service_id bytes|id service_id]; cbn [handle_event] in Hr.
  - eapply open_backend_ok; [exact Ha|by eapply Hnew|exact Hr].
  - unfold mbind, eff_bind, attempt in Hr. destruct (queue_backend_write id bytes a) as [r1 a1] eqn:Hq.
    pose proof (queue_ok handled id service_id bytes _ _ _ Ha Hq) as Ha1.
    destruct r1; [by injection Hr as <- <-|]. by eapply drop_stream_ok.
  - eapply remove_stream_ok; [|exact Hr]. destruct Ha as [Hst Hb]. split; [done|by apply extend_ok].
Qed.
Lemma handle_events_ok handled events a r a' :
  an_ok handled a -> (forall id, is_Some (phase id (handled ++ events))) ->
  handle_events show_error events a = (Ok r, a') -> an_ok (handled ++ events) a'.
Proof using HBok Hsend Hclose.
  revert handled a; induction events as [|e events IH]; intros handled a Ha Hph Hr.
  { rewrite app_nil_r. unfold handle_events, mret, eff_ret in Hr. by injection Hr as <- <-. }
  cbn [handle_events] in Hr. apply eff_bind_ok in Hr as ([] & a1 & He & Hr).
  change (e :: events) with ([e] ++ events) in *. rewrite app_assoc in *. eapply IH; [|done|done].
  eapply handle_event_ok; [done| |done]. intros id service_id ->. eapply (phase_connected id service_id handled events).
  specialize (Hph id). by rewrite <- app_assoc in Hph.
Qed.

Lemma flush_each_ok handled ids : preserves (an_ok handled) (flush_each ids).
Proof using HBok.
  induction ids as [|id ids IH]; [apply preserves_ret|]. cbn [flush_each].
  apply preserves_bind; [apply preserves_attempt, flush_backend_ok|]. intros flushed.
  apply preserves_bind; [exact IH|]. intros closed. apply preserves_ret.
Qed.
Lemma pump_writes_ok handled : preserves (an_ok handled) (pump_writes order).
Proof using HBok Hclose.
  apply preserves_bind; [apply preserves_gets|]. intros ids. apply preserves_bind; [apply flush_each_ok|].
  intros closed. apply drop_each_ok.
Qed.
Lemma read_backend_ok id x s r x' s' :
  read_backend id x s = (r, x', s') -> stack_inv s -> carried x -> lg_written x' = lg_written x /\ carried x' /\ stack_inv s'.
Proof using Hsend HBok.
  unfold read_backend. generalize (Datatypes.S (b_read_budget x)). intros fuel. revert x s.
  induction fuel as [|fuel IH]; intros x s; cbn [read_backend_loop]; [by intros [= _ <- <-]|].
  cbn [b_read logged_io]. destruct (b_read READ_BUFFER (lg_backend x)) as [r0 y] eqn:Hread. intros Hr Hst Hx.
  pose proof (carries_read _ _ _ _ _ Hread Hx) as Hy. destruct r0 as [[|b bytes]|e].
  - by injection Hr as _ <- <-.
  - destruct (stack_send id (b :: bytes) s) as [[n s1]|e] eqn:Hs; [|by injection Hr as _ <- <-].
    apply Hsend in Hs; [|done]. by apply IH in Hr.
  - destruct e as [m|[]|o]; try (by injection Hr as _ <- <-). by apply IH in Hr.
Qed.
Lemma read_each_ok handled ids : preserves (an_ok handled) (read_each ids).
Proof using Hsend HBok.
  induction ids as [|sid ids IH]; [apply preserves_ret|]. intros a r a' [Hst Hb] Hr. cbn [read_each] in Hr.
  unfold mbind at 1, eff_bind at 1, gets in Hr. unfold id in Hr.
  destruct (sb_streams (an_backends a) !! sid) as [x|] eqn:Hx; [|eapply IH; [|exact Hr]; by split].
  destruct (read_backend sid x (an_stack a)) as [[r1 x'] s'] eqn:Hread.
  apply read_backend_ok in Hread as (Hlog & Hcarried & Hst'); [|done|by eapply bk_carried].
  unfold mbind at 1, eff_bind at 1, modify in Hr. cbn in Hr.
  assert (an_ok handled (Android s' (set_streams (<[sid := x']> (sb_streams (an_backends a))) (an_backends a)) (an_world a))) as Ha1.
  { split; [done|]. simpl. destruct (sb_pending_writes (an_backends a) !! sid) as [p|] eqn:Hp.
    - pose proof (rewrite_ok handled handled sid x' p _ Hb (ex_intro _ x Hx) (fun _ _ => eq_refl) (fun _ He => He) Hcarried) as Hok.
      rewrite (insert_id (sb_pending_writes (an_backends a)) sid p) in Hok by done. destruct (an_backends a). apply Hok. rewrite Hlog.
      pose proof (bk_written _ _ Hb sid x Hx) as Hw. by rewrite Hp in Hw.
    - pose proof (rewrite_ok handled handled sid x' [] _ Hb (ex_intro _ x Hx) (fun _ _ => eq_refl) (fun _ He => He) Hcarried) as Hok.
      assert (lg_written x' ++ [] = received sid handled) as Hw.
      { rewrite Hlog. pose proof (bk_written _ _ Hb sid x Hx) as Hw. by rewrite Hp in Hw. }
      apply Hok in Hw. apply (unpend_ok handled sid) in Hw; [|simpl; by rewrite lookup_insert_eq]. simpl in Hw.
      rewrite delete_insert_id in Hw by done. by destruct (an_backends a). }
  destruct r1 as [is_closed|e]; [|by injection Hr as <- <-].
  revert Hr. apply (preserves_bind (an_ok handled) (read_each ids) (fun closed => mret (if is_closed : bool then sid :: closed else closed)));
    [exact IH|intros c; apply preserves_ret|exact Ha1].
Qed.
Lemma pump_reads_ok handled : preserves (an_ok handled) (pump_reads order).
Proof using Hsend Hclose HBok.
  apply preserves_bind; [apply preserves_gets|]. intros ids. apply preserves_bind; [apply read_each_ok|].
  intros closed. apply drop_each_ok.
Qed.
End DataFacts.

Section LoopFacts.
Context {B W : Type} `{Smoltcp} `{HB : BackendIo B W} {carries : B -> list byte -> Prop} `{HBok : !BackendIoOk HB carries}.
Context (order : list string -> list string) (show_error : error -> string).
Context (tun_write : list byte -> result unit) (routes : gmap string backend_route).

Definition loop_ok (events : list tcp_pump_event) (a : android medium_stack (logged B) W) : Prop :=
  an_ok (carries:=carries) (fun s => stack_ok s events) routes events a.

Lemma stack_send_ok events id bytes (s : medium_stack) n s' :
  stack_send id bytes s = Ok (n, s') -> stack_ok s events -> stack_ok s' events.
Proof. apply send_ok. Qed.
Lemma stack_close_ok events id (s s' : medium_stack) :
  stack_close id s = Ok s' -> stack_ok s events -> stack_ok s' events.
Proof. intros Hc Hs. exact (proj1 (close_ok _ _ _ _ Hc Hs)). Qed.
Lemma on_stack_ok {A} events (f : medium_stack -> result (A * medium_stack)) a r a' :
  (forall s x s', f s = Ok (x, s') -> stack_ok s events -> stack_ok s' events) ->
  on_stack f a = (r, a') -> loop_ok events a -> loop_ok events a'.
Proof.
  intros Hf Hr [Hs Hb]. unfold on_stack in Hr. destruct (f (an_stack a)) as [[x s]|e] eqn:E.
  - injection Hr as <- <-. split; [by eapply Hf|done].
  - injection Hr as <- <-. by split.
Qed.
Lemma pop_stack_ok events (s : medium_stack) x s' : Ok (pop_tun_packet s) = Ok (x, s') -> stack_ok s events -> stack_ok s' events.
Proof. unfold pop_tun_packet. destruct (device_pop_tun_packet _). by intros [= _ <-]. Qed.
Lemma write_outbound_ok events fuel : preserves (loop_ok events) (write_outbound tun_write fuel).
Proof.
  induction fuel as [|fuel IH]; [apply preserves_throw|]. cbn [write_outbound]. apply preserves_bind.
  { intros a r a' Ha Hr. eapply on_stack_ok; [|exact Hr|exact Ha]. intros s x s' Hp. by eapply pop_stack_ok. }
  intros [packet|]; [|apply preserves_ret]. apply preserves_bind; [apply preserves_lift|intros _].
  apply preserves_bind; [exact IH|intros rest; apply preserves_ret].
Qed.
Lemma tun_round_ok events now a evs out a' :
  loop_ok events a -> tun_round order show_error tun_write now a = (Ok (evs, out), a') -> loop_ok (events ++ evs) a'.
Proof using HBok.
  intros [Hs Hb] Hr. unfold tun_round in Hr.
  apply eff_bind_ok in Hr as (evs' & a1 & Hpoll & Hr). apply eff_bind_ok in Hr as ([] & a2 & Hhandle & Hr).
  apply eff_bind_ok in Hr as ([] & a3 & Hw1 & Hr). apply eff_bind_ok in Hr as ([] & a4 & Hrd & Hr).
  apply eff_bind_ok in Hr as ([] & a5 & Hw2 & Hr). apply eff_bind_ok in Hr as (fuel & a6 & Hfuel & Hr).
  apply eff_bind_ok in Hr as (out' & a7 & Hout & Hr). unfold mret, eff_ret in Hr. injection Hr as -> -> ->.
  unfold gets in Hfuel. injection Hfuel as _ ->.
  unfold on_stack in Hpoll. destruct (poll now (an_stack a)) as [[evs0 s1]|e] eqn:Hp; [|done]. injection Hpoll as -> <-.
  pose proof (poll_ok now _ _ _ _ Hs Hp) as Hs1.
  pose proof (stack_send_ok (events ++ evs)) as Hsend. pose proof (stack_close_ok (events ++ evs)) as Hclose.
  assert (an_ok (carries:=carries) (fun s => stack_ok s (events ++ evs)) routes events (Android s1 (an_backends a) (an_world a))) as Ha1 by (by split).
  eapply handle_events_ok in Hhandle; [|exact Hsend|exact Hclose|exact Ha1|exact (so_phase _ _ _ Hs1)].
  eapply pump_writes_ok in Hw1; [|exact Hclose|exact Hhandle]. eapply pump_reads_ok in Hrd; [|exact Hsend|exact Hclose|exact Hw1].
  eapply pump_writes_ok in Hw2; [|exact Hclose|exact Hrd]. eapply write_outbound_ok; [exact Hw2|exact Hout].
Qed.
Lemma run_tun_loop_ok inputs now events a evs out a' :
  loop_ok events a -> run_tun_loop order show_error tun_write inputs now a = (Ok (evs, out), a') -> loop_ok (events ++ evs) a'.
Proof using HBok.
  revert now events a evs out; induction inputs as [|input inputs IH]; intros now events a evs out Ha Hr.
  { unfold run_tun_loop, mret, eff_ret in Hr. injection Hr as <- _ <-. by rewrite app_nil_r. }
  cbn [run_tun_loop] in Hr.
  assert (forall a, loop_ok events a ->
    mbind (fun '(evs1, out1) => '(more, more_out) ← run_tun_loop order show_error tun_write inputs (now + 250);
           mret (evs1 ++ more, out1 ++ more_out)) (tun_round order show_error tun_write now) a = (Ok (evs, out), a') ->
    loop_ok (events ++ evs) a') as Hround.
  { clear a Ha Hr. intros a Ha Hr. apply eff_bind_ok in Hr as ([evs1 out1] & a1 & H1 & Hr).
    apply eff_bind_ok in Hr as ([more more_out] & a2 & H2 & Hr). unfold mret, eff_ret in Hr. injection Hr as <- _ <-.
    rewrite app_assoc. eapply IH; [|exact H2]. eapply tun_round_ok; [exact Ha|exact H1]. }
  destruct input as [[[|b packet]|e]|].
  - unfold mret, eff_ret in Hr. injection Hr as <- _ <-. by rewrite app_nil_r.
  - apply eff_bind_ok in Hr as ([] & a1 & Hpush & Hr). eapply Hround; [|exact Hr].
    eapply on_stack_ok; [|exact Hpush|exact Ha]. intros s x s' [= _ <-]. done.
  - destruct e as [m|[]|o]; try done. by eapply Hround.
  - by eapply Hround.
Qed.
Lemma start_ok (s : medium_stack) network (w : W) :
  stack_new network = Ok s -> loop_ok [] (Android s (backends_new routes) w).
Proof.
  intros Hs. split; [by eapply stack_new_ok|]. split; simpl; try done.
  - intros id. rewrite lookup_empty. by intros [].
  - intros id. rewrite lookup_empty. by intros [].
  - intros id. by rewrite !lookup_empty.
Qed.
End LoopFacts.

(** ** Erasing the logs

    A run with logs is the program's run: the logs observe it and change nothing. *)

Section Erase.
Context {S B W : Type} `{StreamStack S} `{HB : BackendIo B W}.
Context (order : list string -> list string) (show_error : error -> string).

Definition erase_pool (p : idle_pool (logged B)) : idle_pool B :=
  IdlePool (ip_max_per_service p) (map lg_backend <$> ip_backends p).
Definition erase_backends (b : stream_backends (logged B)) : stream_backends B :=
  StreamBackends (sb_routes b) (lg_backend <$> sb_streams b) (sb_stream_services b)
    (erase_pool (sb_idle_backends b)) (sb_pending_writes b) (sb_selected_ice_paths b).
Definition erase (a : android S (logged B) W) : android S B W :=
  Android (an_stack a) (erase_backends (an_backends a)) (an_world a).

(** The same outcome, up to [f], and the same state without the logs. *)
Definition erases {A A'} (f : A -> A') (m : eff (android S (logged B) W) A) (m' : eff (android S B W) A') : Prop :=
  forall a, m' (erase a) = (f <$> (m a).1, erase (m a).2).

Lemma erases_ret {A A'} (f : A -> A') x y : y = f x -> erases f (mret x) (mret y).
Proof. by intros -> a. Qed.
Lemma erases_throw {A A'} (f : A -> A') e : erases f (throw e) (throw e).
Proof. done. Qed.
Lemma erases_lift {A} (r : result A) : erases id (lift r) (lift r).
Proof. intros a. unfold lift. by destruct r. Qed.
Lemma erases_bind {A A' C C'} (f : A -> A') (g : C -> C') m m' k k' :
  erases f m m' -> (forall x, erases g (k x) (k' (f x))) -> erases g (mbind k m) (mbind k' m').
Proof.
  intros Hm Hk a. unfold mbind, eff_bind. rewrite (Hm a). destruct (m a) as [[x|e] a1]; simpl; [apply Hk|done].
Qed.
Lemma erases_attempt {A A'} (f : A -> A') m m' : erases f m m' -> erases (fmap f) (attempt m) (attempt m').
Proof. intros Hm a. unfold attempt. rewrite (Hm a). by destruct (m a). Qed.
Lemma erases_gets {A A'} (f : A -> A') g g' : (forall a, g' (erase a) = f (g a)) -> erases f (gets g) (gets g').
Proof. intros Hg a. unfold gets. by rewrite Hg. Qed.
Lemma erases_backends g g' : (forall b, g' (erase_backends b) = erase_backends (g b)) ->
  erases id (on_backends g) (on_backends g').
Proof. intros Hg a. unfold on_backends, modify, erase. simpl. by rewrite Hg. Qed.
Lemma erases_result {A A' C C'} (f : A -> A') (g : C -> C') (r : result A) k h k' h' :
  (forall x, erases g (k x) (k' (f x))) -> (forall e, erases g (h e) (h' e)) ->
  erases g (match r with Ok x => k x | Err e => h e end) (match f <$> r with Ok x => k' x | Err e => h' e end).
Proof. intros Hk Hh. destruct r; [apply Hk|apply Hh]. Qed.
Lemma keys_fmap {A A'} (f : A -> A') (m : gmap string A) : keys_of (f <$> m) = keys_of m.
Proof. unfold keys_of. by rewrite dom_fmap_L. Qed.

Lemma erase_send id bytes : erases Datatypes.id (send_tcp_of id bytes) (send_tcp_of id bytes).
Proof. intros a. unfold send_tcp_of. simpl. by destruct (stack_send id bytes (an_stack a)) as [[n s]|e]. Qed.
Lemma erase_close id : erases Datatypes.id (close_tcp_of id) (close_tcp_of id).
Proof. intros a. unfold close_tcp_of. simpl. by destruct (stack_close id (an_stack a)) as [s|e]. Qed.
Lemma erase_connect service_id route :
  erases lg_backend (connect_and_remember service_id route) (connect_and_remember service_id route).
Proof.
  unfold connect_and_remember. apply (erases_bind id); [by apply erases_gets|]. intros selected.
  apply (erases_bind (fun x => (lg_backend x.1, x.2))).
  { intros a. unfold on_world, zoom, id. cbn [b_connect logged_io erase an_world]. unfold mbind, eff_bind.
    by destruct (b_connect route selected (an_world a)) as [[[b c]|e] w]. }
  intros [x path]. simpl. apply (erases_bind lg_backend).
  { intros a. unfold on_world, zoom. cbn [b_configure logged_io erase an_world]. unfold mbind, eff_bind.
    by destruct (b_configure (lg_backend x) (an_world a)) as [[b|e] w]. }
  intros y. apply (erases_bind id); [|intros _; by apply erases_ret].
  destruct path; [by apply erases_backends|by apply erases_ret].
Qed.
Lemma erase_take service_id route :
  erases lg_backend (take_or_connect_backend service_id route) (take_or_connect_backend service_id route).
Proof.
  unfold take_or_connect_backend.
  apply (erases_bind (fun x => (lg_backend <$> x.1, erase_pool x.2))).
  { apply erases_gets. intros a. unfold pool_pop, erase_pool. simpl. rewrite lookup_fmap.
    destruct (ip_backends _ !! service_id) as [l|]; simpl; [|done]. destruct l as [|x [|y l]]; simpl; try done.
    - by rewrite fmap_delete.
    - by rewrite fmap_delete.
    - by rewrite fmap_insert. }
  intros [popped idle]. simpl. apply (erases_bind id); [by apply erases_backends|]. intros _.
  destruct popped; simpl; [by apply erases_ret|apply erase_connect].
Qed.
Lemma erase_push service_id x p : (pool_push service_id (lg_backend x) (erase_pool p)).1 = erase_pool (pool_push service_id x p).1.
Proof.
  unfold pool_push, erase_pool. simpl. rewrite lookup_fmap.
  assert (default [] (map lg_backend <$> ip_backends p !! service_id) = map lg_backend (default [] (ip_backends p !! service_id))) as ->
    by (by destruct (ip_backends p !! service_id)).
  rewrite length_map. destruct (Nat.leb _ _); simpl; rewrite fmap_insert; [done|]. by rewrite map_app.
Qed.
Lemma erase_ensure service_id : erases id (ensure_idle_backend service_id) (ensure_idle_backend service_id).
Proof.
  unfold ensure_idle_backend. apply (erases_bind id).
  { apply erases_gets. intros a. unfold pool_len. simpl. rewrite lookup_fmap.
    destruct (ip_backends _ !! service_id); simpl; [apply length_map|done]. }
  intros len. destruct (Nat.leb _ _); [by apply erases_ret|]. apply (erases_bind id); [by apply erases_gets|].
  intros [[target|grant pin]|]; simpl; try (by apply erases_ret).
  apply (erases_bind (fmap lg_backend)); [apply erases_attempt, erase_connect|]. intros [x|e]; simpl; [|by apply erases_ret].
  apply erases_backends. intros b. unfold set_idle, erase_backends. simpl. by rewrite erase_push.
Qed.
Lemma erase_ensures ids : erases id (ensure_idle_backends ids) (ensure_idle_backends ids).
Proof.
  induction ids as [|i ids IH]; [by apply erases_ret|]. apply (erases_bind id); [apply erase_ensure|intros _; exact IH].
Qed.
Lemma erase_warm_up : erases id (warm_up order) (warm_up order).
Proof. apply (erases_bind id); [by apply erases_gets|]. intros m. apply erase_ensures. Qed.
Lemma erase_remove sid : erases id (remove_stream sid) (remove_stream sid).
Proof.
  unfold remove_stream. apply (erases_bind id); [by apply erases_gets|]. intros service.
  apply (erases_bind id).
  { apply erases_backends. intros b. unfold set_streams, erase_backends. simpl. by rewrite fmap_delete. }
  intros _. apply (erases_bind id); [by apply erases_backends|]. intros _.
  apply (erases_bind id); [by apply erases_backends|]. intros _. unfold id.
  destruct service; [apply erase_ensure|by apply erases_ret].
Qed.
Lemma erase_drop sid : erases id (drop_stream sid) (drop_stream sid).
Proof.
  apply (erases_bind id); [apply erase_remove|]. intros _.
  apply (erases_bind (fmap id)); [apply erases_attempt, erase_close|]. intros _. by apply erases_ret.
Qed.
Lemma erase_drops ids : erases id (drop_each ids) (drop_each ids).
Proof.
  induction ids as [|i ids IH]; [by apply erases_ret|]. apply (erases_bind id); [apply erase_drop|intros _; exact IH].
Qed.

Lemma erase_flush_loop fuel x pending :
  flush_loop fuel (lg_backend x) pending
  = let '(r, x', pending') := flush_loop fuel x pending in (r, lg_backend x', pending').
Proof.
  revert x pending; induction fuel as [|fuel IH]; intros x pending; [done|]. cbn [flush_loop].
  destruct pending as [|p pending]; [done|]. cbn [b_write logged_io].
  destruct (b_write (take SCRATCH (p :: pending)) (lg_backend x)) as [[[|n]|e] b]; [done|exact (IH (Logged b _) _)|].
  destruct e as [m|[]|o]; try done. exact (IH (Logged b _) _).
Qed.
Lemma erase_flush sid : erases id (flush_pending_backend sid) (flush_pending_backend sid).
Proof.
  unfold flush_pending_backend. apply (erases_bind erase_backends); [by apply erases_gets|]. intros b. simpl.
  rewrite lookup_fmap. destruct (sb_streams b !! sid) as [x|]; simpl; [|by apply erases_backends].
  destruct (sb_pending_writes b !! sid) as [pending|]; [|by apply erases_ret].
  unfold flush_pending_to_writer. cbn [b_write_budget logged_io]. rewrite erase_flush_loop.
  destruct (flush_loop _ x pending) as [[r x'] pending'].
  apply (erases_bind id).
  { apply erases_backends. intros c. unfold set_pending, set_streams, erase_backends. simpl. by rewrite fmap_insert. }
  intros _. apply (erases_bind id); [apply erases_lift|]. intros _.
  destruct pending'; [by apply erases_backends|by apply erases_ret].
Qed.
Lemma erase_queue sid bytes : erases id (queue_backend_write sid bytes) (queue_backend_write sid bytes).
Proof.
  unfold queue_backend_write. apply (erases_bind erase_backends); [by apply erases_gets|]. intros b. simpl.
  rewrite lookup_fmap. destruct (sb_streams b !! sid); simpl; [|by apply erases_ret].
  apply (erases_bind id); [by apply erases_backends|]. intros _. apply erase_flush.
Qed.
Lemma erase_flushes ids : erases id (flush_each ids) (flush_each ids).
Proof.
  induction ids as [|i ids IH]; [by apply erases_ret|]. cbn [flush_each].
  apply (erases_bind (fmap id)); [apply erases_attempt, erase_flush|]. intros flushed.
  apply (erases_bind id); [exact IH|]. intros closed. apply erases_ret. by destruct flushed.
Qed.
Lemma erase_pump_writes : erases id (pump_writes order) (pump_writes order).
Proof.
  apply (erases_bind id); [by apply erases_gets|]. intros ids. apply (erases_bind id); [apply erase_flushes|].
  intros closed. apply erase_drops.
Qed.
Lemma erase_read_loop fuel sid x (s : S) :
  read_backend_loop fuel sid (lg_backend x) s
  = let '(r, x', s') := read_backend_loop fuel sid x s in (r, lg_backend x', s').
Proof.
  revert x s; induction fuel as [|fuel IH]; intros x s; [done|]. cbn [read_backend_loop]. cbn [b_read logged_io].
  destruct (b_read READ_BUFFER (lg_backend x)) as [[[|c bytes]|e] b]; [done| |].
  - destruct (stack_send sid (c :: bytes) s) as [[n s']|e]; [exact (IH (Logged b _) _)|done].
  - destruct e as [m|[]|o]; try done. exact (IH (Logged b _) _).
Qed.
Lemma erase_reads ids : erases id (read_each ids) (read_each ids).
Proof.
  induction ids as [|sid ids IH]; [by apply erases_ret|]. cbn [read_each].
  apply (erases_bind erase); [by apply erases_gets|]. intros a. unfold id at 1. simpl.
  rewrite lookup_fmap. destruct (sb_streams (an_backends a) !! sid) as [x|]; simpl; [|exact IH].
  unfold read_backend. cbn [b_read_budget logged_io]. rewrite erase_read_loop.
  destruct (read_backend_loop _ sid x (an_stack a)) as [[r x'] s'].
  apply (erases_bind id).
  { intros c. unfold modify, erase. simpl. unfold erase_backends, set_streams. simpl. by rewrite fmap_insert. }
  intros _. apply (erases_bind id); [apply erases_lift|]. intros is_closed.
  apply (erases_bind id); [exact IH|]. intros closed. by apply erases_ret.
Qed.
Lemma erase_pump_reads : erases id (pump_reads order) (pump_reads order).
Proof.
  apply (erases_bind id).
  { apply erases_gets. intros a. simpl. by rewrite keys_fmap. }
  intros ids. apply (erases_bind id); [apply erase_reads|]. intros closed. apply erase_drops.
Qed.
Lemma erase_open sid service_id : erases id (open_backend show_error sid service_id) (open_backend show_error sid service_id).
Proof.
  unfold open_backend. apply (erases_bind id); [by apply erases_gets|]. intros [route|]; [|apply erase_close].
  apply (erases_bind (fmap lg_backend)); [apply erases_attempt, erase_take|]. intros [x|e]; simpl.
  - apply (erases_bind id); [|intros _; by apply erases_backends].
    apply erases_backends. intros b. unfold set_streams, erase_backends. simpl. by rewrite fmap_insert.
  - apply (erases_bind (fmap id)); [apply erases_attempt, erase_send|]. intros _. apply erase_close.
Qed.
Lemma erase_event e : erases id (handle_event show_error e) (handle_event show_error e).
Proof.
  destruct e as [sid service_id|sid service_id bytes|sid service_id]; [apply erase_open| |apply erase_remove].
  apply (erases_bind (fmap id)); [apply erases_attempt, erase_queue|]. intros [|e]; [by apply erases_ret|apply erase_drop].
Qed.
Lemma erase_events events : erases id (handle_events show_error events) (handle_events show_error events).
Proof.
  induction events as [|e events IH]; [by apply erases_ret|]. apply (erases_bind id); [apply erase_event|intros _; exact IH].
Qed.
End Erase.

Section EraseLoop.
Context {B W : Type} `{Smoltcp} `{HB : BackendIo B W}.
Context (order : list string -> list string) (show_error : error -> string).
Context (tun_write : list byte -> result unit).

Lemma erase_on_stack {A} (f : medium_stack -> result (A * medium_stack)) :
  erases (S:=medium_stack) (B:=B) (W:=W) id (on_stack f) (on_stack f).
Proof. intros a. unfold on_stack. simpl. by destruct (f (an_stack a)) as [[x s]|e]. Qed.
Lemma erase_outbound fuel : erases (S:=medium_stack) (B:=B) (W:=W) id (write_outbound tun_write fuel) (write_outbound tun_write fuel).
Proof.
  induction fuel as [|fuel IH]; [apply erases_throw|]. cbn [write_outbound].
  apply (erases_bind id); [apply erase_on_stack|]. intros [packet|]; [|by apply erases_ret].
  apply (erases_bind id); [apply erases_lift|]. intros _. apply (erases_bind id); [exact IH|]. intros rest. by apply erases_ret.
Qed.
Lemma erase_round now :
  erases (S:=medium_stack) (B:=B) (W:=W) id (tun_round order show_error tun_write now) (tun_round order show_error tun_write now).
Proof.
  apply (erases_bind id); [apply erase_on_stack|]. intros events. apply (erases_bind id); [apply erase_events|]. intros _.
  apply (erases_bind id); [apply erase_pump_writes|]. intros _. apply (erases_bind id); [apply erase_pump_reads|]. intros _.
  apply (erases_bind id); [apply erase_pump_writes|]. intros _. apply (erases_bind id); [by apply erases_gets|]. intros fuel.
  apply (erases_bind id); [apply erase_outbound|]. intros outbound. by apply erases_ret.
Qed.
Lemma erase_loop inputs now :
  erases (S:=medium_stack) (B:=B) (W:=W) id (run_tun_loop order show_error tun_write inputs now) (run_tun_loop order show_error tun_write inputs now).
Proof.
  revert now; induction inputs as [|input inputs IH]; intros now; [by apply erases_ret|]. cbn [run_tun_loop].
  assert (erases (S:=medium_stack) (B:=B) (W:=W) id
    ('(evs1, out1) ← tun_round order show_error tun_write now;
     '(more, more_out) ← run_tun_loop order show_error tun_write inputs (now + 250); mret (evs1 ++ more, out1 ++ more_out))
    ('(evs1, out1) ← tun_round order show_error tun_write now;
     '(more, more_out) ← run_tun_loop order show_error tun_write inputs (now + 250); mret (evs1 ++ more, out1 ++ more_out))) as Hround.
  { apply (erases_bind id); [apply erase_round|]. intros [evs1 out1]. apply (erases_bind id); [apply IH|].
    intros [more more_out]. by apply erases_ret. }
  destruct input as [[[|c packet]|e]|]; [by apply erases_ret| | |exact Hround].
  - apply (erases_bind id); [apply erase_on_stack|]. intros _. exact Hround.
  - destruct e as [m|[]|o]; try apply erases_throw. exact Hround.
Qed.
End EraseLoop.

(** ** The loops over a backend end *)

Section LoopsEnd.
Context {S B W : Type} `{StreamStack S} `{HB : BackendIo B W} {carries : B -> list byte -> Prop} `{HBok : !BackendIoOk HB carries}.

Lemma flush_loop_in_fuel fuel (x : B) pending :
  (length pending + b_write_budget x < fuel)%nat -> (flush_loop fuel x pending).1.1 <> Err out_of_fuel.
Proof using HBok.
  revert x pending; induction fuel as [|fuel IH]; intros x pending Hf; [lia|]. cbn [flush_loop].
  destruct pending as [|p pending]; [done|]. set (all := p :: pending) in *. clearbody all.
  destruct (b_write (take SCRATCH all) x) as [r x'] eqn:Hw. pose proof (write_spends_budget _ _ _ _ Hw) as [Hle Hlt].
  destruct r as [[|n]|e]; [done| |].
  - apply IH. rewrite length_drop. apply write_bound in Hw. rewrite length_take in Hw. lia.
  - assert (e <> out_of_fuel) as He by (intros ->; by apply write_fuel in Hw).
    destruct e as [m|[]|o]; simpl; try done; [|congruence]. apply IH. specialize (Hlt eq_refl). lia.
Qed.
Lemma read_loop_in_fuel (Hsend : forall id bytes s, stack_send id bytes s <> Err out_of_fuel) fuel id (x : B) (s : S) :
  (b_read_budget x < fuel)%nat -> (read_backend_loop fuel id x s).1.1 <> Err out_of_fuel.
Proof using HBok.
  revert x s; induction fuel as [|fuel IH]; intros x s Hf; [lia|]. cbn [read_backend_loop].
  destruct (b_read READ_BUFFER x) as [r x'] eqn:Hr.
  assert (0 < READ_BUFFER)%nat as Hsize by (apply Nat.ltb_lt; reflexivity).
  pose proof (read_spends_budget _ _ _ _ Hsize Hr) as Hspend. destruct r as [[|b bytes]|e]; [done| |].
  - destruct Hspend as [|[Hlt|(? & ? & _)]]; [done| |done].
    destruct (stack_send id (b :: bytes) s) as [[n s']|e] eqn:Es; [apply IH; lia|]. intros [= ->]. by apply Hsend in Es.
  - assert (e <> out_of_fuel) as He by (intros ->; by apply read_fuel in Hr).
    destruct e as [m|[]|o]; try done. destruct Hspend as [|[Hlt|(? & [= <-] & ?)]]; [done|apply IH; lia|done].
Qed.
End LoopsEnd.

Section Runs.
Context `{Smoltcp} {B W : Type} `{HB : BackendIo B W} {carries : B -> list byte -> Prop} `{HBok : !BackendIoOk HB carries}.
Context (order : list string -> list string) (show_error : error -> string) (tun_write : list byte -> result unit).

(** A run of the program is the run with logs without its logs, and its invariant holds. *)
Lemma start_logged catalog inputs (w : W) events outbound (a : android medium_stack B W) :
  start_tun_loop order show_error tun_write catalog inputs w = Ok (Ok (events, outbound), a) ->
  exists a' : android medium_stack (logged B) W,
    start_tun_loop order show_error tun_write catalog inputs w = Ok (Ok (events, outbound), a') /\ erase a' = a /\
    loop_ok (carries:=carries) (ct_routes catalog) events a'.
Proof using HBok.
  unfold start_tun_loop, tun_thread. intros Hr. apply bind_ok in Hr as (network & Hn & Hr). apply bind_ok in Hr as (s & Hs & Hr).
  injection Hr as Hr. rewrite Hn. unfold mbind at 1, result_bind at 1. rewrite Hs. unfold mbind at 1, result_bind at 1.
  set (a0 := Android s (backends_new (ct_routes catalog)) w : android medium_stack (logged B) W).
  assert (erases (S:=medium_stack) (B:=B) (W:=W) id
    (_ ← warm_up order; run_tun_loop order show_error tun_write inputs 0)
    (_ ← warm_up order; run_tun_loop order show_error tun_write inputs 0)) as He.
  { apply (erases_bind id); [apply erase_warm_up|]. intros _. apply erase_loop. }
  specialize (He a0). assert (erase a0 = Android s (backends_new (ct_routes catalog)) w) as Ha0.
  { unfold a0, erase, erase_backends, backends_new, erase_pool, pool_new. simpl. by rewrite !fmap_empty. }
  rewrite Ha0, Hr in He.
  destruct ((_ ← warm_up order; run_tun_loop order show_error tun_write inputs 0) a0) as [r a'] eqn:Hl.
  simpl in He. injection He as Hres Hst. destruct r as [[ev out]|e]; [|done]. injection Hres as <- <-.
  exists a'. split_and!; [done|done|]. apply eff_bind_ok in Hl as ([] & a1 & Hw & Hl).
  change events with ([] ++ events). eapply run_tun_loop_ok; [|exact Hl].
  eapply warm_up_ok; [|exact Hw]. by eapply start_ok.
Qed.
End Runs.

(** ** Properties *)

(** C15. Over a whole run of the loop from the start, with the connections the program makes,
    whatever the packets, the connections and the writes give: adding the logs changes
    nothing, and on each open stream the bytes its backend has taken, followed by the ones
    still pending, are exactly the bytes the client sent on the stream, in order: none lost,
    none repeated, none of another stream; and the bytes it has taken were sent on its
    connection: they are the last sent over TCP, the last in the binary frames of a
    WebSocket, or, on a UDP stream, cut into chunks that were each sent to the peer encrypted
    in a data packet, numbered from zero in order. *)
Theorem client_bytes_reach_the_backend_in_order `{Smoltcp} `{Aead} `{Json udp_rendezvous_message} `{Json session_hello} `{Sha256}
    (to_socket_addrs : string -> result (list socket_addr)) (url_parse : string -> option url)
    (tcp_connect : string -> eff dialer tcp) (json_object : list (string * string) -> result (list byte))
    (protector : option (eff dialer unit)) (set_options : active_backend -> eff dialer unit)
    (order : list string -> list string) (show_error : error -> string) (tun_write : list byte -> result unit)
    (catalog : service_catalog) (inputs : list tun_input) (d : dialer)
    (events : list tcp_pump_event) (outbound : list (list byte)) (a : android medium_stack active_backend dialer) :
  let io := active_backend_io to_socket_addrs url_parse tcp_connect json_object protector set_options in
  start_tun_loop order show_error tun_write catalog inputs d = Ok (Ok (events, outbound), a) ->
  exists a' : android medium_stack (logged active_backend) dialer,
    start_tun_loop order show_error tun_write catalog inputs d = Ok (Ok (events, outbound), a') /\ erase a' = a /\
    forall id x, sb_streams (an_backends a') !! id = Some x ->
      (exists service_id, Connected id service_id ∈ events) /\
      lg_written x ++ default [] (sb_pending_writes (an_backends a') !! id) = received id events /\
      carries (lg_backend x) (lg_written x).
Proof.
  intros io Hrun.
  destruct (start_logged order show_error tun_write catalog inputs d events outbound a Hrun) as (a' & Hlogged & Herase & Hok).
  exists a'. split; [done|]. split; [done|]. intros id x Hx. split_and!.
  - apply (bk_opened _ _ _ (proj2 Hok)). by eauto.
  - by apply (bk_written _ _ _ (proj2 Hok)).
  - by apply (bk_carried _ _ _ (proj2 Hok) id).
Qed.

(** Over the same runs the tables of the backends agree: a stream is open when it has a
    service, and only open streams have bytes pending; no service has more than one idle
    backend, and only services reached through a session grant have one; and a stream an
    HTTPS slot of the stack holds is one the stack has announced and not announced closed. *)
Theorem backends_stay_consistent `{Smoltcp} `{Aead} `{Json udp_rendezvous_message} `{Json session_hello} `{Sha256}
    (to_socket_addrs : string -> result (list socket_addr)) (url_parse : string -> option url)
    (tcp_connect : string -> eff dialer tcp) (json_object : list (string * string) -> result (list byte))
    (protector : option (eff dialer unit)) (set_options : active_backend -> eff dialer unit)
    (order : list string -> list string) (show_error : error -> string) (tun_write : list byte -> result unit)
    (catalog : service_catalog) (inputs : list tun_input) (d : dialer)
    (events : list tcp_pump_event) (outbound : list (list byte)) (a : android medium_stack active_backend dialer) :
  let io := active_backend_io to_socket_addrs url_parse tcp_connect json_object protector set_options in
  start_tun_loop order show_error tun_write catalog inputs d = Ok (Ok (events, outbound), a) ->
  let b := an_backends a in
  (forall id, is_Some (sb_streams b !! id) <-> is_Some (sb_stream_services b !! id)) /\
  (forall id, is_Some (sb_pending_writes b !! id) -> is_Some (sb_streams b !! id)) /\
  (forall service_id, (pool_len service_id (sb_idle_backends b) <= 1)%nat) /\
  (forall service_id, pool_len service_id (sb_idle_backends b) <> O ->
     exists grant pin, ct_routes catalog !! service_id = Some (SessionGrant grant pin)) /\
  forall slot id, slot ∈ ms_tcp_slots (an_stack a) -> ts_stream_id slot = Some id -> ts_port slot = HTTPS_PORT ->
    phase id events = Some Open.
Proof.
  intros io Hrun.
  destruct (start_logged order show_error tun_write catalog inputs d events outbound a Hrun) as (a' & _ & <- & Hs & Hb).
  destruct Hb as [Ho Hp Hw _ Hsv Hm Hi Hr]. cbv zeta. simpl. split_and!.
  - intros id. by rewrite <- Hsv, lookup_fmap, fmap_is_Some.
  - intros id Hid. apply Hp in Hid. rewrite lookup_fmap. by destruct Hid as [x ->].
  - intros svc. unfold pool_len. simpl. rewrite lookup_fmap.
    destruct (ip_backends _ !! svc) as [l|] eqn:Hl; simpl; [|lia]. destruct (Hi _ _ Hl) as (x & g & p & -> & _). simpl. lia.
  - intros svc. unfold pool_len. simpl. rewrite lookup_fmap.
    destruct (ip_backends _ !! svc) as [l|] eqn:Hl; simpl; [|lia]. intros _. destruct (Hi _ _ Hl) as (x & g & p & _ & _ & Hg).
    exists g, p. by rewrite Hr in Hg.
  - intros slot id Hin Hid Hport. destruct (so_held _ _ _ Hs id (ts_port slot)) as [_ Hph].
    { rewrite <- Hid. apply list_elem_of_fmap. by exists slot. }
    by rewrite Hph, Hport.
Qed.

(** The handles a caller may stop: those that were given and not stopped since; the allocator
    gives addresses that are free. *)
Definition starts (services : result (list android_service)) : bool :=
  is_ok (services ≫= (fun services => runner_start (parse_services services))).
Fixpoint well_behaved (live : gset Z) (calls : list jni_call) : Prop :=
  match calls with
  | [] => True
  | StartTun services address :: rest =>
      address <> 0 /\ (address ∉ live) /\ well_behaved (if starts services then {[address]} ∪ live else live) rest
  | StopTun handle :: rest => (handle = 0 \/ handle ∈ live) /\ well_behaved (live ∖ {[handle]}) rest
  end.
Definition started (calls : list jni_call) : nat :=
  length (List.filter (fun c => match c with StartTun services _ => starts services | StopTun _ => false end) calls).

(** A caller that stops only handles it was given, each once, never reaches undefined
    behaviour: every runner that was started is then either on the heap, running, or joined
    after it was told to stop, none twice.  A handle that was stopped must not be stopped
    again. *)
Theorem runners_are_joined_once (calls : list jni_call) (j : jni) :
  well_behaved (dom (jn_heap j)) calls -> map_Forall (fun _ r => rn_running r = true) (jn_heap j) -> 0 ∉ dom (jn_heap j) ->
  exists j', run_jni j calls = Some j' /\
    (size (jn_heap j') + length (jn_joined j') = size (jn_heap j) + length (jn_joined j) + started calls)%nat /\
    map_Forall (fun _ r => rn_running r = true) (jn_heap j') /\
    exists joined, jn_joined j' = jn_joined j ++ joined /\ Forall (fun r => rn_running r = false) joined /\
    forall handle, handle <> 0 -> handle ∉ dom (jn_heap j') -> native_stop_tun handle j' = None.
Proof.
  revert j; induction calls as [|[services address|handle] calls IH]; intros j Hw Hrun Hz.
  - exists j. split; [done|]. split; [cbn; lia|]. split; [done|]. exists []. split; [by rewrite app_nil_r|]. split; [done|].
    intros handle Hne Hnin. unfold native_stop_tun. apply Z.eqb_neq in Hne as ->. by rewrite (not_elem_of_dom_1 _ _ Hnin).
  - destruct Hw as (Hne & Hfree & Hw). cbn [run_jni jni_step]. cbn [mbind option_bind]. unfold native_start_tun.
    unfold started, starts in *. cbn [List.filter]. destruct (services ≫= _) as [r|e] eqn:E; cbn [snd is_ok] in *.
    + assert (rn_running r = true) as Hr.
      { unfold runner_start in E. inv_result. done. }
      destruct (IH (Jni (<[address := r]> (jn_heap j)) (jn_joined j))) as (j' & Hj & Hs & H').
      * cbn [jn_heap]. by rewrite dom_insert_L.
      * by apply map_Forall_insert_2.
      * cbn [jn_heap]. rewrite dom_insert_L. set_solver.
      * exists j'. split; [done|]. split; [|done]. rewrite Hs. cbn [jn_heap jn_joined length].
        rewrite map_size_insert_None by (by apply not_elem_of_dom). lia.
    + by apply IH.
  - destruct Hw as [Hin Hw]. cbn [run_jni jni_step]. unfold native_stop_tun at 1.
    destruct (decide (handle = 0)) as [->|Hne].
    + cbn [Z.eqb]. cbn [mbind option_bind]. apply IH; [|done..].
      replace (dom (jn_heap j)) with (dom (jn_heap j) ∖ {[0]}) by set_solver. done.
    + destruct Hin as [|Hin]; [done|]. rewrite (proj2 (Z.eqb_neq _ _) Hne). apply elem_of_dom in Hin as [r Hr].
      rewrite Hr. cbn [mbind option_bind].
      destruct (IH (Jni (delete handle (jn_heap j)) (jn_joined j ++ [runner_stop r]))) as (j' & Hj & Hs & Hrun' & joined & Hjo & Hst & Hu).
      * cbn [jn_heap]. by rewrite dom_delete_L.
      * by apply map_Forall_delete.
      * cbn [jn_heap]. rewrite dom_delete_L. set_solver.
      * exists j'. split; [done|]. cbn [jn_heap jn_joined] in *. split.
        { rewrite Hs, length_app, map_size_delete_Some by done. cbn [length].
          pose proof (map_size_ne_0_lookup_2 (jn_heap j) handle (ex_intro _ r Hr)).
          unfold started. cbn [List.filter]. lia. }
        split; [done|]. exists (runner_stop r :: joined). rewrite Hjo, <- app_assoc. split; [done|].
        split; [by constructor|done].
Qed.

(** ** Witnesses *)

(** A backend whose first write takes one byte and whose second would block, and which sends
    two bytes. *)
Definition toy_backend_dialer : dialer :=
  Dialer [Ok (Tcp (SockV4 (Ipv4 0 0 0 0) 0) [] [] None [inr [x6f; x6b]] [inr 1%nat; inl WouldBlock])] [] [] [] 0.
Definition toy_backend_io : BackendIo active_backend dialer :=
  @active_backend_io toy_aead toy_rv_json toy_hello_json toy_sha256 toy_resolve (fun _ => None)
    (fun _ => throw (EIo TimedOut)) toy_json_object (Some (mret tt)) (fun _ => mret tt).
Definition toy_catalog : service_catalog :=
  parse_services [AndroidService "hello" None "https" "127.0.0.1:8082" (Some toy_session_grant) None].
Definition toy_inputs : list tun_input := [None; Some (Ok [x01; x47; x45; x54]); None; Some (Ok [x01; x21])].
Definition toy_loop : list tcp_pump_event * list (list byte) * android medium_stack active_backend dialer :=
  match @start_tun_loop _ _ toy_smoltcp toy_backend_io id (fun _ => EmptyString) (fun _ => Ok tt) toy_catalog toy_inputs toy_backend_dialer with
  | Ok (Ok r, a) => (r, a)
  | _ => ([], [], Android toy_stack (backends_new ∅) toy_backend_dialer)
  end.
Lemma client_bytes_reach_the_backend_in_order_witness :
  received "tcp-1" toy_loop.1.1 = [x47; x45; x54; x21] /\
  exists a' : android medium_stack (logged active_backend) dialer, erase a' = toy_loop.2 /\
    forall id x, sb_streams (an_backends a') !! id = Some x ->
      lg_written x ++ default [] (sb_pending_writes (an_backends a') !! id) = received id toy_loop.1.1 /\
      @carries toy_aead (lg_backend x) (lg_written x).
Proof.
  split; [vm_compute; reflexivity|].
  destruct (@client_bytes_reach_the_backend_in_order toy_smoltcp toy_aead toy_rv_json toy_hello_json toy_sha256 toy_resolve
    (fun _ => None) (fun _ => throw (EIo TimedOut)) toy_json_object (Some (mret tt)) (fun _ => mret tt)
    id (fun _ => EmptyString) (fun _ => Ok tt) toy_catalog toy_inputs toy_backend_dialer toy_loop.1.1 toy_loop.1.2 toy_loop.2)
    as (a' & _ & Ha & Hx); [vm_compute; reflexivity|].
  exists a'. split; [exact Ha|]. intros i x Hi. exact (proj2 (Hx i x Hi)).
Defined.
Lemma backends_stay_consistent_witness :
  (exists x, sb_streams (an_backends toy_loop.2) !! "tcp-1" = Some x) /\
  is_Some (sb_stream_services (an_backends toy_loop.2) !! "tcp-1").
Proof.
  destruct (@backends_stay_consistent toy_smoltcp toy_aead toy_rv_json toy_hello_json toy_sha256 toy_resolve
    (fun _ => None) (fun _ => throw (EIo TimedOut)) toy_json_object (Some (mret tt)) (fun _ => mret tt)
    id (fun _ => EmptyString) (fun _ => Ok tt) toy_catalog toy_inputs toy_backend_dialer toy_loop.1.1 toy_loop.1.2 toy_loop.2)
    as (Hs & _); [vm_compute; reflexivity|].
  assert (is_Some (sb_streams (an_backends toy_loop.2) !! "tcp-1")) as Hx by (vm_compute; by eexists).
  split; [exact Hx|]. exact (proj1 (Hs "tcp-1") Hx).
Defined.
