(* ===== verification/HomeNode.v ===== *)
(** * The home node

    [services/home-node/src/config.rs], [control.rs], [agent.rs] and the session side of
    [proxy.rs]: what a node registers with the control plane, which relays it connects
    to, the certificates it gets for its services, which sessions it lets through to
    which service, and the bridge between a WebSocket and a service.  [HttpProxy.v] has
    the HTTP side, [NodeLinks.v] and [UdpBridge.v] the sockets and threads, [Doctor.v] the
    reading of the configuration files.

    The interfaces' addresses, the environment, URLs, certificates and the network are
    parameters. *)

From S2P Require Import Prelude RustStd NetAddr Protocol PinnedHttp Crypto Samples Net MediumSession Netstack.

(** ** Configuration *)

Record service_config := ServiceConfig {
  sc_id : string;
  sc_kind : string;
  sc_label : option string;
  sc_target : string;
  sc_user_name : option string;
  sc_enabled : bool
}.
Record node_config := NodeConfig {
  nc_node_id : string;
  nc_node_label : option string;
  nc_bind_addr : string;
  nc_ice_bind_addr : string;
  nc_public_addr : option string;
  nc_ice_public_addr : option string;
  nc_ice_host_addrs : list string;
  nc_control_url : option string;
  nc_control_pin : option string;
  nc_shared_secret : option string;
  nc_relay_addr : option string;
  nc_wss_relay_url : option string;
  nc_ice_relay_addr : option string;
  nc_service_ca_cert_pem : option string;
  nc_service_ca_key_pem : option string;
  nc_services : list service_config
}.
Definition default_bind_addr : string := "127.0.0.1:17001".
Definition default_ice_bind_addr : string := "0.0.0.0:17002".
Definition default_service_enabled : bool := true.

(** ** Registration *)

Definition normalize_target_addr (target : string) : string := target.

Definition ice_bind_port (addr : string) : option Z :=
  match parse_sock addr with
  | Some a => Some (sock_port a)
  | None => '(_, port) ← rsplit_once ":" addr; parse_u16 port
  end.
Definition addr_host (addr : string) : option string :=
  match parse_sock addr with
  | Some a => Some (show_ip (sock_ip a))
  | None =>
      '(host, _) ← rsplit_once ":" addr;
      Some (trim_matches (fun c => bool_decide (c = "["%char) || bool_decide (c = "]"%char)) host)
  end.
Definition format_host_port (host : string) (port : Z) : string :=
  match parse_ip host with
  | Some (IpV6 _) => "[" +:+ host +:+ "]:" +:+ dec port
  | _ => host +:+ ":" +:+ dec port
  end.
Definition effective_ice_public_addr (cfg : node_config) : string :=
  match nc_ice_public_addr cfg with
  | Some addr => addr
  | None =>
      match nc_public_addr cfg, ice_bind_port (nc_ice_bind_addr cfg) with
      | Some public_addr, Some port =>
          match addr_host public_addr with
          | Some host => format_host_port host port
          | None => nc_ice_bind_addr cfg
          end
      | _, _ => nc_ice_bind_addr cfg
      end
  end.

Definition is_usable_host_ip (ip : ip_addr) : bool :=
  match ip with
  | IpV4 ip => negb (v4_is_unspecified ip) && negb (v4_is_loopback ip) && negb (v4_is_link_local ip)
               && negb ((oct0 ip =? 198) && ((oct1 ip =? 18) || (oct1 ip =? 19)))
  | IpV6 ip => negb (v6_is_unspecified ip) && negb (v6_is_loopback ip)
               && negb (v6_is_unicast_link_local ip) && negb (v6_is_multicast ip)
  end.
(** The list [getifaddrs] makes, an entry for each address of an interface, with the bytes of
    the address as they are in memory; it fails with another result than 0. *)
Inductive interface_sockaddr :=
  | AfInet (a b c d : byte)
  | AfInet6 (s6_addr : list byte)
  | AfOther.
Record ifaddrs := IfAddrs { ifa_addr : option interface_sockaddr }.
Fixpoint v6_segments (bytes : list byte) : ipv6 :=
  match bytes with high :: low :: rest => from_be [high; low] :: v6_segments rest | _ => [] end.
Fixpoint interface_ips (cursor : list ifaddrs) : list ip_addr :=
  match cursor with
  | [] => []
  | ifaddr :: ifa_next =>
      match ifa_addr ifaddr with
      | Some (AfInet a b c d) => [IpV4 (Ipv4 (from_be [a]) (from_be [b]) (from_be [c]) (from_be [d]))]
      | Some (AfInet6 s6_addr) => [IpV6 (v6_segments s6_addr)]
      | Some AfOther | None => []
      end ++ interface_ips ifa_next
  end.
Definition discover_local_ips (getifaddrs : result (list ifaddrs)) : list ip_addr :=
  match getifaddrs with Ok interfaces => interface_ips interfaces | Err _ => [] end.
Definition discover_local_ice_addrs (getifaddrs : result (list ifaddrs)) (port : Z) : list string :=
  map (fun ip => format_host_port (show_ip ip) port) (List.filter is_usable_host_ip (discover_local_ips getifaddrs)).

Definition push_ice_endpoint (addr : string) (priority : Z) (st : list node_endpoint * gset string)
    : list node_endpoint * gset string :=
  let '(endpoints, seen) := st in
  if bool_decide (addr ∈ seen) then st
  else (endpoints ++ [NodeEndpoint IceUdp 1 addr priority], {[addr]} ∪ seen).
Definition build_ice_udp_endpoints (getifaddrs : result (list ifaddrs)) (cfg : node_config) : list node_endpoint :=
  let port := default 17002 (ice_bind_port (nc_ice_bind_addr cfg)) in
  let st := fold_left (fun st addr => push_ice_endpoint addr 300 st) (nc_ice_host_addrs cfg) ([], ∅) in
  let st := fold_left (fun st addr => push_ice_endpoint addr 250 st) (discover_local_ice_addrs getifaddrs port) st in
  (push_ice_endpoint (effective_ice_public_addr cfg) 100 st).1.

Definition registered_kind (kind : string) : service_kind :=
  if kind =?s "http" then KHttp else if kind =?s "https" then KHttps else if kind =?s "ssh" then KSsh else KHttps.
Definition publish (svc : service_config) : published_service :=
  {| ps_id := sc_id svc; ps_kind := registered_kind (sc_kind svc); ps_schema_version := 1;
     ps_label := sc_label svc; ps_target := normalize_target_addr (sc_target svc);
     ps_user_name := sc_user_name svc |}.
Definition build_registration (getifaddrs : result (list ifaddrs)) (cfg : node_config) : register_node_request :=
  {| rn_node_id := nc_node_id cfg;
     rn_node_label := default (nc_node_id cfg) (nc_node_label cfg);
     rn_endpoints := NodeEndpoint TcpProxy 1 (default (nc_bind_addr cfg) (nc_public_addr cfg)) 10
                     :: build_ice_udp_endpoints getifaddrs cfg;
     rn_services := map publish (List.filter sc_enabled (nc_services cfg)) |}.

Definition startup_summary (registration : register_node_request) : string :=
  "agent ready for " +:+ rn_node_id registration +:+ " ("
  +:+ dec (Z.of_nat (length (rn_services registration))) +:+ " services): "
  +:+ join ", " (map (fun s => ps_id s +:+ ":" +:+ service_kind_str (ps_kind s) +:+ "@" +:+ ps_target s)
                   (rn_services registration)).

(** [register_node_with_retry], over a registration that reports success and a sleep. *)
Section Retry.
Context {W : Type} (register_node : eff W unit) (sleep : Z -> eff W unit).
Fixpoint register_loop (attempts : nat) (last_error : option error) : eff W unit :=
  match attempts with
  | O => throw (default (EMsg "registration failed") last_error)
  | S n =>
      registered ← attempt register_node;
      match registered with
      | Ok _ => mret tt
      | Err error => _ ← sleep (millis 250); register_loop n (Some error)
      end
  end.
Definition register_node_with_retry : eff W unit := register_loop 30 None.
End Retry.

(** ** Relays and addresses *)

Section Addresses.
Context (env : string -> option string).
Definition env_filled (name : string) : option string :=
  value ← env name; if is_empty (trim value) then None else Some value.
Definition first_of {A} (a b : option A) : option A := match a with Some _ => a | None => b end.

(** The URL library: parsing, and the text of a URL after its scheme and path are set
    and its query and fragment cleared. *)
Context (url_parse : string -> option url) (url_with : url -> string -> string -> string).
Definition derive_embedded_wss_relay_url (control_url : string) : option string :=
  u ← url_parse control_url;
  if negb (url_scheme u =?s "https") then None else Some (url_with u "wss" "/medium/v1/relay").
Definition effective_wss_relay_url (cfg : node_config) : option string :=
  first_of (first_of (nc_wss_relay_url cfg) (env_filled "MEDIUM_WSS_RELAY_URL"))
    (control_url ← nc_control_url cfg; derive_embedded_wss_relay_url control_url).
Definition effective_udp_rendezvous_addr (cfg : node_config) : option string :=
  first_of (first_of (nc_ice_relay_addr cfg) (env_filled "MEDIUM_ICE_RENDEZVOUS_ADDR")) (nc_relay_addr cfg).
Definition loopback_tcp_proxy_addr (bind_addr : string) : string :=
  match rsplit_once ":" bind_addr with
  | Some (_, port) =>
      if starts_with "0.0.0.0:" bind_addr || starts_with "[::]:" bind_addr
      then "127.0.0.1:" +:+ port else bind_addr
  | None => bind_addr
  end.

(** [spawn_configured_connectors]: the tasks it spawns. *)
Inductive connector := TcpConnector (relay_addr : string) | WssConnector (relay_url : string).
Definition configured_connectors (cfg : node_config) : list connector :=
  match first_of (nc_relay_addr cfg) (env_filled "MEDIUM_RELAY_ADDR") with
  | Some relay_addr => replicate 4 (TcpConnector relay_addr)
  | None => []
  end ++
  match effective_wss_relay_url cfg with
  | Some url => replicate 4 (WssConnector url)
  | None => []
  end.
End Addresses.

(** ** The services a node proxies *)

(** [normalize_hostname_label]: the loop is the one of the network stack; the dashes at the
    end are popped one by one. *)
Fixpoint pop_dashes (fuel : nat) (output : string) : string :=
  match fuel with
  | O => output
  | S n => if ends_with "-" output then pop_dashes n (String.substring 0 (String.length output - 1) output)
           else output
  end.
Definition normalize_hostname_label (value : string) : string :=
  let output := hostname_loop (chars value ≫= char_to_lowercase) EmptyString false in
  let output := pop_dashes (String.length output) output in
  if is_empty output then "service" else output.
Definition config_hostname (service : service_config) : string :=
  normalize_hostname_label (default (sc_id service) (sc_label service)) +:+ ".medium".

Inductive service_tls_mode := TlsNone | TlsHttp | TlsRaw.
#[global] Instance service_tls_mode_eq_dec : EqDecision service_tls_mode.
Proof. solve_decision. Defined.
Record proxy_service := ProxyService {
  px_id : string;
  px_kind : string;
  px_target : string;
  px_tls_config : option service_tls_identity;
  px_tls_mode : service_tls_mode
}.

Section Services.
Context `{Json service_certificate_request} `{Json service_certificate_response}.
Context (env : string -> option string).
(** rcgen, rustls and the pinned HTTP client's network. *)
Context (signed_by : string -> string -> string -> list string -> result generated_cert).
Context (url_parse : string -> option url) (server_name_ok : string -> bool).
Context (exchange : string -> string -> pinned_cert_verifier -> list byte -> result (list byte)).
Context (server_config_ok : service_tls_identity -> result unit).

Definition request_service_tls_identity (cfg : node_config) (shared_secret service_id hostname : string)
    : result service_tls_identity :=
  control_url ← ok_or (EMsg ("http service " +:+ service_id +:+ " requires service CA config or control_url"))
                  (first_of (nc_control_url cfg) (env "OVERLAY_CONTROL_URL"));
  control_pin ← ok_or (EMsg ("http service " +:+ service_id +:+ " requires service CA config or control_pin"))
                  (first_of (nc_control_pin cfg) (env "MEDIUM_CONTROL_PIN"));
  response ← post_json url_parse server_name_ok exchange
               (trim_end_matches "/" control_url +:+ "/api/nodes/service-certificate") control_pin
               (ServiceCertificateRequest (nc_node_id cfg) [hostname] shared_secret);
  Ok (ServiceTlsIdentity (scr_cert_pem response) (scr_key_pem response)).

(** The [with_context] text of the request's failure is left out. *)
Definition http_service_tls_config (cfg : node_config) (shared_secret service_id hostname : string)
    : result service_tls_identity :=
  identity ← match nc_service_ca_cert_pem cfg, nc_service_ca_key_pem cfg with
             | Some ca_cert, Some ca_key => issue_service_tls_identity signed_by ca_cert ca_key [hostname]
             | _, _ => request_service_tls_identity cfg shared_secret service_id hostname
             end;
  _ ← server_config_ok identity;
  Ok identity.

Definition tls_mode_of (kind : string) : service_tls_mode :=
  if kind =?s "http" then TlsHttp else if kind =?s "ssh" then TlsRaw else TlsNone.
Fixpoint insert_services (cfg : node_config) (shared_secret : string) (configs : list service_config)
    (services : gmap string proxy_service) : result (gmap string proxy_service) :=
  match configs with
  | [] => Ok services
  | service :: rest =>
      if negb (sc_enabled service) then insert_services cfg shared_secret rest services
      else
        let kind := to_ascii_lowercase (sc_kind service) in
        let hostname := config_hostname service in
        let tls_mode := tls_mode_of kind in
        tls_config ← (if bool_decide (tls_mode = TlsNone) then Ok None
                      else Some <$> http_service_tls_config cfg shared_secret (sc_id service) hostname);
        insert_services cfg shared_secret rest
          (<[sc_id service := ProxyService (sc_id service) kind (sc_target service) tls_config tls_mode]> services)
  end.
Definition proxy_services_from_config (cfg : node_config) (shared_secret : string)
    : result (gmap string proxy_service) :=
  insert_services cfg shared_secret (nc_services cfg) ∅.
End Services.

(** ** Sessions *)

Definition RELAY_NODE_IDLE_LEASE : Z := secs 60.

(** [{:?}] of a [Duration]. *)
Fixpoint pad_zeros (width : nat) (s : string) : string :=
  match width with
  | O => s
  | S n => if Nat.ltb (String.length s) width then "0" +:+ pad_zeros n s else s
  end.
Definition show_fraction (integer frac : Z) (width : nat) (suffix : string) : string :=
  let digits := trim_end_matches "0" (pad_zeros width (dec frac)) in
  dec integer +:+ (if is_empty digits then EmptyString else "." +:+ digits) +:+ suffix.
Definition show_duration (d : Z) : string :=
  if secs 1 <=? d then show_fraction (d / secs 1) (d mod secs 1) 9 "s"
  else if millis 1 <=? d then show_fraction (d / millis 1) (d mod millis 1) 6 "ms"
  else if 1000 <=? d then show_fraction (d / 1000) (d mod 1000) 3 "µs"
  else dec d +:+ "ns".

(** [tokio::time::timeout] around what settles [after]; [None] is never. *)
Definition in_time (timeout : Z) (after : option Z) : bool :=
  match after with Some t => t <=? timeout | None => false end.

Section Sessions.
Context `{TokenEnv} `{Json session_hello}.

(** The checks of [handle_connection_with_hello] and of [handle_wss_connection]: the
    service to connect to. *)
Definition authorize_session (now : Z) (services : gmap string proxy_service)
    (expected_node_id shared_secret : string) (hello : session_hello) : result proxy_service :=
  claims ← verify_session_token now shared_secret (sh_token hello);
  _ ← bail_if (negb (tc_service_id claims =?s sh_service_id hello)) (EMsg "session service mismatch");
  _ ← bail_if (negb (tc_node_id claims =?s expected_node_id)) (EMsg "session node mismatch");
  ok_or (EMsg ("unknown service " +:+ sh_service_id hello)) (services !! sh_service_id hello).

(** [handle_connection] on the bytes of a TCP connection: the service, and the bytes that
    are left for it. *)
Definition handle_connection (now : Z) (services : gmap string proxy_service)
    (expected_node_id shared_secret : string) (input : list byte) : result (proxy_service * list byte) :=
  '(hello, rest) ← read_json_line input;
  service ← authorize_session now services expected_node_id shared_secret hello;
  Ok (service, rest).

(** [read_wss_session_hello]: the hello, the bytes after it in its last frame, and the
    frames that follow. *)
Fixpoint split_newline (payload : list byte) : option (list byte * list byte) :=
  match payload with
  | [] => None
  | b :: rest =>
      if bool_decide (b = newline) then Some ([], rest)
      else match split_newline rest with
           | Some (line, remaining) => Some (b :: line, remaining)
           | None => None
           end
  end.
Fixpoint read_wss_session_hello (payload : list byte) (frames : list (result frame))
    : result (session_hello * list byte * list (result frame)) :=
  match frames with
  | [] => Err (EMsg "missing session hello")
  | message :: rest =>
      message ← message;
      match message with
      | FBinary bytes =>
          let payload := payload ++ bytes in
          match split_newline payload with
          | Some (line, remaining) =>
              _ ← bail_if (Nat.eqb (length line) 0) (EMsg "missing session hello");
              hello ← from_slice line;
              Ok (hello, remaining, rest)
          | None =>
              _ ← bail_if (Nat.ltb hello_limit (length payload)) (EMsg "session hello too large");
              read_wss_session_hello payload rest
          end
      | FClose => Err (EMsg "websocket closed before session hello")
      | _ => read_wss_session_hello payload rest
      end
  end.

(** [ws_to_tcp]: the bytes written towards the service until the stream ends, and how it
    ended.  [handle_wss_connection] up to the bridge: the reading of the session hello settles
    [hello_after] the hello to the relay. *)
Fixpoint ws_to_tcp (frames : list (result frame)) : list byte * result unit :=
  match frames with
  | [] => ([], Ok tt)
  | Err e :: _ => ([], Err e)
  | Ok (FBinary payload) :: rest => let '(out, ended) := ws_to_tcp rest in (payload ++ out, ended)
  | Ok FClose :: _ => ([], Ok tt)
  | Ok _ :: rest => ws_to_tcp rest
  end.
Definition handle_wss_connection (now : Z) (services : gmap string proxy_service)
    (expected_node_id shared_secret : string) (hello_after : option Z) (frames : list (result frame))
    : result (proxy_service * list byte * result unit) :=
  '(hello, initial_payload, rest) ←
    (if in_time RELAY_NODE_IDLE_LEASE hello_after then read_wss_session_hello [] frames
     else Err (EMsg ("wss relay node socket idle lease expired after " +:+ show_duration RELAY_NODE_IDLE_LEASE)));
  service ← authorize_session now services expected_node_id shared_secret hello;
  let '(out, ended) := ws_to_tcp rest in
  Ok (service, initial_payload ++ out, ended).
End Sessions.

(** ** The bridge of a WebSocket session

    [select!] polls the proxy, [ws_to_tcp] and [tcp_to_ws] in some order, again and again,
    and returns as soon as a poll completes one of them.  What the proxy writes waits in
    the duplex pipe until [tcp_to_ws] is polled, which sends it in frames of at most 8192
    bytes. *)
Inductive bridge_poll :=
  | PollProxy (written : list byte) (ready : bool)
  | PollWsToTcp (ready : bool)
  | PollTcpToWs.
Record bridge := Bridge { br_pipe : list byte; br_sent : list frame; br_returned : bool }.

Fixpoint chunks_of (fuel n : nat) (bytes : list byte) : list (list byte) :=
  match fuel, bytes with
  | S f, _ :: _ => take n bytes :: chunks_of f n (drop n bytes)
  | _, _ => []
  end.
Definition tcp_to_ws (pipe : list byte) : list frame := map FBinary (chunks_of (length pipe) (8 * 1024) pipe).

Definition poll_bridge (b : bridge) (p : bridge_poll) : bridge :=
  if br_returned b then b
  else match p with
       | PollProxy written ready => Bridge (br_pipe b ++ written) (br_sent b) ready
       | PollWsToTcp ready => Bridge (br_pipe b) (br_sent b) ready
       | PollTcpToWs => Bridge [] (br_sent b ++ tcp_to_ws (br_pipe b)) false
       end.
Definition run_bridge (polls : list bridge_poll) : bridge :=
  fold_left poll_bridge polls (Bridge [] [] false).

(** ** The bridge of a UDP session

    [UdpBridge.v] has the rest. *)

(** What [bridge_udp_session_to_tcp_proxy] writes to the local proxy first. *)
Definition write_session_hello_sync `{Json session_hello} (hello : session_hello) : result (list byte) :=
  payload ← to_vec hello; Ok (payload ++ [newline]).

(** ** Lemmas: host names *)

Lemma string_snoc s : s = EmptyString \/ exists s' c, s = s' +:+ String c EmptyString.
Proof.
  induction s as [|c s IH]; [by left|right]. destruct IH as [->|(s' & d & ->)]; [by exists EmptyString, c|].
  by exists (String c s'), d.
Qed.
Lemma substring_snoc s c : String.substring 0 (String.length (s +:+ String c EmptyString) - 1) (s +:+ String c EmptyString) = s.
Proof.
  rewrite string_length_app. simpl. rewrite Nat.add_sub. induction s as [|d s IH]; [done|]. simpl. by rewrite IH.
Qed.
Lemma pop_dashes_trim fuel s : (String.length s <= fuel)%nat -> pop_dashes fuel s = trim_end_matches "-" s.
Proof.
  revert s; induction fuel as [|fuel IH]; intros s Hlen.
  { destruct s; [done|simpl in Hlen; lia]. }
  destruct (string_snoc s) as [->|(s' & c & ->)]; [done|]. cbn [pop_dashes]. unfold trim_end_matches.
  rewrite substring_snoc. unfold ends_with. rewrite string_rev_snoc. unfold starts_with. simpl.
  case_bool_decide as Hc.
  - subst c. rewrite trim_end_by_drop by done. apply IH. rewrite string_length_app in Hlen. simpl in Hlen. lia.
  - rewrite trim_end_by_last; [done|]. apply bool_decide_eq_false. congruence.
Qed.
(** The node's normalisation is the network stack's. *)
Lemma normalize_is_hostname_label value : normalize_hostname_label value = hostname_label value.
Proof. unfold normalize_hostname_label, hostname_label. by rewrite pop_dashes_trim. Qed.

(** ** Lemmas: the hello over a WebSocket *)

Definition binary_frames (pieces : list (list byte)) : list (result frame) := map (fun p => Ok (FBinary p)) pieces.

Lemma split_newline_app line rest : newline ∉ line -> split_newline (line ++ newline :: rest) = Some (line, rest).
Proof.
  induction line as [|b line IH]; intros Hn; simpl; [done|].
  apply not_elem_of_cons in Hn as [Hb Hn]. rewrite bool_decide_eq_false_2 by congruence. by rewrite IH.
Qed.
Lemma split_newline_none payload : newline ∉ payload -> split_newline payload = None.
Proof.
  induction payload as [|b l IH]; intros Hn; simpl; [done|].
  apply not_elem_of_cons in Hn as [Hb Hn]. rewrite bool_decide_eq_false_2 by congruence. by rewrite IH.
Qed.
Lemma ws_to_tcp_binary pieces : ws_to_tcp (binary_frames pieces) = (concat pieces, Ok tt).
Proof. induction pieces as [|p pieces IH]; [done|]. simpl. by rewrite IH. Qed.

(** However the bytes are cut into frames, the line is read and the rest is kept. *)
Lemma read_wss_pieces `{Json session_hello} pieces acc line rest :
  newline ∉ line -> line <> [] -> (length line <= hello_limit)%nat ->
  (length acc <= length line)%nat -> acc ++ concat pieces = line ++ newline :: rest ->
  exists remaining pieces', remaining ++ concat pieces' = rest /\
    read_wss_session_hello acc (binary_frames pieces)
    = (hello ← from_slice line; Ok (hello, remaining, binary_frames pieces')).
Proof.
  intros Hnl Hne Hlen. revert acc; induction pieces as [|p pieces IH]; intros acc Hacc Heq.
  { simpl in Heq. rewrite app_nil_r in Heq. apply (f_equal length) in Heq.
    rewrite length_app in Heq. simpl in Heq. lia. }
  simpl in Heq. rewrite app_assoc in Heq.
  cbn [binary_frames map read_wss_session_hello]. unfold mbind, result_bind.
  destruct (decide (length (acc ++ p) <= length line)%nat) as [Hshort|Hlong].
  - assert (exists tl, line = (acc ++ p) ++ tl) as (tl & Htl).
    { exists (drop (length (acc ++ p)) line). rewrite <- (take_drop (length (acc ++ p)) line) at 1. f_equal.
      apply (f_equal (take (length (acc ++ p)))) in Heq.
      rewrite take_app_length, take_app_le in Heq by lia. done. }
    assert (newline ∉ acc ++ p) as Hnl' by (rewrite Htl in Hnl; set_solver).
    rewrite split_newline_none by done.
    assert (Nat.ltb hello_limit (length (acc ++ p)) = false) as -> by (apply Nat.ltb_ge; lia).
    cbn [bail_if]. apply IH; [lia|done].
  - assert (exists tl, acc ++ p = line ++ newline :: tl /\ tl ++ concat pieces = rest) as (tl & Htl & Hrest).
    { exists (drop (S (length line)) (acc ++ p)). split.
      - rewrite <- (take_drop (S (length line)) (acc ++ p)) at 1.
        replace (line ++ newline :: drop (S (length line)) (acc ++ p))
          with ((line ++ [newline]) ++ drop (S (length line)) (acc ++ p)) by (by rewrite <- app_assoc). f_equal.
        apply (f_equal (take (S (length line)))) in Heq. rewrite take_app_le in Heq by lia.
        rewrite Heq. replace (line ++ newline :: rest) with ((line ++ [newline]) ++ rest) by (by rewrite <- app_assoc).
        rewrite take_app_eq; [done|]. rewrite length_app. simpl. lia.
      - apply (f_equal (drop (S (length line)))) in Heq. rewrite drop_app_le in Heq by lia.
        replace (line ++ newline :: rest) with ((line ++ [newline]) ++ rest) in Heq by (by rewrite <- app_assoc).
        rewrite Heq. rewrite drop_app_eq; [done|]. rewrite length_app. simpl. lia. }
    rewrite Htl, split_newline_app by done. destruct line as [|b line]; [done|]. cbn [length Nat.eqb bail_if].
    exists tl, pieces. done.
Qed.

(** ** Lemmas: the bridge *)

Definition frame_payload (f : frame) : list byte := match f with FBinary bytes => bytes | _ => [] end.
Definition written_by (p : bridge_poll) : list byte := match p with PollProxy written _ => written | _ => [] end.
Lemma chunks_of_concat fuel n bytes : (0 < n)%nat -> (length bytes <= fuel)%nat -> concat (chunks_of fuel n bytes) = bytes.
Proof.
  intros Hn. revert bytes; induction fuel as [|fuel IH]; intros bytes Hlen.
  { destruct bytes; [done|simpl in Hlen; lia]. }
  destruct bytes as [|b bytes]; [done|]. cbn [chunks_of concat]. rewrite IH, take_drop; [done|].
  rewrite length_drop. simpl in *. lia.
Qed.
Lemma tcp_to_ws_payload pipe : tcp_to_ws pipe ≫= frame_payload = pipe.
Proof.
  unfold tcp_to_ws. transitivity (concat (chunks_of (length pipe) (8 * 1024) pipe)).
  - induction (chunks_of _ _ pipe) as [|c l IH]; [done|]. simpl map. rewrite bind_cons, IH. done.
  - apply chunks_of_concat; [apply Nat.ltb_lt; reflexivity|done].
Qed.
Lemma run_bridge_snoc polls p : run_bridge (polls ++ [p]) = poll_bridge (run_bridge polls) p.
Proof. unfold run_bridge. by rewrite fold_left_app. Qed.
Lemma poll_returned b polls : br_returned b = true -> fold_left poll_bridge polls b = b.
Proof.
  revert b; induction polls as [|p polls IH]; intros b Hb; [done|]. simpl.
  assert (poll_bridge b p = b) as -> by (unfold poll_bridge; by rewrite Hb). by apply IH.
Qed.
(** Until the bridge returns, what was sent and what waits is all that was written. *)
Lemma bridge_keeps polls : br_returned (run_bridge polls) = false ->
  (br_sent (run_bridge polls) ≫= frame_payload) ++ br_pipe (run_bridge polls) = polls ≫= written_by.
Proof.
  induction polls as [|p polls IH] using rev_ind; [done|]. rewrite run_bridge_snoc, bind_app.
  unfold poll_bridge. destruct (br_returned (run_bridge polls)) eqn:E; [congruence|].
  specialize (IH eq_refl). destruct p as [w r|r|]; simpl; intros Hr; rewrite ?app_nil_r, <- IH.
  - by rewrite <- app_assoc.
  - done.
  - by rewrite bind_app, tcp_to_ws_payload.
Qed.

(** ** Lemmas: services and endpoints *)

Section ServicesFacts.
Context `{Json service_certificate_request} `{Json service_certificate_response}.
Context (env : string -> option string).
Context (signed_by : string -> string -> string -> list string -> result generated_cert).
Context (url_parse : string -> option url) (server_name_ok : string -> bool).
Context (exchange : string -> string -> pinned_cert_verifier -> list byte -> result (list byte)).
Context (server_config_ok : service_tls_identity -> result unit).
Context (cfg : node_config) (secret : string).
Local Definition tls_of := http_service_tls_config env signed_by url_parse server_name_ok exchange server_config_ok cfg secret.

(** A proxied service comes from an enabled entry of the configuration; its TLS identity is
    the one made for that entry's host name. *)
Definition service_of_config (c : service_config) (s : proxy_service) : Prop :=
  sc_enabled c = true /\ px_id s = sc_id c /\ px_target s = sc_target c /\
  px_kind s = to_ascii_lowercase (sc_kind c) /\ px_tls_mode s = tls_mode_of (px_kind s) /\
  match px_tls_config s with
  | None => px_tls_mode s = TlsNone
  | Some identity => px_tls_mode s <> TlsNone /\ tls_of (sc_id c) (config_hostname c) = Ok identity
  end.

Lemma insert_configs_spec configs services services' :
  insert_services env signed_by url_parse server_name_ok exchange server_config_ok cfg secret configs services
    = Ok services' ->
  (forall id s, services' !! id = Some s ->
     services !! id = Some s \/ exists c, c ∈ configs /\ sc_id c = id /\ service_of_config c s) /\
  (forall c, c ∈ configs -> sc_enabled c = true -> is_Some (services' !! sc_id c)) /\
  (forall id, is_Some (services !! id) -> is_Some (services' !! id)).
Proof.
  revert services; induction configs as [|c configs IH]; intros services; simpl.
  { intros [= <-]. split_and!; [auto| |auto]. intros c Hc. by apply not_elem_of_nil in Hc. }
  destruct (sc_enabled c) eqn:Een; simpl.
  - intros Hr. unfold mbind, result_bind in Hr.
    match type of Hr with match ?m with _ => _ end = _ => destruct m as [tls|e] eqn:Etls; [|done] end.
    apply IH in Hr as (H1 & H2 & H3). split_and!.
    + intros id s Hs. apply H1 in Hs as [Hs|(c' & Hc' & Hid & Hs)]; [|right; exists c'; split; [by right|done]].
      apply lookup_insert_Some in Hs as [[<- <-]|[_ Hs]]; [right|by left].
      exists c. split_and!; [by left|done|]. unfold service_of_config. simpl. split_and!; try done.
      case_bool_decide as Hm; [by injection Etls as <-|].
      unfold fmap, result_fmap in Etls. destruct (http_service_tls_config _ _ _ _ _ _ _ _ _ _) as [i|e] eqn:Ei; [|done].
      injection Etls as <-. done.
    + intros c' [->|Hc']%elem_of_cons Hen; [|by apply H2]. apply H3. rewrite lookup_insert_eq. by eexists.
    + intros id Hid. apply H3. destruct (decide (sc_id c = id)) as [<-|Hne];
        [rewrite lookup_insert_eq; by eexists|by rewrite lookup_insert_ne].
  - intros Hr. apply IH in Hr as (H1 & H2 & H3). split_and!; [|clear -H2 Een|done].
    + intros id s Hs. apply H1 in Hs as [Hs|(c' & Hc' & Hid & Hs)]; [by left|right; exists c'; split; [by right|done]].
    + intros c' [->|Hc']%elem_of_cons Hen; [congruence|by apply H2].
Qed.
End ServicesFacts.

(** The endpoints pushed so far: no address twice, each the first of its priority class. *)
Definition pushed (st : list node_endpoint * gset string) : Prop :=
  NoDup (map ne_addr st.1) /\ (forall a, a ∈ st.2 <-> a ∈ map ne_addr st.1).
Lemma push_pushed addr priority st : pushed st -> pushed (push_ice_endpoint addr priority st).
Proof.
  destruct st as [eps seen]. intros [Hnd Hs]. unfold push_ice_endpoint. case_bool_decide as Hin; [done|].
  split; simpl in *.
  - rewrite map_app. apply list.NoDup_app. split_and!; [done| |apply list.NoDup_singleton].
    intros a Ha Ha'. apply list_elem_of_singleton in Ha' as ->. apply Hin, Hs, Ha.
  - intros a. rewrite map_app, elem_of_app. cbn [map]. rewrite list_elem_of_singleton, elem_of_union, elem_of_singleton, Hs. simpl. tauto.
Qed.
Lemma push_elem addr priority st e :
  pushed st -> (e ∈ (push_ice_endpoint addr priority st).1) <->
  (e ∈ st.1) \/ ((addr ∉ map ne_addr st.1) /\ e = NodeEndpoint IceUdp 1 addr priority).
Proof.
  destruct st as [eps seen]. intros [Hnd Hs]. unfold push_ice_endpoint. simpl in *. case_bool_decide as Hin.
  - apply Hs in Hin. simpl. naive_solver.
  - simpl. rewrite elem_of_app, list_elem_of_singleton. rewrite Hs in Hin. naive_solver.
Qed.
Lemma fold_push priority addrs st :
  pushed st ->
  let st' := fold_left (fun st addr => push_ice_endpoint addr priority st) addrs st in
  pushed st' /\ forall e, (e ∈ st'.1) <->
    (e ∈ st.1) \/ ((ne_addr e ∉ map ne_addr st.1) /\ (ne_addr e ∈ addrs) /\ e = NodeEndpoint IceUdp 1 (ne_addr e) priority).
Proof.
  cbv zeta. revert st; induction addrs as [|a addrs IH]; intros st Hst; simpl.
  { split; [done|]. intros e. split; [by left|]. intros [He|(_ & He & _)]; [done|]. by apply not_elem_of_nil in He. }
  pose proof (push_pushed a priority st Hst) as Hst'. destruct (IH _ Hst') as [Hp He]. split; [done|].
  intros e. rewrite He, push_elem by done.
  assert (forall x, (x ∈ map ne_addr (push_ice_endpoint a priority st).1) <-> x ∈ map ne_addr st.1 \/ x = a) as Hm.
  { intros x. rewrite !list_elem_of_fmap. setoid_rewrite push_elem; [|done].
    split.
    - intros (y & -> & [Hy|[_ Hy]]); [left; eauto|right; by subst y].
    - intros [(y & -> & Hy)|Hx]; [eauto|subst x]. destruct (decide (a ∈ map ne_addr st.1)) as [Hin|Hni].
      + apply list_elem_of_fmap in Hin as (y & -> & Hy). eauto.
      + exists (NodeEndpoint IceUdp 1 a priority). auto. }
  rewrite Hm. rewrite elem_of_cons.
  split.
  - intros [[?|[Hna Heq]]|(? & ? & ?)]; [by left|right; subst e; simpl; auto|right; tauto].
  - intros [?|(Hna & [Ha|Hin] & Heq)]; [by left; left| |].
    + left. right. rewrite <- Ha. done.
    + destruct (decide (ne_addr e = a)) as [Ha|Hne]; [left; right; rewrite <- Ha; done|].
      right. split_and!; [tauto|done|done].
Qed.

(** ** Lemmas: sessions *)

Lemma authorize_session_ok `{TokenEnv} `{Json session_hello} now services node secret hello service :
  authorize_session now services node secret hello = Ok service <->
  exists claims, verify_session_token now secret (sh_token hello) = Ok claims /\
    tc_service_id claims = sh_service_id hello /\ tc_node_id claims = node /\
    services !! sh_service_id hello = Some service.
Proof.
  unfold authorize_session. split.
  - intros Hr. apply bind_ok in Hr as (claims & Hv & Hr). exists claims.
    apply bind_ok in Hr as ([] & E1 & Hr). apply bind_ok in Hr as ([] & E2 & Hr).
    apply bail_if_ok, negb_false_iff, bool_decide_eq_true in E1, E2. by apply ok_or_ok in Hr.
  - intros (claims & Hv & Hs & Hn & Hlk). rewrite Hv. unfold mbind, result_bind.
    rewrite !bool_decide_eq_true_2 by done. simpl. by rewrite Hlk.
Qed.
Lemma handle_connection_ok `{TokenEnv} `{Json session_hello} now services node secret input service rest :
  handle_connection now services node secret input = Ok (service, rest) <->
  exists hello, read_json_line input = Ok (hello, rest) /\
    authorize_session now services node secret hello = Ok service.
Proof.
  unfold handle_connection. split.
  - intros Hr. apply bind_ok in Hr as ([hello r] & Hread & Hr). apply bind_ok in Hr as (s & Hs & Hr).
    injection Hr as -> ->. eauto.
  - intros (hello & Hread & Ha). rewrite Hread. unfold mbind, result_bind. by rewrite Ha.
Qed.

(** The hello of a granted session is authorized while its token is valid. *)
Lemma granted_hello_authorized `{TokenOk} `{Json session_hello} now t0 secret sid service_id node_id token services service :
  issue_session_token t0 secret sid service_id node_id = Ok token -> services !! service_id = Some service ->
  authorize_session now services node_id secret (SessionHello token service_id None)
  = if now <=? t0 + minutes 15 then Ok service else Err (EMsg "session token expired").
Proof.
  intros Htoken Hservice. unfold authorize_session. cbn [sh_token sh_service_id].
  rewrite (verify_issued _ now _ _ _ _ _ Htoken). destruct (now <=? t0 + minutes 15); [|done].
  unfold mbind, result_bind. cbn [tc_service_id tc_node_id]. rewrite !bool_decide_eq_true_2 by done.
  simpl. by rewrite Hservice.
Qed.

(** ** Properties *)

(** C12. A connection reaches a service only with a hello line whose token carries the MAC of
    its payload under the node's secret, is not expired, and names this node and the
    service of the hello; the service is an enabled one of the configuration, and what
    follows the hello line, nothing more or less, is left for it. *)
Theorem only_authorized_sessions_reach_a_service
    `{TokenOk} `{Json session_hello} `{Json service_certificate_request} `{Json service_certificate_response}
    (env : string -> option string)
    (signed_by : string -> string -> string -> list string -> result generated_cert)
    (url_parse : string -> option url) (server_name_ok : string -> bool)
    (exchange : string -> string -> pinned_cert_verifier -> list byte -> result (list byte))
    (server_config_ok : service_tls_identity -> result unit)
    (cfg : node_config) (secret : string) (services : gmap string proxy_service) (now : Z)
    (input rest : list byte) (service : proxy_service)
    (Hservices : proxy_services_from_config env signed_by url_parse server_name_ok exchange server_config_ok
       cfg secret = Ok services)
    (Hconnected : handle_connection now services (nc_node_id cfg) secret input = Ok (service, rest)) :
  (exists line hello claims p_b64 s_b64 payload sig,
     input = line ++ newline :: rest /\ (length line <= hello_limit)%nat /\ from_slice line = Ok hello /\
     sh_token hello = p_b64 +:+ "." +:+ s_b64 /\ b64_decode p_b64 = Ok payload /\ b64_decode s_b64 = Ok sig /\
     sign_payload secret payload = Ok sig /\ from_slice payload = Ok claims /\
     now <= tc_expires_at claims + minutes 5 /\
     tc_node_id claims = nc_node_id cfg /\ tc_service_id claims = sh_service_id hello /\
     sh_service_id hello = px_id service) /\
  exists c, c ∈ nc_services cfg /\
    service_of_config env signed_by url_parse server_name_ok exchange server_config_ok cfg secret c service.
Proof.
  apply handle_connection_ok in Hconnected as (hello & Hread & Ha).
  apply authorize_session_ok in Ha as (claims & Hv & Hsid & Hnid & Hs).
  unfold proxy_services_from_config in Hservices.
  apply insert_configs_spec in Hservices as (Hall & _ & _). apply Hall in Hs as [Hs|(c & Hc & Hid & Hs)].
  { by rewrite lookup_empty in Hs. }
  split; [|eauto].
  apply read_json_line_inv in Hread as (line & Heq & Hlen & Hl).
  apply verify_ok_inv in Hv as (p_b64 & s_b64 & payload & sig & Hsplit & Hp & Hsig & Hmac & Hcl & Hnow).
  apply split_once_sound in Hsplit. destruct Hs as (_ & Hpx & _).
  exists line, hello, claims, p_b64, s_b64, payload, sig. split_and!; try done. congruence.
Qed.

(** The session a control plane granted is the session the node accepts: with a token
    issued for the node and service, the client's hello line, sent on a TCP connection or
    cut in any way into WebSocket frames, reaches the service, which then gets all the
    bytes that follow, for fifteen minutes; after that the session is refused. *)
Theorem granted_session_reaches_its_service
    `{TokenOk} `{JsonOk session_hello} (now t0 wait : Z) (secret sid service_id node_id token : string)
    (services : gmap string proxy_service) (service : proxy_service) (payload data : list byte)
    (pieces : list (list byte))
    (Hwait : wait <= RELAY_NODE_IDLE_LEASE)
    (Htoken : issue_session_token t0 secret sid service_id node_id = Ok token)
    (Hservice : services !! service_id = Some service)
    (Hhello : write_json_line (SessionHello token service_id None) = Ok payload)
    (Hshort : (length payload <= S hello_limit)%nat)
    (Hpieces : concat pieces = payload ++ data) :
  handle_connection now services node_id secret (payload ++ data)
    = (if now <=? t0 + minutes 15 then Ok (service, data) else Err (EMsg "session token expired")) /\
  handle_wss_connection now services node_id secret (Some wait) (binary_frames pieces)
    = (if now <=? t0 + minutes 15 then Ok (service, data, Ok tt) else Err (EMsg "session token expired")).
Proof.
  pose proof (granted_hello_authorized now t0 secret sid service_id node_id token services service Htoken Hservice) as Hauth.
  split.
  - unfold handle_connection. rewrite (read_json_line_written _ _ data Hhello Hshort).
    unfold mbind, result_bind. rewrite Hauth. by destruct (now <=? t0 + minutes 15).
  - unfold write_json_line in Hhello. apply bind_ok in Hhello as (line & Hline & Hhello).
    injection Hhello as <-. rewrite length_app in Hshort. simpl in Hshort. rewrite <- app_assoc in Hpieces.
    destruct (read_wss_pieces pieces [] line data) as (remaining & pieces' & Hrest & Hread);
      [by eapply json_no_newline|by eapply json_not_empty|lia|simpl; lia|done|].
    unfold handle_wss_connection. cbn [in_time]. rewrite (proj2 (Z.leb_le _ _) Hwait), Hread. rewrite (json_roundtrip _ _ Hline).
    unfold mbind, result_bind. rewrite Hauth. destruct (now <=? t0 + minutes 15); [|done].
    rewrite ws_to_tcp_binary. by rewrite Hrest.
Qed.

(** The host name a node gets a service's certificate for is the host name under which the
    network stack publishes it: the name of a service of the registration resolves to
    that service or to a later one of the same name. *)
Theorem certificate_names_resolve (getifaddrs : result (list ifaddrs)) (cfg : node_config) (c : service_config)
    (n : virtual_network)
    (Henabled : c ∈ nc_services cfg /\ sc_enabled c = true)
    (Hnet : network_new (map (fun p => NetworkService (ps_id p) (ps_label p) (service_kind_str (ps_kind p)))
              (rn_services (build_registration getifaddrs cfg))) = Ok n) :
  config_hostname c = service_hostname (default (sc_id c) (sc_label c)) /\
  exists v, resolve_hostname (config_hostname c) n = Some v /\ vs_hostname v = config_hostname c.
Proof.
  assert (config_hostname c = service_hostname (default (sc_id c) (sc_label c))) as Heq.
  { unfold config_hostname, service_hostname. by rewrite normalize_is_hostname_label. }
  split; [done|]. rewrite Heq.
  set (s := NetworkService (sc_id c) (sc_label c) (service_kind_str (registered_kind (sc_kind c)))).
  assert (s ∈ map (fun p => NetworkService (ps_id p) (ps_label p) (service_kind_str (ps_kind p)))
            (rn_services (build_registration getifaddrs cfg))) as Hs.
  { apply list_elem_of_fmap. exists (publish c). split; [done|]. simpl. apply list_elem_of_fmap.
    exists c. split; [done|]. apply elem_of_List_filter. tauto. }
  change (service_hostname _) with (host_of s).
  rewrite (resolve_last _ _ _ Hnet). unfold host_of at 1. rewrite canonical_hostname.
  destruct (last_named _ 0 _) as [i|] eqn:E.
  - apply last_named_some in E as (_ & (t & Ht & Hth) & _). rewrite Nat.sub_0_r in Ht.
    cbn [mbind option_bind]. rewrite Ht. simpl. eauto.
  - by destruct (proj1 (last_named_none _ _ _) E s Hs).
Qed.

(** A registration publishes the enabled services, in their order, with one TCP endpoint;
    its ICE endpoints are the configured host addresses, the usable local addresses and
    the public address, each once, with the priority of the first of these it is in. *)
Theorem registration_publishes_the_configuration (getifaddrs : result (list ifaddrs)) (cfg : node_config) :
  let r := build_registration getifaddrs cfg in
  let local := discover_local_ice_addrs getifaddrs (default 17002 (ice_bind_port (nc_ice_bind_addr cfg))) in
  rn_services r = map publish (List.filter sc_enabled (nc_services cfg)) /\
  exists ice, rn_endpoints r = NodeEndpoint TcpProxy 1 (default (nc_bind_addr cfg) (nc_public_addr cfg)) 10 :: ice /\
    NoDup (map ne_addr ice) /\
    forall e, e ∈ ice <->
      exists a, e = NodeEndpoint IceUdp 1 a (if bool_decide (a ∈ nc_ice_host_addrs cfg) then 300
                                             else if bool_decide (a ∈ local) then 250 else 100) /\
        (a ∈ nc_ice_host_addrs cfg \/ a ∈ local \/ a = effective_ice_public_addr cfg).
Proof.
  cbv zeta. split; [done|]. eexists. split; [reflexivity|].
  unfold build_ice_udp_endpoints. set (local := discover_local_ice_addrs _ _).
  assert (pushed ([], ∅)) as H0.
  { split; [constructor|]. intros a. simpl. split; [by intros ?%not_elem_of_empty|by intros ?%not_elem_of_nil]. }
  destruct (fold_push 300 (nc_ice_host_addrs cfg) _ H0) as [H1 E1]. set (st1 := fold_left _ (nc_ice_host_addrs cfg) _) in *.
  destruct (fold_push 250 local _ H1) as [H2 E2]. set (st2 := fold_left _ local _) in *.
  split; [apply (push_pushed _ 100 _ H2)|]. intros e. rewrite push_elem by done.
  assert (forall a, a ∈ map ne_addr st1.1 <-> a ∈ nc_ice_host_addrs cfg) as A1.
  { intros a. rewrite list_elem_of_fmap. setoid_rewrite E1. simpl. split.
    - intros (x & -> & [Hx|(_ & Hx & _)]); [by apply not_elem_of_nil in Hx|done].
    - intros Ha. exists (NodeEndpoint IceUdp 1 a 300). split; [done|]. right. split_and!; [apply not_elem_of_nil|done|done]. }
  assert (forall a, a ∈ map ne_addr st2.1 <-> a ∈ nc_ice_host_addrs cfg \/ a ∈ local) as A2.
  { intros a. rewrite <- A1, !list_elem_of_fmap. setoid_rewrite E2. split.
    - intros (x & -> & [Hx|(_ & Hx & _)]); [left; eauto|by right].
    - intros [(x & -> & Hx)|Ha]; [eauto|].
      destruct (decide (a ∈ map ne_addr st1.1)) as [Hin|Hni];
        [apply list_elem_of_fmap in Hin as (x & -> & Hx); eauto|].
      exists (NodeEndpoint IceUdp 1 a 250). split; [done|]. right. done. }
  rewrite E2, E1, A1, A2. simpl. split.
  - intros [[[He|(_ & Ha & He)]|(Hn & Ha & He)]|[Hn He]].
    + by apply not_elem_of_nil in He.
    + exists (ne_addr e). rewrite bool_decide_eq_true_2 by done. auto.
    + exists (ne_addr e). rewrite bool_decide_eq_false_2, bool_decide_eq_true_2 by done. auto.
    + exists (effective_ice_public_addr cfg). rewrite !bool_decide_eq_false_2 by tauto. auto.
  - intros (a & -> & Ha). simpl. case_bool_decide as B1.
    + left; left; right. split_and!; [apply not_elem_of_nil|done|done].
    + case_bool_decide as B2; [left; right; done|]. right. destruct Ha as [Ha|[Ha| ->]]; [done|done|]. tauto.
Qed.

(** The bridge of a WebSocket session loses what the proxy writes in the poll in which it
    finishes: [select!] returns at once and [tcp_to_ws], which alone sends it, is not polled
    again.  So an answer the proxy writes and closes after in one go, as it does for an
    unavailable target, never reaches the client. *)
Theorem wss_bridge_loses_the_last_write (polls more : list bridge_poll) (written : list byte)
    (Hrunning : br_returned (run_bridge polls) = false) :
  let b := run_bridge (polls ++ PollProxy written true :: more) in
  br_returned b = true /\
  (br_sent b ≫= frame_payload) ++ br_pipe (run_bridge polls) ++ written = (polls ++ [PollProxy written true]) ≫= written_by.
Proof.
  cbv zeta. pose proof (bridge_keeps polls Hrunning) as Hk.
  replace (polls ++ PollProxy written true :: more) with ((polls ++ [PollProxy written true]) ++ more)
    by (by rewrite <- app_assoc).
  unfold run_bridge. rewrite fold_left_app. fold (run_bridge (polls ++ [PollProxy written true])).
  assert (run_bridge (polls ++ [PollProxy written true])
    = Bridge (br_pipe (run_bridge polls) ++ written) (br_sent (run_bridge polls)) true) as Hb.
  { rewrite run_bridge_snoc. unfold poll_bridge. by rewrite Hrunning. }
  rewrite poll_returned by (by rewrite Hb). rewrite Hb. simpl. split; [done|].
  rewrite bind_app, <- Hk. simpl. by rewrite app_nil_r, <- app_assoc.
Qed.

(** ** Witnesses *)

Definition toy_config : node_config :=
  NodeConfig "node-1" None "127.0.0.1:17001" "0.0.0.0:17002" (Some "203.0.113.9:17001") None ["192.168.1.10:17002"]
    None None (Some "s") None None None (Some "ca") (Some "key")
    [ServiceConfig "svc_ssh" "SSH" (Some "My Laptop") "127.0.0.1:22" (Some "me") true;
     ServiceConfig "svc_off" "http" None "127.0.0.1:80" None false].
#[local] Instance service_certificate_request_countable : Countable service_certificate_request.
Proof.
  refine (inj_countable' (fun r => (sc_node_id r, sc_hostnames r, sc_shared_secret r))
    (fun '(a, b, c) => ServiceCertificateRequest a b c) _). by intros [].
Defined.
#[local] Instance service_certificate_response_countable : Countable service_certificate_response.
Proof.
  refine (inj_countable' (fun r => (scr_cert_pem r, scr_key_pem r))
    (fun '(a, b) => ServiceCertificateResponse a b) _). by intros [].
Defined.
Definition toy_services : gmap string proxy_service :=
  match @proxy_services_from_config countable_json countable_json (fun _ => None)
          (fun _ _ cn _ => Ok (GeneratedCert [] cn cn)) (fun _ => None) (fun _ => true)
          (fun _ _ _ _ => Err (EExt "network")) (fun _ => Ok tt) toy_config "s" with
  | Ok services => services
  | Err _ => ∅
  end.
Definition toy_proxied : proxy_service :=
  ProxyService "svc_ssh" "ssh" "127.0.0.1:22" (Some (ServiceTlsIdentity "my-laptop.medium" "my-laptop.medium")) TlsRaw.
Definition toy_hello_line : list byte :=
  match @write_json_line _ flat_hello (SessionHello flat_token "svc_ssh" None) with Ok p => p | Err _ => [] end.
Definition toy_payload : list byte := bytes_of "SSH-2.0".

Lemma only_authorized_sessions_reach_a_service_witness :
  (exists line hello claims p_b64 s_b64 payload sig,
     toy_hello_line ++ toy_payload = line ++ newline :: toy_payload /\ (length line <= hello_limit)%nat /\
     @from_slice _ flat_hello line = Ok hello /\
     sh_token hello = p_b64 +:+ "." +:+ s_b64 /\ @b64_decode flat_token_env p_b64 = Ok payload /\
     @b64_decode flat_token_env s_b64 = Ok sig /\ @sign_payload flat_token_env "s" payload = Ok sig /\
     @from_slice _ (@claims_json flat_token_env) payload = Ok claims /\ 200 <= tc_expires_at claims + minutes 5 /\
     tc_node_id claims = nc_node_id toy_config /\ tc_service_id claims = sh_service_id hello /\
     sh_service_id hello = px_id toy_proxied) /\
  exists c, c ∈ nc_services toy_config /\
    @service_of_config countable_json countable_json (fun _ => None) (fun _ _ cn _ => Ok (GeneratedCert [] cn cn))
      (fun _ => None) (fun _ => true) (fun _ _ _ _ => Err (EExt "network")) (fun _ => Ok tt) toy_config "s" c toy_proxied.
Proof.
  refine (@only_authorized_sessions_reach_a_service flat_token_env flat_token_ok flat_hello
    countable_json countable_json (fun _ => None) (fun _ _ cn _ => Ok (GeneratedCert [] cn cn)) (fun _ => None)
    (fun _ => true) (fun _ _ _ _ => Err (EExt "network")) (fun _ => Ok tt) toy_config "s" toy_services 200
    (toy_hello_line ++ toy_payload) toy_payload toy_proxied _ _); vm_compute; reflexivity.
Defined.

Lemma granted_session_reaches_its_service_witness :
  @handle_connection flat_token_env flat_hello 200 toy_services "node-1" "s" (toy_hello_line ++ toy_payload)
    = Ok (toy_proxied, toy_payload) /\
  @handle_wss_connection flat_token_env flat_hello 200 toy_services "node-1" "s" (Some 5)
    (binary_frames [take 5 toy_hello_line; drop 5 toy_hello_line; toy_payload])
    = Ok (toy_proxied, toy_payload, Ok tt).
Proof.
  refine (@granted_session_reaches_its_service flat_token_env flat_token_ok flat_hello flat_hello_ok
    200 100 5 "s" "sess_1" "svc_ssh" "node-1" flat_token toy_services toy_proxied toy_hello_line toy_payload
    [take 5 toy_hello_line; drop 5 toy_hello_line; toy_payload] _ _ _ _ _ _).
  - vm_compute. congruence.
  - vm_compute. reflexivity.
  - vm_compute. reflexivity.
  - vm_compute. reflexivity.
  - apply (bool_decide_unpack _). vm_compute. exact I.
  - vm_compute. reflexivity.
Defined.

Definition toy_ssh_config : service_config :=
  ServiceConfig "svc_ssh" "SSH" (Some "My Laptop") "127.0.0.1:22" (Some "me") true.
Definition toy_node_network : virtual_network :=
  match network_new (map (fun p => NetworkService (ps_id p) (ps_label p) (service_kind_str (ps_kind p)))
              (rn_services (build_registration (Ok []) toy_config))) with
  | Ok n => n
  | Err _ => toy_network
  end.
Lemma certificate_names_resolve_witness :
  config_hostname toy_ssh_config = service_hostname (default (sc_id toy_ssh_config) (sc_label toy_ssh_config)) /\
  exists v, resolve_hostname (config_hostname toy_ssh_config) toy_node_network = Some v /\
    vs_hostname v = config_hostname toy_ssh_config.
Proof.
  refine (@certificate_names_resolve (Ok []) toy_config toy_ssh_config toy_node_network (conj _ eq_refl) _).
  - left.
  - vm_compute. reflexivity.
Defined.

Lemma wss_bridge_loses_the_last_write_witness :
  br_returned (run_bridge ([PollTcpToWs] ++ PollProxy toy_payload true :: [PollTcpToWs])) = true /\
  (br_sent (run_bridge ([PollTcpToWs] ++ PollProxy toy_payload true :: [PollTcpToWs])) ≫= frame_payload)
  ++ br_pipe (run_bridge [PollTcpToWs]) ++ toy_payload
  = ([PollTcpToWs] ++ [PollProxy toy_payload true]) ≫= written_by.
Proof. exact (@wss_bridge_loses_the_last_write [PollTcpToWs] [PollTcpToWs] toy_payload eq_refl). Defined.
