(* ===== verification/HttpProxy.v ===== *)
(** * The HTTP side of the home node's proxy

    [services/home-node/src/proxy.rs]: reading a request before the target is connected,
    answering with an error when the target fails, and joining the two sides.

    A side is what its reads return.  TLS is transparent here: the inbound stream is the
    decrypted one. *)

From S2P Require Import Prelude RustStd PinnedHttp HomeNode.

(** ** Requests *)

Fixpoint find_map {A B} (f : A -> option B) (l : list A) : option B :=
  match l with
  | [] => None
  | x :: rest => match f x with Some y => Some y | None => find_map f rest end
  end.
Definition content_length (headers : string) : option Z :=
  find_map (fun line =>
    '(name, value) ← split_once ":" line;
    if eq_ignore_ascii_case (trim name) "content-length" then parse_usize (trim value) else None)
    (lines headers).
Definition complete_http_request (data : list byte) : bool :=
  match position_of header_sep data with
  | None => false
  | Some header_end =>
      let body_start := (header_end + 4)%nat in
      match from_utf8 (take header_end data) with
      | None => true
      | Some headers =>
          match content_length headers with
          | Some length_ => length_ <=? Z.of_nat (length data - body_start)
          | None => true
          end
      end
  end.

(** One read of a side within the time the code waits for it. *)
Inductive side_read :=
  | ReadBytes (bytes : list byte)
  | ReadFailed (e : error)
  | ReadTimeout.

Definition request_limit : nat := 64 * 1024.
(** [read_http_request_for_proxy]: the request, and what the client will send after it.
    With no more reads the time runs out. *)
Fixpoint read_http_request_for_proxy (service_id : string) (reads : list side_read) (buffer : list byte)
    : result (list byte * list side_read) :=
  match reads with
  | [] | ReadTimeout :: _ => Err (EMsg ("timed out waiting for HTTP request for service " +:+ service_id))
  | ReadFailed e :: _ => Err e
  | ReadBytes chunk :: rest =>
      match chunk with
      | [] => Ok (buffer, rest)
      | _ =>
          let buffer := buffer ++ chunk in
          if complete_http_request buffer then Ok (buffer, rest)
          else if Nat.ltb request_limit (length buffer) then Ok (buffer, rest)
          else read_http_request_for_proxy service_id rest buffer
      end
  end.

(** ** Error answers *)

Section Proxy.
Context (show_error : error -> string).

Definition nl : string := String lf EmptyString.
Definition http_error_response (status body : string) : list byte :=
  bytes_of ("HTTP/1.1 " +:+ status +:+ crlf +:+ "content-type: text/plain; charset=utf-8" +:+ crlf
            +:+ "content-length: " +:+ dec (str_len body) +:+ crlf +:+ "connection: close" +:+ crlf +:+ crlf
            +:+ body).
Definition about_service (s : proxy_service) : string :=
  nl +:+ nl +:+ "service: " +:+ px_id s +:+ nl +:+ "target: " +:+ px_target s +:+ nl.
Definition service_unavailable_response (s : proxy_service) (e : error) : list byte :=
  http_error_response "502 Bad Gateway"
    ("Medium service target unavailable" +:+ about_service s +:+ "error: " +:+ show_error e +:+ nl).
Definition service_closed_response (s : proxy_service) (e : string) : list byte :=
  http_error_response "502 Bad Gateway"
    ("Medium service target closed before returning a response" +:+ about_service s +:+ "error: " +:+ e +:+ nl).
Definition service_timeout_response (s : proxy_service) : list byte :=
  http_error_response "504 Gateway Timeout"
    ("Medium service target did not return a response in time" +:+ about_service s).

(** ** Joining *)

(** The target as a connection will find it: whether it can be connected, written to and
    flushed, and what it returns. *)
Record target := Target {
  tg_connect : option error;
  tg_write : option error;
  tg_flush : option error;
  tg_reads : list side_read
}.
(** What a run has done: the bytes written to each side before the two were joined, whether
    they were, and the error it ended with. *)
Record proxied := Proxied {
  pd_to_target : list byte;
  pd_to_client : list byte;
  pd_joined : bool;
  pd_error : option error
}.

(** [forward_first_http_response_chunk]: what is written to the client, and whether to go
    on. *)
Definition forward_first_http_response_chunk (s : proxy_service) (reads : list side_read) : list byte * bool :=
  match reads with
  | [] | ReadTimeout :: _ => (service_timeout_response s, false)
  | ReadFailed e :: _ => (service_closed_response s (show_error e), false)
  | ReadBytes [] :: _ => (service_closed_response s "service target closed before returning a response", false)
  | ReadBytes chunk :: _ => (chunk, true)
  end.

(** An answer is written to the client and flushed; [client] is the error of that. *)
Definition answer_client (client : option error) (to_target answer : list byte) (go_on : bool) : proxied :=
  match client with
  | Some e => Proxied to_target answer false (Some e)
  | None => Proxied to_target answer go_on None
  end.
(** [proxy_stream_to_service] after the TLS handshake. *)
Definition proxy_stream_to_service (s : proxy_service) (inbound : list side_read) (client : option error) (t : target)
    : proxied :=
  match px_tls_config s, px_tls_mode s with
  | Some _, (TlsHttp | TlsNone) =>
      match read_http_request_for_proxy (px_id s) inbound [] with
      | Err e => Proxied [] [] false (Some e)
      | Ok (request, _) =>
          match tg_connect t with
          | Some e => answer_client client [] (service_unavailable_response s e) false
          | None =>
              match tg_write t with
              | Some e => answer_client client [] (service_closed_response s (show_error e)) false
              | None =>
                  match tg_flush t with
                  | Some e => Proxied request [] false (Some e)
                  | None =>
                      let '(first, go_on) := forward_first_http_response_chunk s (tg_reads t) in
                      answer_client client request first go_on
                  end
              end
          end
      end
  | Some _, TlsRaw | None, _ =>
      match tg_connect t with
      | Some e => Proxied [] [] false (Some e)
      | None => Proxied [] [] true None
      end
  end.
End Proxy.

(** ** Lemmas *)

Lemma is_prefix_of_spec pat bs : is_prefix_of pat bs = true <-> take (length pat) bs = pat.
Proof.
  revert bs; induction pat as [|p pat IH]; intros bs; [done|]. destruct bs as [|b bs]; [done|]. simpl.
  rewrite andb_true_iff, bool_decide_eq_true, IH. split; [intros [-> ->]; done|intros [= -> ->]; done].
Qed.
Lemma is_prefix_of_take pat bs n :
  is_prefix_of pat (take n bs) = true -> is_prefix_of pat bs = true /\ (length pat <= n)%nat.
Proof.
  rewrite !is_prefix_of_spec, take_take. intros H. assert (length pat <= n)%nat as Hn.
  { apply (f_equal length) in H. rewrite length_take in H. lia. }
  split; [|done]. rewrite <- H at 2. f_equal. lia.
Qed.
Lemma position_of_short pat bs : (length bs < length pat)%nat -> position_of pat bs = None.
Proof.
  induction bs as [|b bs IH]; intros Hlen; simpl.
  - destruct (is_prefix_of pat []) eqn:E; [|done]. apply is_prefix_of_spec in E.
    rewrite take_nil in E. subst pat. simpl in Hlen. lia.
  - destruct (is_prefix_of pat (b :: bs)) eqn:E.
    + apply is_prefix_of_spec, (f_equal length) in E. rewrite length_take in E. lia.
    + rewrite IH; [done|]. simpl in Hlen. lia.
Qed.
(** The first occurrence, in a prefix of the data. *)
Lemma position_of_take pat bs k n :
  pat <> [] -> position_of pat bs = Some k ->
  position_of pat (take n bs) = if decide (k + length pat <= n)%nat then Some k else None.
Proof.
  intros Hpat. revert k n; induction bs as [|b bs IH]; intros k n; cbn [position_of].
  { destruct pat; [done|]. done. }
  destruct (is_prefix_of pat (b :: bs)) eqn:E.
  - intros [= <-]. simpl. destruct (decide (length pat <= n)%nat) as [Hn|Hn].
    + assert (is_prefix_of pat (take n (b :: bs)) = true) as E'.
      { apply is_prefix_of_spec. apply is_prefix_of_spec in E. rewrite take_take, Nat.min_l by done. done. }
      destruct (take n (b :: bs)) as [|x l]; cbn [position_of]; by rewrite E'.
    + apply position_of_short. rewrite length_take. lia.
  - destruct (position_of pat bs) as [m|] eqn:Em; [|done]. intros [= <-].
    destruct n as [|n].
    { rewrite take_0, position_of_short by (destruct pat; simpl; [done|lia]).
      destruct (decide _); [|done]. destruct pat; simpl in *; [done|lia]. }
    cbn [take position_of]. destruct (is_prefix_of pat (b :: take n bs)) eqn:E2.
    { change (b :: take n bs) with (take (S n) (b :: bs)) in E2. apply is_prefix_of_take in E2 as [E2 _]. congruence. }
    rewrite (IH m n eq_refl).
    destruct (decide (m + length pat <= n)%nat), (decide (S m + length pat <= S n)%nat); (done || lia).
Qed.

Lemma position_of_app pat bs more k :
  position_of pat bs = Some k -> position_of pat (bs ++ more) = Some k.
Proof.
  revert k; induction bs as [|b bs IH]; intros k; cbn [position_of app].
  { destruct (is_prefix_of pat []) eqn:E; [|done]. intros [= <-].
    apply is_prefix_of_spec in E. rewrite take_nil in E. subst pat. by destruct more. }
  destruct (is_prefix_of pat (b :: bs)) eqn:E.
  - intros [= <-]. assert (is_prefix_of pat (b :: bs ++ more) = true) as ->; [|done].
    apply is_prefix_of_inv in E as [rest E]. change (b :: bs ++ more) with ((b :: bs) ++ more).
    rewrite E, <- app_assoc. apply is_prefix_of_app.
  - destruct (position_of pat bs) as [m|] eqn:Em; [|done]. intros [= <-].
    destruct (is_prefix_of pat (b :: bs ++ more)) eqn:E2; [|by rewrite (IH m)].
    apply position_of_inv in Em as [rest Hrest]. apply is_prefix_of_spec in E2.
    assert (length pat <= length bs)%nat as Hlen.
    { apply (f_equal length) in Hrest. rewrite !length_app in Hrest. lia. }
    change (b :: bs ++ more) with ((b :: bs) ++ more) in E2. rewrite take_app_le in E2 by (simpl; lia).
    apply is_prefix_of_spec in E2. congruence.
Qed.

(** A request: a head, the separator, and a body of the length the head announces. *)
Definition http_request (request : list byte) : Prop :=
  exists head_end headers,
    position_of header_sep request = Some head_end /\
    from_utf8 (take head_end request) = Some headers /\
    Z.of_nat (length request) = Z.of_nat (head_end + 4) + default 0 (content_length headers).

(** What has arrived of a request is complete exactly when all of it has. *)
Lemma complete_prefix request more n :
  http_request request -> (n <= length (request ++ more))%nat ->
  complete_http_request (take n (request ++ more)) = bool_decide (length request <= n)%nat.
Proof.
  intros (k & headers & Hpos & Hutf & Hlen) Hn. unfold complete_http_request.
  assert (k + 4 <= length request)%nat as Hk.
  { apply position_of_inv in Hpos as [rest Hr]. apply (f_equal length) in Hr.
    rewrite !length_app, length_take in Hr. simpl in Hr. lia. }
  rewrite (position_of_take header_sep _ k n) by (done || by apply position_of_app). change (length header_sep) with 4%nat.
  destruct (decide (k + 4 <= n)%nat) as [Hkn|Hkn].
  - rewrite take_take, Nat.min_l, take_app_le by lia. rewrite Hutf, length_take.
    destruct (content_length headers) as [len|]; simpl in Hlen.
    + case_bool_decide; [apply Z.leb_le|apply Z.leb_gt]; lia.
    + rewrite bool_decide_eq_true_2; [done|lia].
  - rewrite bool_decide_eq_false_2; [done|lia].
Qed.

Lemma read_request_chunks service_id request more tail chunks acc :
  http_request request -> (length request <= request_limit)%nat -> Forall (fun c => c <> []) chunks ->
  acc ++ concat chunks = request ++ more -> (length acc < length request)%nat ->
  exists init last rest,
    chunks = init ++ last :: rest /\ (length (acc ++ concat init) < length request)%nat /\
    (length request <= length (acc ++ concat init ++ last))%nat /\
    read_http_request_for_proxy service_id (map ReadBytes chunks ++ tail) acc
    = Ok (acc ++ concat init ++ last, map ReadBytes rest ++ tail).
Proof.
  intros Hreq Hlim Hne. revert acc; induction Hne as [|c chunks Hc Hne IH]; intros acc Heq Hacc.
  { simpl in Heq. rewrite app_nil_r in Heq. subst acc. rewrite length_app in Hacc. lia. }
  simpl in Heq. rewrite app_assoc in Heq. cbn [map app read_http_request_for_proxy].
  assert (acc ++ c = take (length (acc ++ c)) (request ++ more)) as Htake by (by rewrite <- Heq, take_app_length).
  assert (complete_http_request (acc ++ c) = bool_decide (length request <= length (acc ++ c))%nat) as Hcomp.
  { rewrite Htake at 1. apply complete_prefix; [done|]. rewrite <- Heq, (length_app (acc ++ c)). lia. }
  destruct c as [|b c]; [done|]. rewrite Hcomp. case_bool_decide as Hdone.
  - exists [], (b :: c), chunks. simpl. rewrite app_nil_r. auto.
  - assert (Nat.ltb request_limit (length (acc ++ b :: c)) = false) as -> by (apply Nat.ltb_ge; lia).
    destruct (IH (acc ++ b :: c)) as (init & last & rest & -> & H1 & H2 & H3); [done|lia|].
    exists ((b :: c) :: init), last, rest. cbn [concat]. rewrite <- ?app_assoc in *. rewrite H3. done.
Qed.

(** ** Properties *)

(** C29. A request that arrives over TLS in any pieces is read up to the piece that completes
    its announced body and not further, and then: an unreachable target gets nothing and
    the client a 502 answer; a reachable one gets the whole request, and what it answers
    first goes to the client before the two sides are joined, which a failure to write to the
    client prevents. *)
Theorem http_request_reaches_the_target_whole (show_error : error -> string) (s : proxy_service)
    (identity : Crypto.service_tls_identity) (request more : list byte) (chunks : list (list byte))
    (tail : list side_read) (client : option error) (t : target)
    (Htls : px_tls_config s = Some identity) (Hmode : px_tls_mode s = TlsHttp)
    (Hrequest : http_request request) (Hlimit : (length request <= request_limit)%nat)
    (Hchunks : Forall (fun c => c <> []) chunks) (Hall : concat chunks = request ++ more) :
  exists early, (early = [] \/ exists later, more = early ++ later) /\
  let p := proxy_stream_to_service show_error s (map ReadBytes chunks ++ tail) client t in
  match tg_connect t, tg_write t, tg_flush t with
  | Some e, _, _ => p = Proxied [] (service_unavailable_response show_error s e) false client
  | None, Some e, _ => p = Proxied [] (service_closed_response s (show_error e)) false client
  | None, None, Some e => p = Proxied (request ++ early) [] false (Some e)
  | None, None, None =>
      pd_error p = client /\ pd_to_target p = request ++ early /\
      match tg_reads t with
      | ReadBytes (b :: first) :: _ => pd_to_client p = b :: first /\ pd_joined p = bool_decide (client = None)
      | [] | ReadTimeout :: _ => pd_to_client p = service_timeout_response s /\ pd_joined p = false
      | ReadFailed e :: _ => pd_to_client p = service_closed_response s (show_error e) /\ pd_joined p = false
      | ReadBytes [] :: _ => pd_to_client p
          = service_closed_response s "service target closed before returning a response" /\ pd_joined p = false
      end
  end.
Proof.
  assert (0 < length request)%nat as Hpos.
  { destruct Hrequest as (k & h & Hp & _). destruct request; [discriminate Hp|simpl; lia]. }
  destruct (read_request_chunks (px_id s) request more tail chunks [] Hrequest Hlimit Hchunks Hall Hpos)
    as (init & last & rest & Hsplit & _ & Hge & Hread).
  simpl in Hge, Hread.
  assert (exists early later, concat init ++ last = request ++ early /\ more = early ++ later) as (early & later & He & Hm).
  { exists (drop (length request) (concat init ++ last)), (concat rest). rewrite Hsplit, concat_app in Hall. simpl in Hall.
    rewrite app_assoc in Hall. split.
    - rewrite <- (take_drop (length request) (concat init ++ last)) at 1. f_equal.
      apply (f_equal (take (length request))) in Hall. rewrite take_app_length, take_app_le in Hall by done. done.
    - apply (f_equal (drop (length request))) in Hall. rewrite drop_app_length, drop_app_le in Hall by done. done. }
  exists early. split; [right; eauto|]. cbv zeta. unfold proxy_stream_to_service. rewrite Htls, Hmode, Hread, He.
  unfold answer_client. destruct (tg_connect t) as [e|]; [by destruct client|]. destruct (tg_write t) as [e|]; [by destruct client|].
  destruct (tg_flush t) as [e|]; [done|]. by destruct (tg_reads t) as [|[[|b first]|e|] reads], client.
Qed.

Definition toy_request : list byte :=
  bytes_of ("POST / HTTP/1.1" +:+ crlf +:+ "Content-Length: 5" +:+ crlf +:+ crlf +:+ "hello").
Definition toy_web : proxy_service :=
  ProxyService "svc_web" "http" "127.0.0.1:80" (Some (Crypto.ServiceTlsIdentity "c" "k")) TlsHttp.
Lemma http_request_reaches_the_target_whole_witness :
  exists early, (early = [] \/ exists later, bytes_of "next" = early ++ later) /\
  let p := proxy_stream_to_service (fun _ => EmptyString) toy_web
             (map ReadBytes [take 10 toy_request; drop 10 toy_request ++ bytes_of "ne"; bytes_of "xt"] ++ []) None
             (Target None None None [ReadBytes (bytes_of "HTTP/1.1 200 OK")]) in
  pd_error p = None /\ pd_to_target p = toy_request ++ early /\
  pd_to_client p = bytes_of "HTTP/1.1 200 OK" /\ pd_joined p = true.
Proof.
  refine (@http_request_reaches_the_target_whole (fun _ => EmptyString) toy_web (Crypto.ServiceTlsIdentity "c" "k")
    toy_request (bytes_of "next") [take 10 toy_request; drop 10 toy_request ++ bytes_of "ne"; bytes_of "xt"] [] None
    (Target None None None [ReadBytes (bytes_of "HTTP/1.1 200 OK")]) eq_refl eq_refl _ _ _ _).
  - exists 34%nat, ("POST / HTTP/1.1" +:+ crlf +:+ "Content-Length: 5"). split_and!; vm_compute; reflexivity.
  - apply (bool_decide_unpack _). vm_compute. exact I.
  - repeat constructor; discriminate.
  - vm_compute. reflexivity.
Defined.
