(* ===== verification/NodeLinks.v ===== *)
(** * The links of a home node

    [services/home-node/src/proxy.rs]: the sockets a node keeps open to a relay, the loop
    that accepts TCP connections and the one that accepts UDP sessions.  Here the parts
    meet: what a client wrote with a grant of the control plane ([ControlPlane.v],
    [MediumSession.v]) goes through the relay ([Relay.v]) to the node ([HomeNode.v]).

    Tokio's sockets and its [copy_bidirectional] are not part of the repository: a socket is
    what arrives on it, and a paired client's bytes arrive at the node as they were left
    after its relay hello. *)

From S2P Require Import Prelude RustStd NetAddr Protocol PinnedHttp Crypto Samples Net Rendezvous UdpPacket UdpSession UdpListener Relay Registry ControlPlane MediumSession HomeNode.

(** ** The sockets to a relay *)

(** A TCP connection to a relay: the outcome of the write of the hello, when reading the
    session hello ends (counted from that write), and the bytes that arrive. *)
Record relay_socket := RelaySocket {
  rk_write : option io_kind;
  rk_settled_after : option Z;
  rk_input : list byte
}.

Section RelayLinks.
Context `{TokenEnv} `{Json session_hello} `{Json relay_hello}.
Context (services : gmap string proxy_service).

(** [now] is when the hello is read. *)
Definition handle_relay_connection (now : Z) (expected_node_id shared_secret : string) (idle_timeout : Z)
    (inbound : relay_socket) : result (proxy_service * list byte) :=
  if in_time idle_timeout (rk_settled_after inbound)
  then HomeNode.handle_connection now services expected_node_id shared_secret (rk_input inbound)
  else Err (EMsg ("relay node socket idle lease expired after " +:+ show_duration idle_timeout)).

(** What was written to the relay, and the session that came of it. *)
Definition connect_relay_once_with_idle_timeout (tcp_connect : string -> result relay_socket) (now : Z)
    (cfg : node_config) (shared_secret relay_addr : string) (idle_timeout : Z)
    : list byte * result (proxy_service * list byte) :=
  match tcp_connect relay_addr with
  | Err e => ([], Err e)
  | Ok stream =>
      match write_json_line (RelayNode (nc_node_id cfg) shared_secret) with
      | Err e => ([], Err e)
      | Ok hello =>
          match rk_write stream with
          | Some k => ([], Err (EIo k))
          | None => (hello, handle_relay_connection now (nc_node_id cfg) shared_secret idle_timeout stream)
          end
      end
  end.
Definition connect_relay_once (tcp_connect : string -> result relay_socket) (now : Z) (cfg : node_config)
    (shared_secret relay_addr : string) : list byte * result (proxy_service * list byte) :=
  connect_relay_once_with_idle_timeout tcp_connect now cfg shared_secret relay_addr RELAY_NODE_IDLE_LEASE.

(** The TLS connector of a WebSocket relay: pinned when the configuration has a pin. *)
Definition wss_connector (cfg : node_config) : result (option pinned_cert_verifier) :=
  match nc_control_pin cfg with
  | Some control_pin => Some <$> pinned_tls_client_config control_pin
  | None => Ok None
  end.
(** [ws_connect] is [connect_async_tls_with_config]. *)
Definition connect_wss_relay_once_with_services
    (ws_connect : string -> option pinned_cert_verifier -> result websocket) (now : Z) (hello_after : option Z)
    (cfg : node_config) (shared_secret relay_url : string) : result (list frame * result (proxy_service * list byte * result unit)) :=
  connector ← wss_connector cfg;
  ws ← ws_connect relay_url connector;
  hello ← to_vec (RelayNode (nc_node_id cfg) shared_secret);
  ws ← ws_send_on ws (FText hello);
  Ok (ws_out ws, HomeNode.handle_wss_connection now services (nc_node_id cfg) shared_secret hello_after (ws_in ws)).

(** ** Accepting TCP connections *)

(** What [select!] of [run_tcp_proxy_with_shutdown] sees: the shutdown, or an accepted
    connection with the time its hello is read. *)
Inductive proxy_event := ProxyShutdown | ProxyAccepted (now : Z) (stream : result (list byte)).

(** The connections handled, how the loop ended, and whether the UDP listener is still told
    to run.  The task of a connection only logs its error. *)
Fixpoint run_tcp_proxy (node_id shared_secret : string) (events : list proxy_event)
    : list (result (proxy_service * list byte)) * option (result unit) * bool :=
  match events with
  | [] => ([], None, true)
  | ProxyShutdown :: _ => ([], Some (Ok tt), false)
  | ProxyAccepted now (Err error) :: _ => ([], Some (Err error), true)
  | ProxyAccepted now (Ok stream) :: rest =>
      let '(handled, ended, udp_running) := run_tcp_proxy node_id shared_secret rest in
      (HomeNode.handle_connection now services node_id shared_secret stream :: handled, ended, udp_running)
  end.
End RelayLinks.

(** ** Accepting UDP sessions *)

(** [is_timeout]: some cause of the error is an I/O error of these kinds. *)
Definition is_timeout (e : error) : bool :=
  match e with EIo WouldBlock | EIo TimedOut => true | _ => false end.

(** The thread that accepts and the listener's reader, in any interleaving.  [nu_ended] is
    what [run_udp_session_listener] returned; it drops the listener, which clears
    [nu_running], so that the reader ends after the round it is in, and closes the
    queue. *)
Record node_udp := NodeUdp {
  nu_listener : listener;
  nu_reading : bool;
  nu_running : bool;
  nu_bridged : list accepted_session;
  nu_ended : option (result unit)
}.
Inductive udp_event :=
  (** A round of the reader; the outcome of its [try_clone]. *)
  | UdpReader (cloned : option io_kind)
  (** A round of the accepting loop; whether the node still runs. *)
  | UdpAccept (running : bool).

Definition udp_stop (r : result unit) (u : node_udp) : node_udp :=
  let l := nu_listener u in
  NodeUdp (Listener (ls_net l) (ls_recent l) (ls_active l) (ls_queues l) [] false) (nu_reading u) false
    (nu_bridged u) (Some r).

Section NodeUdp.
Context `{Json udp_rendezvous_message} `{Json session_hello} `{Sha256}.

(** [UdpSessionListener::accept]: an empty queue whose sender is gone is an error. *)
Definition accept_next (u : node_udp) : result accepted_session * listener :=
  match ls_incoming (nu_listener u), nu_reading u with
  | [], false => (Err (EMsg "UDP session listener stopped"), nu_listener u)
  | _, _ => UdpListener.accept (nu_listener u)
  end.

Definition udp_step (u : node_udp) (ev : udp_event) : node_udp :=
  match ev with
  | UdpReader cloned =>
      if nu_reading u then
        let '(l, continue) := listener_step cloned (nu_listener u) in
        NodeUdp l (continue && nu_running u) (nu_running u) (nu_bridged u) (nu_ended u)
      else u
  | UdpAccept running =>
      match nu_ended u with
      | Some _ => u
      | None =>
          if running then
            let '(accepted, l) := accept_next u in
            match accepted with
            | Ok session => NodeUdp l (nu_reading u) (nu_running u) (nu_bridged u ++ [session]) None
            | Err error =>
                if is_timeout error then NodeUdp l (nu_reading u) (nu_running u) (nu_bridged u) None
                else udp_stop (Err error) u
            end
          else udp_stop (Ok tt) u
      end
  end.
Definition run_udp_session_listener (u : node_udp) (events : list udp_event) : node_udp :=
  fold_left udp_step events u.
Definition udp_started (socket : net) : node_udp :=
  NodeUdp (Listener socket [] ∅ [] [] true) true true [] None.
End NodeUdp.

(** ** The agent *)

(** [services/home-node/src/agent.rs]: what the agent does before it serves, and what it then
    serves with. *)
Section Agent.
Context `{Json register_node_request}.
Context (env : string -> option string) (server_name_ok : string -> bool).
Context (url_parse : string -> option url) (url_with : url -> string -> string -> string).

(** The POST itself, pinned ([exchange], of [PinnedHttp.v]) or by reqwest ([plain_post]),
    happens in a world [W]. *)
Context {W : Type} (sleep : Z -> eff W unit).
Context (exchange : string -> string -> pinned_cert_verifier -> list byte -> eff W (list byte)).
Context (plain_post : string -> register_node_request -> eff W unit).

Definition register_node (control_url : string) (control_pin : option string)
    (registration : register_node_request) : eff W unit :=
  let register_url := trim_end_matches "/" control_url +:+ "/api/nodes/register" in
  match control_pin with
  | Some pin => post_json_no_content_in url_parse server_name_ok exchange register_url pin registration
  | None => plain_post register_url registration
  end.

Record serving := ServingWith { sw_shared_secret : string; sw_connectors : list connector }.
Definition agent_shared_secret (cfg : node_config) : string :=
  default "local-dev-secret" (first_of (nc_shared_secret cfg) (env "OVERLAY_SHARED_SECRET")).
(** [run_with_shutdown] up to [run_tcp_proxy_with_shutdown]. *)
Definition run_with_shutdown (cfg : node_config) (registration : register_node_request) : eff W serving :=
  let control_url := first_of (nc_control_url cfg) (env "OVERLAY_CONTROL_URL") in
  let control_pin := first_of (nc_control_pin cfg) (env "MEDIUM_CONTROL_PIN") in
  _ ← match control_url with
      | Some control_url =>
          registered ← attempt (register_node_with_retry (register_node control_url control_pin registration) sleep);
          match registered with
          | Ok _ => mret tt
          | Err _ => throw (EMsg ("register node " +:+ nc_node_id cfg +:+ " with control-plane"))
          end
      | None => mret tt
      end;
  mret (ServingWith (agent_shared_secret cfg) (configured_connectors env url_parse url_with cfg)).
End Agent.

(** ** Lemmas: the UDP listener *)

Section NodeUdpFacts.
Context `{Json udp_rendezvous_message} `{Json session_hello} `{Sha256}.

Definition arrivals (l : listener) : nat := length (n_recv (ls_net l)).

Lemma arrivals_send_incoming r l : arrivals (send_incoming r l).1 = arrivals l.
Proof. unfold send_incoming. by destruct (ls_open l). Qed.
Lemma arrivals_route p a l : arrivals (route_packet p a l) = arrivals l.
Proof. unfold route_packet. by destruct (ls_active l !! a). Qed.
Lemma arrivals_handle_hello cloned p hello a l : arrivals (handle_hello cloned p hello a l).1 = arrivals l.
Proof.
  unfold handle_hello. destruct (is_duplicate_handshake _ _ _) as [recent dup].
  destruct (send_ack_burst _ _ _) as [ack n] eqn:E.
  apply (receives_ack_burst (n_recv (ls_net l))) in E; [|done]. unfold receives in E.
  destruct ack as [[]|e]; [|by cbn [fst]; rewrite arrivals_send_incoming; unfold arrivals; simpl; rewrite E].
  destruct dup; [by unfold arrivals; simpl; rewrite E|].
  destruct cloned as [k|]; [by cbn [fst]; rewrite arrivals_send_incoming; unfold arrivals; simpl; rewrite E|].
  destruct (accepted _ _ _ _ _) as [r n2] eqn:E2. apply (receives_accepted (n_recv (ls_net l))) in E2; [|done].
  unfold receives in E2. destruct r as [st|e]; cbn [fst]; rewrite arrivals_send_incoming; unfold arrivals; simpl; by rewrite E2.
Qed.
(** A round of the reader takes at most one datagram. *)
Lemma listener_step_arrivals cloned l : (arrivals l <= S (arrivals (listener_step cloned l).1))%nat.
Proof.
  unfold listener_step. destruct (recv_from MAX_PACKET_LEN (ls_net l)) as [r n] eqn:E.
  assert (arrivals l <= S (arrivals (ls_set_net n l)))%nat as Hn.
  { unfold arrivals. unfold recv_from in E. destruct (n_recv (ls_net l)); injection E as _ <-; simpl; lia. }
  destruct r as [[payload a]|e].
  - destruct (decode_packet payload) as [p|e].
    + destruct (pk_kind p); cbn [fst]; try (by rewrite arrivals_route).
      destruct (from_slice _) as [hello|e]; [by rewrite arrivals_handle_hello|by cbn [fst]; rewrite arrivals_send_incoming].
    + destruct (handle_listener_message _ _) as [r2 n2] eqn:E2.
      apply (receives_listener_message (n_recv n)) in E2; [|done].
      unfold arrivals in *. simpl in *. by rewrite E2.
  - destruct (is_retry_kind e); [done|by cbn [fst]; rewrite arrivals_send_incoming].
Qed.

(** Once the accepting loop has returned, it stays so: no session is bridged any more, and
    the reader takes at most the datagram of the round it is in. *)
Lemma run_over u events :
  nu_running u = false -> is_Some (nu_ended u) ->
  let u' := run_udp_session_listener u events in
  nu_ended u' = nu_ended u /\ nu_bridged u' = nu_bridged u /\
  (arrivals (nu_listener u) <= arrivals (nu_listener u') + (if nu_reading u then 1 else 0))%nat.
Proof.
  cbv zeta. revert u; induction events as [|ev events IH]; intros u Hrun [r Hend]; cbn [run_udp_session_listener fold_left].
  { split_and!; [done|done|lia]. }
  destruct ev as [cloned|running]; cbn [udp_step].
  - destruct (nu_reading u) eqn:Er; [|specialize (IH u Hrun ltac:(by exists r)); by rewrite Er in IH].
    pose proof (listener_step_arrivals cloned (nu_listener u)) as Ha.
    destruct (listener_step cloned (nu_listener u)) as [l continue]. rewrite Hrun, andb_false_r.
    destruct (IH (NodeUdp l false false (nu_bridged u) (nu_ended u)) eq_refl ltac:(by exists r)) as (H1' & H2' & H3').
    cbn [nu_ended nu_bridged nu_listener nu_reading fst] in *. split_and!; [done|done|]. unfold run_udp_session_listener in H3'. lia.
  - rewrite Hend. specialize (IH u Hrun ltac:(by exists r)). by rewrite Hend in IH.
Qed.
End NodeUdpFacts.

(** ** Lemmas: through the relay *)

(** A node that waits and a client that then asks for it are paired, whatever else the
    relay's pools hold: the last node to come is taken first. *)
Lemma relay_pairs_next secret r id n t1 client t2 t3 :
  t3 - t1 <= RELAY_NODE_SOCKET_TTL ->
  rs_pairs (run_relay (Some secret) r
    [EvHello t1 n (Ok (RelayNode id secret)); EvHello t2 client (Ok (RelayClient id)); EvPoll t3 client])
  = rs_pairs r ++ [Pairing client n id t3].
Proof.
  intros Ht. cbn [run_relay fold_left relay_step].
  assert (Relay.handle_connection (Some secret) t1 n (Ok (RelayNode id secret)) r
    = Ok (RelayState (push_waiting id (WaitingNode t1 n) (rs_waiting r)) (rs_clients r) (rs_pairs r))) as ->.
  { unfold Relay.handle_connection, mbind, result_bind. cbn [ok_or]. by rewrite bool_decide_eq_true_2. }
  cbn [Relay.handle_connection mbind result_bind rs_waiting rs_clients rs_pairs].
  unfold poll_client. cbn [rs_clients]. rewrite lookup_insert_eq. unfold take_waiting, push_waiting.
  cbn [rs_waiting]. rewrite lookup_insert_eq. cbn [pop_fresh wn_connected_at wn_stream].
  rewrite (proj2 (Z.leb_le _ _)); [done|]. unfold RELAY_NODE_SOCKET_TTL in *. unfold secs in *. lia.
Qed.

(** A hello line is read back with what follows it. *)
Lemma hello_line_read {A} `{JsonOk A} (value : A) payload line rest :
  to_vec value = Ok payload -> (length payload <= hello_limit)%nat -> write_json_line value = Ok line ->
  read_json_line (line ++ rest) = Ok (value, rest).
Proof.
  intros Hp Hlen Hw. apply read_json_line_written; [done|]. unfold write_json_line in Hw. rewrite Hp in Hw.
  injection Hw as <-. rewrite length_app. simpl. lia.
Qed.
(** What follows a line that was read may go on. *)
Lemma read_line_more line input out rest more :
  read_line line input = Ok (out, rest) -> read_line line (input ++ more) = Ok (out, rest ++ more).
Proof.
  revert line; induction input as [|b input IH]; intros line; cbn [read_line app]; [done|].
  case_bool_decide; [by intros [= <- <-]|]. destruct (Nat.ltb _ _); [done|apply IH].
Qed.
Lemma read_json_line_more {A} `{Json A} input (value : A) rest more :
  read_json_line input = Ok (value, rest) -> read_json_line (input ++ more) = Ok (value, rest ++ more).
Proof.
  unfold read_json_line. intros Hr. apply bind_ok in Hr as ([line r] & Hl & Hr).
  rewrite (read_line_more _ _ _ _ more Hl). unfold mbind, result_bind in *.
  destruct (bail_if _ _); [|done]. destruct (from_slice line); [|done]. by injection Hr as <- <-.
Qed.
Lemma handle_connection_of_hello `{TokenEnv} `{Json session_hello} now services node secret input hello rest :
  read_json_line input = Ok (hello, rest) ->
  HomeNode.handle_connection now services node secret input
  = (service ← authorize_session now services node secret hello; Ok (service, rest)).
Proof. intros Hr. unfold HomeNode.handle_connection. by rewrite Hr. Qed.

(** Tungstenite's frames as axum's, and back. *)
Definition ws_of (f : frame) : ws_message :=
  match f with
  | FText payload => WsText payload
  | FBinary payload => WsBinary payload
  | FClose => WsClose
  | _ => WsOther
  end.
Definition frame_of (m : ws_message) : frame :=
  match m with
  | WsText payload => FText payload
  | WsBinary payload => FBinary payload
  | WsClose => FClose
  | WsOther => FRaw []
  end.
Lemma forward_binaries pieces :
  (forward_direction (map (fun p => Ok (WsBinary p)) pieces)).1 = map WsBinary pieces.
Proof.
  induction pieces as [|p pieces IH]; [done|]. cbn [map forward_direction].
  destruct (forward_direction _) as [sent ended]. simpl in *. by rewrite IH.
Qed.

Lemma read_line_no_newline line input out rest :
  newline ∉ line -> read_line line input = Ok (out, rest) -> newline ∉ out.
Proof.
  revert line; induction input as [|b input IH]; intros line Hn; cbn [read_line]; [done|].
  case_bool_decide as Hb; [by intros [= <- <-]|]. destruct (Nat.ltb _ _); [done|]. apply IH. set_solver.
Qed.
(** The line that was read: not empty, and with no line feed of its own. *)
Lemma read_json_line_whole {A} `{Json A} input (value : A) rest :
  read_json_line input = Ok (value, rest) ->
  exists line, input = line ++ newline :: rest /\ (newline ∉ line) /\ line <> [] /\
    (length line <= hello_limit)%nat /\ from_slice line = Ok value.
Proof.
  unfold read_json_line. intros Hr. apply bind_ok in Hr as ([line r] & Hl & Hr).
  apply bind_ok in Hr as ([] & Hne & Hr). apply bind_ok in Hr as (v & Hv & Hr). injection Hr as -> ->.
  assert (newline ∉ line) as Hn by (eapply read_line_no_newline; [|exact Hl]; apply not_elem_of_nil).
  apply read_line_bound in Hl as [Hlen Heq]; [|simpl; lia]. exists line. split_and!; try done.
  intros ->. done.
Qed.
(** A session hello in one frame, and the data in any others. *)
Lemma handle_wss_of_hello `{TokenEnv} `{Json session_hello} now services node secret wait frame0 hello pieces :
  read_json_line frame0 = Ok (hello, []) -> wait <= RELAY_NODE_IDLE_LEASE ->
  handle_wss_connection now services node secret (Some wait) (binary_frames (frame0 :: pieces))
  = (service ← authorize_session now services node secret hello; Ok (service, concat pieces, Ok tt)).
Proof.
  intros Hr Hwait. apply read_json_line_whole in Hr as (line & -> & Hn & Hne & Hlen & Hv).
  destruct (read_wss_pieces ((line ++ [newline]) :: pieces) [] line (concat pieces))
    as (remaining & pieces' & Hrest & Hread); [done|done|done|simpl; lia| |].
  { simpl. by rewrite <- app_assoc. }
  unfold handle_wss_connection. cbn [in_time]. rewrite (proj2 (Z.leb_le _ _) Hwait), Hread, Hv. unfold mbind, result_bind.
  destruct (authorize_session _ _ _ _ _); [|done]. rewrite ws_to_tcp_binary. by rewrite Hrest.
Qed.

(** The enabled services of a configuration whose registration was taken have distinct ids. *)
Lemma registered_ids_are_distinct getifaddrs cfg db db' c c' :
  Registry.register_node (build_registration getifaddrs cfg) db = (Ok tt, db') ->
  c' ∈ nc_services cfg -> sc_enabled c' = true -> c ∈ nc_services cfg -> sc_enabled c = true -> sc_id c' = sc_id c ->
  c' = c.
Proof.
  intros Hreg Hc' Hen' Hc Hen Hid.
  destruct (register_node_spec (build_registration getifaddrs cfg) db) as [[Hnd _]|[_ [e He]]]; [|congruence].
  cbn [rn_services build_registration] in Hnd. rewrite map_map in Hnd.
  assert (c ∈ List.filter sc_enabled (nc_services cfg) /\ c' ∈ List.filter sc_enabled (nc_services cfg)) as [H1 H2]
    by (rewrite !elem_of_List_filter; tauto).
  apply list_elem_of_lookup in H1 as [i Hi]. apply list_elem_of_lookup in H2 as [j Hj].
  assert (i = j) as ->; [|congruence]. apply (proj1 (NoDup_alt _) Hnd i j (sc_id c)).
  - change (map ?f ?l) with (f <$> l). rewrite list_lookup_fmap, Hi. done.
  - change (map ?f ?l) with (f <$> l). rewrite list_lookup_fmap, Hj. simpl. by rewrite Hid.
Qed.

(** ** From a grant to the service *)

Section Reaches.
Context `{TokenEnv} `{Json session_hello} `{Json relay_hello}.

(** The relay pairs the two connections when the node's hello comes first and is fresh. *)
Definition paired_by (secret node_id : string) (node_hello client_hello : result relay_hello) : Prop :=
  forall r n t1 client t2 t3, t3 - t1 <= RELAY_NODE_SOCKET_TTL ->
    rs_pairs (run_relay (Some secret) r [EvHello t1 n node_hello; EvHello t2 client client_hello; EvPoll t3 client])
    = rs_pairs r ++ [Pairing client n node_id t3].

(** What becomes, at a node, of a connection the client made to a candidate and then wrote
    [data] to: its own listener reads it; a relay reads the client's hello and forwards the
    rest to a socket the node keeps open. *)
Definition session_reaches (services : gmap string proxy_service) (cfg : node_config) (secret : string)
    (now : Z) (c : peer_candidate) (stream : session_stream) (data : list byte) (service : proxy_service) : Prop :=
  let node_id := nc_node_id cfg in
  match pc_kind c, stream with
  | DirectTcp, STcp t =>
      run_tcp_proxy services node_id secret [ProxyAccepted now (Ok (tcp_sent t ++ data))]
      = ([Ok (service, data)], None, true)
  | RelayTcp, STcp t =>
      exists forwarded, read_json_line (tcp_sent t ++ data) = Ok (RelayClient node_id, forwarded) /\
        forall tcp_connect relay_addr wait,
          tcp_connect relay_addr = Ok (RelaySocket None (Some wait) forwarded) -> wait <= RELAY_NODE_IDLE_LEASE ->
          exists sent, connect_relay_once services tcp_connect now cfg secret relay_addr = (sent, Ok (service, data)) /\
            paired_by secret node_id (fst <$> read_json_line sent) (fst <$> read_json_line (tcp_sent t ++ data))
  | WssRelay, SWss w =>
      exists hello frames, ws_out (wss_socket w) = hello :: frames /\
        forall pieces ws_connect relay_url pin ws wait,
          concat pieces = data -> wss_connector cfg = Ok pin -> ws_connect relay_url pin = Ok ws ->
          ws_sends ws = [] -> ws_out ws = [] -> wait <= RELAY_NODE_IDLE_LEASE ->
          ws_in ws = map (fun m => Ok (frame_of m))
            (forward_direction (map (fun f => Ok (ws_of f)) frames ++ map (fun p => Ok (WsBinary p)) pieces)).1 ->
          exists sent, connect_wss_relay_once_with_services services ws_connect now (Some wait) cfg secret relay_url
                       = Ok (sent, Ok (service, data, Ok tt)) /\
            paired_by secret node_id (read_wss_relay_hello (map (fun f => Ok (ws_of f)) sent))
              (read_wss_relay_hello (map (fun f => Ok (ws_of f)) (hello :: frames)))
  | _, _ => False
  end.
End Reaches.

(** ** Lemmas: registering *)

(** [n] attempts in a row that fail, each with its pause. *)
Inductive tried {W} (register : eff W unit) (sleep : Z -> eff W unit) : nat -> W -> W -> Prop :=
  | tried_none w : tried register sleep 0 w w
  | tried_once n w e w1 w2 w3 :
      register w = (Err e, w1) -> sleep (millis 250) w1 = (Ok tt, w2) -> tried register sleep n w2 w3 ->
      tried register sleep (S n) w w3.
Lemma register_loop_tried {W} (register : eff W unit) (sleep : Z -> eff W unit) n last w r w' :
  (forall w, exists w1, sleep (millis 250) w = (Ok tt, w1)) -> register_loop register sleep n last w = (r, w') ->
  match r with
  | Ok _ => exists k w1, (k < n)%nat /\ tried register sleep k w w1 /\ register w1 = (Ok tt, w')
  | Err _ => tried register sleep n w w'
  end.
Proof.
  intros Hsleep. revert last w; induction n as [|n IH]; intros last w; cbn [register_loop].
  { intros [= <- <-]. constructor. }
  unfold mbind, eff_bind at 1, attempt. destruct (register w) as [[[]|e] w1] eqn:E.
  - intros [= <- <-]. exists 0%nat, w. split_and!; [lia|constructor|done].
  - destruct (Hsleep w1) as [w2 Hs]. unfold eff_bind. rewrite Hs. intros Hr. apply IH in Hr.
    destruct r as [[]|e1]; [|by econstructor]. destruct Hr as (k & w3 & Hk & Ht & Hok).
    exists (S k), w3. split_and!; [lia|by econstructor|done].
Qed.

(** ** Properties *)

(** A session the control plane grants reaches the service it was asked for, over every kind
    of candidate: whatever connection the client gets to a direct, a relay or a WebSocket
    relay candidate, the node accepts it as a session to the granted service and the
    service is given exactly the bytes the client writes next; a relay pairs the client
    with a socket of that node. *)
Theorem granted_sessions_reach_the_service
    `{TokenOk} `{JsonOk session_hello} `{JsonOk relay_hello}
    (to_socket_addrs : string -> result (list socket_addr)) (url_parse : string -> option url)
    (t0 now : Z) (uuids : string * string * string) (request : session_open_request) (s : control_state)
    (g : session_open_grant) (pin : option string) (c : peer_candidate) (d d' : dialer) (stream : session_stream)
    (services : gmap string proxy_service) (cfg : node_config) (service : proxy_service) (data payload : list byte)
    (Hgrant : issue_session_grant t0 uuids request s = Ok g)
    (Hconnected : connect_session_candidate to_socket_addrs url_parse g pin c d = (Ok stream, d'))
    (Hnode : nc_node_id cfg = sg_node_id g) (Hservice : services !! sg_service_id g = Some service)
    (Hnow : now <= t0 + minutes 15)
    (Hshort1 : forall p, to_vec (hello_of g) = Ok p -> (length p <= hello_limit)%nat)
    (Hshort2 : forall p, to_vec (RelayClient (sg_node_id g)) = Ok p -> (length p <= hello_limit)%nat)
    (Hpayload : to_vec (RelayNode (nc_node_id cfg) (cs_shared_secret s)) = Ok payload)
    (Hshort3 : (length payload <= hello_limit)%nat) :
  session_reaches services cfg (cs_shared_secret s) now c stream data service.
Proof.
  destruct (grant_token _ _ _ _ _ Hgrant) as [sid Htoken].
  pose proof (granted_hello_authorized now _ _ _ _ _ _ services service Htoken Hservice) as Hauth.
  rewrite (proj2 (Z.leb_le _ _)) in Hauth by done. change (SessionHello _ _ None) with (hello_of g) in Hauth.
  pose proof (candidate_hellos _ _ _ _ _ _ _ _ Hshort1 Hshort2 Hconnected) as Hsent.
  unfold session_reaches. unfold hellos_sent in Hsent. rewrite Hnode. destruct (pc_kind c), stream; try done.
  - cbn [run_tcp_proxy]. rewrite (handle_connection_of_hello _ _ _ _ _ _ _ (read_json_line_more _ _ _ data Hsent)).
    by rewrite Hauth.
  - destruct Hsent as (rest & Hclient & Hhello). exists (rest ++ data).
    pose proof (read_json_line_more _ _ _ data Hclient) as Hread. split; [done|].
    intros tcp_connect relay_addr wait Htcp Hwait. unfold connect_relay_once, connect_relay_once_with_idle_timeout.
    rewrite Htcp, Hnode in *. unfold write_json_line. rewrite Hpayload. cbn [rk_write mbind result_bind].
    eexists. split.
    + unfold handle_relay_connection. cbn [rk_settled_after rk_input in_time]. rewrite (proj2 (Z.leb_le _ _)) by done.
      rewrite (handle_connection_of_hello _ _ _ _ _ _ _ (read_json_line_more _ _ _ data Hhello)). by rewrite Hauth.
    + intros r n t1 client t2 t3 Ht. rewrite Hread.
      rewrite <- (app_nil_r (payload ++ [newline])).
      rewrite (hello_line_read (RelayNode (sg_node_id g) (cs_shared_secret s)) payload (payload ++ [newline]));
        [by apply relay_pairs_next|done|done|]. unfold write_json_line. by rewrite Hpayload.
  - destruct Hsent as (relay_bytes & line & Hout & _ & Hclient & Hhello).
    exists (FText relay_bytes), [FBinary line]. split; [done|].
    intros pieces ws_connect relay_url v ws wait Hdata Hpin Hws Hsends Hempty Hwait Hin.
    unfold connect_wss_relay_once_with_services. rewrite Hpin. unfold mbind, result_bind. rewrite Hws, Hnode in *.
    rewrite Hpayload. unfold ws_send_on, ws_send. rewrite Hsends.  cbn [ws_out ws_in]. rewrite Hempty, Hin.
    eexists. split.
    + change (map (fun f => Ok (ws_of f)) [FBinary line] ++ map (fun p => Ok (WsBinary p)) pieces)
        with (map (fun p => Ok (WsBinary p)) (line :: pieces)).
      rewrite forward_binaries, map_map. cbn [frame_of].
      fold (binary_frames (line :: pieces)). rewrite (handle_wss_of_hello _ _ _ _ _ _ _ _ Hhello Hwait), Hauth.
      cbn [mbind result_bind]. by rewrite Hdata.
    + intros r n t1 client t2 t3 Ht. cbn [map app ws_of read_wss_relay_hello mbind result_bind].
      rewrite Hclient, (json_roundtrip _ _ Hpayload). by apply relay_pairs_next.
Qed.

(** A service that a node publishes can be reached.  When the registration of a node's
    configuration was taken, a grant for one of its enabled services leads, over every kind
    of candidate and for fifteen minutes, to that service of the configuration, which is
    given exactly the bytes the client writes after its hellos. *)
Theorem published_services_are_reachable
    `{TokenOk} `{JsonOk session_hello} `{JsonOk relay_hello}
    `{Json service_certificate_request} `{Json service_certificate_response}
    (env : string -> option string)
    (signed_by : string -> string -> string -> list string -> result generated_cert)
    (url_parse : string -> option url) (server_name_ok : string -> bool)
    (exchange : string -> string -> pinned_cert_verifier -> list byte -> result (list byte))
    (server_config_ok : service_tls_identity -> result unit)
    (to_socket_addrs : string -> result (list socket_addr)) (getifaddrs : result (list ifaddrs))
    (t0 now : Z) (uuids : string * string * string) (cfg : node_config) (c : service_config)
    (db : database) (s : control_state) (device : string) (g : session_open_grant) (pin : option string)
    (candidate : peer_candidate) (d d' : dialer) (stream : session_stream)
    (services : gmap string proxy_service) (data payload : list byte)
    (Hregistered : Registry.register_node (build_registration getifaddrs cfg) db = (Ok tt, cs_registry s))
    (Hpublished : c ∈ nc_services cfg /\ sc_enabled c = true)
    (Hservices : proxy_services_from_config env signed_by url_parse server_name_ok exchange server_config_ok
       cfg (cs_shared_secret s) = Ok services)
    (Hgrant : issue_session_grant t0 uuids (SessionOpenRequest (sc_id c) device (Some (nc_node_id cfg))) s = Ok g)
    (Hconnected : connect_session_candidate to_socket_addrs url_parse g pin candidate d = (Ok stream, d'))
    (Hnow : now <= t0 + minutes 15)
    (Hshort1 : forall p, to_vec (hello_of g) = Ok p -> (length p <= hello_limit)%nat)
    (Hshort2 : forall p, to_vec (RelayClient (sg_node_id g)) = Ok p -> (length p <= hello_limit)%nat)
    (Hpayload : to_vec (RelayNode (nc_node_id cfg) (cs_shared_secret s)) = Ok payload)
    (Hshort3 : (length payload <= hello_limit)%nat) :
  exists service,
    service_of_config env signed_by url_parse server_name_ok exchange server_config_ok cfg (cs_shared_secret s) c service /\
    session_reaches services cfg (cs_shared_secret s) now candidate stream data service.
Proof.
  destruct Hpublished as [Hc Hen]. destruct (grant_names _ _ _ _ _ Hgrant) as [Hsid Hnode].
  specialize (Hnode _ eq_refl). cbn [so_service_id] in Hsid.
  unfold proxy_services_from_config in Hservices. apply insert_configs_spec in Hservices as (Hall & Hsome & _).
  destruct (Hsome c Hc Hen) as [service Hservice].
  destruct (Hall _ _ Hservice) as [Hs|(c' & Hc' & Hid & Hs)]; [by rewrite lookup_empty in Hs|].
  assert (c' = c) as ->.
  { eapply registered_ids_are_distinct; [exact Hregistered|done|by destruct Hs|done|done|done]. }
  exists service. split; [done|]. eapply granted_sessions_reach_the_service; try done. by rewrite Hsid.
Qed.

(** An agent with a control plane serves only when its registration was taken, after less than
    thirty failures; thirty failures in a row are its error.  It then serves with the secret
    and the relays of its configuration. *)
Theorem agents_serve_after_registering `{Json register_node_request} {W : Type}
    (env : string -> option string) (server_name_ok : string -> bool) (url_parse : string -> option url)
    (url_with : url -> string -> string -> string) (sleep : Z -> eff W unit)
    (exchange : string -> string -> pinned_cert_verifier -> list byte -> eff W (list byte))
    (plain_post : string -> register_node_request -> eff W unit)
    (cfg : node_config) (registration : register_node_request) (w w' : W) (r : result serving)
    (Hsleep : forall w, exists w1, sleep (millis 250) w = (Ok tt, w1))
    (Hrun : run_with_shutdown env server_name_ok url_parse url_with sleep exchange plain_post
       cfg registration w = (r, w')) :
  let register url := register_node server_name_ok url_parse exchange plain_post url
                        (first_of (nc_control_pin cfg) (env "MEDIUM_CONTROL_PIN")) registration in
  let control_url := first_of (nc_control_url cfg) (env "OVERLAY_CONTROL_URL") in
  match r with
  | Ok s =>
      s = ServingWith (agent_shared_secret env cfg) (configured_connectors env url_parse url_with cfg) /\
      match control_url with
      | Some url => exists k w1, (k < 30)%nat /\ tried (register url) sleep k w w1 /\ register url w1 = (Ok tt, w')
      | None => w' = w
      end
  | Err e => e = EMsg ("register node " +:+ nc_node_id cfg +:+ " with control-plane") /\
      exists url, control_url = Some url /\ tried (register url) sleep 30 w w'
  end.
Proof.
  cbv zeta. unfold run_with_shutdown in Hrun. destruct (first_of (nc_control_url cfg) _) as [url|].
  - unfold mbind, eff_bind, attempt in Hrun. set (register := register_node _ _ _ _ url _ _) in *.
    destruct (register_node_with_retry register sleep w) as [x w1] eqn:E.
    apply (register_loop_tried register sleep) in E; [|done]. destruct x as [[]|e]; injection Hrun as <- <-.
    + split; [done|]. destruct E as (k & w2 & ? & ? & ?). eauto.
    + eauto.
  - by injection Hrun as <- <-.
Qed.

(** C10. A datagram that anyone may send, a hello whose payload is not JSON, ends the node's UDP
    sessions for good: the accepting loop returns the parse error, so no later session is
    bridged, and the reader, which feeds the inboxes of the sessions that are open, takes
    at most one datagram more. *)
Theorem one_bad_hello_stops_udp_sessions
    `{Json udp_rendezvous_message} `{Json session_hello} `{Sha256}
    (u : node_udp) (dt : Z) (datagram : list byte) (from : socket_addr) (rest : list recv_event) (p : packet)
    (e : error) (cloned : option io_kind) (events : list udp_event)
    (Hreading : nu_reading u = true) (Hrunning : nu_running u = true) (Hended : nu_ended u = None)
    (Hopen : ls_open (nu_listener u) = true) (Hidle : ls_incoming (nu_listener u) = [])
    (Harrives : n_recv (ls_net (nu_listener u)) = RecvEvent dt (Got datagram from) :: rest)
    (Hpacket : decode_packet (take MAX_PACKET_LEN datagram) = Ok p) (Hkind : pk_kind p = Hello)
    (Hbad : from_slice (A:=session_hello) (pk_payload p) = Err e) (Hserde : is_timeout e = false) :
  let u' := run_udp_session_listener u (UdpReader cloned :: UdpAccept true :: events) in
  nu_ended u' = Some (Err e) /\ nu_bridged u' = nu_bridged u /\
  (length rest <= S (arrivals (nu_listener u')))%nat.
Proof.
  cbv zeta. cbn [run_udp_session_listener fold_left]. destruct u as [l reading running bridged ended].
  cbn [nu_listener nu_reading nu_running nu_bridged nu_ended] in *. subst reading running ended.
  set (l1 := ls_set_net (Net rest (n_send (ls_net l)) (n_sent (ls_net l)) (n_now (ls_net l) + dt)
                           (n_read_timeout (ls_net l))) l).
  assert (listener_step cloned l
    = (Listener (ls_net l1) (ls_recent l) (ls_active l) (ls_queues l) [Err e] true, true)) as Hstep.
  { unfold listener_step, recv_from. rewrite Harrives. cbn [ev_result ev_elapsed]. rewrite Hpacket, Hkind, Hbad.
    unfold send_incoming, ls_set_net. cbn [ls_open ls_incoming ls_net ls_recent ls_active ls_queues].
    by rewrite Hopen, Hidle. }
  cbn [udp_step nu_reading nu_listener]. rewrite Hstep.
  unfold udp_step at 1. cbn [nu_ended andb nu_running nu_bridged]. unfold accept_next, UdpListener.accept.
  cbn [nu_listener ls_incoming nu_reading nu_running]. rewrite Hserde.
  match goal with |- context [fold_left udp_step events ?u0] =>
    destruct (run_over u0 events eq_refl ltac:(by eexists)) as (H1' & H2' & H3') end.
  unfold run_udp_session_listener in *. split_and!; [exact H1'|exact H2'|].
  revert H3'. unfold arrivals at 1, udp_stop. cbn [nu_listener nu_reading ls_net ls_set_net l1 n_recv]. lia.
Qed.

(** The connections accepted before the shutdown, or before the first error of [accept], are
    handled, each by its own hello.  The shutdown also stops the UDP sessions; an error of
    [accept], which may concern one connection only, ends the node without that. *)
Theorem accept_errors_end_the_node `{TokenEnv} `{Json session_hello} (services : gmap string proxy_service)
    (node_id secret : string) (accepted : list (Z * list byte)) (last : proxy_event) (rest : list proxy_event) :
  let events := map (fun a => ProxyAccepted a.1 (Ok a.2)) accepted in
  let handled := map (fun a => HomeNode.handle_connection a.1 services node_id secret a.2) accepted in
  (last = ProxyShutdown ->
     run_tcp_proxy services node_id secret (events ++ last :: rest) = (handled, Some (Ok tt), false)) /\
  (forall now e, last = ProxyAccepted now (Err e) ->
     run_tcp_proxy services node_id secret (events ++ last :: rest) = (handled, Some (Err e), true)).
Proof.
  cbv zeta. split.
  - intros ->. induction accepted as [|[now stream] accepted IH]; [done|]. cbn [map app run_tcp_proxy fst snd]. by rewrite IH.
  - intros now e ->. induction accepted as [|[now' stream] accepted IH]; [done|]. cbn [map app run_tcp_proxy fst snd]. by rewrite IH.
Qed.

(** The relay keeps a node's socket for as long as the node does, but counts from later: from
    when it read the hello, not from when the node wrote it.  So in the last moments the
    relay still pairs a client with a socket the node has given up. *)
Theorem relay_hands_out_a_socket_the_node_gave_up
    `{TokenEnv} `{Json session_hello} `{JsonOk relay_hello}
    (services : gmap string proxy_service) (tcp_connect : string -> result relay_socket) (now : Z)
    (cfg : node_config) (secret relay_addr : string) (forwarded payload : list byte)
    (written t1 t2 t3 : Z) (n client : nat) (r : relay)
    (Hpayload : to_vec (RelayNode (nc_node_id cfg) secret) = Ok payload)
    (Hshort : (length payload <= hello_limit)%nat)
    (Hsocket : tcp_connect relay_addr = Ok (RelaySocket None (Some (t3 - written)) forwarded))
    (Hlate : written + RELAY_NODE_IDLE_LEASE < t3 <= t1 + RELAY_NODE_SOCKET_TTL) :
  exists sent,
    connect_relay_once services tcp_connect now cfg secret relay_addr
      = (sent, Err (EMsg "relay node socket idle lease expired after 60s")) /\
    rs_pairs (run_relay (Some secret) r
      [EvHello t1 n (fst <$> read_json_line sent); EvHello t2 client (Ok (RelayClient (nc_node_id cfg)));
       EvPoll t3 client]) = rs_pairs r ++ [Pairing client n (nc_node_id cfg) t3].
Proof.
  unfold connect_relay_once, connect_relay_once_with_idle_timeout. rewrite Hsocket.
  assert (write_json_line (RelayNode (nc_node_id cfg) secret) = Ok (payload ++ [newline])) as Hw
    by (unfold write_json_line; by rewrite Hpayload).
  rewrite Hw. cbn [rk_write]. eexists. split.
  - unfold handle_relay_connection. cbn [rk_settled_after in_time]. rewrite (proj2 (Z.leb_gt _ _)) by lia. done.
  - rewrite <- (app_nil_r (payload ++ [newline])), (hello_line_read _ _ _ _ Hpayload Hshort Hw).
    apply relay_pairs_next. lia.
Qed.

(** ** Witnesses *)

Definition linked_grant : session_open_grant :=
  match @issue_session_grant flat_token_env 100 ("1", "2", "3") toy_open toy_state with
  | Ok g => g
  | Err _ => toy_grant
  end.
Definition linked_candidate : peer_candidate := PeerCandidate RelayTcp "relay.example:7001" 10.
Definition linked_resolve (addr : string) : result (list socket_addr) := Ok [SockV4 (Ipv4 203 0 113 10) 7001].
Definition linked_stream : session_stream :=
  match @connect_session_candidate flat_hello flat_relay linked_resolve (fun _ => None) linked_grant None
          linked_candidate toy_dialer with
  | (Ok s, _) => s
  | (Err _, _) => STcp (Tcp (SockV4 (Ipv4 0 0 0 0) 0) [] [] None [] [])
  end.
Definition linked_services : gmap string proxy_service := {["svc_a" := toy_proxied]}.
Definition linked_hello : list byte :=
  match @to_vec _ flat_relay (RelayNode "node-1" "s") with Ok p => p | Err _ => [] end.
Lemma granted_sessions_reach_the_service_witness :
  @session_reaches flat_token_env flat_hello flat_relay linked_services toy_config "s" 200 linked_candidate
    linked_stream toy_payload toy_proxied.
Proof.
  refine (@granted_sessions_reach_the_service flat_token_env flat_token_ok flat_hello flat_hello_ok flat_relay
    flat_relay_ok linked_resolve (fun _ => None) 100 200 ("1", "2", "3") toy_open toy_state linked_grant None
    linked_candidate toy_dialer toy_dialed linked_stream linked_services toy_config toy_proxied toy_payload
    linked_hello _ _ _ _ _ _ _ _ _).
  - vm_compute. reflexivity.
  - vm_compute. reflexivity.
  - vm_compute. reflexivity.
  - vm_compute. reflexivity.
  - apply (bool_decide_unpack _). vm_compute. exact I.
  - intros p Hp. vm_compute in Hp. injection Hp as <-. apply (bool_decide_unpack _). vm_compute. exact I.
  - intros p Hp. vm_compute in Hp. injection Hp as <-. apply (bool_decide_unpack _). vm_compute. exact I.
  - vm_compute. reflexivity.
  - apply (bool_decide_unpack _). vm_compute. exact I.
Defined.

Definition published_db : database := (Registry.register_node (build_registration (Ok []) toy_config) empty_database).2.
Definition published_state : control_state :=
  ControlState published_db "s" "client" "" None None (Some "relay.example:7001") None None None.
Definition published_open : session_open_request := SessionOpenRequest "svc_ssh" "device" (Some "node-1").
Definition published_grant : session_open_grant :=
  match @issue_session_grant flat_token_env 100 ("1", "2", "3") published_open published_state with
  | Ok g => g
  | Err _ => toy_grant
  end.
Definition published_stream : session_stream :=
  match @connect_session_candidate flat_hello flat_relay linked_resolve (fun _ => None) published_grant None
          linked_candidate toy_dialer with
  | (Ok s, _) => s
  | (Err _, _) => STcp (Tcp (SockV4 (Ipv4 0 0 0 0) 0) [] [] None [] [])
  end.
Definition published_signer (ca key cn : string) (names : list string) : result generated_cert :=
  Ok (GeneratedCert [] cn cn).
Definition published_json {A} : Json A := {| to_vec _ := Err (EExt "json"); from_slice _ := Err (EExt "json") |}.
Definition published_services : gmap string proxy_service :=
  match @proxy_services_from_config published_json published_json (fun _ => None) published_signer (fun _ => None)
          (fun _ => true) (fun _ _ _ _ => Err (EExt "network")) (fun _ => Ok tt) toy_config "s" with
  | Ok services => services
  | Err _ => ∅
  end.
Lemma published_services_are_reachable_witness :
  exists service,
    @service_of_config published_json published_json (fun _ => None) published_signer (fun _ => None) (fun _ => true)
      (fun _ _ _ _ => Err (EExt "network")) (fun _ => Ok tt) toy_config "s" toy_ssh_config service /\
    @session_reaches flat_token_env flat_hello flat_relay published_services toy_config "s" 200 linked_candidate
      published_stream toy_payload service.
Proof.
  refine (@published_services_are_reachable flat_token_env flat_token_ok flat_hello flat_hello_ok flat_relay
    flat_relay_ok published_json published_json (fun _ => None) published_signer (fun _ => None) (fun _ => true)
    (fun _ _ _ _ => Err (EExt "network")) (fun _ => Ok tt) linked_resolve (Ok []) 100 200 ("1", "2", "3") toy_config
    toy_ssh_config empty_database published_state "device" published_grant None linked_candidate toy_dialer toy_dialed
    published_stream published_services toy_payload linked_hello _ (conj _ eq_refl) _ _ _ _ _ _ _ _).
  - vm_compute. reflexivity.
  - left.
  - vm_compute. reflexivity.
  - vm_compute. reflexivity.
  - vm_compute. reflexivity.
  - apply (bool_decide_unpack _). vm_compute. exact I.
  - intros p Hp. vm_compute in Hp. injection Hp as <-. apply (bool_decide_unpack _). vm_compute. exact I.
  - intros p Hp. vm_compute in Hp. injection Hp as <-. apply (bool_decide_unpack _). vm_compute. exact I.
  - vm_compute. reflexivity.
  - apply (bool_decide_unpack _). vm_compute. exact I.
Defined.

Definition bad_packet : packet := Packet Hello 0 [x00].
Definition bad_datagram : list byte := match encode_packet bad_packet with Ok d => d | Err _ => [] end.
Definition attacked : node_udp :=
  udp_started (quiet [RecvEvent 1 (Got bad_datagram toy_addr); RecvEvent 1 (Got bad_datagram toy_addr)]).
Lemma one_bad_hello_stops_udp_sessions_witness :
  let u' := @run_udp_session_listener toy_rv_json flat_hello toy_sha256 attacked
              (UdpReader None :: UdpAccept true :: [UdpReader None; UdpAccept true]) in
  nu_ended u' = Some (Err (EExt "json")) /\ nu_bridged u' = [] /\
  (length [RecvEvent 1 (Got bad_datagram toy_addr)] <= S (arrivals (nu_listener u')))%nat.
Proof.
  refine (@one_bad_hello_stops_udp_sessions toy_rv_json flat_hello toy_sha256 attacked 1 bad_datagram toy_addr
    [RecvEvent 1 (Got bad_datagram toy_addr)] bad_packet (EExt "json") None [UdpReader None; UdpAccept true]
    _ _ _ _ _ _ _ _ _ _); vm_compute; reflexivity.
Defined.

Lemma relay_hands_out_a_socket_the_node_gave_up_witness :
  exists sent,
    @connect_relay_once flat_token_env flat_hello flat_relay linked_services
      (fun _ => Ok (RelaySocket None (Some (secs 60 + 4 - 0)) [])) 200 toy_config "s" "relay"
      = (sent, Err (EMsg "relay node socket idle lease expired after 60s")) /\
    rs_pairs (run_relay (Some "s") relay_init
      [EvHello 5 1 (fst <$> @read_json_line _ flat_relay sent); EvHello 6 2 (Ok (RelayClient (nc_node_id toy_config)));
       EvPoll (secs 60 + 4) 2]) = rs_pairs relay_init ++ [Pairing 2 1 (nc_node_id toy_config) (secs 60 + 4)].
Proof.
  refine (@relay_hands_out_a_socket_the_node_gave_up flat_token_env flat_hello flat_relay flat_relay_ok linked_services
    (fun _ => Ok (RelaySocket None (Some (secs 60 + 4 - 0)) [])) 200 toy_config "s" "relay" [] linked_hello
    0 5 6 (secs 60 + 4) 1 2 relay_init _ _ _ _).
  - vm_compute. reflexivity.
  - apply (bool_decide_unpack _). vm_compute. exact I.
  - reflexivity.
  - split; vm_compute; congruence.
Defined.

(** The first registration fails, the second is taken. *)
Definition agent_world : Type := list (result unit) * Z.
Definition agent_sleep (d : Z) : eff agent_world unit := fun w => (Ok tt, (w.1, w.2 + d)).
Definition agent_post (control_url : string) (registration : register_node_request) : eff agent_world unit := fun w =>
  match w.1 with r :: rest => (r, (rest, w.2)) | [] => (Err (EExt "reqwest"), w) end.
Definition agent_config : node_config :=
  NodeConfig "node-1" None "127.0.0.1:17001" "0.0.0.0:17002" None None [] (Some "https://control/") None None
    (Some "relay:7001") None None None None [].
#[local] Instance agent_json : Json register_node_request :=
  {| to_vec _ := Err (EExt "json"); from_slice _ := Err (EExt "json") |}.
Definition agent_posts : agent_world -> result unit * agent_world := 
  @register_node agent_json (fun _ => true) (fun _ => None) agent_world (fun _ _ _ _ w => (Err (EExt "network"), w))
    agent_post "https://control/" None (build_registration (Ok []) agent_config).
Lemma agents_serve_after_registering_witness :
  ServingWith "local-dev-secret" (replicate 4 (TcpConnector "relay:7001"))
    = ServingWith (agent_shared_secret (fun _ => None) agent_config)
        (configured_connectors (fun _ => None) (fun _ => None) (fun _ _ _ => EmptyString) agent_config) /\
  exists k w1, (k < 30)%nat /\ tried agent_posts agent_sleep k ([Err (EExt "reqwest"); Ok tt], 0) w1 /\
    agent_posts w1 = (Ok tt, ([], millis 250)).
Proof.
  refine (@agents_serve_after_registering agent_json agent_world (fun _ => None) (fun _ => true) (fun _ => None)
    (fun _ _ _ => EmptyString) agent_sleep (fun _ _ _ _ w => (Err (EExt "network"), w)) agent_post agent_config
    (build_registration (Ok []) agent_config) ([Err (EExt "reqwest"); Ok tt], 0) ([], millis 250)
    (Ok (ServingWith "local-dev-secret" (replicate 4 (TcpConnector "relay:7001")))) _ _).
  - intros w. by eexists.
  - vm_compute. reflexivity.
Defined.
