(* ===== verification/RelayConnectors.v ===== *)
(** * A node's connectors over time

    [services/home-node/src/proxy.rs]: the tasks that [spawn_relay_connectors] and
    [spawn_wss_relay_connectors] start, four for each relay.  A task prepares the node's services, and
    then, for ever, opens a socket to the relay, waits on it for a client, serves the client's session
    to its end, and opens the next.  A script says what each attempt will meet outside and how long
    it will take; a run of a task is the list of its attempts with their times. *)

From S2P Require Import Prelude RustStd NetAddr Protocol PinnedHttp Crypto Samples Net MediumSession HomeNode NodeLinks.

Definition RELAY_RECONNECT_DELAY : Z := millis 500.

(** ** Tasks *)

(** One attempt, from the call of [connect_relay_once] to its return. *)
Record link := Link { lk_start : Z; lk_end : Z; lk_outcome : result unit }.

Section Task.
Context {A : Type} (attempt_at : gmap string proxy_service -> Z -> A -> Z * result unit).

(** The first loop: how long each preparation takes, and what it gives. *)
Fixpoint prepare_services (now : Z) (preparations : list (Z * result (gmap string proxy_service)))
    : option (Z * gmap string proxy_service) :=
  match preparations with
  | [] => None
  | (elapsed, Ok services) :: _ => Some (now + elapsed, services)
  | (elapsed, Err _) :: rest => prepare_services (now + elapsed + RELAY_RECONNECT_DELAY) rest
  end.
(** The second. *)
Fixpoint connector_loop (services : gmap string proxy_service) (now : Z) (attempts : list A) : list link :=
  match attempts with
  | [] => []
  | a :: rest =>
      let '(ended, outcome) := attempt_at services now a in
      Link now ended outcome
        :: connector_loop services (match outcome with Ok _ => ended | Err _ => ended + RELAY_RECONNECT_DELAY end) rest
  end.
Definition connector_task (now : Z) (script : list (Z * result (gmap string proxy_service)) * list A) : list link :=
  match prepare_services now script.1 with
  | Some (ready, services) => connector_loop services ready script.2
  | None => []
  end.
Definition spawn_four (now : Z) (scripts : nat -> list (Z * result (gmap string proxy_service)) * list A) : list (list link) :=
  map (fun i => connector_task now (scripts i)) (seq 0 4).
End Task.

(** ** Attempts *)

(** What an attempt meets on TCP: the outcome of the connection and when it is there, and
    how long the session is proxied, if there is one, and how that ends. *)
Record relay_attempt := RelayAttempt {
  ra_connect : result relay_socket;
  ra_connected_after : Z;
  ra_proxied : Z * result unit
}.
(** The same on a WebSocket; the session hello, or the error in its place, is read
    [wa_hello_after] the socket was there. *)
Record wss_attempt := WssAttempt {
  wa_connect : result websocket;
  wa_connected_after : Z;
  wa_hello_after : option Z;
  wa_bridged : Z
}.
(** How long the hello of a client is waited for. *)
Definition waited (settled_after : option Z) : Z :=
  match settled_after with Some t => Z.min t RELAY_NODE_IDLE_LEASE | None => RELAY_NODE_IDLE_LEASE end.

Section Connectors.
Context `{TokenEnv} `{Json session_hello} `{Json relay_hello}.
Context (cfg : node_config) (shared_secret : string).

Definition relay_attempt_at (relay_addr : string) (services : gmap string proxy_service) (now : Z) (a : relay_attempt)
    : Z * result unit :=
  let connected := now + ra_connected_after a in
  let hello_at := connected + match ra_connect a with Ok socket => waited (rk_settled_after socket) | Err _ => 0 end in
  let '(sent, session) := connect_relay_once services (fun _ => ra_connect a) hello_at cfg shared_secret relay_addr in
  match session with
  | Ok _ => (hello_at + (ra_proxied a).1, (ra_proxied a).2)
  | Err e => (match sent with [] => connected | _ => hello_at end, Err e)
  end.
Definition spawn_relay_connectors (relay_addr : string) := spawn_four (relay_attempt_at relay_addr).

Definition wss_attempt_at (relay_url : string) (services : gmap string proxy_service) (now : Z) (a : wss_attempt)
    : Z * result unit :=
  let connected := now + wa_connected_after a in
  let hello_at := connected + waited (wa_hello_after a) in
  match connect_wss_relay_once_with_services services (fun _ _ => wa_connect a) hello_at (wa_hello_after a) cfg shared_secret relay_url with
  | Err e => (connected, Err e)
  | Ok (_, Ok (_, _, outcome)) => (hello_at + wa_bridged a, outcome)
  | Ok (_, Err e) => (hello_at, Err e)
  end.
Definition spawn_wss_relay_connectors (relay_url : string) := spawn_four (wss_attempt_at relay_url).
End Connectors.

(** ** Lemmas *)

Definition open_at (t : Z) (l : link) : Prop := lk_start l <= t < lk_end l.
#[global] Instance open_at_dec t l : Decision (open_at t l).
Proof. unfold open_at. apply _. Defined.
(** The pause after an attempt. *)
Definition pause_after (l : link) : Z := if is_ok (lk_outcome l) then 0 else RELAY_RECONNECT_DELAY.
Definition next_start (l : link) : Z := lk_end l + pause_after l.

(** Attempts that follow each other from [now] on. *)
Fixpoint in_turn (now : Z) (links : list link) : Prop :=
  match links with
  | [] => True
  | l :: rest => lk_start l = now /\ now <= lk_end l /\ in_turn (next_start l) rest
  end.
Lemma next_start_later l : lk_end l <= next_start l.
Proof. unfold next_start, pause_after, RELAY_RECONNECT_DELAY, millis. destruct (is_ok _); lia. Qed.
Lemma in_turn_later now links l : in_turn now links -> l ∈ links -> now <= lk_start l.
Proof.
  revert now; induction links as [|l1 links IH]; intros now; [set_solver|]. intros (<- & Hend & Hrest) [->|Hin]%elem_of_cons; [lia|].
  pose proof (next_start_later l1). specialize (IH _ Hrest Hin). lia.
Qed.
(** One at a time. *)
Lemma in_turn_one_open now links t : in_turn now links -> (length (filter (open_at t) links) <= 1)%nat.
Proof.
  revert now; induction links as [|l links IH]; intros now; cbn [in_turn]; [cbn; lia|]. intros (<- & Hend & Hrest).
  rewrite filter_cons. case_decide as Hopen; [|by eapply IH].
  assert (filter (open_at t) links = []) as ->; [|cbn; lia].
  pose proof (next_start_later l). destruct (filter (open_at t) links) as [|l2 rest] eqn:E; [done|exfalso].
  assert (l2 ∈ filter (open_at t) links) as [Ho Hin]%list_elem_of_filter by (rewrite E; set_solver).
  pose proof (in_turn_later _ _ _ Hrest Hin). unfold open_at in *. lia.
Qed.
(** And never none for longer than the pause. *)
Lemma in_turn_covers now links l t :
  in_turn now links -> l ∈ links -> now <= t < lk_end l -> exists l', l' ∈ links /\ lk_start l' <= t < next_start l'.
Proof.
  revert now; induction links as [|l1 links IH]; intros now; [set_solver|]. intros (<- & Hend & Hrest) Hin Ht.
  pose proof (next_start_later l1). destruct (decide (t < next_start l1)); [exists l1; split; [set_solver|lia]|].
  apply elem_of_cons in Hin as [->|Hin]; [lia|].
  destruct (IH _ Hrest Hin) as (l' & ? & ?); [lia|]. exists l'. split; [set_solver|done].
Qed.
Lemma in_turn_lookup now links k l l' :
  in_turn now links -> links !! k = Some l -> links !! S k = Some l' -> lk_start l' = next_start l.
Proof.
  revert now k; induction links as [|l1 links IH]; intros now k; [done|]. intros (_ & _ & Hrest).
  destruct k as [|k]; cbn; [intros [= ->]|by eapply IH].
  destruct links as [|l2 links]; [done|]. intros [= ->]. by destruct Hrest as [-> _].
Qed.

Section TaskFacts.
Context {A : Type} (attempt_at : gmap string proxy_service -> Z -> A -> Z * result unit) (fine : A -> Prop).
Context (attempt_later : forall services now a, fine a -> now <= (attempt_at services now a).1).

Lemma connector_loop_in_turn services now attempts :
  Forall fine attempts -> in_turn now (connector_loop attempt_at services now attempts).
Proof.
  revert now; induction attempts as [|a attempts IH]; intros now; cbn [connector_loop]; [done|].
  intros [Ha Hrest]%list.Forall_cons. pose proof (attempt_later services now a Ha) as Hlater.
  destruct (attempt_at services now a) as [ended outcome]. cbn [fst] in Hlater.
  split; [done|]. split; [done|]. unfold next_start, pause_after. cbn [lk_end lk_outcome].
  destruct outcome; cbn [is_ok]; [rewrite Z.add_0_r|]; by apply IH.
Qed.
Lemma connector_task_in_turn now script :
  Forall fine script.2 -> exists ready, in_turn ready (connector_task attempt_at now script).
Proof.
  intros Hfine. unfold connector_task. destruct (prepare_services now script.1) as [[ready services]|]; [|by exists 0].
  exists ready. by apply connector_loop_in_turn.
Qed.
Lemma spawn_four_open now scripts t :
  (forall i, Forall fine (scripts i).2) -> (length (filter (open_at t) (concat (spawn_four attempt_at now scripts))) <= 4)%nat.
Proof.
  intros Hfine. unfold spawn_four. replace 4%nat with (length (seq 0 4)) at 2 by done.
  induction (seq 0 4) as [|i ids IH]; cbn [map concat length]; [done|]. rewrite list.filter_app, length_app.
  destruct (connector_task_in_turn now (scripts i) (Hfine i)) as [ready Hturn].
  pose proof (in_turn_one_open _ _ t Hturn). lia.
Qed.
Lemma spawn_four_in_turn now scripts task :
  (forall i, Forall fine (scripts i).2) -> task ∈ spawn_four attempt_at now scripts -> exists ready, in_turn ready task.
Proof. intros Hfine (i & -> & _)%list_elem_of_fmap. by apply connector_task_in_turn. Qed.
End TaskFacts.

(** Nothing takes less than no time. *)
Definition relay_attempt_fine (a : relay_attempt) : Prop :=
  0 <= ra_connected_after a /\ 0 <= (ra_proxied a).1 /\
  match ra_connect a with Ok (RelaySocket _ (Some t) _) => 0 <= t | _ => True end.
Definition wss_attempt_fine (a : wss_attempt) : Prop :=
  0 <= wa_connected_after a /\ 0 <= wa_bridged a /\ match wa_hello_after a with Some t => 0 <= t | None => True end.
Lemma waited_nonneg settled : match settled with Some t => 0 <= t | None => True end -> 0 <= waited settled.
Proof. unfold waited, RELAY_NODE_IDLE_LEASE, secs. destruct settled; lia. Qed.

Section ConnectorFacts.
Context `{TokenEnv} `{Json session_hello} `{Json relay_hello}.
Context (cfg : node_config) (shared_secret : string).
Lemma relay_attempt_later relay_addr services now a :
  relay_attempt_fine a -> now <= (relay_attempt_at cfg shared_secret relay_addr services now a).1.
Proof.
  intros (Hc & Hp & Hs). unfold relay_attempt_at.
  assert (0 <= match ra_connect a with Ok socket => waited (rk_settled_after socket) | Err _ => 0 end) as Hw.
  { destruct (ra_connect a) as [[w settled input]|e]; [|done]. apply waited_nonneg. by destruct settled. }
  destruct (connect_relay_once _ _ _ _ _ _) as [[|] [|]]; cbn [fst]; lia.
Qed.
Lemma wss_attempt_later relay_url services now a :
  wss_attempt_fine a -> now <= (wss_attempt_at cfg shared_secret relay_url services now a).1.
Proof.
  intros (Hc & Hp & Hs). apply waited_nonneg in Hs. unfold wss_attempt_at.
  destruct (connect_wss_relay_once_with_services _ _ _ _ _ _ _) as [[? [[[? ?] ?]|]]|]; cbn [fst]; lia.
Qed.
End ConnectorFacts.

(** ** Properties *)

(** C34. The four tasks that a node runs for a relay, over TCP or WebSockets, open their sockets one after
    another: never are more than four open, so a relay serves at most four sessions of a node at a time,
    the waiting ones included.  After an attempt that failed a task pauses for half a second and after one
    that did not it opens the next at once; so once its services are prepared a task is never
    without a socket, or an attempt for one, for longer than that pause. *)
Theorem relay_connectors_keep_four_links `{TokenEnv} `{Json session_hello} `{Json relay_hello}
    (cfg : node_config) (shared_secret relay : string) (now : Z)
    (tcp : nat -> list (Z * result (gmap string proxy_service)) * list relay_attempt)
    (wss : nat -> list (Z * result (gmap string proxy_service)) * list wss_attempt) :
  (forall i, Forall relay_attempt_fine (tcp i).2) -> (forall i, Forall wss_attempt_fine (wss i).2) ->
  Forall (fun tasks =>
    (forall t, (length (filter (open_at t) (concat tasks)) <= 4)%nat) /\
    Forall (fun task =>
      (forall k l l', task !! k = Some l -> task !! S k = Some l' -> lk_start l' = lk_end l + pause_after l) /\
      (forall first l t, task !! 0%nat = Some first -> l ∈ task -> lk_start first <= t < lk_end l ->
         exists l', l' ∈ task /\ lk_start l' <= t < lk_end l' + pause_after l')) tasks)
    [spawn_relay_connectors cfg shared_secret relay now tcp; spawn_wss_relay_connectors cfg shared_secret relay now wss].
Proof.
  intros Htcp Hwss.
  assert (forall task ready, in_turn ready task ->
    (forall k l l', task !! k = Some l -> task !! S k = Some l' -> lk_start l' = lk_end l + pause_after l) /\
    (forall first l t, task !! 0%nat = Some first -> l ∈ task -> lk_start first <= t < lk_end l ->
       exists l', l' ∈ task /\ lk_start l' <= t < lk_end l' + pause_after l')) as Htask.
  { intros task ready Hturn. split; [intros k l l' Hk Hk'; by eapply in_turn_lookup in Hk'|].
    intros first l t Hfirst Hin Ht. eapply in_turn_covers; [exact Hturn|exact Hin|].
    destruct task as [|l1 task]; [done|]. injection Hfirst as ->. by destruct Hturn as (<- & _). }
  apply list.Forall_cons. split; [|apply list.Forall_cons; split; [|constructor]]; split.
  - intros t. apply (spawn_four_open _ relay_attempt_fine); [apply relay_attempt_later|exact Htcp].
  - apply list.Forall_forall. intros task Hin.
    apply (spawn_four_in_turn _ relay_attempt_fine (relay_attempt_later _ _ _)) in Hin as [ready Hturn]; [|exact Htcp]. by eapply Htask.
  - intros t. apply (spawn_four_open _ wss_attempt_fine); [apply wss_attempt_later|exact Hwss].
  - apply list.Forall_forall. intros task Hin.
    apply (spawn_four_in_turn _ wss_attempt_fine (wss_attempt_later _ _ _)) in Hin as [ready Hturn]; [|exact Hwss]. by eapply Htask.
Qed.

(** A client's hello to the relay is not authenticated, and a paired node socket waits for the session hello
    that follows: a client that never sends it keeps the socket for the rest of its minute. *)
Lemma silent_clients_hold_a_link `{TokenEnv} `{Json session_hello} `{Json relay_hello}
    (cfg : node_config) (shared_secret relay_addr : string) (services : gmap string proxy_service) (now : Z)
    (a : relay_attempt) (input hello : list byte) :
  ra_connect a = Ok (RelaySocket None None input) -> to_vec (RelayNode (nc_node_id cfg) shared_secret) = Ok hello ->
  relay_attempt_at cfg shared_secret relay_addr services now a
    = (now + ra_connected_after a + secs 60, Err (EMsg "relay node socket idle lease expired after 60s")).
Proof.
  intros Ha Hhello. unfold relay_attempt_at, connect_relay_once, connect_relay_once_with_idle_timeout. rewrite Ha.
  unfold write_json_line. rewrite Hhello. cbn [rk_write waited rk_settled_after]. unfold handle_relay_connection. cbn [rk_settled_after].
  destruct hello; done.
Qed.

(** ** Witnesses *)

Definition linked_session_hello : list byte :=
  match @write_json_line _ flat_hello (hello_of linked_grant) with Ok line => line | Err _ => [] end.
(** The first task fails to prepare its services, then serves a session of a minute, is refused by the relay, and
    serves another; the others wait for clients. *)
Definition toy_attempt (serves : Z) : relay_attempt :=
  RelayAttempt (Ok (RelaySocket None (Some (millis 10)) linked_session_hello)) (millis 1) (serves, Ok tt).
Definition toy_refused : relay_attempt := RelayAttempt (Err (EIo OtherIo)) (millis 1) (0, Ok tt).
Definition toy_silent : relay_attempt := RelayAttempt (Ok (RelaySocket None None [])) (millis 1) (0, Ok tt).
Definition toy_tcp (i : nat) : list (Z * result (gmap string proxy_service)) * list relay_attempt :=
  match i with
  | O => ([(millis 5, Err (EExt "reqwest")); (millis 5, Ok linked_services)], [toy_attempt (secs 60); toy_refused; toy_attempt (secs 5)])
  | _ => ([(millis 5, Ok linked_services)], [toy_silent])
  end.
Definition toy_wss (i : nat) : list (Z * result (gmap string proxy_service)) * list wss_attempt :=
  ([(millis 5, Ok linked_services)], [WssAttempt (Err (EExt "tungstenite")) (millis 1) None 0]).
Definition toy_tcp_tasks : list (list link) :=
  @spawn_relay_connectors flat_token_env flat_hello flat_relay toy_config "s" "relay" 200 toy_tcp.
Definition toy_wss_tasks : list (list link) :=
  @spawn_wss_relay_connectors flat_token_env flat_hello flat_relay toy_config "s" "relay" 200 toy_wss.
Lemma relay_connectors_keep_four_links_witness :
  map (map lk_outcome) toy_tcp_tasks
    = [[Ok tt; Err (EIo OtherIo); Ok tt]; [Err (EMsg "relay node socket idle lease expired after 60s")];
       [Err (EMsg "relay node socket idle lease expired after 60s")];
       [Err (EMsg "relay node socket idle lease expired after 60s")]] /\
  Forall (fun tasks =>
    (forall t, (length (filter (open_at t) (concat tasks)) <= 4)%nat) /\
    Forall (fun task =>
      (forall k l l', task !! k = Some l -> task !! S k = Some l' -> lk_start l' = lk_end l + pause_after l) /\
      (forall first l t, task !! 0%nat = Some first -> l ∈ task -> lk_start first <= t < lk_end l ->
         exists l', l' ∈ task /\ lk_start l' <= t < lk_end l' + pause_after l')) tasks)
    [toy_tcp_tasks; toy_wss_tasks].
Proof.
  split; [vm_compute; reflexivity|].
  apply (@relay_connectors_keep_four_links flat_token_env flat_hello flat_relay toy_config "s" "relay" 200 toy_tcp toy_wss).
  - intros [|i]; repeat constructor; vm_compute; congruence.
  - intros i. repeat constructor; vm_compute; congruence.
Defined.
