(* ===== verification/UdpBridge.v ===== *)
(** * The bridge of a UDP session

    [services/home-node/src/proxy.rs], [bridge_udp_session_to_tcp_proxy] and
    [copy_blocking]: a session accepted over UDP is copied to and from the node's own TCP
    listener by two threads, each with a clone of the stream of [UdpSession.v].

    Between two critical sections on the state they share the threads may be interleaved
    in any way: [bridge_step] is one critical section, or one write to the TCP connection,
    of one of them.  [bridge_threads_refine_the_steps] relates the threads' code to it. *)

From S2P Require Import Prelude RustStd NetAddr Protocol PinnedHttp Crypto Samples Net Rendezvous UdpPacket UdpSession UdpListener MediumSession HomeNode.

(** ** Copying *)

(** [copy_blocking], [fuel] rounds of its loop: when they are used up it still runs. *)
Fixpoint copy_blocking {W} (reader : eff W (list byte)) (writer : list byte -> eff W unit) (fuel : nat)
    : eff W unit :=
  match fuel with
  | O => throw out_of_fuel
  | S f =>
      received ← attempt reader;
      match received with
      | Ok [] => mret tt
      | Ok buffer => _ ← writer buffer; copy_blocking reader writer f
      | Err error => if MediumSession.is_timeout error then copy_blocking reader writer f else throw error
      end
  end.
Definition COPY_BUFFER : nat := 8 * 1024.

(** The connection to the local proxy: what its reads and writes will return, and what was
    written to it.  When nothing is left to read the 20 ms timeout passes. *)
Record local_proxy := LocalProxy {
  lp_reads : list (result (list byte));
  lp_writes : list (option io_kind);
  lp_written : list byte
}.
Definition local_read : eff local_proxy (list byte) := fun t =>
  match lp_reads t with
  | [] => (Err (EIo WouldBlock), t)
  | r :: rest => (take COPY_BUFFER <$> r, LocalProxy rest (lp_writes t) (lp_written t))
  end.
(** [write_all], as one write that succeeds or fails. *)
Definition local_write (bytes : list byte) : eff local_proxy unit := fun t =>
  match lp_writes t with
  | Some k :: rest => (Err (EIo k), LocalProxy (lp_reads t) rest (lp_written t))
  | None :: rest => (Ok tt, LocalProxy (lp_reads t) rest (lp_written t ++ bytes))
  | [] => (Ok tt, LocalProxy (lp_reads t) [] (lp_written t ++ bytes))
  end.

Record udp_bridge := UdpBridgeState { ub_udp : world; ub_tcp : local_proxy }.
Definition on_stream {A} : eff world A -> eff udp_bridge A :=
  zoom ub_udp (fun w b => UdpBridgeState w (ub_tcp b)).
Definition on_local {A} : eff local_proxy A -> eff udp_bridge A :=
  zoom ub_tcp (fun t b => UdpBridgeState (ub_udp b) t).

Section Bridge.
Context `{Aead} (self : stream).

(** [write_all] of the standard library over the stream's [write].  Each round but an
    interrupted one takes a byte; the budget bounds those. *)
Fixpoint write_all_loop (fuel : nat) (bytes : list byte) : eff world unit :=
  match bytes with
  | [] => mret tt
  | _ =>
      match fuel with
      | O => throw out_of_fuel
      | S f =>
          written ← attempt (write self bytes);
          match written with
          | Ok O => throw (EIo WriteZero)
          | Ok n => write_all_loop f (drop n bytes)
          | Err (EIo Interrupted) => write_all_loop f bytes
          | Err error => throw error
          end
      end
  end.
Definition write_all (bytes : list byte) : eff world unit := fun w =>
  write_all_loop (length bytes + budget w) bytes w.

Definition udp_to_tcp (rounds : nat) : eff udp_bridge unit :=
  copy_blocking (on_stream (read self COPY_BUFFER)) (fun bytes => on_local (local_write bytes)) rounds.
Definition tcp_to_udp (rounds : nat) : eff udp_bridge unit :=
  copy_blocking (on_local local_read) (fun bytes => on_stream (write_all bytes)) rounds.

(** [bridge_udp_session_to_tcp_proxy] up to its two threads, with the clone that reads; the
    outcomes are of the connect to the local proxy and of the two [try_clone]. *)
Definition start_bridge `{Json session_hello} (connected tcp_cloned udp_cloned : result unit) (hello : session_hello)
    : eff udp_bridge stream :=
  _ ← lift connected;
  line ← lift (write_session_hello_sync hello);
  _ ← on_local (local_write line);
  _ ← on_stream (stream_set_poll_timeout (millis 20));
  _ ← lift tcp_cloned;
  lift (try_clone udp_cloned self).

(** ** The threads, interleaved *)

(** A critical section of a clone of the stream on the shared state, and the bytes it hands
    to the reader: a data packet that decrypted, a drain, an acknowledged write. *)
Inductive session_step : session_state -> list byte -> session_state -> Prop :=
  | step_accept s seq ciphertext plaintext :
      0 <= seq < u64_modulus -> aead_decrypt (st_key self) (peer_nonce self seq) ciphertext = Some plaintext ->
      session_step s [] (accept_data seq plaintext s)
  | step_drain s len :
      session_step s (take len (pending_read s))
        (SessionState (send_seq s) (recv_seq s) (drop len (pending_read s)) (pending_packets s))
  | step_sent s :
      session_step s [] (SessionState ((send_seq s + 1) mod u64_modulus) (recv_seq s) (pending_read s) (pending_packets s)).

(** The session's state, what the copying thread read and has not written yet, and what was
    written to the local proxy. *)
Record bridged := Bridged {
  bg_session : session_state;
  bg_holding : list byte;
  bg_written : list byte
}.
Inductive bridge_step : bridged -> bridged -> Prop :=
  | bridge_session s bytes s' held written :
      session_step s bytes s' -> bridge_step (Bridged s held written) (Bridged s' (held ++ bytes) written)
  | bridge_write s held written :
      bridge_step (Bridged s held written) (Bridged s [] (written ++ held)).
End Bridge.

(** ** Lemmas: the interleaved threads *)

(** What the abstract bridge sees of the concrete one. *)
Definition seen (held : list byte) (b : udp_bridge) : bridged :=
  Bridged (w_state (ub_udp b)) held (lp_written (ub_tcp b)).

Section Interleaved.
Context `{Aead} (self : stream).

Lemma session_step_prefix chunks d s bytes s' :
  Z.of_nat (length chunks) < u64_modulus -> authentic self chunks ->
  delivered_prefix chunks d s -> session_step self s bytes s' -> delivered_prefix chunks (d ++ bytes) s'.
Proof.
  intros Hsmall Hauth Hd Hstep. destruct Hstep as [s seq c pt Hseq Hdec|s len|s].
  - rewrite app_nil_r. by eapply delivered_keeps_accept.
  - by apply delivered_keeps_drain.
  - rewrite app_nil_r. by apply delivered_keeps_send.
Qed.
(** What was written is [line], and then, with what is held, a prefix of the peer's chunks. *)
Definition forwards (chunks : list (list byte)) (line : list byte) (b : bridged) : Prop :=
  exists out, bg_written b = line ++ out /\ delivered_prefix chunks (out ++ bg_holding b) (bg_session b).
Lemma bridge_forwards chunks line b b' :
  Z.of_nat (length chunks) < u64_modulus -> authentic self chunks ->
  rtc (bridge_step self) b b' -> forwards chunks line b -> forwards chunks line b'.
Proof.
  intros Hsmall Hauth Hrun. induction Hrun as [|b1 b2 b3 Hstep _ IH]; [done|]. intros (out & Hw & Hd). apply IH.
  destruct Hstep as [s bytes s' held written Hs|s held written]; unfold forwards; simpl in *.
  - exists out. split; [done|]. rewrite app_assoc. by eapply session_step_prefix.
  - exists (out ++ held). rewrite Hw, app_nil_r. by rewrite app_assoc.
Qed.

(** The code of the two threads takes these steps. *)
Definition runs_from (b0 : bridged) (written d : list byte) (s : session_state) : Prop :=
  rtc (bridge_step self) b0 (Bridged s d written).
Lemma runs_accept b0 written d : keeps_accept self (runs_from b0 written d).
Proof.
  intros seq c pt s Hseq Hdec Hrun. eapply rtc_r; [exact Hrun|]. rewrite <- (app_nil_r d) at 2.
  apply bridge_session. by apply (step_accept self s seq c pt).
Qed.
Lemma runs_send b0 written d : keeps_send (runs_from b0 written d).
Proof.
  intros s Hrun. eapply rtc_r; [exact Hrun|]. rewrite <- (app_nil_r d) at 2. apply bridge_session, step_sent.
Qed.
Lemma runs_drain b0 written : keeps_drain (runs_from b0 written).
Proof. intros d len s Hrun. eapply rtc_r; [exact Hrun|]. apply bridge_session, step_drain. Qed.

Lemma write_all_runs b0 written d fuel bytes :
  preserves (state_ok (runs_from b0 written d)) (write_all_loop self fuel bytes).
Proof.
  revert bytes; induction fuel as [|fuel IH]; intros bytes; destruct bytes as [|x bytes]; cbn [write_all_loop];
    try apply preserves_ret; [apply preserves_throw|].
  apply preserves_bind.
  - apply preserves_attempt, preserves_write; [apply runs_accept|apply runs_send].
  - intros [[|n]|e]; [apply preserves_throw|apply IH|].
    destruct e as [m|[]|o]; try apply preserves_throw. apply IH.
Qed.

Lemma udp_to_tcp_runs b0 rounds b r b' :
  udp_to_tcp self rounds b = (r, b') -> inbox_ok (ub_udp b) -> rtc (bridge_step self) b0 (seen [] b) ->
  exists held, rtc (bridge_step self) b0 (seen held b') /\ inbox_ok (ub_udp b').
Proof.
  unfold udp_to_tcp. revert b; induction rounds as [|rounds IH]; intros [w t]; cbn [copy_blocking].
  { intros [= <- <-] Hi Hrun. eauto. }
  unfold mbind, eff_bind at 1, attempt, on_stream at 1, zoom. cbn [ub_udp ub_tcp].
  destruct (read self COPY_BUFFER w) as [x w1] eqn:Er. intros Hr Hi Hrun.
  apply (read_state self (runs_from b0 (lp_written t)) [] COPY_BUFFER w x w1) in Er as [Hrun1 Hi1];
    [|intros; apply runs_accept|apply runs_drain|by split].
  simpl in Hrun1. destruct x as [[|y bytes]|e].
  - injection Hr as <- <-. by exists [].
  - unfold eff_bind, on_local, zoom, local_write in Hr. cbn [ub_udp ub_tcp] in Hr.
    assert (rtc (bridge_step self) b0 (Bridged (w_state w1) [] (lp_written t ++ y :: bytes))) as Hwrite
      by (eapply rtc_r; [exact Hrun1|apply bridge_write]).
    destruct (lp_writes t) as [|[k|] rest]; [by eapply IH in Hr| |by eapply IH in Hr].
    injection Hr as <- <-. by exists (y :: bytes).
  - destruct (MediumSession.is_timeout e); [by eapply IH in Hr|]. injection Hr as <- <-. by exists [].
Qed.
Lemma tcp_to_udp_runs b0 held rounds b r b' :
  tcp_to_udp self rounds b = (r, b') -> inbox_ok (ub_udp b) -> rtc (bridge_step self) b0 (seen held b) ->
  rtc (bridge_step self) b0 (seen held b') /\ inbox_ok (ub_udp b').
Proof.
  unfold tcp_to_udp. revert b; induction rounds as [|rounds IH]; intros [w t]; cbn [copy_blocking].
  { by intros [= <- <-]. }
  unfold mbind, eff_bind at 1, attempt, on_local, zoom. cbn [ub_udp ub_tcp].
  destruct (local_read t) as [x t1] eqn:Et. intros Hr Hi Hrun.
  assert (lp_written t1 = lp_written t) as Hw by (unfold local_read in Et; destruct (lp_reads t); by injection Et as _ <-).
  assert (rtc (bridge_step self) b0 (seen held (UdpBridgeState w t1))) as Hrun1 by (unfold seen in *; simpl in *; by rewrite Hw).
  destruct x as [[|y bytes]|e]; [by injection Hr as <- <-| |].
  - unfold eff_bind, on_stream, zoom in Hr. cbn [ub_udp ub_tcp] in Hr.
    destruct (write_all self (y :: bytes) w) as [rw w2] eqn:Ew.
    apply (write_all_runs b0 (lp_written t1) held) in Ew as [Hrun2 Hi2]; [|by split].
    destruct rw as [[]|e]; [by eapply IH in Hr|]. injection Hr as <- <-. done.
  - destruct (MediumSession.is_timeout e); [by eapply IH in Hr|]. by injection Hr as <- <-.
Qed.
End Interleaved.

(** ** Lemmas: a session nobody closes *)

Section NeverEnds.
Context `{Aead} (self : stream) (Hinbox : st_has_inbox self = true).

(** A packet of an honest peer: no [Close], and its data decrypts. *)
Definition honest (p : packet) : Prop :=
  packet_ok p /\ pk_kind p <> Close /\
  (pk_kind p = Data -> is_Some (aead_decrypt (st_key self) (peer_nonce self (pk_seq p)) (pk_payload p))).
Definition fed (w : world) : Prop :=
  Forall honest (w_inbox w) /\ Forall (fun wk => Forall honest (wk_packets wk)) (w_waits w) /\ sends_ok (w_net w).

Lemma recv_matching_fed timeout pred w r w' :
  fed w -> recv_matching timeout pred w = (r, w') ->
  fed w' /\ ((exists p, r = Ok p /\ honest p /\ pred p = true) \/ r = Err (EIo TimedOut)).
Proof.
  unfold recv_matching. generalize (n_now (w_net w) + timeout) as d. intros d (Hq & Hws & Hs).
  revert Hws. generalize (w_waits w) as waits. intros waits. revert w Hq Hs.
  induction waits as [|wk waits IH]; intros w Hq Hs Hws; simpl;
    (destruct (take_matching pred (w_inbox w)) as [[p rest]|] eqn:E;
     [pose proof E as Em; apply take_matching_ok in Em as (_ & _ & _ & _ & _ & Hp);
      destruct (take_matching_forall honest _ _ _ _ E Hq); intros [= <- <-];
      split; [by repeat split|left; eauto]|]);
    (destruct (_ <=? _); [intros [= <- <-]; split; [by repeat split|by right]|]).
  - intros [= <- <-]. split; [by repeat split|by right].
  - apply list.Forall_cons in Hws as [Hwk Hws].
    assert (Forall honest (w_inbox w ++ wk_packets wk)) by (by apply Forall_app).
    destruct (wk_timed_out wk && _); [intros [= <- <-]; split; [by repeat split|by right]|].
    by apply IH.
Qed.
Lemma handle_data_fed p w r w' :
  fed w -> honest p -> pk_kind p = Data -> handle_data_packet self p w = (r, w') -> fed w' /\ r = Ok tt.
Proof.
  intros (Hq & Hws & Hs) (Hp & _ & Hdec) Hk. destruct (Hdec Hk) as [pt Hpt]. unfold handle_data_packet.
  unfold peer_nonce in Hpt. rewrite Hpt. unfold mbind, eff_bind, modify.
  destruct (send_ack_ok self (pk_seq p) (set_state (accept_data (pk_seq p) pt (w_state w)) w)) as (d & Hack & _);
    [apply Hp|done|].
  rewrite Hack. by intros [= <- <-].
Qed.
Lemma read_loop_fed fuel len w r w' :
  fed w -> (0 < len)%nat -> read_loop self fuel len w = (r, w') ->
  fed w' /\ ((exists b bytes, r = Ok (b :: bytes)) \/ r = Err (EIo TimedOut) \/ r = Err out_of_fuel).
Proof.
  intros Hw Hlen. revert w Hw; induction fuel as [|fuel IH]; intros w Hw; cbn [read_loop].
  { intros [= <- <-]. auto. }
  unfold mbind, eff_bind at 1. unfold recv_session_packet. rewrite Hinbox. unfold mbind, eff_bind at 1, stream_timeout, gets at 1.
  destruct (recv_matching _ _ w) as [x w1] eqn:Er. apply recv_matching_fed in Er as [Hw1 [(p & -> & Hp & Hpred)| ->]]; [| |done].
  2: { intros [= <- <-]. auto. }
  destruct (pk_kind p) eqn:Hk; try by apply IH.
  - unfold eff_bind at 1. destruct (handle_data_packet self p w1) as [x w2] eqn:Eh.
    apply handle_data_fed in Eh as [Hw2 ->]; try done.
    unfold eff_bind, gets. destruct (pending_read (w_state w2)) as [|b bytes] eqn:Epend; [by apply IH|].
    unfold drain_pending. rewrite Epend. destruct len as [|len]; [lia|]. intros [= <- <-]. split; [done|]. left. by eexists _, _.
  - by destruct Hp as (_ & Hclose & _).
Qed.
(** A read hands over bytes or times out. *)
Lemma read_fed len w r w' :
  fed w -> (0 < len)%nat -> read self len w = (r, w') ->
  fed w' /\ ((exists b bytes, r = Ok (b :: bytes)) \/ r = Err (EIo TimedOut)).
Proof.
  intros Hw Hlen. unfold read. destruct (pending_read (w_state w)) as [|b bytes] eqn:E.
  - intros Hr. pose proof Hr as Hfuel. apply read_loop_budget in Hfuel; [|lia].
    apply read_loop_fed in Hr as [Hw' [Hr|[Hr|Hr]]]; try done; [auto|auto|]. by rewrite Hr in Hfuel.
  - unfold drain_pending. rewrite E. destruct len as [|len]; [lia|]. intros [= <- <-]. split; [done|]. left. by eexists _, _.
Qed.
Lemma udp_to_tcp_runs_on rounds b :
  fed (ub_udp b) -> Forall (fun w => w = None) (lp_writes (ub_tcp b)) -> (udp_to_tcp self rounds b).1 = Err out_of_fuel.
Proof.
  unfold udp_to_tcp. revert b; induction rounds as [|rounds IH]; intros [w t] Hw Ht; cbn [copy_blocking]; [done|].
  unfold mbind, eff_bind at 1, attempt, on_stream at 1, zoom. cbn [ub_udp ub_tcp] in *.
  destruct (read self COPY_BUFFER w) as [x w1] eqn:Er.
  apply read_fed in Er as [Hw1 [(y & bytes & ->)| ->]]; [| |done|apply Nat.ltb_lt; reflexivity].
  - unfold eff_bind, on_local, zoom, local_write. cbn [ub_udp ub_tcp].
    destruct (lp_writes t) as [|[k|] rest]; apply list.Forall_cons in Ht || idtac; try by apply IH.
    + by destruct Ht.
    + apply IH; [done|]. by destruct Ht.
  - by apply IH.
Qed.
End NeverEnds.

(** Every datagram sent is an acknowledgement or data. *)
Definition closes_nothing (n : net) : Prop :=
  Forall (fun sent => exists p, encode_packet p = Ok sent.2 /\ stream_kind (pk_kind p)) (n_sent n).
Lemma closes_nothing_keeps : keeps_net closes_nothing.
Proof.
  unfold closes_nothing. constructor.
  - intros a p d n r n' Hn Hk Hd. unfold send_to. destruct (n_send n) as [|[]]; intros [= <- <-]; simpl; try done;
      (apply Forall_app; split; [done|]); (constructor; [by exists p|constructor]).
  - intros size n r n' Hn. unfold recv_from. destruct (n_recv n); by intros [= <- <-].
  - done.
Qed.

(** ** Lemmas: writing all of a buffer ends *)

Section WriteAll.
Context `{Aead} (self : stream).

Lemma write_all_ends fuel bytes w :
  (length bytes + budget w <= fuel)%nat -> in_fuel (write_all_loop self fuel bytes w).1.
Proof.
  revert bytes w; induction fuel as [|fuel IH]; intros bytes w Hf; destruct bytes as [|x bytes]; cbn [write_all_loop]; try done.
  { simpl in Hf. lia. }
  unfold mbind, eff_bind, attempt. destruct (write self (x :: bytes) w) as [r w1] eqn:Ew.
  pose proof (write_spends self _ _ _ _ Ew) as [Hle Hlt].
  destruct r as [[|n]|e]; [done| |].
  - apply IH. rewrite length_drop. simpl in *. lia.
  - destruct e as [m|[]|o]; simpl; try done; [apply IH; specialize (Hlt eq_refl); simpl in *; lia|].
    intros [= ->]. unfold write, mbind, eff_bind, gets in Ew. destruct (aead_encrypt _ _ _); [|done].
    pose proof (write_loop_fuel self RETRIES None (Packet Data (send_seq (w_state w)) l)
      (length (take MAX_PAYLOAD_LEN (x :: bytes))) w ltac:(done)) as Hfuel. by rewrite Ew in Hfuel.
Qed.
End WriteAll.

(** ** Lemmas: acknowledgements that come late *)

Section Late.
Context `{Aead} (self : stream) (Hinbox : st_has_inbox self = true).

(** The inbox is empty and the next [n] waits of [timeout] pass without a packet; what comes then
    is in [later]. *)
Definition hears_nothing (n : nat) (timeout : Z) (later : list wakeup) (w : world) : Prop :=
  n_read_timeout (w_net w) = timeout /\ w_inbox w = [] /\ sends_ok (w_net w) /\
  w_waits w = replicate n (Wakeup [] true timeout) ++ later.
Lemma late_wait seq n timeout later w :
  0 < timeout -> hears_nothing (S n) timeout later w ->
  exists w', wait_for_ack self seq w = (Err (EIo TimedOut), w') /\ hears_nothing n timeout later w' /\
    w_net w' = sent_more [] timeout (w_net w) /\ w_state w' = w_state w.
Proof.
  intros Ht (Hto & Hq & Hs & Hw). unfold wait_for_ack. cbn [wait_for_ack_loop]. unfold recv_session_packet. rewrite Hinbox.
  unfold mbind, eff_bind, stream_timeout, gets, recv_matching. rewrite Hw. cbn [replicate app recv_matching_loop]. rewrite Hq, Hto. cbn [take_matching].
  rewrite (proj2 (Z.leb_gt _ _)) by lia. cbn [wk_packets wk_timed_out wk_elapsed app w_inbox set_inbox set_net existsb andb negb].
  eexists. split; [reflexivity|]. unfold hears_nothing, sent_more, sleep, modify. cbn. rewrite Hs, app_nil_r. done.
Qed.
Lemma late_write_loop n timeout later last p d len w :
  0 < timeout -> hears_nothing n timeout later w -> encode_packet p = Ok d ->
  exists w', write_loop self n last p len w
      = (Err (match n with O => default (EIo TimedOut) last | S _ => EIo TimedOut end), w') /\
    hears_nothing 0 timeout later w' /\ w_state w' = w_state w /\
    n_sent (w_net w') = n_sent (w_net w) ++ replicate n (st_peer_addr self, d) /\
    n_now (w_net w') = n_now (w_net w) + Z.of_nat n * timeout.
Proof.
  intros Ht. revert last w; induction n as [|n IH]; intros last w Hw Hd; cbn [write_loop].
  { exists w. rewrite app_nil_r. split_and!; [done..|lia]. }
  unfold mbind, eff_bind at 1, io_other, on_net, zoom, send_packet_to. unfold mbind, eff_bind at 1, lift. rewrite Hd.
  pose proof Hw as (Hto & Hq & Hs & Hwaits). rewrite send_to_ok by done. unfold eff_bind, attempt.
  destruct (late_wait (pk_seq p) n timeout later (set_net (sent_more [(st_peer_addr self, d)] 0 (w_net w)) w))
    as (w1 & Hwait & Hw1 & Hnet & Hstate); [done|by split_and!|].
  rewrite Hwait. cbn [is_retry_kind]. destruct (IH (Some (EIo TimedOut)) w1 Hw1 Hd) as (w' & Hrun & Hw' & Hst & Hsent & Hnow).
  exists w'. split; [rewrite Hrun; by destruct n|]. split; [done|]. split; [by rewrite Hst, Hstate|].
  rewrite Hsent, Hnow, Hnet. cbn [set_net w_net]. rewrite sent_more_more. cbn -[Z.of_nat Z.mul]. rewrite <- app_assoc.
  split; [done|lia].
Qed.
End Late.

(** ** Properties *)

(** C7. However the two threads are interleaved, what the local TCP proxy is sent is the hello
    line and then a prefix of what the client wrote, the rest being held or pending; so the
    proxy authorizes a UDP session by the hello of its handshake, as it does a TCP session
    by its own, and gives the service a prefix of the client's bytes. *)
Theorem udp_sessions_are_checked_like_tcp
    `{Aead} `{TokenEnv} `{JsonOk session_hello} (self : stream) (chunks : list (list byte)) (hello : session_hello)
    (b0 b1 : udp_bridge) (b : bridged) (payload : list byte)
    (now : Z) (services : gmap string proxy_service) (node_id secret : string)
    (Hauth : authentic self chunks) (Hsmall : Z.of_nat (length chunks) < u64_modulus)
    (Hfresh : w_state (ub_udp b0) = initial_state /\ lp_written (ub_tcp b0) = [])
    (Hhello : to_vec hello = Ok payload) (Hshort : (length payload <= hello_limit)%nat)
    (Hstart : start_bridge self (Ok tt) (Ok tt) (Ok tt) hello b0 = (Ok self, b1)) (Hrun : rtc (bridge_step self) (seen [] b1) b) :
  exists out k, (k <= length chunks)%nat /\
    out ++ bg_holding b ++ pending_read (bg_session b) = concat (take k chunks) /\
    HomeNode.handle_connection now services node_id secret (bg_written b)
    = (service ← authorize_session now services node_id secret hello; Ok (service, out)).
Proof.
  destruct Hfresh as [Hstate Hwritten].
  assert (write_json_line hello = Ok (payload ++ [newline])) as Hline by (unfold write_json_line; by rewrite Hhello).
  apply eff_bind_ok in Hstart as ([] & b2 & E0 & Hstart). injection E0 as <-.
  apply eff_bind_ok in Hstart as (line & b2 & E0 & Hstart). unfold lift, write_session_hello_sync in E0.
  rewrite Hhello in E0. injection E0 as <- <-. apply eff_bind_ok in Hstart as ([] & b2 & E1 & Hstart).
  assert (seen [] b1 = Bridged initial_state [] (payload ++ [newline])) as Hseen.
  { destruct b0 as [w t]. unfold on_local, zoom, local_write in E1. simpl in *. rewrite Hwritten in E1.
    unfold on_stream, stream_set_poll_timeout, on_net, set_read_timeout, zoom, modify, lift, mbind, eff_bind in Hstart.
    destruct (lp_writes t) as [|[k|] rest]; simplify_eq/=; unfold seen; simpl; by rewrite Hstate. }
  apply (bridge_forwards self chunks (payload ++ [newline])) in Hrun as (out & Hw & rcv & [Hb _ _ Hd _] & _); [|done|done|].
  2: { rewrite Hseen. exists []. simpl. rewrite app_nil_r. split; [done|]. exists ∅.
       split; [by apply reassembled_initial|set_solver]. }
  exists out, (Z.to_nat (recv_seq (bg_session b))). split; [lia|]. split; [by rewrite app_assoc|].
  rewrite Hw. unfold HomeNode.handle_connection. rewrite (read_json_line_written hello); [done|done|].
  rewrite length_app. simpl. lia.
Qed.

(** C8. The two threads' code takes steps of the interleaved bridge: whatever arrives, whatever
    fails and however many rounds are run, the copy from UDP to TCP ends where steps lead
    that began with nothing held, and the copy from TCP to UDP leaves what was written
    alone. *)
Theorem bridge_threads_refine_the_steps `{Aead} (self : stream) (rounds : nat) (b b' : udp_bridge) (r : result unit)
    (Hinbox : inbox_ok (ub_udp b)) :
  (udp_to_tcp self rounds b = (r, b') -> exists held, rtc (bridge_step self) (seen [] b) (seen held b')) /\
  (forall held, tcp_to_udp self rounds b = (r, b') -> rtc (bridge_step self) (seen held b) (seen held b')).
Proof.
  split.
  - intros Hr. apply (udp_to_tcp_runs self (seen [] b)) in Hr as (held & Hrun & _); [by exists held|done|apply rtc_refl].
  - intros held Hr. by apply (tcp_to_udp_runs self (seen held b) held) in Hr as [Hrun _]; [|done|apply rtc_refl].
Qed.

(** C9. No operation of a stream sends a [Close]; and as long as none arrives, the packets are the
    peer's and the local proxy takes the bytes, the copy from UDP to TCP still runs after any
    number of rounds.  So the end of the service's stream is never told to the client, and a
    session's thread never ends. *)
Theorem udp_sessions_never_end `{Aead} (self : stream) (b : udp_bridge)
    (Hinbox : st_has_inbox self = true) (Hfed : fed self (ub_udp b))
    (Htcp : Forall (fun w => w = None) (lp_writes (ub_tcp b))) :
  (forall rounds, (udp_to_tcp self rounds b).1 = Err out_of_fuel) /\
  forall len bytes w, closes_nothing (w_net w) ->
    closes_nothing (w_net (read self len w).2) /\ closes_nothing (w_net (write self bytes w).2).
Proof.
  split; [intros rounds; by apply udp_to_tcp_runs_on|]. intros len bytes w Hw. split.
  - destruct (read self len w) as [r w'] eqn:E. by eapply (preserves_net_read self _ closes_nothing_keeps).
  - destruct (write self bytes w) as [r w'] eqn:E. by eapply (preserves_net_write self _ closes_nothing_keeps).
Qed.

(** [write_all] makes no more rounds than there are bytes to write and packets to arrive. *)
Theorem write_all_terminates `{Aead} (self : stream) (bytes : list byte) (w : world) :
  in_fuel (write_all self bytes w).1.
Proof. by apply write_all_ends. Qed.

(** An acknowledgement is waited for at most 100 ms.  When the client's comes later, because the path is
    long or because the client, which acknowledges when it reads, is not reading, the write of the
    bridge fails after five times 20 ms, though the acknowledgement is the next thing to arrive; and
    the failed write ends the copy of the service's bytes, of which none is sent any more. *)
Theorem late_acknowledgements_end_the_copy `{Aead} (self : stream) (b : udp_bridge) (rounds : nat)
    (bytes c d : list byte) (reads : list (result (list byte))) (later : list wakeup) :
  st_has_inbox self = true -> hears_nothing RETRIES (millis 20) later (ub_udp b) ->
  lp_reads (ub_tcp b) = Ok bytes :: reads -> bytes <> [] ->
  aead_encrypt (st_key self) (nonce_bytes (st_direction self) (send_seq (w_state (ub_udp b)))) (take MAX_PAYLOAD_LEN (take COPY_BUFFER bytes))
    = Some c ->
  encode_packet (Packet Data (send_seq (w_state (ub_udp b))) c) = Ok d ->
  exists b', tcp_to_udp self (S rounds) b = (Err (EIo TimedOut), b') /\
    n_now (w_net (ub_udp b')) = n_now (w_net (ub_udp b)) + millis 100 /\
    n_sent (w_net (ub_udp b')) = n_sent (w_net (ub_udp b)) ++ replicate RETRIES (st_peer_addr self, d) /\
    w_waits (ub_udp b') = later /\ lp_reads (ub_tcp b') = reads.
Proof.
  intros Hinbox Hlate Hreads Hne Hc Hd. destruct b as [w t]. cbn [ub_udp ub_tcp] in *.
  destruct (late_write_loop self Hinbox RETRIES (millis 20) later None (Packet Data (send_seq (w_state w)) c) d
    (length (take MAX_PAYLOAD_LEN (take COPY_BUFFER bytes))) w) as (w' & Hrun & (_ & _ & _ & Hwaits) & _ & Hsent & Hnow); [done|done|done|].
  unfold tcp_to_udp. cbn [copy_blocking]. unfold mbind, eff_bind at 1, attempt, on_local, zoom, local_read. cbn [ub_udp ub_tcp].
  rewrite Hreads. cbn [fmap result_fmap].
  destruct (take COPY_BUFFER bytes) as [|x buffer] eqn:Etake.
  { apply (f_equal length) in Etake. rewrite length_take in Etake. destruct bytes as [|y bytes]; [done|]. cbn [length] in Etake.
    assert (0 < COPY_BUFFER)%nat by (apply Nat.ltb_lt; reflexivity). lia. }
  unfold eff_bind at 1, on_stream, zoom, write_all. cbn [ub_udp ub_tcp length Nat.add write_all_loop].
  unfold mbind, eff_bind, attempt, write, mbind, eff_bind, gets. rewrite Hc. cbn [ub_udp]. rewrite Hrun.
  eexists. split; [reflexivity|]. cbn [ub_udp ub_tcp lp_reads]. rewrite Hnow, Hsent, Hwaits. split_and!; done.
Qed.

(** ** Witnesses *)

Definition bridge_stream : stream := Stream toy_addr [] true ClientToNode.
Definition bridge_aead : Aead := toy_authentic_aead toy_chunks.
Lemma bridge_authentic : @authentic bridge_aead bridge_stream toy_chunks.
Proof. apply toy_authentic. Qed.
Definition bridge_hello : session_hello := SessionHello flat_token "svc_ssh" None.
Definition bridge_line : list byte := match @to_vec _ flat_hello bridge_hello with Ok p => p | Err _ => [] end.
Definition bridge_start : udp_bridge :=
  UdpBridgeState (World (quiet []) toy_arrivals [] initial_state) (LocalProxy [] [] []).
Definition bridge_started : udp_bridge := (@start_bridge bridge_stream flat_hello (Ok tt) (Ok tt) (Ok tt) bridge_hello bridge_start).2.
(** The second chunk is accepted first; then everything is drained and written. *)
Definition bridge_accepted : session_state := accept_data 0 [x61; x62] (accept_data 1 [x63] initial_state).
Definition bridge_end : bridged :=
  Bridged (SessionState (send_seq bridge_accepted) (recv_seq bridge_accepted)
             (drop 5 (pending_read bridge_accepted)) (pending_packets bridge_accepted))
    [] (lp_written (ub_tcp bridge_started) ++ take 5 (pending_read bridge_accepted)).
Lemma bridge_run : rtc (@bridge_step bridge_aead bridge_stream) (seen [] bridge_started) bridge_end.
Proof.
  eapply rtc_l; [apply (bridge_session bridge_stream _ []), (step_accept bridge_stream _ 1 (pk_payload (toy_data 1 [x63])) [x63]); [done|reflexivity]|].
  eapply rtc_l; [apply (bridge_session bridge_stream _ []), (step_accept bridge_stream _ 0 (pk_payload (toy_data 0 [x61; x62])) [x61; x62]); [done|reflexivity]|].
  eapply rtc_l; [apply bridge_session, (step_drain bridge_stream _ 5)|].
  eapply rtc_l; [apply bridge_write|apply rtc_refl].
Qed.
Lemma udp_sessions_are_checked_like_tcp_witness :
  exists out k, (k <= length toy_chunks)%nat /\
    out ++ bg_holding bridge_end ++ pending_read (bg_session bridge_end) = concat (take k toy_chunks) /\
    @HomeNode.handle_connection flat_token_env flat_hello 200 toy_services "node-1" "s" (bg_written bridge_end)
    = (service ← @authorize_session flat_token_env 200 toy_services "node-1" "s" bridge_hello; Ok (service, out)).
Proof.
  refine (@udp_sessions_are_checked_like_tcp bridge_aead flat_token_env flat_hello flat_hello_ok bridge_stream
    toy_chunks bridge_hello bridge_start bridge_started bridge_end bridge_line 200 toy_services "node-1" "s"
    bridge_authentic _ _ _ _ _ bridge_run).
  - vm_compute. reflexivity.
  - split; reflexivity.
  - vm_compute. reflexivity.
  - apply (bool_decide_unpack _). vm_compute. exact I.
  - vm_compute. reflexivity.
Defined.

Definition bridge_copied : udp_bridge := (@udp_to_tcp bridge_aead bridge_stream 2 bridge_started).2.
Lemma bridge_threads_refine_the_steps_witness :
  (@udp_to_tcp bridge_aead bridge_stream 2 bridge_started = (Err out_of_fuel, bridge_copied) ->
   exists held, rtc (@bridge_step bridge_aead bridge_stream) (seen [] bridge_started) (seen held bridge_copied)) /\
  (forall held, @tcp_to_udp bridge_aead bridge_stream 2 bridge_started = (Err out_of_fuel, bridge_copied) ->
   rtc (@bridge_step bridge_aead bridge_stream) (seen held bridge_started) (seen held bridge_copied)).
Proof.
  refine (@bridge_threads_refine_the_steps bridge_aead bridge_stream 2 bridge_started bridge_copied (Err out_of_fuel) _).
  split; [|constructor]. repeat constructor; vm_compute; congruence.
Defined.

Lemma udp_sessions_never_end_witness :
  (forall rounds, (@udp_to_tcp bridge_aead bridge_stream rounds bridge_started).1 = Err out_of_fuel) /\
  forall len bytes w, closes_nothing (w_net w) ->
    closes_nothing (w_net (@read bridge_aead bridge_stream len w).2) /\
    closes_nothing (w_net (@write bridge_aead bridge_stream bytes w).2).
Proof.
  refine (@udp_sessions_never_end bridge_aead bridge_stream bridge_started eq_refl _ _).
  - split_and!; [|constructor|reflexivity].
    repeat (apply list.Forall_cons; split; [split_and!; [repeat split; vm_compute; congruence|discriminate|intros _; eexists; vm_compute; reflexivity]|]).
    constructor.
  - constructor.
Defined.

(** The service has two bytes for the client, whose acknowledgement comes a millisecond too late. *)
Definition late_world : udp_bridge :=
  UdpBridgeState
    (World (Net [] [] [] 0 (millis 20)) [] (replicate RETRIES (Wakeup [] true (millis 20)) ++ [Wakeup [Packet Ack 0 []] false (millis 1)])
       initial_state)
    (LocalProxy [Ok [x61; x62]; Ok [x63]] [] []).
Definition late_data : list byte := default [] (aead_encrypt (Aead := bridge_aead) [] (nonce_bytes ClientToNode 0) [x61; x62]).
Definition late_datagram : list byte := default [] (result_ok (encode_packet (Packet Data 0 late_data))).
Lemma late_acknowledgements_end_the_copy_witness :
  exists b', @tcp_to_udp bridge_aead bridge_stream 3 late_world = (Err (EIo TimedOut), b') /\
    n_now (w_net (ub_udp b')) = 0 + millis 100 /\
    n_sent (w_net (ub_udp b')) = [] ++ replicate RETRIES (toy_addr, late_datagram) /\
    w_waits (ub_udp b') = [Wakeup [Packet Ack 0 []] false (millis 1)] /\ lp_reads (ub_tcp b') = [Ok [x63]].
Proof.
  refine (@late_acknowledgements_end_the_copy bridge_aead bridge_stream late_world 2 [x61; x62] late_data late_datagram [Ok [x63]]
    [Wakeup [Packet Ack 0 []] false (millis 1)] eq_refl _ eq_refl _ _ _).
  - by split_and!.
  - done.
  - reflexivity.
  - vm_compute. reflexivity.
Defined.
