(* ===== verification/Invites.v ===== *)
(** * Invites

    [apps/medium-cli/src/invite.rs], and the invites of [client_api.rs] and [install.rs]:
    the links a control-plane host prints, which carry the control URL, its pin and the
    secrets, and how a client and a node read them back.

    URLs and the form encoding are the url crate's: parameters, with the documented
    behaviour of the encoding in [FormUrlencodedOk]. *)

From S2P Require Import Prelude RustStd Protocol PinnedHttp ControlPlane.

(** ** The url crate *)

(** [Url::parse] and [Url::as_str]. *)
Class Urls := { url_parse : string -> option url; url_as_str : url -> string }.

(** [form_urlencoded]: [byte_serialize], and the decoding of one name or value. *)
Class FormUrlencoded := { byte_serialize : string -> string; form_decode : string -> string }.
(** The bytes [byte_serialize] leaves as they are; the others become [+] or [%XX]. *)
Definition form_plain (c : ascii) : bool :=
  is_ascii_alphanumeric c || char_in c "*-._".
Definition form_escape (c : ascii) : string :=
  if form_plain c then String c EmptyString
  else if bool_decide (c = " "%char) then "+"
  else String "%" (String (digit_char_upper (code c / 16)) (String (digit_char_upper (code c mod 16)) EmptyString)).
Class FormUrlencodedOk `{!FormUrlencoded} := {
  byte_serialize_empty : byte_serialize EmptyString = EmptyString;
  byte_serialize_cons c s : byte_serialize (String c s) = form_escape c +:+ byte_serialize s;
  form_decode_serialize s : is_Some (utf8_chars s) -> form_decode (byte_serialize s) = s;
  form_decode_plain s : is_Some (utf8_chars s) -> char_in "+" s = false -> char_in "%" s = false ->
    form_decode s = s
}.

(** [str::split_once] with a [char]. *)
Definition cut (d : ascii) (s : string) : option (string * string) := split_once (String d EmptyString) s.

(** [form_urlencoded::parse]: the non-empty pieces between the ampersands. *)
Definition form_pair `{FormUrlencoded} (piece : string) : string * string :=
  match cut "=" piece with
  | Some (name, value) => (form_decode name, form_decode value)
  | None => (form_decode piece, EmptyString)
  end.
Definition form_parse `{FormUrlencoded} (query : string) : list (string * string) :=
  map form_pair (List.filter (fun piece => negb (is_empty piece)) (split_on "&" query)).

(** ** The client's invite *)

Record invite := Invite {
  in_version : Z;
  in_control_url : string;
  in_security : string;
  in_control_pin : string;
  in_client_secret : option string
}.
Definition SUPPORTED_INVITE_VERSION : Z := 1.
Definition SUPPORTED_INVITE_SECURITY : string := "pinned-tls".

(** The variables the loop of [parse_invite] fills. *)
Record invite_fields := InviteFields {
  if_version : option Z;
  if_control_url : option string;
  if_security : option string;
  if_control_pin : option string;
  if_client_secret : option string
}.
Definition filled (what value : string) : result string :=
  _ ← bail_if (is_empty value) (EMsg (what +:+ " cannot be empty")); Ok value.
Definition invite_pair (parameter : string) (f : invite_fields) : result invite_fields :=
  '(key, value) ← ok_or (EMsg ("invalid invite parameter " +:+ parameter)) (cut "=" parameter);
  let 'InviteFields version control_url security control_pin client_secret := f in
  if key =?s "v" then
    version ← ok_or (EMsg ("invalid invite version " +:+ value)) (parse_u32 value);
    Ok (InviteFields (Some version) control_url security control_pin client_secret)
  else if key =?s "control" then
    control_url ← filled "invite control URL" value;
    Ok (InviteFields version (Some control_url) security control_pin client_secret)
  else if key =?s "security" then
    security ← filled "invite security" value;
    Ok (InviteFields version control_url (Some security) control_pin client_secret)
  else if key =?s "control_pin" then
    control_pin ← filled "invite control pin" value;
    Ok (InviteFields version control_url security (Some control_pin) client_secret)
  else if key =?s "client_secret" then
    client_secret ← filled "invite client secret" value;
    Ok (InviteFields version control_url security control_pin (Some client_secret))
  else Ok f.
Fixpoint invite_pairs (pairs : list string) (f : invite_fields) : result invite_fields :=
  match pairs with
  | [] => Ok f
  | parameter :: rest => f ← invite_pair parameter f; invite_pairs rest f
  end.
Definition parse_invite (raw : string) : result invite :=
  '(scheme, remainder) ← ok_or (EMsg "invite must include a scheme") (split_once "://" raw);
  _ ← bail_if (negb (scheme =?s "medium")) (EMsg ("unsupported invite scheme " +:+ scheme));
  '(path, query) ← ok_or (EMsg "invite must include query parameters") (cut "?" remainder);
  _ ← bail_if (negb (path =?s "join")) (EMsg ("unsupported invite path " +:+ path));
  f ← invite_pairs (split_on "&" query) (InviteFields None None None None None);
  version ← ok_or (EMsg "invite is missing version") (if_version f);
  _ ← bail_if (negb (version =? SUPPORTED_INVITE_VERSION)) (EMsg ("unsupported invite version " +:+ dec version));
  security ← ok_or (EMsg "invite is missing security") (if_security f);
  _ ← bail_if (negb (security =?s SUPPORTED_INVITE_SECURITY)) (EMsg ("unsupported invite security " +:+ security));
  control_url ← ok_or (EMsg "invite is missing control URL") (if_control_url f);
  control_pin ← ok_or (EMsg "invite is missing control pin") (if_control_pin f);
  Ok (Invite version control_url security control_pin (if_client_secret f)).

(** ** The links *)

Section Links.
Context `{Urls} `{FormUrlencoded}.

Definition normalize_control_url (raw : string) : result string :=
  url ← ok_or (EMsg ("invalid control URL " +:+ raw)) (url_parse raw);
  _ ← bail_if (negb ((url_scheme url =?s "http") || (url_scheme url =?s "https")))
        (EMsg ("unsupported control URL scheme " +:+ url_scheme url));
  _ ← bail_if (bool_decide (url_host url = None)) (EMsg "control URL must include a host");
  Ok (trim_end_matches "/" (url_as_str url)).
(** [client_api::format_join_invite]. *)
Definition format_join_invite (control_url control_pin : string) : result string :=
  control_url ← normalize_control_url control_url;
  _ ← bail_if (is_empty control_pin) (EMsg "control pin cannot be empty");
  Ok ("medium://join?v=1&control=" +:+ control_url +:+ "&security=pinned-tls&control_pin=" +:+ control_pin).

Definition url_query_value (value : string) : string := byte_serialize value.
(** [format_join_invite] of the installer. *)
Definition format_secret_invite (control_url control_pin client_secret : string) : result string :=
  base ← format_join_invite control_url control_pin;
  _ ← bail_if (is_empty client_secret) (EMsg "client secret cannot be empty");
  Ok (base +:+ "&client_secret=" +:+ url_query_value client_secret).

(** ** The node's invite *)

Record node_invite := NodeInvite {
  ni_control_url : string;
  ni_control_pin : string;
  ni_shared_secret : string;
  ni_relay_addr : option string;
  ni_wss_relay_url : option string;
  ni_service_ca_cert_pem : option string;
  ni_service_ca_key_pem : option string;
  ni_ssh_ca_public_key : option string
}.
Definition format_node_invite (control_url control_pin shared_secret relay_addr wss_relay_url : string)
    : result string :=
  _ ← format_join_invite control_url control_pin;
  _ ← bail_if (is_empty shared_secret) (EMsg "shared secret cannot be empty");
  let relay_part := if is_empty relay_addr then EmptyString else "&relay=" +:+ relay_addr in
  let wss_relay_part :=
    if is_empty wss_relay_url then EmptyString else "&wss_relay=" +:+ url_query_value wss_relay_url in
  Ok ("medium://node?v=1&control=" +:+ control_url +:+ "&security=pinned-tls&control_pin=" +:+ control_pin
      +:+ "&shared_secret=" +:+ shared_secret +:+ relay_part +:+ wss_relay_part).

Definition validate_wss_relay_url (value : string) : result unit :=
  if is_empty (trim value) then Ok tt
  else
    url ← ok_or (EMsg ("invalid MEDIUM_WSS_RELAY_URL: " +:+ value)) (url_parse value);
    _ ← bail_if (negb (url_scheme url =?s "wss")) (EMsg "MEDIUM_WSS_RELAY_URL must use wss://");
    Ok tt.

(** The last value of each name: the loop of [parse_node_invite] overwrites. *)
Fixpoint last_value (name : string) (pairs : list (string * string)) : option string :=
  match pairs with
  | [] => None
  | (k, v) :: rest =>
      match last_value name rest with
      | Some v' => Some v'
      | None => if k =?s name then Some v else None
      end
  end.
(** The loop ends at a version that is not a number. *)
Fixpoint versions_ok (pairs : list (string * string)) : result unit :=
  match pairs with
  | [] => Ok tt
  | (k, v) :: rest =>
      _ ← (if k =?s "v" then ok_or (EExt "parse_int") (parse_u32 v) else Ok 0); versions_ok rest
  end.
Definition wrong_invite : string :=
  "medium init-node requires a node invite (medium://node...), but got a client join invite "
  +:+ "(medium://join...). On the control-plane host, run `sudo medium init-control --reconfigure` "
  +:+ "and copy the line that starts with `generated node invite `.".
(** The rest of [parse_node_invite], on the pairs of the query. *)
Definition read_node_pairs (pairs : list (string * string)) : result node_invite :=
  _ ← versions_ok pairs;
  version ← ok_or (EMsg "node invite is missing version") (last_value "v" pairs ≫= parse_u32);
  _ ← bail_if (negb (version =? 1)) (EMsg ("unsupported node invite version " +:+ dec version));
  security ← ok_or (EMsg "node invite is missing security") (last_value "security" pairs);
  _ ← bail_if (negb (security =?s "pinned-tls")) (EMsg ("unsupported node invite security " +:+ security));
  control_url ← ok_or (EMsg "node invite is missing control URL") (last_value "control" pairs);
  control_pin ← ok_or (EMsg "node invite is missing control pin") (last_value "control_pin" pairs);
  shared_secret ← ok_or (EMsg "node invite is missing shared secret") (last_value "shared_secret" pairs);
  _ ← bail_if (is_empty shared_secret) (EMsg "node invite shared secret cannot be empty");
  _ ← match last_value "wss_relay" pairs with Some url => validate_wss_relay_url url | None => Ok tt end;
  _ ← format_join_invite control_url control_pin;
  Ok (NodeInvite control_url control_pin shared_secret (last_value "relay" pairs) (last_value "wss_relay" pairs)
        (last_value "service_ca_cert" pairs) (last_value "service_ca_key" pairs)
        (last_value "ssh_ca_public_key" pairs)).
Definition parse_node_invite (raw : string) : result node_invite :=
  '(scheme, remainder) ← ok_or (EMsg "node invite must include a scheme") (split_once "://" raw);
  _ ← bail_if (negb (scheme =?s "medium")) (EMsg ("unsupported node invite scheme " +:+ scheme));
  '(path, query) ← ok_or (EMsg "node invite must include query parameters") (cut "?" remainder);
  _ ← bail_if (path =?s "join") (EMsg wrong_invite);
  _ ← bail_if (negb (path =?s "node")) (EMsg ("unsupported node invite path " +:+ path));
  read_node_pairs (form_parse query).
End Links.

(** ** Lemmas *)

(** A link of the program cut back into its parameters. *)
Definition parameter (p : string * string) : string := p.1 +:+ String "=" p.2.
Definition link (path : string) (params : list (string * string)) : string :=
  "medium://" +:+ path +:+ "?" +:+ join "&" (map parameter params).
Definition clean (params : list (string * string)) : Prop :=
  Forall (fun p => char_in "&" p.1 = false /\ char_in "=" p.1 = false /\ char_in "&" p.2 = false) params.

Lemma split_link path params :
  char_in "?" path = false -> char_in ":" path = false -> params <> [] -> clean params ->
  split_once "://" (link path params) = Some ("medium", path +:+ "?" +:+ join "&" (map parameter params)) /\
  cut "?" (path +:+ "?" +:+ join "&" (map parameter params)) = Some (path, join "&" (map parameter params)) /\
  split_on "&" (join "&" (map parameter params)) = map parameter params.
Proof.
  intros Hq Hc Hne Hclean. split; [|split].
  - unfold link. simpl. done.
  - unfold cut. by apply split_once_char.
  - apply split_on_join; [by destruct params|].
    apply list.Forall_fmap. eapply list.Forall_impl; [exact Hclean|].
    intros [k v]. cbn. intros (Hk & _ & Hv). unfold parameter. cbn. by rewrite char_in_app, Hk.
Qed.
Lemma cut_parameter p : char_in "=" p.1 = false -> cut "=" (parameter p) = Some p.
Proof. intros Hp. unfold cut, parameter. rewrite split_once_char by done. by destruct p. Qed.

Section Encoding.
Context `{FormUrlencodedOk}.

Lemma form_escape_chars c : string_all (fun c => form_plain c || char_in c "+%") (form_escape c) = true.
Proof. by destruct c as [[] [] [] [] [] [] [] []]. Qed.
Lemma byte_serialize_chars s : string_all (fun c => form_plain c || char_in c "+%") (byte_serialize s) = true.
Proof.
  induction s as [|c s IH]; [by rewrite byte_serialize_empty|].
  by rewrite byte_serialize_cons, string_all_app, form_escape_chars, IH.
Qed.
Lemma byte_serialize_plain s : string_all form_plain s = true -> byte_serialize s = s.
Proof.
  induction s as [|c s IH]; [intros _; apply byte_serialize_empty|]. cbn [string_all]. intros [Hc Hs]%andb_true_iff.
  rewrite byte_serialize_cons, IH by done. unfold form_escape. by rewrite Hc.
Qed.
Lemma byte_serialize_length s : (String.length s <= String.length (byte_serialize s))%nat.
Proof.
  induction s as [|c s IH]; [simpl; lia|]. rewrite byte_serialize_cons, string_length_app. simpl.
  assert (1 <= String.length (form_escape c))%nat; [|lia]. unfold form_escape. destruct (form_plain c); [done|].
  case_bool_decide; simpl; lia.
Qed.
(** Only what holds no other character is left as it is. *)
Lemma byte_serialize_fixed s : byte_serialize s = s -> string_all form_plain s = true.
Proof.
  induction s as [|c s IH]; [done|]. rewrite byte_serialize_cons. unfold form_escape. cbn [string_all].
  destruct (form_plain c); simpl; [intros [= Hs]; by apply IH|]. case_bool_decide as Hspace; [by intros [= <- _]|].
  intros [= _ Hs]. pose proof (byte_serialize_length s) as Hlen. rewrite <- Hs in Hlen at 1. simpl in Hlen. lia.
Qed.
Lemma byte_serialize_filled s : s <> EmptyString -> is_empty (byte_serialize s) = false.
Proof.
  intros Hne. apply bool_decide_eq_false_2. intros He. pose proof (byte_serialize_length s) as Hlen. rewrite He in Hlen.
  destruct s; [done|simpl in Hlen; lia].
Qed.
End Encoding.

Section Reading.
Context `{Urls} `{FormUrlencodedOk}.

(** A control URL as [normalize_control_url] leaves it. *)
Definition control_url_ok (c : string) : Prop :=
  c <> EmptyString /\ char_in "&" c = false /\
  exists u, url_parse c = Some u /\ (url_scheme u = "http" \/ url_scheme u = "https") /\
    is_Some (url_host u) /\ trim_end_matches "/" (url_as_str u) = c.
Lemma normalize_normal c : control_url_ok c -> normalize_control_url c = Ok c.
Proof.
  intros (_ & _ & u & Hu & Hs & [h Hh] & Hc). unfold normalize_control_url. rewrite Hu.
  assert ((url_scheme u =?s "http") || (url_scheme u =?s "https") = true) as Hs'.
  { apply orb_true_iff. by destruct Hs as [->| ->]; [left|right]; apply bool_decide_eq_true_2. }
  cbn. rewrite Hs'. cbn. rewrite bool_decide_eq_false_2 by (by rewrite Hh). cbn. by rewrite Hc.
Qed.

Lemma byte_serialize_clean d s :
  (form_plain d || char_in d "+%") = false -> char_in d (byte_serialize s) = false.
Proof. intros Hd. eapply string_all_char_in; [apply byte_serialize_chars|done]. Qed.
Lemma not_empty s : s <> EmptyString -> is_empty s = false.
Proof. intros Hs. by apply bool_decide_eq_false_2. Qed.

Definition join_params (c pin secret : string) : list (string * string) :=
  [("v", "1"); ("control", c); ("security", "pinned-tls"); ("control_pin", pin); ("client_secret", secret)].
Lemma format_secret_link c pin secret :
  control_url_ok c -> pin <> EmptyString -> secret <> EmptyString ->
  format_secret_invite c pin secret = Ok (link "join" (join_params c pin (url_query_value secret))).
Proof.
  intros Hc Hp Hs. unfold format_secret_invite, format_join_invite. rewrite normalize_normal by done.
  cbn [mbind result_bind]. rewrite (not_empty pin) by done. cbn. rewrite (not_empty secret) by done. cbn.
  by rewrite <- !string_app_assoc.
Qed.
Lemma read_join_params c pin secret :
  c <> EmptyString -> pin <> EmptyString -> secret <> EmptyString ->
  invite_pairs (map parameter (join_params c pin secret)) (InviteFields None None None None None)
  = Ok (InviteFields (Some 1) (Some c) (Some "pinned-tls") (Some pin) (Some secret)).
Proof.
  intros Hc Hp Hs. destruct c; [done|]. destruct pin; [done|]. destruct secret; [done|].
  unfold join_params. cbn [map invite_pairs]. unfold invite_pair. rewrite !cut_parameter by done. reflexivity.
Qed.
Lemma parse_join_link c pin secret :
  c <> EmptyString -> pin <> EmptyString -> secret <> EmptyString ->
  char_in "&" c = false -> char_in "&" pin = false -> char_in "&" secret = false ->
  parse_invite (link "join" (join_params c pin secret)) = Ok (Invite 1 c "pinned-tls" pin (Some secret)).
Proof.
  intros Hc Hp Hs Hca Hpa Hsa.
  destruct (split_link "join" (join_params c pin secret)) as (Hscheme & Hpath & Hpairs); [done|done|done| |].
  { repeat constructor; cbn; done. }
  unfold parse_invite. rewrite Hscheme. cbn [ok_or]. rewrite bind_Ok. cbv beta iota.
  rewrite (bool_decide_eq_true_2 ("medium" = "medium")) by done. cbn [bail_if negb]. rewrite bind_Ok, Hpath.
  cbn [ok_or]. rewrite bind_Ok. cbv beta iota.
  rewrite (bool_decide_eq_true_2 ("join" = "join")) by done. cbn [bail_if negb]. rewrite bind_Ok, Hpairs.
  rewrite read_join_params by done. by rewrite bind_Ok.
Qed.

(** A value a node invite carries without encoding. *)
Definition form_safe (v : string) : Prop :=
  is_Some (utf8_chars v) /\ char_in "&" v = false /\ char_in "+" v = false /\ char_in "%" v = false.
Lemma form_decode_safe v : form_safe v -> form_decode v = v.
Proof. intros (Hu & _ & Hp & Hc). by apply form_decode_plain. Qed.
Definition node_params (c pin secret relay wss : string) : list (string * string) :=
  [("v", "1"); ("control", c); ("security", "pinned-tls"); ("control_pin", pin); ("shared_secret", secret)]
  ++ (if is_empty relay then [] else [("relay", relay)])
  ++ (if is_empty wss then [] else [("wss_relay", url_query_value wss)]).
Lemma format_node_link c pin secret relay wss :
  control_url_ok c -> pin <> EmptyString -> secret <> EmptyString ->
  format_node_invite c pin secret relay wss = Ok (link "node" (node_params c pin secret relay wss)).
Proof.
  intros Hc Hp Hs. unfold format_node_invite, format_join_invite. rewrite normalize_normal, bind_Ok by done.
  rewrite (not_empty pin) by done. cbn [bail_if]. rewrite !bind_Ok, (not_empty secret) by done. cbn [bail_if].
  rewrite bind_Ok. cbv zeta. f_equal. unfold node_params. destruct (is_empty relay), (is_empty wss); rewrite ?string_app_nil_r; reflexivity.
Qed.

(** Decoding the parameters of a link gives them back when their values do. *)
Lemma form_parse_params params :
  params <> [] -> clean params -> Forall (fun p => form_decode p.1 = p.1 /\ p.1 <> EmptyString) params ->
  form_parse (join "&" (map parameter params)) = map (fun p => (p.1, form_decode p.2)) params.
Proof.
  intros Hne Hclean Hkeys. unfold form_parse.
  destruct (split_link EmptyString params) as (_ & _ & ->); [done..|]. clear Hne.
  induction params as [|[k v] params IH]; [done|].
  inversion Hclean as [|? ? (_ & He & _) Hclean']; inversion Hkeys as [|? ? [Hk Hf] Hkeys']; subst.
  cbn [map List.filter]. rewrite (not_empty (parameter (k, v))) by (by destruct k). cbn [negb map].
  rewrite IH by done. f_equal. unfold form_pair. rewrite cut_parameter by done. by cbn in Hk |- *; rewrite Hk.
Qed.

Lemma node_params_clean c pin secret relay wss :
  control_url_ok c -> form_safe pin -> form_safe secret -> form_safe relay ->
  clean (node_params c pin secret relay wss) /\
  Forall (fun p => form_decode p.1 = p.1 /\ p.1 <> EmptyString) (node_params c pin secret relay wss).
Proof.
  intros (_ & Hc & _) (_ & Hp & _) (_ & Hs & _) (_ & Hr & _). unfold node_params, clean.
  rewrite !list.Forall_app. split.
  - repeat split; [repeat constructor; done| |]; (destruct (is_empty _); repeat constructor; try done).
    by apply byte_serialize_clean.
  - repeat split; [repeat constructor; try done| |]; try (destruct (is_empty _); repeat constructor; try done);
      (apply form_decode_plain; [by eexists|done|done]).
Qed.
Lemma read_node_params c pin secret relay wss :
  control_url_ok c -> pin <> EmptyString -> secret <> EmptyString ->
  match wss with Some url => validate_wss_relay_url url = Ok tt | None => True end ->
  read_node_pairs ([("v", "1"); ("control", c); ("security", "pinned-tls"); ("control_pin", pin);
                    ("shared_secret", secret)]
                   ++ (match relay with Some r => [("relay", r)] | None => [] end)
                   ++ (match wss with Some url => [("wss_relay", url)] | None => [] end))
  = Ok (NodeInvite c pin secret relay wss None None None).
Proof.
  intros Hc Hp Hs Hw. unfold read_node_pairs.
  assert (format_join_invite c pin = Ok ("medium://join?v=1&control=" +:+ c +:+ "&security=pinned-tls&control_pin=" +:+ pin))
    as Hf.
  { unfold format_join_invite. rewrite normalize_normal, bind_Ok by done. by rewrite (not_empty pin). }
  transitivity (_ ← bail_if (is_empty secret) (EMsg "node invite shared secret cannot be empty");
    _ ← match wss with Some url => validate_wss_relay_url url | None => Ok tt end;
    _ ← format_join_invite c pin;
    Ok (NodeInvite c pin secret relay wss None None None)).
  - destruct relay as [r|], wss as [w|]; reflexivity.
  - rewrite (not_empty secret), Hf by done. by destruct wss; [rewrite Hw|].
Qed.
Lemma parse_node_link c pin secret relay wss :
  control_url_ok c -> form_safe c -> form_safe pin -> form_safe secret -> form_safe relay ->
  pin <> EmptyString -> secret <> EmptyString ->
  is_Some (utf8_chars wss) -> validate_wss_relay_url wss = Ok tt ->
  parse_node_invite (link "node" (node_params c pin secret relay wss))
  = Ok (NodeInvite c pin secret (if is_empty relay then None else Some relay)
          (if is_empty wss then None else Some wss) None None None).
Proof.
  intros Hok Hc Hp Hs Hr Hpin Hsecret Hwss Hvalid.
  destruct (node_params_clean c pin secret relay wss) as [Hclean Hkeys]; [done..|].
  assert (node_params c pin secret relay wss <> []) as Hne by done.
  destruct (split_link "node" (node_params c pin secret relay wss)) as (Hscheme & Hpath & _); [done..|].
  unfold parse_node_invite. rewrite Hscheme. cbn [ok_or]. rewrite bind_Ok. cbv beta iota.
  rewrite (bool_decide_eq_true_2 ("medium" = "medium")) by done. cbn [bail_if negb]. rewrite bind_Ok, Hpath.
  cbn [ok_or]. rewrite bind_Ok. cbv beta iota.
  rewrite (bool_decide_eq_false_2 ("node" = "join")) by done. cbn [bail_if]. rewrite bind_Ok.
  rewrite (bool_decide_eq_true_2 ("node" = "node")) by done. cbn [bail_if negb]. rewrite bind_Ok.
  rewrite form_parse_params by done. cbv zeta. unfold node_params. rewrite !map_app. cbn [map fst snd].
  assert (form_safe "1") as Hone by (repeat split; by eexists).
  assert (form_safe "pinned-tls") as Htls by (repeat split; by eexists).
  rewrite (form_decode_safe c), (form_decode_safe pin), (form_decode_safe secret), !form_decode_safe by done.
  destruct (is_empty relay), (is_empty wss); cbn [map fst snd]; unfold url_query_value;
    rewrite ?(form_decode_safe relay), ?form_decode_serialize by done;
    match goal with |- _ = Ok (NodeInvite _ _ _ ?r ?w _ _ _) => by apply (read_node_params c pin secret r w) end.
Qed.
End Reading.

(** ** Properties *)

(** C40. The invites a control-plane host prints are read back by the tools that take them.
    The client's invite, for a normalised control URL, a pin and a secret that are not empty,
    the URL and the pin without an ampersand, gives the control URL, the pin and the client secret as the link
    carries it, encoded: the secret comes back as it was exactly when it holds only letters,
    digits and [*-._], since [parse_invite] does not decode it.  The node's invite, whose
    control URL, pin, shared secret and relay address [format_node_invite] prints as they
    are, gives them back when none of them holds an ampersand, a plus or a percent sign and
    the shared secret is not empty; the relay address when there is one, and the WSS relay
    URL, which is encoded, whatever the characters of a valid one. *)
Theorem invites_read_back `{Urls} `{FormUrlencodedOk} (c pin client_secret shared_secret relay wss : string)
    (Hc : control_url_ok c) (Hpin : pin <> EmptyString) :
  (char_in "&" pin = false -> client_secret <> EmptyString ->
   exists invite_link, format_secret_invite c pin client_secret = Ok invite_link /\
     parse_invite invite_link = Ok (Invite 1 c "pinned-tls" pin (Some (url_query_value client_secret)))) /\
  (url_query_value client_secret = client_secret <-> string_all form_plain client_secret = true) /\
  (Forall form_safe [c; pin; shared_secret; relay] -> shared_secret <> EmptyString ->
   is_Some (utf8_chars wss) -> validate_wss_relay_url wss = Ok tt ->
   exists node_link, format_node_invite c pin shared_secret relay wss = Ok node_link /\
     parse_node_invite node_link = Ok (NodeInvite c pin shared_secret (if is_empty relay then None else Some relay)
                                         (if is_empty wss then None else Some wss) None None None)).
Proof.
  split_and!.
  - intros Hamp Hne. exists (link "join" (join_params c pin (url_query_value client_secret))). split; [by apply format_secret_link|].
    apply parse_join_link; [apply Hc|done| |apply Hc|done|by apply byte_serialize_clean].
    intros He. by pose proof (byte_serialize_filled client_secret Hne) as Hf; unfold url_query_value in He; rewrite He in Hf.
  - split; [apply byte_serialize_fixed|apply byte_serialize_plain].
  - rewrite !list.Forall_cons. intros (Hsc & Hsp & Hss & Hsr & _) Hshared Hwutf Hwok.
    exists (link "node" (node_params c pin shared_secret relay wss)). split; [by apply format_node_link|].
    by apply parse_node_link.
Qed.

(** ** Witnesses *)

(** The form encoding, on bytes. *)
Fixpoint toy_serialize (s : string) : string :=
  match s with EmptyString => EmptyString | String c rest => form_escape c +:+ toy_serialize rest end.
Fixpoint toy_decode (s : string) : string :=
  match s with
  | String "%" (String a (String b rest)) =>
      match digit_value 16 a, digit_value 16 b with
      | Some x, Some y => String (ascii_of_Z (16 * x + y)) (toy_decode rest)
      | _, _ => EmptyString
      end
  | String "+" rest => String " " (toy_decode rest)
  | String c rest => String c (toy_decode rest)
  | EmptyString => EmptyString
  end.
#[global] Instance toy_form : FormUrlencoded := { byte_serialize := toy_serialize; form_decode := toy_decode }.
Lemma toy_escape_decode c rest : toy_decode (form_escape c +:+ rest) = String c (toy_decode rest).
Proof. by destruct c as [[] [] [] [] [] [] [] []]. Qed.
#[global] Instance toy_form_ok : FormUrlencodedOk.
Proof.
  split.
  - done.
  - done.
  - intros s _. cbn. induction s as [|c s IH]; [done|]. cbn [toy_serialize]. by rewrite toy_escape_decode, IH.
  - intros s _. cbn. induction s as [|c s IH]; [done|]. cbn [char_in].
    intros [Hp Hs]%orb_false_iff [Hc Hs']%orb_false_iff. apply bool_decide_eq_false in Hp, Hc.
    transitivity (String c (toy_decode s)); [|by rewrite IH].
    by destruct c as [[] [] [] [] [] [] [] []].
Qed.
(** URLs by their scheme and host. *)
#[global] Instance toy_urls : Urls := {
  url_parse s :=
    '(scheme, rest) ← cut ":" s;
    rest ← strip_prefix "//" rest;
    Some (Url scheme (Some match cut "/" rest with Some (host, _) => host | None => rest end) None (Some 443) "/" None);
  url_as_str u := url_scheme u +:+ "://" +:+ default EmptyString (url_host u) +:+ url_path u
}.
Lemma invites_read_back_witness :
  format_secret_invite "https://control.example:7777" "sha256:00" "medium-client-secret-1f"
  = Ok "medium://join?v=1&control=https://control.example:7777&security=pinned-tls&control_pin=sha256:00&client_secret=medium-client-secret-1f" /\
  (exists invite_link, format_secret_invite "https://control.example:7777" "sha256:00" "p&q" = Ok invite_link /\
     parse_invite invite_link = Ok (Invite 1 "https://control.example:7777" "pinned-tls" "sha256:00" (Some (url_query_value "p&q")))) /\
  url_query_value "p&q" <> "p&q" /\
  exists node_link, format_node_invite "https://control.example:7777" "sha256:00" "s3cret" "relay.example:7001"
      "wss://relay.example/medium/v1/relay" = Ok node_link /\
    parse_node_invite node_link
    = Ok (NodeInvite "https://control.example:7777" "sha256:00" "s3cret" (Some "relay.example:7001")
            (Some "wss://relay.example/medium/v1/relay") None None None).
Proof.
  assert (control_url_ok "https://control.example:7777") as Hc.
  { split; [done|]. split; [reflexivity|]. eexists. split; [reflexivity|]. split; [by right|].
    split; [by eexists|]. vm_compute. reflexivity. }
  destruct (invites_read_back "https://control.example:7777" "sha256:00" "p&q" "s3cret" "relay.example:7001"
    "wss://relay.example/medium/v1/relay") as (Hclient & Hplain & Hnode); [exact Hc|done|].
  split_and!.
  - vm_compute. reflexivity.
  - by apply Hclient.
  - intros He. apply Hplain in He. vm_compute in He. discriminate.
  - apply Hnode; [|done|by eexists|reflexivity]. repeat constructor; try reflexivity; by eexists.
Defined.
