(* ===== verification/Disk.v ===== *)
(** * The file system of the command-line tool

    What [std::fs] and [std::path] do for the installer, the client state and the doctor:
    directories and files by their path, the mode of a file, and the failures of paths the
    process may not touch.  Paths are text; [path_join] is [Path::join] on a relative name. *)

From S2P Require Import Prelude RustStd Net.

(** ** Paths *)

Definition path_join (p name : string) : string :=
  if is_empty p || ends_with "/" p then p +:+ name else p +:+ "/" +:+ name.
(** [Path::parent] of a path that [path_join] made. *)
Definition path_parent (p : string) : option string :=
  match rsplit_once "/" p with
  | Some (EmptyString, EmptyString) => None
  | Some (EmptyString, _) => Some "/"
  | Some (dir, _) => Some dir
  | None => if is_empty p then None else Some EmptyString
  end.
(** A path and the paths of its ancestors, from the root. *)
Fixpoint ancestors (acc p : string) : list string :=
  match p with
  | EmptyString => if is_empty acc then [] else [string_rev acc]
  | String "/" rest => (if is_empty acc then ["/"] else [string_rev acc]) ++ ancestors (String "/" acc) rest
  | String c rest => ancestors (String c acc) rest
  end.

(** ** Disks *)

Inductive node := Directory | File (contents : string) (mode : Z).
Record disk := Disk {
  dk_nodes : gmap string node;
  dk_denied : string -> bool   (* opening or creating the path is refused *)
}.
Definition set_nodes (m : gmap string node) (d : disk) : disk := Disk m (dk_denied d).

Definition not_found : error := EExt "NotFound".
Definition permission_denied : error := EExt "PermissionDenied".
(** 0666 under the usual umask 022, and 0600. *)
Definition default_mode : Z := 420.
Definition private_mode : Z := 384.

Definition path_exists (p : string) (d : disk) : bool := bool_decide (is_Some (dk_nodes d !! p)).
Definition is_file (p : string) (d : disk) : bool :=
  match dk_nodes d !! p with Some (File _ _) => true | _ => false end.
Definition contents_of (p : string) (d : disk) : option string :=
  match dk_nodes d !! p with Some (File c _) => Some c | _ => None end.

Definition read_to_string (p : string) : eff disk string := fun d =>
  (if dk_denied d p then Err permission_denied
   else match dk_nodes d !! p with
        | None => Err not_found
        | Some Directory => Err (EExt "IsADirectory")
        | Some (File c _) => match utf8_chars c with Some _ => Ok c | None => Err (EExt "InvalidData") end
        end, d).
(** [fs::write]: a new file gets the default mode, an old one keeps its own. *)
Definition write_file (p contents : string) : eff disk unit := fun d =>
  if dk_denied d p then (Err permission_denied, d)
  else match dk_nodes d !! p with
       | Some Directory => (Err (EExt "IsADirectory"), d)
       | Some (File _ mode) => (Ok tt, set_nodes (<[p := File contents mode]> (dk_nodes d)) d)
       | None =>
           match dk_nodes d !! default EmptyString (path_parent p) with
           | Some Directory => (Ok tt, set_nodes (<[p := File contents default_mode]> (dk_nodes d)) d)
           | _ => (Err not_found, d)
           end
       end.
Definition set_mode (p : string) (mode : Z) : eff disk unit := fun d =>
  match dk_nodes d !! p with
  | Some (File c _) => (Ok tt, set_nodes (<[p := File c mode]> (dk_nodes d)) d)
  | _ => (Err not_found, d)
  end.
Definition create_dir (p : string) : eff disk unit := fun d =>
  match dk_nodes d !! p with
  | Some Directory => (Ok tt, d)
  | Some (File _ _) => (Err (EExt "NotADirectory"), d)
  | None =>
      if dk_denied d p then (Err permission_denied, d)
      else (Ok tt, set_nodes (<[p := Directory]> (dk_nodes d)) d)
  end.
Fixpoint create_dirs (paths : list string) : eff disk unit :=
  match paths with
  | [] => mret tt
  | p :: rest => _ ← create_dir p; create_dirs rest
  end.
Definition create_dir_all (p : string) : eff disk unit := create_dirs (ancestors EmptyString p).

(** [with_context]: the message of the outer error. *)
Definition with_context {S A} (m : string) (x : eff S A) : eff S A := fun s =>
  match x s with
  | (Err _, s') => (Err (EMsg m), s')
  | r => r
  end.

(** ** Lemmas *)

Lemma read_written p c d d' : write_file p c d = (Ok tt, d') -> is_Some (utf8_chars c) ->
  read_to_string p d' = (Ok c, d').
Proof.
  unfold write_file, read_to_string. destruct (dk_denied d p) eqn:Hd; [done|]. intros Hw [l Hc].
  destruct (dk_nodes d !! p) as [[|? mode]|]; [done| |].
  - injection Hw as <-. cbn. by rewrite Hd, lookup_insert_eq, Hc.
  - destruct (dk_nodes d !! _) as [[|? ?]|]; try done. injection Hw as <-. cbn. by rewrite Hd, lookup_insert_eq, Hc.
Qed.
Lemma written_contents p c d d' : write_file p c d = (Ok tt, d') ->
  contents_of p d' = Some c /\ dk_denied d' = dk_denied d /\
  forall q, q <> p -> dk_nodes d' !! q = dk_nodes d !! q.
Proof.
  unfold write_file, contents_of. destruct (dk_denied d p) eqn:Hd; [done|]. intros Hw.
  assert (exists mode, d' = set_nodes (<[p := File c mode]> (dk_nodes d)) d) as [mode ->].
  { destruct (dk_nodes d !! p) as [[|? mode]|]; [done| |].
    - injection Hw as <-. eauto.
    - destruct (dk_nodes d !! _) as [[|? ?]|]; try done. injection Hw as <-. eauto. }
  cbn. rewrite lookup_insert_eq. split_and!; [done|done|]. intros q Hq. by rewrite lookup_insert_ne.
Qed.
Lemma with_context_ok {S A} m (x : eff S A) s a s' : with_context m x s = (Ok a, s') <-> x s = (Ok a, s').
Proof. unfold with_context. destruct (x s) as [[?|?] ?]; naive_solver. Qed.
