(* ===== verification/ClientApi.v ===== *)
(** * The client's state and its calls to the control plane

    [apps/medium-cli/src/paths.rs], [state.rs] and [client_api.rs]: where a client keeps its
    state, how it joins a network and what it asks the control plane.

    A client that joined with an invite has a pin: its requests are the pinned ones of
    [PinnedHttp.v]; the others go through reqwest, a parameter.  serde_json's reader of the
    state file is a parameter too. *)

From S2P Require Import Prelude RustStd Net Disk Protocol PinnedHttp Registry ControlPlane Invites.

(** ** Paths *)

Record app_paths := AppPaths {
  ap_home_dir : string;
  ap_app_config_dir : string;
  ap_state_dir : string;
  ap_state_path : string;
  ap_ssh_dir : string;
  ap_ssh_config_path : string;
  ap_ssh_config_dir : string;
  ap_overlay_ssh_config_path : string
}.
Definition join_all (p : string) (names : list string) : string := fold_left path_join names p.
(** What the two layouts share. *)
Definition paths_in (home_dir state_dir : string) : app_paths :=
  let ssh_dir := path_join home_dir ".ssh" in
  let ssh_config_dir := path_join ssh_dir "config.d" in
  AppPaths home_dir (path_join home_dir ".medium") state_dir (path_join state_dir "state.json") ssh_dir
    (path_join ssh_dir "config") ssh_config_dir (path_join ssh_config_dir "medium.conf").
Definition for_linux_home (home_dir : string) : app_paths :=
  paths_in home_dir (join_all home_dir [".local"; "share"; "medium"]).
Definition for_macos_home (home_dir : string) : app_paths :=
  paths_in home_dir (join_all home_dir ["Library"; "Application Support"; "Medium"; "state"]).
Definition from_home (macos : bool) (home_dir : string) : app_paths :=
  if macos then for_macos_home home_dir else for_linux_home home_dir.
Definition from_env (macos : bool) (env : string -> option string) : result app_paths :=
  match env "MEDIUM_HOME" with
  | Some home => Ok (from_home macos home)
  | None =>
      match env "OVERLAY_HOME" with
      | Some home => Ok (from_home macos home)
      | None => home ← ok_or (EMsg "HOME is not set") (env "HOME"); Ok (from_home macos home)
      end
  end.

(** ** The state *)

Record app_state := AppState {
  as_server_url : string;
  as_device_name : string;
  as_bootstrap_code : string;
  as_invite_version : Z;
  as_security : string;
  as_control_pin : string;
  as_client_secret : string
}.
#[global] Instance app_state_eq_dec : EqDecision app_state.
Proof. solve_decision. Defined.

Definition legacy_state_path (paths : app_paths) : string :=
  join_all (ap_home_dir paths) [".config"; "overlay"; "state.json"].

(** [serde_json::from_str] and [to_vec_pretty] on a state. *)
Class StateJson := {
  state_from_str : string -> result app_state;
  state_to_pretty : app_state -> result string
}.
Class StateJsonOk `{!StateJson} := {
  state_roundtrip s raw : state_to_pretty s = Ok raw -> state_from_str raw = Ok s;
  state_utf8 s raw : state_to_pretty s = Ok raw -> is_Some (utf8_chars raw)
}.

Section State.
Context `{StateJson}.
Definition state_load (paths : app_paths) : eff disk app_state :=
  read ← attempt (read_to_string (ap_state_path paths));
  match read with
  | Ok raw => lift (state_from_str raw)
  | Err e =>
      if bool_decide (e = not_found) then
        raw ← read_to_string (legacy_state_path paths);
        _ ← create_dir_all (ap_state_dir paths);
        _ ← write_file (ap_state_path paths) raw;
        lift (state_from_str raw)
      else throw e
  end.
Definition state_save (s : app_state) (paths : app_paths) : eff disk unit :=
  _ ← create_dir_all (ap_state_dir paths);
  bytes ← lift (state_to_pretty s);
  write_file (ap_state_path paths) bytes.
End State.

(** ** Labels *)

(** [client_core::api::normalize_label], and [app::normalize_device_label], which calls it. *)
Definition normalize_label (raw : string) : string := trim raw.
Definition normalize_device_label (raw : string) : string := normalize_label raw.

(** [env] is [std::env::var(name).ok()]. *)
Definition or_env (env : string -> option string) (name : string) (o : option string) : option string :=
  match o with Some v => Some v | None => env name end.
Definition local_device_name (env : string -> option string) : string :=
  match or_env env "COMPUTERNAME" (or_env env "HOSTNAME" (env "MEDIUM_DEVICE_NAME")) with
  | Some value =>
      let label := normalize_device_label value in
      if is_empty label then "medium-client" else label
  | None => "medium-client"
  end.

(** ** Requests *)

Definition join_network `{Urls} (env : string -> option string) (i : invite) : result app_state :=
  server_url ← normalize_control_url (in_control_url i);
  Ok (AppState server_url (local_device_name env) EmptyString (in_version i) (in_security i) (in_control_pin i)
        (default EmptyString (in_client_secret i))).

Definition is_unreserved (c : ascii) : bool :=
  is_ascii_alphanumeric c || char_in c "-._~".
Fixpoint percent_encode (value : string) : string :=
  match value with
  | EmptyString => EmptyString
  | String c rest =>
      if is_unreserved c then String c (percent_encode rest)
      else "%" +:+ hex2_upper (code c) +:+ percent_encode rest
  end.

(** The fields of the bootstrap response [pair] reads. *)
Record bootstrap_code_response := BootstrapCodeResponse {
  bc_invite : string;
  bc_bootstrap_token : string;
  bc_code : string
}.

Section Calls.
Context `{Urls} `{Json (list device_record)} `{Json bootstrap_code_response} `{Json session_open_grant}
  `{Json ssh_certificate_request} `{Json ssh_certificate_response}.
(** What [PinnedHttp] needs of rustls and the network. *)
Context (server_name_ok : string -> bool)
  (exchange : string -> string -> pinned_cert_verifier -> list byte -> result (list byte)).
(** reqwest, with [error_for_status]: a GET of a URL, one with the query of a session
    request, and the POST of a body. *)
Context (plain_get : string -> result (list byte))
  (plain_get_query : string -> session_open_request -> result (list byte))
  (plain_post : string -> list byte -> result (list byte)).

Definition pair_device (server_url device_name : string) : result app_state :=
  let server_url := trim_end_matches "/" server_url in
  response ← plain_get (server_url +:+ "/api/bootstrap-code");
  payload ← (from_slice response : result bootstrap_code_response);
  bootstrap_code ←
    (if negb (is_empty (bc_bootstrap_token payload)) then Ok (bc_bootstrap_token payload)
     else if negb (is_empty (bc_code payload)) then Ok (bc_code payload)
     else if negb (is_empty (bc_invite payload)) then Ok EmptyString
     else Err (EMsg "bootstrap response is missing a token"));
  Ok (AppState server_url device_name bootstrap_code 0 EmptyString EmptyString EmptyString).

Definition api_url (s : app_state) (path : string) : string := trim_end_matches "/" (as_server_url s) +:+ path.
Definition pinned (s : app_state) : bool := as_security s =?s "pinned-tls".

(** A device catalogue is its list of devices. *)
Definition fetch_devices (s : app_state) : result (list device_record) :=
  let url := api_url s "/api/devices" in
  if pinned s then get_json url_parse server_name_ok exchange url (as_control_pin s)
  else response ← plain_get url; from_slice response.
Definition fetch_medium_ca (s : app_state) : result string :=
  let url := api_url s "/api/medium-ca.pem" in
  bytes ← (if pinned s then get_bytes url_parse server_name_ok exchange url (as_control_pin s) else plain_get url);
  pem ← ok_or (EMsg "Medium service CA response is not UTF-8") (from_utf8 bytes);
  _ ← bail_if (negb (contains "BEGIN CERTIFICATE" pem)) (EMsg "Medium service CA response is not a PEM certificate");
  Ok pem.
Definition fetch_ssh_ca_public_key (control_url control_pin : string) : result string :=
  server_url ← normalize_control_url control_url;
  bytes ← get_bytes url_parse server_name_ok exchange
            (trim_end_matches "/" server_url +:+ "/api/ssh/ca.pub") control_pin;
  public_key ← ok_or (EMsg "Medium SSH CA response is not UTF-8") (from_utf8 bytes);
  _ ← bail_if (negb (starts_with "ssh-" (trim_start public_key)))
        (EMsg "Medium SSH CA response is not an OpenSSH public key");
  Ok public_key.
Definition open_session_query (s : app_state) (node_id : option string) (service_id : string) : string :=
  "service_id=" +:+ percent_encode service_id +:+ "&requester_device_id=" +:+ percent_encode (as_device_name s)
  +:+ match node_id with Some id => "&node_id=" +:+ percent_encode id | None => EmptyString end.
Definition open_session_for_node (s : app_state) (node_id : option string) (service_id : string)
    : result session_open_grant :=
  let url := api_url s "/api/sessions/open" in
  if pinned s
  then get_json url_parse server_name_ok exchange (url +:+ "?" +:+ open_session_query s node_id service_id)
         (as_control_pin s)
  else
    response ← plain_get_query url (SessionOpenRequest service_id (as_device_name s) node_id);
    from_slice response.
Definition open_session (s : app_state) (service_id : string) : result session_open_grant :=
  open_session_for_node s None service_id.
Definition missing_secret : string :=
  "client state is missing client_secret; re-run `medium join <invite>` with a fresh invite from "
  +:+ "`medium init-control --reconfigure`".
Definition client_issue_ssh_certificate (s : app_state) (node_id service_id public_key : string)
    : result ssh_certificate_response :=
  _ ← bail_if (is_empty (trim (as_client_secret s))) (EMsg missing_secret);
  let url := api_url s "/api/ssh/certificate" in
  let request :=
    SshCertificateRequest service_id (Some node_id) (as_device_name s) public_key (as_client_secret s) in
  if pinned s then post_json url_parse server_name_ok exchange url (as_control_pin s) request
  else
    body ← to_vec request;
    response ← plain_post url body;
    from_slice response.
End Calls.

(** ** Lemmas *)

Lemma parse_invite_pinned raw i : parse_invite raw = Ok i ->
  in_version i = 1 /\ in_security i = "pinned-tls".
Proof.
  unfold parse_invite. intros Hp. inv_result. cbn.
  repeat match goal with
  | E : negb _ = false |- _ => apply negb_false_iff in E
  | E : (_ =? _) = true |- _ => apply Z.eqb_eq in E
  | E : bool_decide _ = true |- _ => apply bool_decide_eq_true in E
  end. done.
Qed.

Lemma trim_start_by_stops p x c y : p c = false -> exists x', trim_start_by p (x +:+ String c y) = x' +:+ String c y.
Proof.
  intros Hc. induction x as [|a x IH]; cbn.
  - rewrite Hc. by exists EmptyString.
  - destruct (p a); [done|]. by exists (String a x).
Qed.
Lemma string_rev_app_eq a b : string_rev (a +:+ b) = string_rev b +:+ string_rev a.
Proof.
  induction a as [|c a IH]; cbn [String.append]; [by rewrite string_app_nil_r|].
  by rewrite !string_rev_cons, IH, string_app_assoc.
Qed.
Lemma trim_end_by_stops p a c r : p c = false ->
  exists r', trim_end_by p (a +:+ String c r) = a +:+ String c r'.
Proof.
  intros Hc. unfold trim_end_by. rewrite string_rev_app_eq, string_rev_cons, <- string_app_assoc. cbn [String.append].
  destruct (trim_start_by_stops p (string_rev r) c (string_rev a) Hc) as [x' ->].
  exists (string_rev x'). by rewrite string_rev_app_eq, string_rev_cons, string_rev_involutive, <- string_app_assoc.
Qed.

Section Trust.
Context `{Sha256} `{Urls} (server_name_ok : string -> bool)
  (exchange : string -> string -> pinned_cert_verifier -> list byte -> result (list byte)).
(** A server with the certificate [cert]: the exchange gives its answer only after the
    verifier has accepted the certificate. *)
Context (cert : list byte).
Definition presents : Prop :=
  forall addr name v bytes answer, exchange addr name v bytes = Ok answer -> verify_server_cert v cert = Ok tt.
Lemma request_trusts m raw_url pin body answer : presents ->
  request url_parse server_name_ok exchange m raw_url pin body = Ok answer ->
  parse_sha256_pin pin = Ok (sha256 cert).
Proof.
  intros Hserver Hr. apply request_ok in Hr as (addr & name & v & bytes & raw & Hparts & Hx & _).
  apply request_parts_ok in Hparts as [Hpin _]. apply Hserver in Hx.
  unfold pinned_tls_client_config in Hpin. inv_result. unfold verify_server_cert in Hx. cbn in Hx.
  by case_bool_decide; subst.
Qed.
End Trust.

(** What the theorem on plain HTTP relies on in the url crate: a text with the scheme
    [http] parses to a URL of that scheme, whose text starts with it. *)
Class UrlsOk `{!Urls} := {
  url_parse_http rest u : url_parse ("http:" +:+ rest) = Some u -> url_scheme u = "http";
  url_as_str_http u : url_scheme u = "http" -> exists rest, url_as_str u = "http:" +:+ rest
}.
Section Plain.
Context `{UrlsOk} (server_name_ok : string -> bool)
  (exchange : string -> string -> pinned_cert_verifier -> list byte -> result (list byte)).
Lemma trim_http rest : exists rest', trim_end_matches "/" ("http:" +:+ rest) = "http:" +:+ rest'.
Proof.
  unfold trim_end_matches.
  destruct (trim_end_by_stops (fun c => bool_decide (c = "/"%char)) "http" ":"%char rest) as [r' Hr'];
    [by apply bool_decide_eq_false_2|].
  exists r'. exact Hr'.
Qed.
Lemma normalize_http rest c : normalize_control_url ("http:" +:+ rest) = Ok c -> exists rest', c = "http:" +:+ rest'.
Proof.
  unfold normalize_control_url. intros Hn. inv_result.
  match goal with E : url_parse _ = Some _ |- _ => apply url_parse_http, url_as_str_http in E as [r ->] end.
  apply trim_http.
Qed.
Lemma request_http m rest pin body :
  exists e, request url_parse server_name_ok exchange m ("http:" +:+ rest) pin body = Err e.
Proof.
  unfold request, request_parts. destruct (url_parse ("http:" +:+ rest)) as [u|] eqn:Hu; [|by eexists].
  cbn [ok_or]. rewrite bind_Ok, (url_parse_http _ _ Hu). by eexists.
Qed.
End Plain.

(** A call to the control plane under a pinned state fails when the request does. *)
Section Unreachable.
Context `{UrlsOk} `{Json (list device_record)} `{Json session_open_grant}.
Context (server_name_ok : string -> bool)
  (exchange : string -> string -> pinned_cert_verifier -> list byte -> result (list byte))
  (plain_get : string -> result (list byte)) (plain_get_query : string -> session_open_request -> result (list byte)).
Lemma http_state_fails s rest : pinned s = true -> as_server_url s = "http:" +:+ rest ->
  (exists e, fetch_devices server_name_ok exchange plain_get s = Err e) /\
  (exists e, fetch_medium_ca server_name_ok exchange plain_get s = Err e) /\
  forall node_id service_id, exists e,
    open_session_for_node server_name_ok exchange plain_get_query s node_id service_id = Err e.
Proof.
  intros Hp Hs. destruct (trim_http rest) as [rest' Htrim].
  unfold fetch_devices, fetch_medium_ca, open_session_for_node, get_json, get_bytes, api_url. rewrite Hp, Hs, Htrim.
  split_and!; [| |intros node_id service_id];
    rewrite <- !string_app_assoc;
    match goal with |- context [request _ _ _ ?m ("http:" +:+ ?r) ?pin ?b] =>
      by destruct (request_http server_name_ok exchange m r pin b) as [e ->]; exists e end.
Qed.
End Unreachable.

Lemma save_ok `{StateJson} s paths d d' : state_save s paths d = (Ok tt, d') ->
  exists raw d1, state_to_pretty s = Ok raw /\ write_file (ap_state_path paths) raw d1 = (Ok tt, d').
Proof. unfold state_save. intros Hs. inv_eff. eauto. Qed.
Lemma load_present `{StateJson} paths raw d : read_to_string (ap_state_path paths) d = (Ok raw, d) ->
  state_load paths d = (state_from_str raw, d).
Proof. intros Hr. unfold state_load, attempt, mbind, eff_bind. by rewrite Hr. Qed.
Lemma read_pure p d r d' : read_to_string p d = (r, d') -> d' = d.
Proof. by intros [= _ <-]. Qed.

(** ** Properties *)

(** C26. A client that joined with an invite gets an answer from the control plane only when the
    server presents the certificate of the invite's pin: the device catalogue, the service
    CA, a session grant and an SSH certificate all come from it, whatever else the network
    answers. *)
Theorem joined_clients_trust_only_the_invites_pin `{Sha256} `{Urls} `{Json (list device_record)}
    `{Json session_open_grant} `{Json ssh_certificate_request} `{Json ssh_certificate_response}
    (server_name_ok : string -> bool)
    (exchange : string -> string -> pinned_cert_verifier -> list byte -> result (list byte))
    (plain_get : string -> result (list byte)) (plain_get_query : string -> session_open_request -> result (list byte))
    (plain_post : string -> list byte -> result (list byte))
    (cert : list byte) (Hserver : presents exchange cert)
    (env : string -> option string) (raw : string) (i : invite) (s : app_state)
    (Hinvite : parse_invite raw = Ok i) (Hjoin : join_network env i = Ok s) :
  let trusted := parse_sha256_pin (in_control_pin i) = Ok (sha256 cert) in
  (forall devices, fetch_devices server_name_ok exchange plain_get s = Ok devices -> trusted) /\
  (forall pem, fetch_medium_ca server_name_ok exchange plain_get s = Ok pem -> trusted) /\
  (forall node_id service_id grant,
     open_session_for_node server_name_ok exchange plain_get_query s node_id service_id = Ok grant -> trusted) /\
  (forall node_id service_id public_key certificate,
     client_issue_ssh_certificate server_name_ok exchange plain_post s node_id service_id public_key = Ok certificate ->
     trusted).
Proof.
  intros trusted. apply parse_invite_pinned in Hinvite as [_ Hpinned].
  unfold join_network in Hjoin. inv_result.
  unfold fetch_devices, fetch_medium_ca, open_session_for_node, client_issue_ssh_certificate, get_json, get_bytes, post_json, pinned.
  cbn. rewrite Hpinned, bool_decide_eq_true_2 by done.
  split_and!; intros; inv_result; unfold trusted; by eapply request_trusts.
Qed.

(** An invite asked of the control plane without a proxy in front, so without an
    [X-Forwarded-Proto] header, names an [http] control URL although it demands pinned TLS:
    it parses, but the client that joins with it fails at every call. *)
Theorem direct_bootstrap_invites_cannot_be_used `{UrlsOk} `{Json (list device_record)} `{Json session_open_grant}
    (server_name_ok : string -> bool)
    (exchange : string -> string -> pinned_cert_verifier -> list byte -> result (list byte))
    (plain_get : string -> result (list byte)) (plain_get_query : string -> session_open_request -> result (list byte))
    (authority_from_str : string -> option string) (headers : string -> option string) (token_uuid pin_uuid : string)
    (state : control_state)
    (Hdirect : headers "x-forwarded-proto" = None)
    (Hauthority : forall raw authority, authority_from_str raw = Some authority -> char_in "&" authority = false)
    (Hpin : cs_control_pin state <> EmptyString /\ char_in "&" (cs_control_pin state) = false)
    (Hsecret : cs_client_secret state <> EmptyString /\ char_in "&" (cs_client_secret state) = false) :
  exists i, parse_invite (bi_invite (create_bootstrap_code authority_from_str token_uuid pin_uuid headers state)) = Ok i /\
    in_control_pin i = cs_control_pin state /\
    forall env s, join_network env i = Ok s ->
      (exists e, fetch_devices server_name_ok exchange plain_get s = Err e) /\
      (exists e, fetch_medium_ca server_name_ok exchange plain_get s = Err e) /\
      forall node_id service_id, exists e,
        open_session_for_node server_name_ok exchange plain_get_query s node_id service_id = Err e.
Proof.
  set (authority := default DEFAULT_CONTROL_AUTHORITY (forwarded_authority authority_from_str headers)).
  assert (char_in "&" authority = false) as Ha.
  { unfold authority. destruct (forwarded_authority authority_from_str headers) as [a|] eqn:E; [|done].
    unfold forwarded_authority in E. apply bind_Some in E as (? & _ & E). apply bind_Some in E as (? & _ & E). eauto. }
  exists (Invite 1 ("http://" +:+ authority) "pinned-tls" (cs_control_pin state) (Some (cs_client_secret state))).
  split; [|split; [done|]].
  - rewrite <- (parse_join_link ("http://" +:+ authority) (cs_control_pin state) (cs_client_secret state)) by (try done; apply Hpin || apply Hsecret).
    f_equal. unfold create_bootstrap_code, issue_bootstrap_invite. cbn [bi_invite].
    rewrite (not_empty (cs_control_pin state)) by apply Hpin. unfold control_url, forwarded_scheme. by rewrite Hdirect.
  - intros env s Hj. unfold join_network in Hj. cbn in Hj. inv_result.
    match goal with E : normalize_control_url _ = Ok _ |- _ => apply (normalize_http (H:=H)) in E as [rest ->] end.
    by eapply http_state_fails.
Qed.

(** A saved state is loaded again.  A state only at the legacy path is loaded from there and
    copied: the next load finds the copy and gives the same state. *)
Theorem saved_states_are_loaded `{!StateJson} `{!StateJsonOk} (paths : app_paths) (d d' : disk) (s : app_state) :
  (state_save s paths d = (Ok tt, d') -> state_load paths d' = (Ok s, d')) /\
  (dk_nodes d !! ap_state_path paths = None -> state_load paths d = (Ok s, d') ->
   state_load paths d' = (Ok s, d') /\
   contents_of (ap_state_path paths) d' = contents_of (legacy_state_path paths) d).
Proof.
  split.
  - intros (raw & d1 & Hraw & Hw)%save_ok.
    pose proof (read_written _ _ _ _ Hw (state_utf8 _ _ Hraw)) as Hr.
    rewrite (load_present _ _ _ Hr). by rewrite (state_roundtrip _ _ Hraw).
  - intros Hnone. unfold state_load at 1. intros Hl. apply eff_bind_ok in Hl as (r & d1 & Hr & Hl).
    unfold attempt, read_to_string in Hr. rewrite Hnone in Hr.
    destruct (dk_denied d (ap_state_path paths)); injection Hr as <- <-.
    { rewrite bool_decide_eq_false_2 in Hl by done. discriminate Hl. }
    rewrite bool_decide_eq_true_2 in Hl by done.
    apply eff_bind_ok in Hl as (raw & d1 & Hraw & Hl). pose proof (read_pure _ _ _ _ Hraw) as ->.
    apply eff_bind_ok in Hl as ([] & d2 & _ & Hl). apply eff_bind_ok in Hl as ([] & d3 & Hw & Hl).
    injection Hl as Hs <-. unfold read_to_string in Hraw. injection Hraw as Hraw.
    destruct (dk_denied d _); [done|]. unfold contents_of at 2.
    destruct (dk_nodes d !! legacy_state_path paths) as [[|c mode]|]; [done| |done].
    destruct (utf8_chars c) eqn:Hc; [|done]. injection Hraw as ->.
    rewrite (load_present _ _ _ (read_written _ _ _ _ Hw (mk_is_Some _ _ Hc))), Hs.
    split; [done|]. by apply written_contents in Hw as [-> _].
Qed.

(** ** Witnesses *)

Definition toy_server_cert : list byte := [x63].
Definition toy_digest : Sha256 := {| sha256 bs := bs ++ replicate (32 - length bs) x00 |}.
Definition toy_devices : Json (list device_record) := {| to_vec _ := Ok []; from_slice _ := Ok [] |}.
Definition toy_grants : Json session_open_grant := {| to_vec _ := Ok []; from_slice _ := Err (EExt "json") |}.
Definition toy_requests : Json ssh_certificate_request := {| to_vec _ := Ok []; from_slice _ := Err (EExt "json") |}.
Definition toy_certificates : Json ssh_certificate_response := {| to_vec _ := Ok []; from_slice _ := Err (EExt "json") |}.
Definition toy_exchange (addr name : string) (v : pinned_cert_verifier) (bytes : list byte) : result (list byte) :=
  _ ← @verify_server_cert toy_digest v toy_server_cert;
  Ok (bytes_of ("HTTP/1.1 200 OK" +:+ crlf +:+ crlf +:+ "[]")).
Lemma toy_presents : @presents toy_digest toy_exchange toy_server_cert.
Proof.
  intros addr name v bytes answer. unfold toy_exchange.
  destruct (@verify_server_cert toy_digest v toy_server_cert) as [[]|]; done.
Qed.
Definition toy_pin : string := @sha256_pin toy_digest toy_server_cert.
Definition toy_joined : result app_state :=
  i ← parse_invite ("medium://join?v=1&control=https://c:7777&security=pinned-tls&control_pin=" +:+ toy_pin);
  join_network (fun _ => None) i.
Definition toy_state : app_state := default (AppState EmptyString EmptyString EmptyString 0 EmptyString EmptyString EmptyString) (result_ok toy_joined).
Lemma joined_clients_trust_only_the_invites_pin_witness :
  @fetch_devices toy_urls toy_devices (fun _ => true) toy_exchange (fun _ => Err out_of_fuel) toy_state = Ok [] /\
  parse_sha256_pin toy_pin = Ok (@sha256 toy_digest toy_server_cert).
Proof.
  assert (@fetch_devices toy_urls toy_devices (fun _ => true) toy_exchange (fun _ => Err out_of_fuel) toy_state = Ok [])
    as Hf by (vm_compute; reflexivity).
  split; [exact Hf|].
  destruct (@joined_clients_trust_only_the_invites_pin toy_digest toy_urls toy_devices toy_grants toy_requests
    toy_certificates (fun _ => true) toy_exchange (fun _ => Err out_of_fuel) (fun _ _ => Err out_of_fuel)
    (fun _ _ => Err out_of_fuel) toy_server_cert toy_presents (fun _ => None)
    ("medium://join?v=1&control=https://c:7777&security=pinned-tls&control_pin=" +:+ toy_pin)
    (Invite 1 "https://c:7777" "pinned-tls" toy_pin None) toy_state) as [Ht _];
    [vm_compute; reflexivity|vm_compute; reflexivity|].
  exact (Ht [] Hf).
Defined.

#[global] Instance toy_urls_ok : @UrlsOk toy_urls.
Proof.
  split.
  - intros rest u. cbn [url_parse toy_urls].
    change ("http:" +:+ rest) with ("http" +:+ String ":" rest). unfold cut. rewrite split_once_char by done.
    unfold mbind, option_bind. cbv beta iota. destruct (strip_prefix "//" rest) as [r|]; [|discriminate].
    by intros [= <-].
  - intros u Hu. cbn. rewrite Hu. by eexists.
Qed.
Definition toy_control (secret : string) : control_state :=
  ControlState empty_database "shared" secret toy_pin None None None None None None.
Definition toy_headers (name : string) : option string :=
  if name =?s "host" then Some "control.example:7777" else None.
Lemma direct_bootstrap_invites_cannot_be_used_witness :
  let made := create_bootstrap_code Some "t" "p" toy_headers (toy_control "c1") in
  bi_invite made = "medium://join?v=1&control=http://control.example:7777&security=pinned-tls&control_pin="
                   +:+ toy_pin +:+ "&client_secret=c1" /\
  exists i, parse_invite (bi_invite made) = Ok i /\
    forall s, join_network (fun _ => None) i = Ok s ->
      exists e, @fetch_devices toy_urls toy_devices (fun _ => true) toy_exchange (fun _ => Err out_of_fuel) s = Err e.
Proof.
  intros made. split; [vm_compute; reflexivity|].
  destruct (@direct_bootstrap_invites_cannot_be_used toy_urls toy_urls_ok toy_devices toy_grants (fun _ => true)
    toy_exchange (fun _ => Err out_of_fuel) (fun _ _ => Err out_of_fuel)
    (fun a => if char_in "&" a then None else Some a) toy_headers "t" "p" (toy_control "c1")) as (i & Hi & _ & Hj).
  - reflexivity.
  - intros raw authority. by destruct (char_in "&" raw) eqn:E; intros [= <-].
  - split; [discriminate|vm_compute; reflexivity].
  - split; [discriminate|vm_compute; reflexivity].
  - exists i. split; [exact Hi|]. intros s Hs. exact (proj1 (Hj _ s Hs)).
Defined.

(** A state file that holds one state. *)
Definition toy_state_json : StateJson := {|
  state_from_str raw := if raw =?s "{}" then Ok toy_state else Err (EExt "json");
  state_to_pretty s := if bool_decide (s = toy_state) then Ok "{}" else Err (EExt "json")
|}.
Lemma toy_state_json_ok : @StateJsonOk toy_state_json.
Proof.
  split; intros s raw; cbn; case_bool_decide as Hs; try done; intros [= <-]; [by rewrite Hs|by eexists].
Qed.
Definition toy_disk : disk :=
  Disk (<["/h/.config/overlay/state.json" := File "{}" default_mode]> (<["/" := Directory]> ∅)) (fun _ => false).
Lemma saved_states_are_loaded_witness :
  let paths := for_linux_home "/h" in
  exists d', @state_load toy_state_json paths toy_disk = (Ok toy_state, d') /\
    @state_load toy_state_json paths d' = (Ok toy_state, d') /\
    @state_load toy_state_json paths (@state_save toy_state_json toy_state paths toy_disk).2
    = (Ok toy_state, (@state_save toy_state_json toy_state paths toy_disk).2).
Proof.
  intros paths. exists (@state_load toy_state_json paths toy_disk).2.
  assert (@state_load toy_state_json paths toy_disk = (Ok toy_state, (@state_load toy_state_json paths toy_disk).2))
    as Hl by (vm_compute; reflexivity).
  split; [exact Hl|]. split.
  - refine (proj1 (proj2 (@saved_states_are_loaded toy_state_json toy_state_json_ok paths toy_disk _ toy_state) _ Hl)).
    vm_compute. reflexivity.
  - refine (proj1 (@saved_states_are_loaded toy_state_json toy_state_json_ok paths toy_disk _ toy_state) _).
    vm_compute. reflexivity.
Defined.
