(* ===== verification/Http.v ===== *)
(** * HTTP between the pinned client and the control plane

    [PinnedHttp.v] is the client's half: the bytes [pinned_http.rs] writes and what it makes of
    the bytes it reads.  The other half is hyper's, under axum: this file is the interface
    to it ([Hyper], with the documented behaviour of an HTTP/1.1 server, [HyperOk]) and the
    two facts that join the halves: hyper reads the request the client writes, and the
    client reads the response hyper writes. *)

From S2P Require Import Prelude RustStd NetAddr Protocol Net PinnedHttp.

(** ** Messages *)

Record http_request := HttpRequest {
  hq_method : string;
  hq_path : string;
  hq_query : option string;
  hq_headers : list (string * string);   (* names in lower case *)
  hq_body : list byte
}.
Record http_response := HttpResponse {
  hp_status : Z;
  hp_content_type : option string;
  hp_body : list byte
}.

(** [HeaderMap::get]. *)
Fixpoint header (name : string) (hs : list (string * string)) : option string :=
  match hs with
  | [] => None
  | (n, v) :: rest => if n =?s name then Some v else header name rest
  end.

Definition header_lines (hs : list (string * string)) : string :=
  join EmptyString (map (fun h => h.1 +:+ ": " +:+ h.2 +:+ crlf) hs).
Definition target (path : string) (query : option string) : string :=
  match query with Some q => path +:+ "?" +:+ q | None => path end.
Definition http_head (m path : string) (query : option string) (hs : list (string * string)) : string :=
  m +:+ " " +:+ target path query +:+ " HTTP/1.1" +:+ crlf +:+ header_lines hs +:+ crlf.

(** ** What is written on one line *)

Definition text_char (c : ascii) : bool := in_range 32 126 (code c).
Definition token_char (c : ascii) : bool := is_ascii_lower c || bool_decide (c = "-"%char).
Definition path_char (c : ascii) : bool := is_ascii_alphanumeric c || char_in c "/-._".
Definition query_char (c : ascii) : bool := is_ascii_alphanumeric c || char_in c "-._~%=&".
(** A path of plain segments: the URL standard normalizes the dot segments. *)
Definition plain_path (p : string) : bool :=
  starts_with "/" p && string_all path_char p
  && forallb (fun seg => negb (seg =?s ".") && negb (seg =?s "..")) (split_on "/" p).
Definition plain_query (q : option string) : bool :=
  match q with Some q => string_all query_char q | None => true end.
(** A field value: no leading or trailing space. *)
Definition field_value (v : string) : bool :=
  negb (is_empty v) && string_all text_char v && negb (starts_with " " v) && negb (ends_with " " v).
Definition plain_field (h : string * string) : bool :=
  negb (is_empty h.1) && string_all token_char h.1 && field_value h.2
  && negb (bool_decide (h.1 ∈ ["transfer-encoding"; "expect"; "upgrade"])).

(** The message announces its body as it is. *)
Definition framed (hs : list (string * string)) (body : list byte) : Prop :=
  header "content-length" hs =
    match body with [] => None | _ => Some (dec (Z.of_nat (length body))) end.

(** What hyper bounds a request head by: http's limit on a URI, the smaller one. *)
Definition MAX_REQUEST_HEAD : nat := Z.to_nat 65534.

Lemma max_request_head_Z : Z.of_nat MAX_REQUEST_HEAD = 65534.
Proof. by apply Z2Nat.id. Qed.

(** ** hyper *)

Class Hyper := {
  (** The request of what arrived, and the reply's bytes; a reply's reason phrase. *)
  http_read : list byte -> option http_request;
  http_write : http_response -> list byte;
  http_reason : Z -> string
}.
Class HyperOk `{!Hyper} := {
  http_read_message m path query hs body :
    m ∈ ["GET"; "POST"] -> plain_path path = true -> plain_query query = true ->
    forallb plain_field hs = true -> is_Some (header "host" hs) -> NoDup (map fst hs) -> framed hs body ->
    (String.length (http_head m path query hs) <= MAX_REQUEST_HEAD)%nat ->
    http_read (bytes_of (http_head m path query hs) ++ body) = Some (HttpRequest m path query hs body);
  http_write_response r : 100 <= hp_status r <= 999 ->
    exists fields, Forall (fun l => string_all text_char l = true /\ l <> EmptyString) fields /\
      http_write r
      = bytes_of (join crlf (("HTTP/1.1 " +:+ dec (hp_status r) +:+ " " +:+ http_reason (hp_status r)) :: fields))
        ++ header_sep ++ hp_body r;
  http_reason_text z : string_all text_char (http_reason z) = true
}.

(** ** Lemmas: what the client reads of a response *)

Definition no_break (s : string) : Prop := char_in cr s = false /\ char_in lf s = false.
Lemma text_no_break s : string_all text_char s = true -> no_break s.
Proof. intros Hs. split; by eapply string_all_char_in. Qed.

Lemma position_of_skip s rest :
  char_in cr s = false -> position_of header_sep (bytes_of s ++ rest)
  = Nat.add (String.length s) <$> position_of header_sep rest.
Proof.
  induction s as [|c s IH]; intros Hs.
  { simpl. by destruct (position_of header_sep rest). }
  simpl in Hs. apply orb_false_iff in Hs as [Hc Hs]. rewrite bytes_of_cons. cbn [app position_of].
  assert (is_prefix_of header_sep (Ascii.byte_of_ascii c :: bytes_of s ++ rest) = false) as ->.
  { unfold header_sep. cbn [is_prefix_of]. apply bool_decide_eq_false in Hc.
    rewrite bool_decide_eq_false_2; [done|]. intros Heq. apply Hc.
    by rewrite <- (Ascii.ascii_of_byte_of_ascii c), <- Heq. }
  rewrite IH by done. by destruct (position_of header_sep rest).
Qed.
Lemma position_of_crlf l rest :
  l <> EmptyString -> char_in cr l = false ->
  position_of header_sep (bytes_of crlf ++ bytes_of l ++ rest)
  = Nat.add 2 <$> position_of header_sep (bytes_of l ++ rest).
Proof.
  intros Hne Hl. destruct l as [|c l]; [done|]. simpl in Hl. apply orb_false_iff in Hl as [Hc _].
  rewrite bytes_of_cons. change (bytes_of crlf) with [x0d; x0a].
  set (tail := _ ++ rest). change ([x0d; x0a] ++ tail) with (x0d :: x0a :: tail).
  assert (is_prefix_of [x0d; x0a] tail = false) as Hno.
  { unfold tail. cbn [app is_prefix_of]. apply bool_decide_eq_false in Hc.
    rewrite bool_decide_eq_false_2; [done|]. intros Heq. apply Hc.
    by rewrite <- (Ascii.ascii_of_byte_of_ascii c), <- Heq. }
  cbn [position_of].
  assert (is_prefix_of header_sep (x0d :: x0a :: tail) = is_prefix_of [x0d; x0a] tail) as -> by done.
  assert (is_prefix_of header_sep (x0a :: tail) = false) as -> by done. rewrite Hno.
  by destruct (position_of header_sep tail).
Qed.

(** The first blank line is the one after the head. *)
Lemma position_of_head ls body :
  ls <> [] -> Forall (fun l => l <> EmptyString /\ char_in cr l = false) ls ->
  position_of header_sep (bytes_of (join crlf ls) ++ header_sep ++ body) = Some (String.length (join crlf ls)).
Proof.
  intros Hne Hall. induction Hall as [|l ls [Hl Hcr] Hall IH]; [done|]. clear Hne.
  destruct ls as [|l2 ls].
  - change (join crlf [l]) with l. rewrite position_of_skip by done.
    assert (position_of header_sep (header_sep ++ body) = Some 0%nat) as ->; [|cbn; by rewrite Nat.add_0_r].
    done.
  - rewrite join_cons by done. rewrite !bytes_of_app, <- !app_assoc, position_of_skip by done.
    specialize (IH ltac:(done)).
    assert (exists tail, join crlf (l2 :: ls) = l2 +:+ tail) as [tail Htail].
    { destruct ls as [|l3 ls]; [exists EmptyString; by rewrite string_app_nil_r|].
      rewrite join_cons by done. by eexists. }
    apply list.Forall_cons in Hall as [[Hl2 Hcr2] _].
    rewrite Htail in *. rewrite bytes_of_app, <- app_assoc in *.
    rewrite position_of_crlf, IH by done. rewrite !string_length_app. cbn [String.length crlf option_map fmap option_fmap].
    done.
Qed.

Lemma strip_cr_snoc s : strip_cr (s +:+ String cr EmptyString) = s.
Proof.
  unfold strip_cr. rewrite string_rev_snoc, bool_decide_eq_true_2 by done. apply string_rev_involutive.
Qed.
Lemma lines_head l ls :
  l <> EmptyString -> char_in lf l = false -> head (lines (join crlf (l :: ls))) = Some l.
Proof.
  intros Hne Hlf. destruct ls as [|l2 ls].
  - change (join crlf [l]) with l. unfold lines. rewrite split_on_none by done. cbn [lines_of].
    unfold is_empty. by rewrite bool_decide_eq_false_2.
  - rewrite join_cons by done. generalize (join crlf (l2 :: ls)) as rest. intros rest.
    change (crlf +:+ rest) with (String cr EmptyString +:+ String lf rest).
    rewrite string_app_assoc. unfold lines. rewrite split_on_app.
    + destruct (split_on lf rest) as [|p ps] eqn:E; [by apply split_on_ne in E|]. cbn [lines_of].
      by rewrite strip_cr_snoc.
    + rewrite char_in_app, Hlf. done.
Qed.

Lemma graphic_not_space c s : is_ascii_graphic c = true -> strip_any white_space (String c s) = None.
Proof.
  intros Hc. apply strip_any_none.
  pose proof (ascii_forallb (fun c => negb (is_ascii_graphic c) || starts_none white_space c) eq_refl c) as H.
  cbv beta in H. by rewrite Hc in H.
Qed.
Lemma split_ws_word w fuel cur rest :
  string_all is_ascii_graphic w = true -> (String.length w < fuel)%nat -> (w <> EmptyString \/ cur <> EmptyString) ->
  split_ws fuel cur (w +:+ String " " rest)
  = string_rev (string_rev w +:+ cur) :: split_ws (fuel - S (String.length w)) EmptyString rest.
Proof.
  revert fuel cur; induction w as [|c w IH]; intros fuel cur Hw Hfuel Hne.
  - destruct fuel as [|fuel]; [simpl in Hfuel; lia|]. cbn [String.append split_ws].
    assert (strip_any white_space (String " " rest) = Some rest) as -> by done.
    destruct Hne as [|Hne]; [done|]. unfold is_empty. rewrite bool_decide_eq_false_2 by done.
    cbn [app String.length string_rev string_rev_app String.append]. f_equal. f_equal. lia.
  - simpl in Hw. apply andb_true_iff in Hw as [Hc Hw]. destruct fuel as [|fuel]; [lia|].
    cbn [String.append split_ws]. rewrite graphic_not_space by done.
    rewrite IH; [|done|simpl in Hfuel; lia|by right].
    f_equal. f_equal. rewrite string_rev_cons, <- string_app_assoc. done.
Qed.

Lemma status_word st reason :
  100 <= st <= 999 -> split_whitespace ("HTTP/1.1 " +:+ dec st +:+ " " +:+ reason) !! 1%nat = Some (dec st).
Proof.
  intros Hst. unfold split_whitespace.
  change ("HTTP/1.1 " +:+ dec st +:+ " " +:+ reason) with ("HTTP/1.1" +:+ String " " (dec st +:+ String " " reason)).
  rewrite split_ws_word; [|done|rewrite string_length_app; simpl; lia|by left].
  rewrite split_ws_word.
  - cbn [lookup list_lookup]. rewrite string_app_nil_r. by rewrite string_rev_involutive.
  - eapply string_all_impl; [|apply dec_digits; lia]. intros c Hc.
    unfold is_ascii_digit, is_ascii_graphic, in_range in *.
    apply andb_true_iff in Hc as [H1 H2]. apply Z.leb_le in H1, H2. apply andb_true_iff.
    split; apply Z.leb_le; lia.
  - rewrite string_length_app. cbn [String.length]. rewrite string_length_app. simpl. lia.
  - left. pose proof (dec_not_empty st ltac:(lia)) as Hd. intros Heq. by rewrite Heq in Hd.
Qed.
Lemma dec_text z : 0 <= z -> string_all text_char (dec z) = true.
Proof.
  intros Hz. eapply string_all_impl; [|by apply dec_digits]. intros c Hc. unfold is_ascii_digit, text_char, in_range in *.
  apply andb_true_iff in Hc as [H1 H2]. apply Z.leb_le in H1, H2. apply andb_true_iff. split; apply Z.leb_le; lia.
Qed.
Definition success (st : Z) : bool := in_range 200 299 st.
Lemma starts_with_2 st : 100 <= st <= 999 -> starts_with "2" (dec st) = success st.
Proof.
  intros Hst. assert (st ∈ seqZ 100 900) as Hin by (apply elem_of_seqZ; lia). clear Hst. revert st Hin. by_enum.
Qed.

(** Lines of text are UTF-8. *)
Lemma text_lines_utf8 ls :
  Forall (fun l => string_all text_char l = true /\ l <> EmptyString) ls -> is_Some (utf8_chars (join crlf ls)).
Proof.
  intros Hall. apply ascii_utf8. induction Hall as [|l ls [Hl _] Hall IH]; [done|].
  assert (string_all (fun c => code c <? 128) l = true) as Hl'.
  { eapply string_all_impl; [|exact Hl]. intros c Hc. unfold text_char, in_range in Hc.
    apply andb_true_iff in Hc as [_ Hc]. apply Z.leb_le in Hc. apply Z.ltb_lt. lia. }
  destruct ls as [|l2 ls]; [exact Hl'|]. rewrite join_cons by done. by rewrite !string_all_app, Hl', IH.
Qed.

Section Response.
Context `{HyperOk}.
(** What the client makes of a reply: its body, or the status line. *)
Definition client_reads (r : http_response) : result (list byte) :=
  if success (hp_status r) then Ok (hp_body r)
  else Err (EMsg ("control request failed: HTTP/1.1 " +:+ dec (hp_status r) +:+ " " +:+ http_reason (hp_status r))).
Lemma response_read r : 100 <= hp_status r <= 999 -> parse_http_response (http_write r) = client_reads r.
Proof.
  intros Hst. destruct (http_write_response r Hst) as (fields & Hfields & ->).
  pose proof (http_reason_text (hp_status r)) as Hreason. unfold client_reads.
  set (status := "HTTP/1.1 " +:+ _).
  assert (string_all text_char status = true) as Hstatus.
  { unfold status. rewrite !string_all_app, Hreason, dec_text by lia. done. }
  assert (Forall (fun l => string_all text_char l = true /\ l <> EmptyString) (status :: fields)) as Hall
    by (constructor; [by split|done]).
  unfold parse_http_response. rewrite position_of_head; [|done|].
  2: { eapply list.Forall_impl; [exact Hall|]. intros l [Ht Hne]. split; [done|]. by apply text_no_break. }
  unfold ok_or. rewrite bind_Ok, take_app_eq by (by rewrite length_bytes_of).
  assert (from_utf8 (bytes_of (join crlf (status :: fields))) = Some (join crlf (status :: fields))) as ->.
  { unfold from_utf8. rewrite string_of_bytes_of.
    by destruct (text_lines_utf8 _ Hall) as [l ->]. }
  rewrite bind_Ok, lines_head; [|done|by apply text_no_break]. rewrite bind_Ok.
  unfold is_success_status, status. rewrite status_word, starts_with_2 by done. fold status.
  destruct (success (hp_status r)); [|done]. cbn [bail_if negb]. rewrite bind_Ok. f_equal.
  rewrite app_assoc, drop_app_eq; [done|]. rewrite length_app, length_bytes_of. done.
Qed.
End Response.

(** ** Lemmas: what hyper reads of a request *)

Lemma string_all_rev p s : string_all p (string_rev s) = string_all p s.
Proof.
  induction s as [|c s IH]; [done|]. rewrite string_rev_cons, string_all_app, IH. simpl.
  by rewrite andb_true_r, andb_comm.
Qed.
Lemma not_starts_with_space s : string_all is_ascii_graphic s = true -> starts_with " " s = false.
Proof.
  destruct s as [|c s]; [done|]. simpl. intros [Hc _]%andb_true_iff. unfold starts_with. cbn [strip_prefix].
  case_bool_decide as Heq; [by subst|done].
Qed.
Lemma graphic_field v : v <> EmptyString -> string_all is_ascii_graphic v = true -> field_value v = true.
Proof.
  intros Hne Hv. unfold field_value, is_empty, ends_with. rewrite bool_decide_eq_false_2 by done.
  rewrite not_starts_with_space by done. change (string_rev " ") with " ".
  rewrite not_starts_with_space by (by rewrite string_all_rev).
  assert (string_all text_char v = true) as ->; [|done].
  eapply string_all_impl; [|exact Hv]. intros c Hc. unfold is_ascii_graphic, text_char, in_range in *.
  apply andb_true_iff in Hc as [H1 H2]. apply Z.leb_le in H1, H2. apply andb_true_iff. split; apply Z.leb_le; lia.
Qed.
Lemma dec_graphic z : 0 <= z -> string_all is_ascii_graphic (dec z) = true.
Proof.
  intros Hz. eapply string_all_impl; [|by apply dec_digits]. intros c Hc. unfold is_ascii_digit, is_ascii_graphic, in_range in *.
  apply andb_true_iff in Hc as [H1 H2]. apply Z.leb_le in H1, H2. apply andb_true_iff. split; apply Z.leb_le; lia.
Qed.
Lemma dec_field z : 0 <= z -> field_value (dec z) = true.
Proof.
  intros Hz. apply graphic_field; [|by apply dec_graphic].
  pose proof (dec_not_empty z Hz) as Hd. intros Heq. by rewrite Heq in Hd.
Qed.

(** The fields of the client's request. *)
Definition request_fields (host : string) (body : list byte) : list (string * string) :=
  [("host", host); ("accept", "application/json")]
  ++ match body with
     | [] => []
     | _ => [("content-type", "application/json"); ("content-length", dec (Z.of_nat (length body)))]
     end
  ++ [("connection", "close")].
Lemma request_head_message m u body head :
  request_head m u body = Ok head ->
  exists host, host_header u = Ok host /\
    head = http_head (method_str m) (url_path u) (url_query u) (request_fields host body).
Proof.
  unfold request_head. intros (host & Hhost & [= <-])%bind_ok. exists host. split; [done|].
  unfold http_head, header_lines, request_fields, target. rewrite <- ?string_app_assoc.
  destruct body as [|b body]; cbn [map app join String.concat fst snd];
    rewrite <- ?string_app_assoc; cbn [String.append]; rewrite <- ?string_app_assoc; reflexivity.
Qed.
Lemma request_fields_plain host body : field_value host = true ->
  forallb plain_field (request_fields host body) = true.
Proof.
  intros Hh. unfold request_fields. rewrite !forallb_app. apply andb_true_iff. split.
  - cbn [forallb]. unfold plain_field at 1. cbn [fst snd]. by rewrite Hh.
  - destruct body as [|b body]; [done|]. cbn [forallb app]. apply andb_true_iff. split; [|done].
    cbn [forallb]. rewrite andb_true_r. apply andb_true_iff. split; [done|]. unfold plain_field. cbn [fst snd].
    rewrite dec_field by lia. done.
Qed.
Lemma request_fields_framed host body :
  is_Some (header "host" (request_fields host body)) /\ NoDup (map fst (request_fields host body)) /\
  framed (request_fields host body) body.
Proof.
  destruct body as [|b body]; (split; [by eexists|split; [apply (bool_decide_unpack _); by vm_compute|done]]).
Qed.
Lemma request_fields_json host b body :
  header "content-type" (request_fields host (b :: body)) = Some "application/json".
Proof. done. Qed.

Section Requests.
Context `{HyperOk}.
Lemma request_read m u body head :
  request_head m u body = Ok head -> plain_path (url_path u) = true -> plain_query (url_query u) = true ->
  (forall host, host_header u = Ok host -> field_value host = true) ->
  (String.length head <= MAX_REQUEST_HEAD)%nat ->
  exists host, host_header u = Ok host /\
    http_read (bytes_of head ++ body)
    = Some (HttpRequest (method_str m) (url_path u) (url_query u) (request_fields host body) body).
Proof.
  intros Hhead Hpath Hquery Hhost Hlen. apply request_head_message in Hhead as (host & Hh & ->).
  exists host. split; [done|]. destruct (request_fields_framed host body) as (H1 & H2 & H3).
  apply http_read_message; try done; [|by apply request_fields_plain, Hhost].
  destruct m; simpl; set_solver.
Qed.
End Requests.
