(* ===== verification/Server.v ===== *)
(** * The control plane as a server

    [services/control-plane/src/app.rs] and [main.rs]: the routes, the environment the server
    starts from and its TLS; and the client's requests arriving there.  Here the halves meet:
    the bytes that [pinned_http.rs] writes are those that the router dispatches to the
    handlers of [ControlPlane.v], and what comes back is what [ClientApi.v], [HomeNode.v]
    and the agent of [NodeLinks.v] make of it.

    hyper ([Http.v]) and axum's router and extractors are classes with their documented
    behaviour; rustls is the verifier of [PinnedHttp.v] on the certificate that is
    presented.  A request is handled in one step; [Queries.v] shows for the handlers that make
    several queries what other requests may do between them. *)

From S2P Require Import Prelude RustStd NetAddr Protocol Net PinnedHttp Http Crypto Samples Relay RelayServer Registry ControlPlane Invites ClientApi.

(** ** Routes *)

Inductive endpoint :=
  | Health | BootstrapCode | Devices | MediumCa | ServiceCertificate | RegisterNode | OpenSession
  | SshCaPub | SshCertificate | RelayUpgrade.
#[global] Instance endpoint_eq_dec : EqDecision endpoint.
Proof. solve_decision. Defined.

Abbreviation routes := (list (string * (method * endpoint))).
Definition wss_router : routes := [("/medium/v1/relay", (Get, RelayUpgrade))].
Definition build_router : routes :=
  [("/health", (Get, Health));
   ("/api/bootstrap-code", (Get, BootstrapCode));
   ("/api/devices", (Get, Devices));
   ("/api/medium-ca.pem", (Get, MediumCa));
   ("/api/nodes/service-certificate", (Post, ServiceCertificate));
   ("/api/nodes/register", (Post, RegisterNode));
   ("/api/sessions/open", (Get, OpenSession));
   ("/api/ssh/ca.pub", (Get, SshCaPub));
   ("/api/ssh/certificate", (Post, SshCertificate))]
  ++ wss_router.

(** ** axum *)

Inductive routed := Handler (e : endpoint) | NoRoute | WrongMethod.
(** axum's [DefaultBodyLimit]. *)
Definition BODY_LIMIT : nat := Z.to_nat 2097152.

Lemma body_limit_Z : Z.of_nat BODY_LIMIT = 2097152.
Proof. by apply Z2Nat.id. Qed.

(** The pairs of a query, as the client encodes their values. *)
Definition query_of (pairs : list (string * string)) : string :=
  join "&" (map (fun p => p.1 +:+ "=" +:+ percent_encode p.2) pairs).
(** The fields of a session request by their names in serde. *)
Definition open_fields (r : session_open_request) : list (string * string) :=
  [("service_id", so_service_id r); ("requester_device_id", so_requester_device_id r)]
  ++ match so_node_id r with Some id => [("node_id", id)] | None => [] end.

Class Axum := {
  route_to : routes -> string -> string -> routed;
  (** [Json]'s check of the content type and the length: the status of its rejection, or the
      body; and the status for a body that serde refuses. *)
  json_body : http_request -> Z + list byte;
  json_refused : error -> Z;
  (** [Query<SessionOpenRequest>]. *)
  query_open : option string -> Z + session_open_request;
  (** [WebSocketUpgrade]: the status of its rejection, if any. *)
  upgrade_refused : http_request -> option Z
}.
Definition rejection (code : Z) : Prop := 400 <= code <= 499.
Class AxumOk `{!Axum} := {
  route_found rs m p e : NoDup (map fst rs) -> (p, (m, e)) ∈ rs -> route_to rs (method_str m) p = Handler e;
  route_unknown rs meth p : p ∉ map fst rs -> route_to rs meth p = NoRoute;
  (** A GET route answers HEAD too. *)
  route_method rs m meth p e : NoDup (map fst rs) -> (p, (m, e)) ∈ rs -> meth <> method_str m ->
    (meth = "HEAD" -> m <> Get) -> route_to rs meth p = WrongMethod;
  json_accepted rq : header "content-type" (hq_headers rq) = Some "application/json" ->
    (length (hq_body rq) <= BODY_LIMIT)%nat -> json_body rq = inr (hq_body rq);
  json_untyped rq : header "content-type" (hq_headers rq) = None -> json_body rq = inl 415;
  json_too_long rq : header "content-type" (hq_headers rq) = Some "application/json" ->
    (BODY_LIMIT < length (hq_body rq))%nat -> json_body rq = inl 413;
  query_accepted r pairs : pairs ≡ₚ open_fields r -> Forall (fun p => is_Some (utf8_chars p.2)) pairs ->
    query_open (Some (query_of pairs)) = inr r;
  json_body_rejection rq c : json_body rq = inl c -> rejection c;
  json_refused_rejection e : rejection (json_refused e);
  query_rejection q c : query_open q = inl c -> rejection c;
  upgrade_rejection rq c : upgrade_refused rq = Some c -> rejection c
}.

(** ** The server *)

(** What a request finds around it: the clock, fresh UUIDs, the directory for temporary
    files. *)
Record surroundings := Surroundings {
  su_now : Z;
  su_uuids : string * string * string;
  su_token_uuid : string;
  su_pin_uuid : string;
  su_temp_dir : string;
  su_file_uuid : string;
  su_key_uuid : string
}.
(** [sv_acceptor] is the WebSocket relay's: the sockets that were upgraded and their pool. *)
Record server := Server {
  sv_control : control_state;
  sv_files : files;
  sv_acceptor : acceptor
}.

(** [IntoResponse]. *)
Definition empty_response (status : Z) : http_response := HttpResponse status None [].
Definition json_response {A} `{Json A} (r : reply A) : http_response :=
  match r with
  | Reply a =>
      match to_vec a with
      | Ok body => HttpResponse 200 (Some "application/json") body
      | Err _ => empty_response INTERNAL_SERVER_ERROR
      end
  | Status code => empty_response code
  end.
Definition text_response (content_type : string) (r : reply string) : http_response :=
  match r with
  | Reply text => HttpResponse 200 (Some content_type) (bytes_of text)
  | Status code => empty_response code
  end.

(** [HeaderValue::to_str]. *)
Definition header_char (c : ascii) : bool := text_char c || bool_decide (c = ascii_of_Z 9).
Definition header_text (hs : list (string * string)) (name : string) : option string :=
  v ← header name hs; if string_all header_char v then Some v else None.

Section Serve.
Context `{Hyper} `{Axum} `{TokenEnv}.
Context `{Json (list device_record)} `{Json bootstrap_invite_response} `{Json register_node_request}
  `{Json service_certificate_request} `{Json service_certificate_response} `{Json session_open_grant}
  `{Json ssh_certificate_request} `{Json ssh_certificate_response}.
(** The http crate's [Authority], rcgen and the [ssh-keygen] process. *)
Context (authority_from_str : string -> option string).
Context (signed_by : string -> string -> string -> list string -> result generated_cert).
Context (ssh_keygen : list string -> files -> result bool * files).

(** The [Json] extractor in front of a handler. *)
Definition with_json {A} `{Json A} (rq : http_request) (sv : server) (k : A -> http_response * server)
    : http_response * server :=
  match json_body rq with
  | inl status => (empty_response status, sv)
  | inr body =>
      match from_slice body with
      | Ok a => k a
      | Err e => (empty_response (json_refused e), sv)
      end
  end.

Definition set_control (s : control_state) (sv : server) : server :=
  Server s (sv_files sv) (sv_acceptor sv).
Definition set_files (fs : files) (sv : server) : server :=
  Server (sv_control sv) fs (sv_acceptor sv).

(** The secret of the relay's state, cloned when the router is built. *)
Definition relay_secret (sv : server) : option string := Some (cs_shared_secret (sv_control sv)).
Definition on_relay (ev : acceptor_event) (sv : server) : server :=
  Server (sv_control sv) (sv_files sv) (wss_acceptor_step (relay_secret sv) (sv_acceptor sv) ev).

Definition handle (su : surroundings) (e : endpoint) (rq : http_request) (sv : server) : http_response * server :=
  let s := sv_control sv in
  match e with
  | Health => (empty_response 200, sv)
  | BootstrapCode =>
      (json_response (Reply (create_bootstrap_code authority_from_str (su_token_uuid su) (su_pin_uuid su)
                               (header_text (hq_headers rq)) s)), sv)
  | Devices => (json_response (list_devices_route s), sv)
  | MediumCa => (text_response "application/x-pem-file" (medium_ca s), sv)
  | ServiceCertificate =>
      with_json rq sv (fun request => (json_response (issue_service_certificate signed_by request s), sv))
  | RegisterNode =>
      with_json rq sv (fun request =>
        let '(r, s) := register_node_route request s in
        (empty_response (match r with Status code => code | Reply _ => 200 end), set_control s sv))
  | OpenSession =>
      match query_open (hq_query rq) with
      | inl status => (empty_response status, sv)
      | inr request => (json_response (ControlPlane.open_session (su_now su) (su_uuids su) request s), sv)
      end
  | SshCaPub => (text_response "text/plain; charset=utf-8" (ssh_ca_public_key s (sv_files sv)), sv)
  | SshCertificate =>
      with_json rq sv (fun request =>
        let '(r, fs) := issue_ssh_certificate ssh_keygen (su_temp_dir su) (su_file_uuid su) (su_key_uuid su)
                          request s (sv_files sv) in
        (json_response r, set_files fs sv))
  | RelayUpgrade =>
      match upgrade_refused rq with
      | Some status => (empty_response status, sv)
      | None => (empty_response 101, on_relay Accepted sv)
      end
  end.

Definition dispatch (su : surroundings) (rq : http_request) (sv : server) : http_response * server :=
  match route_to build_router (hq_method rq) (hq_path rq) with
  | Handler e => handle su e rq sv
  | NoRoute => (empty_response NOT_FOUND, sv)
  | WrongMethod => (empty_response 405, sv)
  end.

(** The task [on_upgrade] starts for a WebSocket: it reads the hello and goes to the relay,
    whose secret is the control plane's; a waiting client's polls follow. *)
Inductive socket_event := SocketHello (time : Z) (conn : nat) (frames : list (result ws_message))
  | SocketPoll (time : Z) (conn : nat).
Definition socket_step `{Json relay_hello} (sv : server) (ev : socket_event) : server :=
  match ev with
  | SocketHello time conn frames => on_relay (HelloRead time conn (read_wss_relay_hello frames)) sv
  | SocketPoll time conn => on_relay (Polled time conn) sv
  end.

(** ** Connections *)

(** A connection's bytes to the reply's; hyper answers 400 to what is no request. *)
Definition serve_connection (su : surroundings) (bytes : list byte) (sv : server) : list byte * server :=
  match http_read bytes with
  | Some rq => let '(r, sv) := dispatch su rq sv in (http_write r, sv)
  | None => (http_write (empty_response BAD_REQUEST), sv)
  end.

(** What [tls_config_from_env] gives: the certificate chain and the key. *)
Record tls_server := TlsServer { ts_certs : list (list byte); ts_key : list byte }.
(** The exchange of [PinnedHttp.v] with this server: [reached] are its addresses.  Without TLS,
    or when the client's verifier refuses the certificate, the handshake fails. *)
Definition server_exchange `{Sha256} (su : surroundings) (reached : string -> bool) (tls : option tls_server)
    (addr name : string) (v : pinned_cert_verifier) (bytes : list byte) : eff server (list byte) := fun sv =>
  if reached addr then
    match tls ≫= (fun t => head (ts_certs t)) with
    | Some cert =>
        match verify_server_cert v cert with
        | Ok _ => let '(raw, sv) := serve_connection su bytes sv in (Ok raw, sv)
        | Err e => (Err e, sv)
        end
    | None => (Err (EExt "control TLS handshake failed"), sv)
    end
  else (Err (EExt "failed to connect to control endpoint"), sv).
End Serve.

(** ** Starting *)

Section Main.
Context (env : string -> option string) (read_file : string -> result string).
(** rustls_pemfile and rustls. *)
Context (pem_certs : string -> result (list (list byte))) (pem_private_key : string -> result (option (list byte))).
Context (with_single_cert : list (list byte) -> list byte -> result unit).

Definition load_certs (path : string) : result (list (list byte)) :=
  content ← read_file path; pem_certs content.
Definition load_key (path : string) : result (list byte) :=
  content ← read_file path;
  key ← pem_private_key content;
  ok_or (EMsg "missing TLS key") key.
Definition tls_config_from_env : result (option tls_server) :=
  match env "MEDIUM_CONTROL_TLS_CERT_PATH" with
  | None => Ok None
  | Some cert_path =>
      key_path ← ok_or (EExt "NotPresent") (env "MEDIUM_CONTROL_TLS_KEY_PATH");
      certs ← load_certs cert_path;
      key ← load_key key_path;
      _ ← with_single_cert certs key;
      Ok (Some (TlsServer certs key))
  end.

(** [main] up to serving: the address, the state, and TLS or not. *)
Record control_server := ControlServer {
  cv_bind_addr : string;
  cv_state : control_state;
  cv_tls : option tls_server
}.
Definition control_main (connect : string -> result database) (bind : string -> result unit) : result control_server :=
  let bind_addr := default "0.0.0.0:8080" (env "OVERLAY_CONTROL_BIND_ADDR") in
  state ← control_state_from_env env read_file connect;
  _ ← bind bind_addr;
  tls ← tls_config_from_env;
  Ok (ControlServer bind_addr state tls).
End Main.

(** [serve_tls]: each accepted connection is its own task, which only ends when its handshake
    fails; an error of [accept] ends the server. *)
Fixpoint serve_tls {A} (accepted : list (result (result A))) : list A * option error :=
  match accepted with
  | [] => ([], None)
  | Err e :: _ => ([], Some e)
  | Ok handshake :: rest =>
      let '(served, ended) := serve_tls rest in
      (match handshake with Ok stream => stream :: served | Err _ => served end, ended)
  end.

(** ** The url crate on the control plane's URLs *)

Definition authority_char (c : ascii) : bool := is_ascii_alphanumeric c || char_in c ".-:[]".
Definition origin (authority : string) : string := "https://" +:+ authority.
Definition plain_authority (authority : string) : Prop :=
  authority <> EmptyString /\ string_all authority_char authority = true.
Definition set_path (p : string) (q : option string) (u : url) : url :=
  Url (url_scheme u) (url_host u) (url_port u) (url_known_port u) p q.
(** What [Url::parse] makes of an https URL: a host is ASCII text; a plain path and query are
    kept as they are. *)
Class UrlPathsOk `{!Urls} := {
  url_origin authority u : plain_authority authority -> url_parse (origin authority) = Some u ->
    url_scheme u = "https" /\
    (forall h, url_host u = Some h -> h <> EmptyString /\ string_all is_ascii_graphic h = true) /\
    (forall p, url_port u = Some p -> 0 <= p <= u16_max);
  url_path_kept authority u p q : plain_authority authority -> url_parse (origin authority) = Some u ->
    plain_path p = true -> plain_query q = true ->
    url_parse (origin authority +:+ target p q) = Some (set_path p q u)
}.

(** ** Lemmas: the client's request *)

Lemma radix_digits_length n radix z acc :
  (String.length (radix_digits n radix z acc) <= n + String.length acc)%nat.
Proof.
  revert z acc; induction n as [|n IH]; intros z acc; cbn [radix_digits]; [lia|].
  destruct (z <? radix); [simpl; lia|]. specialize (IH (z / radix) (String (digit_char (z mod radix)) acc)).
  cbn [String.length] in IH. lia.
Qed.
Lemma dec_length z : 0 <= z < 2 ^ 22 -> (String.length (dec z) <= 23)%nat.
Proof.
  intros Hz. unfold dec. pose proof (radix_digits_length (radix_fuel z) 10 z EmptyString) as Hl.
  unfold radix_fuel in *. cbn [String.length] in Hl.
  assert (Z.log2_up (z + 1) <= 22) as Hlog.
  { transitivity (Z.log2_up (2 ^ 22)); [apply Z.log2_up_le_mono; lia|]. by rewrite Z.log2_up_pow2. }
  lia.
Qed.
Lemma request_head_fits m path query host body :
  (String.length host <= 1000)%nat -> str_len (target path query) <= 60000 ->
  (length body <= BODY_LIMIT)%nat ->
  (String.length (http_head (method_str m) path query (request_fields host body)) <= MAX_REQUEST_HEAD)%nat.
Proof.
  intros Hh Ht Hb. unfold str_len in Ht. unfold http_head. rewrite !string_length_app.
  assert (String.length (header_lines (request_fields host body)) <= 2000)%nat as Hf.
  { unfold header_lines, request_fields. destruct body as [|b body];
      cbn [map app join String.concat fst snd]; rewrite !string_length_app; change (String.length crlf) with 2%nat; cbn [String.length]; [lia|].
    assert (0 <= Z.of_nat (length (b :: body)) < 2 ^ 22) as Hz.
    { pose proof body_limit_Z. lia. }
    apply dec_length in Hz. lia. }
  pose proof max_request_head_Z.
  destruct m; cbn [method_str String.length crlf]; lia.
Qed.

Lemma trim_origin authority : plain_authority authority -> trim_end_matches "/" (origin authority) = origin authority.
Proof.
  intros [Hne Hall]. rewrite <- string_all_rev in Hall.
  unfold trim_end_matches, trim_end_by, origin. rewrite string_rev_app_eq.
  destruct (string_rev authority) as [|c r] eqn:E.
  { apply (f_equal string_rev) in E. by rewrite string_rev_involutive in E. }
  simpl in Hall. apply andb_true_iff in Hall as [Hc _]. cbn [String.append trim_start_by].
  assert (bool_decide (c = "/"%char) = false) as ->.
  { apply bool_decide_eq_false. by intros ->. }
  change (String c (r +:+ string_rev "https://")) with (String c r +:+ string_rev "https://").
  rewrite <- E, <- string_rev_app_eq. apply string_rev_involutive.
Qed.
Lemma host_header_field u host : host_header u = Ok host ->
  (forall h, url_host u = Some h -> h <> EmptyString /\ string_all is_ascii_graphic h = true) ->
  (forall p, url_port u = Some p -> 0 <= p <= u16_max) ->
  field_value host = true.
Proof.
  unfold host_header. intros (h & Hh & Hport)%bind_ok Hhost Hrange. apply ok_or_ok in Hh.
  destruct (Hhost h Hh) as [Hne Hall]. revert Hport.
  set (h' := if _ : bool then _ else _).
  assert (h' <> EmptyString /\ string_all is_ascii_graphic h' = true) as [Hne' Hall'].
  { unfold h'. destruct (char_in ":" h); [|done]. split; [by destruct h|]. by rewrite !string_all_app, Hall. }
  intros [= <-]. apply graphic_field.
  - destruct h'; [done|]. by destruct (url_port u).
  - destruct (url_port u) as [p|]; [|done]. rewrite string_all_app, Hall'. cbn [String.append string_all andb].
    by rewrite dec_graphic by (by apply Hrange).
Qed.
Lemma host_header_length u host h : host_header u = Ok host -> url_host u = Some h ->
  (forall p, url_port u = Some p -> 0 <= p <= u16_max) -> (String.length h <= 900)%nat ->
  (String.length host <= 1000)%nat.
Proof.
  unfold host_header. intros (h0 & Hh & Hport)%bind_ok Heq Hrange Hlen. apply ok_or_ok in Hh.
  assert (h0 = h) as -> by congruence.
  revert Hport. set (h' := if _ : bool then _ else _).
  assert (String.length h' <= 902)%nat as Hl.
  { unfold h'. destruct (char_in ":" h); [|lia]. rewrite !string_length_app. simpl. lia. }
  intros [= <-]. destruct (url_port u) as [p|]; [|lia]. rewrite !string_length_app. simpl.
  pose proof (dec_length p ltac:(specialize (Hrange p eq_refl); unfold u16_max in Hrange; lia)). lia.
Qed.

(** ** Lemmas: the query *)

Lemma hex2_upper_query c : string_all query_char (hex2_upper (code c)) = true.
Proof. revert c. apply ascii_forallb. vm_compute. done. Qed.
Lemma percent_encode_query v : string_all query_char (percent_encode v) = true.
Proof.
  induction v as [|c v IH]; [done|]. cbn [percent_encode].
  assert (negb (is_unreserved c) || query_char c = true) as Hc by (revert c; apply ascii_forallb; by vm_compute).
  destruct (is_unreserved c).
  - cbn [string_all]. by rewrite IH, andb_true_r.
  - by rewrite !string_all_app, hex2_upper_query, IH.
Qed.
Lemma query_of_plain r : plain_query (Some (query_of (open_fields r))) = true.
Proof.
  cbn [plain_query]. unfold query_of, open_fields. destruct r as [sid device [id|]]; cbn [so_node_id so_service_id so_requester_device_id
    app map fst snd join String.concat]; rewrite !string_all_app, !percent_encode_query; reflexivity.
Qed.
Lemma open_query s node_id service_id :
  open_session_query s node_id service_id = query_of (open_fields (SessionOpenRequest service_id (as_device_name s) node_id)).
Proof.
  unfold open_session_query, query_of, open_fields. destruct node_id as [id|]; cbn [so_node_id so_service_id so_requester_device_id
    app map fst snd join String.concat]; rewrite <- ?string_app_assoc; cbn [String.append]; rewrite ?string_app_nil_r;
    rewrite <- ?string_app_assoc; reflexivity.
Qed.

(** ** Lemmas: dispatching *)

(** A row of the table. *)
Ltac route := unfold build_router, wss_router; cbn [app]; repeat constructor.
Lemma routes_distinct : NoDup (map fst build_router).
Proof. apply (bool_decide_unpack _). by vm_compute. Qed.

(** The handlers' own statuses. *)
Definition handler_status (c : Z) : Prop := c ∈ [200; 204; 400; 403; 404; 500].
Lemma json_response_status {A} `{Json A} (r : reply A) :
  (forall c, r = Status c -> handler_status c) -> 100 <= hp_status (json_response r) <= 999.
Proof.
  intros Hr. destruct r as [a|c]; cbn [json_response].
  - destruct (to_vec a); cbn; unfold INTERNAL_SERVER_ERROR; lia.
  - specialize (Hr c eq_refl). unfold handler_status in Hr. cbn. set_unfold. lia.
Qed.
Lemma or_status_status {A B} (r : result A) c (k : A -> reply B) c' :
  or_status r c k = Status c' -> c' = c \/ exists a, r = Ok a /\ k a = Status c'.
Proof. destruct r; cbn; [eauto|]. intros [= <-]. by left. Qed.
Lemma devices_status s c : list_devices_route s = Status c -> c = 500.
Proof. intros [->|(a & _ & Ha)]%or_status_status; done. Qed.
Lemma open_status `{TokenEnv} now uuids request s c : ControlPlane.open_session now uuids request s = Status c -> c = 400.
Proof. intros [->|(a & _ & Ha)]%or_status_status; done. Qed.
Lemma medium_ca_status s c : medium_ca s = Status c -> c = 404.
Proof. unfold medium_ca, some_or_status. destruct (cs_service_ca_cert_pem s); [done|]. by intros [= <-]. Qed.
Lemma ssh_ca_status s fs c : ssh_ca_public_key s fs = Status c -> c = 404.
Proof.
  unfold ssh_ca_public_key. destruct (cs_ssh_ca_key_path s); [|by intros [= <-]].
  destruct (fs !! _); [done|]. by intros [= <-].
Qed.
Lemma service_certificate_status signed_by request s c :
  issue_service_certificate signed_by request s = Status c -> c ∈ [400; 403; 404; 500].
Proof.
  unfold issue_service_certificate, some_or_status, FORBIDDEN, BAD_REQUEST, NOT_FOUND, INTERNAL_SERVER_ERROR.
  destruct (negb _); [intros [= <-]; set_solver|]. destruct (sc_hostnames request) eqn:E; [intros [= <-]; set_solver|].
  destruct (cs_service_ca_cert_pem s); [|intros [= <-]; set_solver].
  destruct (cs_service_ca_key_pem s); [|intros [= <-]; set_solver].
  intros [->|(a & _ & Ha)]%or_status_status; [set_solver|done].
Qed.
Lemma ssh_certificate_status ssh_keygen temp_dir file_uuid key_uuid request s fs c :
  (issue_ssh_certificate ssh_keygen temp_dir file_uuid key_uuid request s fs).1 = Status c -> c ∈ [400; 403; 404; 500].
Proof.
  unfold issue_ssh_certificate, FORBIDDEN, BAD_REQUEST, NOT_FOUND, INTERNAL_SERVER_ERROR.
  destruct (negb _); [intros [= <-]; set_solver|]. cbv zeta.
  destruct (match sr_node_id request with Some _ => _ | None => _ end) as [route|e]; [|intros [= <-]; set_solver].
  destruct (rt_user_name route); [|intros [= <-]; set_solver].
  destruct (cs_ssh_ca_key_path s); [|intros [= <-]; set_solver].
  destruct (sign_ssh_public_key _ _ _ _ _ _ _ _) as [signed fs'].
  cbn [fst]. intros [->|(a & _ & Ha)]%or_status_status; [set_solver|done].
Qed.
Lemma register_status request s : exists c, (register_node_route request s).1 = Status c /\
  c = (if is_ok (register_node request (cs_registry s)).1 then 204 else 500).
Proof. unfold register_node_route. destruct (register_node _ _) as [[[]|e] db]; cbn; eauto. Qed.
Lemma text_response_status t (r : reply string) :
  (forall c, r = Status c -> c = 404) -> 100 <= hp_status (text_response t r) <= 999.
Proof. intros Hr. destruct r as [a|c]; cbn; [lia|]. rewrite (Hr c eq_refl). lia. Qed.
Lemma handler_statuses c : c ∈ [400; 403; 404; 500] -> handler_status c.
Proof. unfold handler_status. set_solver. Qed.

Section Dispatch.
Context `{Hyper} `{AxumOk} `{TokenEnv}.
Context `{Json (list device_record)} `{Json bootstrap_invite_response} `{Json register_node_request}
  `{Json service_certificate_request} `{Json service_certificate_response} `{Json session_open_grant}
  `{Json ssh_certificate_request} `{Json ssh_certificate_response}.
Context (authority_from_str : string -> option string)
  (signed_by : string -> string -> string -> list string -> result generated_cert)
  (ssh_keygen : list string -> files -> result bool * files).
Local Definition handled := handle authority_from_str signed_by ssh_keygen.
Local Definition dispatched := dispatch authority_from_str signed_by ssh_keygen.

Lemma dispatch_route su m p q hs body e sv : (p, (m, e)) ∈ build_router ->
  dispatched su (HttpRequest (method_str m) p q hs body) sv
  = handled su e (HttpRequest (method_str m) p q hs body) sv.
Proof.
  intros Hin. unfold dispatched, dispatch. cbn [hq_method hq_path].
  by rewrite (route_found _ _ _ _ routes_distinct Hin).
Qed.

Lemma with_json_status {A} `{Json A} rq sv (k : A -> http_response * server) :
  (forall a, 100 <= hp_status (k a).1 <= 999) -> 100 <= hp_status (with_json rq sv k).1 <= 999.
Proof.
  intros Hk. unfold with_json. destruct (json_body rq) as [c|body] eqn:E.
  - apply json_body_rejection in E. unfold rejection in E. cbn. lia.
  - destruct (from_slice body) as [a|e]; [done|]. pose proof (json_refused_rejection e) as Hr.
    unfold rejection in Hr. cbn. lia.
Qed.
Lemma handle_status su e rq sv : 100 <= hp_status (handled su e rq sv).1 <= 999.
Proof.
  unfold handled, handle. destruct e; cbn [fst].
  - cbn. lia.
  - by apply json_response_status.
  - apply json_response_status. intros c Hc%devices_status. subst. unfold handler_status. set_solver.
  - apply text_response_status. intros c. apply medium_ca_status.
  - apply with_json_status. intros a. cbn [fst]. apply json_response_status.
    intros c Hc. eapply handler_statuses, service_certificate_status, Hc.
  - apply with_json_status. intros a. destruct (register_status a (sv_control sv)) as (c & Hc & Hv).
    destruct (register_node_route _ _) as [r s]. cbn in Hc |- *. subst r. destruct (is_ok _); cbn; lia.
  - destruct (query_open _) as [c|request] eqn:E.
    + apply query_rejection in E. unfold rejection in E. cbn. lia.
    + apply json_response_status. intros c Hc%open_status. subst. unfold handler_status. set_solver.
  - apply text_response_status. intros c. apply ssh_ca_status.
  - apply with_json_status. intros a.
    pose proof (ssh_certificate_status ssh_keygen (su_temp_dir su) (su_file_uuid su) (su_key_uuid su) a (sv_control sv) (sv_files sv)) as Hs.
    destruct (issue_ssh_certificate _ _ _ _ _ _ _) as [r fs]. cbn [fst] in *. apply json_response_status.
    intros c Hc. by apply handler_statuses, Hs.
  - destruct (upgrade_refused rq) as [c|] eqn:E; [|cbn; lia]. apply upgrade_rejection in E. unfold rejection in E. cbn. lia.
Qed.
Lemma dispatch_status su rq sv : 100 <= hp_status (dispatched su rq sv).1 <= 999.
Proof.
  unfold dispatched, dispatch. destruct (route_to _ _ _); [apply handle_status|cbn; unfold NOT_FOUND; lia|cbn; lia].
Qed.
End Dispatch.

(** ** Lemmas: requests that are answered *)

(** The error a client reports for a refusal. *)
Definition refused `{Hyper} (c : Z) : error :=
  EMsg ("control request failed: HTTP/1.1 " +:+ dec c +:+ " " +:+ http_reason c).
(** What a client gets of a handler's reply. *)
Definition answer {A} `{Hyper} `{Json A} (r : reply A) : result A :=
  match r with
  | Reply a => match to_vec a with Ok _ => Ok a | Err _ => Err (refused 500) end
  | Status c => Err (refused c)
  end.

Section Answers.
Context `{HyperOk}.
Lemma answer_read {A} `{JsonOk A} (r : reply A) : (forall c, r = Status c -> success c = false) ->
  (body ← client_reads (json_response r); from_slice body) = answer r.
Proof.
  intros Hr. destruct r as [a|c]; cbn [json_response answer].
  - destruct (to_vec a) as [body|e] eqn:E; [|done]. cbn. by apply json_roundtrip.
  - unfold client_reads. cbn [hp_status empty_response]. by rewrite (Hr c eq_refl).
Qed.
Lemma text_read t (r : reply string) : (forall c, r = Status c -> success c = false) ->
  client_reads (text_response t r)
  = match r with Reply text => Ok (bytes_of text) | Status c => Err (refused c) end.
Proof.
  intros Hr. destruct r as [a|c]; cbn [text_response]; [done|]. unfold client_reads. cbn [hp_status empty_response].
  by rewrite (Hr c eq_refl).
Qed.
End Answers.

(** A control plane that a pinned client reaches: it serves TLS with a certificate whose digest
    is the client's pin, at the address of the client's URL. *)
Record reachable `{Urls} `{Sha256} (server_name_ok reached : string -> bool) (tls : option tls_server)
    (authority pin : string) : Prop := {
  rc_authority : plain_authority authority;
  rc_url : exists u host port, url_parse (origin authority) = Some u /\ url_host u = Some host /\
    url_known_port u = Some port /\ server_name_ok host = true /\ (String.length host <= 900)%nat /\
    reached (host +:+ ":" +:+ dec port) = true;
  rc_pin : exists t cert, tls = Some t /\ head (ts_certs t) = Some cert /\ parse_sha256_pin pin = Ok (sha256 cert)
}.

Section Served.
Context `{HyperOk} `{AxumOk} `{TokenEnv} `{UrlPathsOk} `{Sha256}.
Context `{Json (list device_record)} `{Json bootstrap_invite_response} `{Json register_node_request}
  `{Json service_certificate_request} `{Json service_certificate_response} `{Json session_open_grant}
  `{Json ssh_certificate_request} `{Json ssh_certificate_response}.
Context (authority_from_str : string -> option string)
  (signed_by : string -> string -> string -> list string -> result generated_cert)
  (ssh_keygen : list string -> files -> result bool * files).
Context (server_name_ok reached : string -> bool) (tls : option tls_server) (authority pin : string).
Context (Hreach : reachable server_name_ok reached tls authority pin).
Context (su : surroundings).
Local Definition exchange := server_exchange authority_from_str signed_by ssh_keygen su reached tls.
Local Definition routed_to := handle authority_from_str signed_by ssh_keygen su.

(** A request for one of the server's routes: its handler's reply is what the client reads. *)
Lemma request_served m p q body e sv :
  (p, (m, e)) ∈ build_router -> plain_path p = true -> plain_query q = true ->
  str_len (target p q) <= 60000 -> (length body <= BODY_LIMIT)%nat ->
  exists host, request_in url_parse server_name_ok exchange m (origin authority +:+ target p q) pin body sv
  = let '(r, sv') := routed_to e (HttpRequest (method_str m) p q (request_fields host body) body) sv in
    (client_reads r, sv').
Proof.
  intros Hroute Hp Hq Hlen Hbody.
  destruct Hreach as [Hauth (u & h & port & Hu & Hh & Hport & Hname & Hshort & Hreached) (t & cert & Htls & Hcert & Hpin)].
  destruct (url_origin _ _ Hauth Hu) as (Hscheme & Hhost & Hports).
  destruct (request_head m (set_path p q u) body) as [rhead|e'] eqn:Hhead.
  2: { exfalso. unfold request_head in Hhead.
       assert (exists host, host_header (set_path p q u) = Ok host) as [host Hok]; [|by rewrite Hok in Hhead].
       unfold host_header. cbn [url_host set_path]. rewrite Hh. by eexists. }
  pose proof (request_head_message _ _ _ _ Hhead) as (host & Hhh & Hmsg).
  exists host. unfold request_in, lift. unfold mbind at 1, eff_bind at 1.
  rewrite (request_parts_eq _ _ _ _ _ _ (set_path p q u) h port (PinnedCertVerifier (sha256 cert)) rhead); try done;
    [|by apply url_path_kept|unfold pinned_tls_client_config; by rewrite Hpin].
  unfold exchange, server_exchange. rewrite Htls.
  change (Some t ≫= (fun t => head (ts_certs t))) with (head (ts_certs t)). rewrite Hcert.
  unfold mbind, eff_bind. rewrite Hreached. unfold verify_server_cert. cbn [expected_pin].
  rewrite bool_decide_eq_true_2 by done. unfold serve_connection.
  destruct (request_read m (set_path p q u) body rhead Hhead Hp Hq) as (host' & Hhh' & Hread).
  - intros host' Hh'. eapply host_header_field; [exact Hh'|done..].
  - rewrite Hmsg. apply request_head_fits; [|done|done]. eapply host_header_length; [exact Hhh|done..].
  - assert (host' = host) as -> by congruence. rewrite Hread.
    cbn [url_path url_query set_path].
    fold (dispatched authority_from_str signed_by ssh_keygen).
    rewrite (dispatch_route _ _ _ su m p q _ body e sv Hroute). unfold handled.
    fold (routed_to e (HttpRequest (method_str m) p q (request_fields host body) body) sv).
    destruct (routed_to e _ sv) as [r sv'] eqn:E. f_equal. apply response_read.
    pose proof (handle_status authority_from_str signed_by ssh_keygen su e
      (HttpRequest (method_str m) p q (request_fields host body) body) sv) as Hst.
    unfold handled in Hst. fold (routed_to e (HttpRequest (method_str m) p q (request_fields host body) body) sv) in Hst.
    by rewrite E in Hst.
Qed.

(** The client's pure calls, in the state the server is in. *)
Local Definition answers (sv : server) (addr name : string) (v : pinned_cert_verifier) (bytes : list byte)
    : result (list byte) := (exchange addr name v bytes sv).1.
Lemma pure_served m p q body e sv :
  (p, (m, e)) ∈ build_router -> plain_path p = true -> plain_query q = true ->
  str_len (target p q) <= 60000 -> (length body <= BODY_LIMIT)%nat ->
  exists host, request url_parse server_name_ok (answers sv) m (origin authority +:+ target p q) pin body
  = client_reads (routed_to e (HttpRequest (method_str m) p q (request_fields host body) body) sv).1.
Proof.
  intros Hr Hp Hq Hl Hb. destruct (request_served m p q body e sv Hr Hp Hq Hl Hb) as [host Hs]. exists host.
  unfold answers. rewrite <- (request_in_result url_parse server_name_ok exchange), Hs.
  by destruct (routed_to e _ sv).
Qed.
(** A body that is announced is extracted. *)
Lemma json_extracted {A} `{JsonOk A} (a : A) body m p q host sv k :
  to_vec a = Ok body -> (length body <= BODY_LIMIT)%nat ->
  with_json (HttpRequest m p q (request_fields host body) body) sv k = k a.
Proof.
  intros Ha Hb. pose proof (json_not_empty a body Ha) as Hne. unfold with_json.
  rewrite json_accepted; [|by destruct body|done]. cbn [hq_body]. by rewrite (json_roundtrip _ _ Ha).
Qed.

(** *** The client's calls *)

Context `{!JsonOk (list device_record)} `{!JsonOk session_open_grant} `{!JsonOk ssh_certificate_request}
  `{!JsonOk ssh_certificate_response}.
Context (s : app_state).
Context (Hs : as_server_url s = origin authority /\ as_security s = "pinned-tls" /\ as_control_pin s = pin).
Lemma pinned_url p : api_url s p = origin authority +:+ p /\ pinned s = true /\ as_control_pin s = pin.
Proof.
  destruct Hs as (Hurl & Hsec & Hpin). unfold api_url, pinned. rewrite Hurl, Hsec, trim_origin by apply Hreach.
  by rewrite bool_decide_eq_true_2.
Qed.

Lemma fetch_devices_served plain_get sv :
  fetch_devices server_name_ok (answers sv) plain_get s = answer (list_devices_route (sv_control sv)).
Proof.
  destruct (pinned_url "/api/devices") as (Hu & Hp & Hpin). unfold fetch_devices, get_json.
  rewrite Hu, Hp, Hpin.
  destruct (pure_served Get "/api/devices" None [] Devices sv) as [host Hr]; [route|done|done|done|apply Nat.le_0_l|].
  cbn [target] in Hr. rewrite Hr. apply answer_read. intros c Hc. by rewrite (devices_status _ _ Hc).
Qed.
Lemma fetch_medium_ca_served plain_get sv :
  fetch_medium_ca server_name_ok (answers sv) plain_get s
  = match cs_service_ca_cert_pem (sv_control sv) with
    | Some ca =>
        pem ← ok_or (EMsg "Medium service CA response is not UTF-8") (from_utf8 (bytes_of ca));
        _ ← bail_if (negb (contains "BEGIN CERTIFICATE" pem)) (EMsg "Medium service CA response is not a PEM certificate");
        Ok pem
    | None => Err (refused 404)
    end.
Proof.
  destruct (pinned_url "/api/medium-ca.pem") as (Hu & Hp & Hpin). unfold fetch_medium_ca, get_bytes.
  rewrite Hu, Hp, Hpin.
  destruct (pure_served Get "/api/medium-ca.pem" None [] MediumCa sv) as [host Hr]; [route|done|done|done|apply Nat.le_0_l|].
  cbn [target] in Hr. rewrite Hr. cbn [routed_to handle fst]. rewrite text_read.
  - unfold medium_ca, some_or_status. by destruct (cs_service_ca_cert_pem _).
  - intros c Hc. by rewrite (medium_ca_status _ _ Hc).
Qed.
(** The query of a session request is read back. *)
Lemma open_session_served plain_get_query node_id service_id sv :
  Forall (fun f => is_Some (utf8_chars f.2)) (open_fields (SessionOpenRequest service_id (as_device_name s) node_id)) ->
  str_len (open_session_query s node_id service_id) <= 59000 ->
  open_session_for_node server_name_ok (answers sv) plain_get_query s node_id service_id
  = answer (ControlPlane.open_session (su_now su) (su_uuids su)
              (SessionOpenRequest service_id (as_device_name s) node_id) (sv_control sv)).
Proof.
  intros Hutf Hlen. destruct (pinned_url "/api/sessions/open") as (Hu & Hp & Hpin).
  unfold open_session_for_node, get_json. rewrite Hu, Hp, Hpin. rewrite open_query in *.
  set (request := SessionOpenRequest _ _ _) in *.
  destruct (pure_served Get "/api/sessions/open" (Some (query_of (open_fields request))) [] OpenSession sv)
    as [host Hr]; [route|done|apply query_of_plain|cbn [target]|apply Nat.le_0_l|].
  { unfold str_len in *. rewrite string_length_app. cbn [String.append String.length]. lia. }
  cbn [target] in Hr. rewrite string_app_assoc in Hr. rewrite <- !string_app_assoc in *. rewrite Hr.
  cbn [routed_to handle hq_query]. rewrite (query_accepted request (open_fields request)) by done.
  cbn [fst]. apply answer_read. intros c Hc. by rewrite (open_status _ _ _ _ _ Hc).
Qed.
Lemma ssh_certificate_served plain_post node_id service_id public_key sv body :
  trim (as_client_secret s) <> EmptyString ->
  let request := SshCertificateRequest service_id (Some node_id) (as_device_name s) public_key (as_client_secret s) in
  to_vec request = Ok body -> (length body <= BODY_LIMIT)%nat ->
  client_issue_ssh_certificate server_name_ok (answers sv) plain_post s node_id service_id public_key
  = answer (issue_ssh_certificate ssh_keygen (su_temp_dir su) (su_file_uuid su) (su_key_uuid su) request
              (sv_control sv) (sv_files sv)).1.
Proof.
  intros Hsecret request Hbody Hlen. destruct (pinned_url "/api/ssh/certificate") as (Hu & Hp & Hpin).
  unfold client_issue_ssh_certificate, is_empty, post_json. rewrite bool_decide_eq_false_2 by done.
  cbn [bail_if]. rewrite bind_Ok, Hu, Hp, Hpin. fold request. rewrite Hbody, bind_Ok.
  destruct (pure_served Post "/api/ssh/certificate" None body SshCertificate sv) as [host Hr]; [route|done|done|done|done|].
  cbn [target] in Hr. rewrite Hr. cbn [routed_to handle]. rewrite (json_extracted request) by done.
  pose proof (ssh_certificate_status ssh_keygen (su_temp_dir su) (su_file_uuid su) (su_key_uuid su) request
    (sv_control sv) (sv_files sv)) as Hst.
  destruct (issue_ssh_certificate _ _ _ _ _ _ _) as [r fs]. cbn [fst] in *. apply answer_read.
  intros c Hc%Hst. set_unfold. naive_solver.
Qed.
End Served.

(** ** Lemmas: runs of the server *)

Section Runs.
Context `{Hyper} `{Axum} `{TokenEnv} `{Json relay_hello}.
Context `{Json (list device_record)} `{Json bootstrap_invite_response} `{Json register_node_request}
  `{Json service_certificate_request} `{Json service_certificate_response} `{Json session_open_grant}
  `{Json ssh_certificate_request} `{Json ssh_certificate_response}.
Context (authority_from_str : string -> option string)
  (signed_by : string -> string -> string -> list string -> result generated_cert)
  (ssh_keygen : list string -> files -> result bool * files).

(** What happens to a server: a connection's bytes, or an event of a WebSocket. *)
Inductive server_event :=
  | Connection (su : surroundings) (bytes : list byte)
  | Socket (ev : socket_event).
Definition server_step (sv : server) (ev : server_event) : server :=
  match ev with
  | Connection su bytes => (serve_connection authority_from_str signed_by ssh_keygen su bytes sv).2
  | Socket ev => socket_step sv ev
  end.
Definition run_server (sv : server) (evs : list server_event) : server := fold_left server_step evs sv.

(** What the tasks of the WebSockets do at the relay. *)
Definition task_events (ev : server_event) : list acceptor_event :=
  match ev with
  | Connection _ _ => []
  | Socket (SocketHello time conn frames) => [HelloRead time conn (read_wss_relay_hello frames)]
  | Socket (SocketPoll time conn) => [Polled time conn]
  end.
Definition is_task (ev : acceptor_event) : bool := match ev with Accepted => false | _ => true end.
(** The specification: a registry that nodes register with, and a WebSocket relay whose secret
    is the control plane's and whose tasks are [tasks]; nothing else of the state changes. *)
Definition runs_as_parts (tasks : list acceptor_event) (sv sv' : server) : Prop :=
  exists requests evs,
    sv_control sv' = set_registry (register_all requests (cs_registry (sv_control sv))) (sv_control sv) /\
    sv_acceptor sv' = run_acceptor (relay_secret sv) (sv_acceptor sv) evs /\ List.filter is_task evs = tasks.

Lemma set_registry_same s : set_registry (cs_registry s) s = s.
Proof. by destruct s. Qed.
Lemma runs_as_parts_same sv sv' :
  sv_control sv' = sv_control sv -> sv_acceptor sv' = sv_acceptor sv -> runs_as_parts [] sv sv'.
Proof. intros Hc Ha. exists [], []. rewrite Hc, Ha. split; [symmetry; apply set_registry_same|done]. Qed.
Lemma runs_as_parts_relay sv ev : runs_as_parts (List.filter is_task [ev]) sv (on_relay ev sv).
Proof.
  exists [], [ev]. split; [symmetry; apply set_registry_same|]. split; [|done].
  cbn [on_relay sv_acceptor]. by rewrite wss_acceptor_step_eq.
Qed.
Lemma runs_as_parts_trans t1 t2 sv1 sv2 sv3 :
  runs_as_parts t1 sv1 sv2 -> runs_as_parts t2 sv2 sv3 -> runs_as_parts (t1 ++ t2) sv1 sv3.
Proof.
  intros (r1 & e1 & Hc1 & Ha1 & <-) (r2 & e2 & Hc2 & Ha2 & <-). exists (r1 ++ r2), (e1 ++ e2).
  unfold relay_secret in *. rewrite Hc2, Ha2, Hc1, Ha1, List.filter_app.
  unfold register_all, run_acceptor. by rewrite !fold_left_app.
Qed.
Lemma with_json_parts {A} `{Json A} rq sv (k : A -> http_response * server) :
  (forall a, runs_as_parts [] sv (k a).2) -> runs_as_parts [] sv (with_json rq sv k).2.
Proof.
  intros Hk. unfold with_json. destruct (json_body rq); [by apply runs_as_parts_same|].
  destruct (from_slice _); [apply Hk|by apply runs_as_parts_same].
Qed.
Lemma handle_parts su e rq sv : runs_as_parts [] sv (handle authority_from_str signed_by ssh_keygen su e rq sv).2.
Proof.
  unfold handle. destruct e; try (by apply runs_as_parts_same).
  - apply with_json_parts. intros a. by apply runs_as_parts_same.
  - apply with_json_parts. intros a. unfold register_node_route.
    destruct (register_node a (cs_registry (sv_control sv))) as [r db] eqn:E. cbn [snd].
    exists [a], []. cbn [register_all fold_left set_control sv_control sv_acceptor]. by rewrite E.
  - destruct (query_open _); by apply runs_as_parts_same.
  - apply with_json_parts. intros a. destruct (issue_ssh_certificate _ _ _ _ _ _ _). by apply runs_as_parts_same.
  - destruct (upgrade_refused rq); [by apply runs_as_parts_same|]. exact (runs_as_parts_relay sv Accepted).
Qed.
Lemma step_parts sv ev : runs_as_parts (task_events ev) sv (server_step sv ev).
Proof.
  destruct ev as [su bytes|ev]; cbn [server_step task_events].
  - unfold serve_connection. destruct (http_read bytes) as [rq|]; [|by apply runs_as_parts_same].
    assert (runs_as_parts [] sv (dispatch authority_from_str signed_by ssh_keygen su rq sv).2) as Hd.
    { unfold dispatch. destruct (route_to _ _ _); [apply handle_parts|by apply runs_as_parts_same..]. }
    by destruct (dispatch _ _ _ _ _ _).
  - destruct ev as [time conn frames|time conn]; apply runs_as_parts_relay.
Qed.
End Runs.

(** ** Properties *)

(** C23. Whatever requests arrive at the control plane and whatever its WebSockets do, it runs as
    its parts do: its registry is reached by registrations, its relay by what the WebSockets'
    tasks do under the control plane's own secret, and the secrets, the certificates and the
    relay addresses never change.  From the start, then, its relay pairs a client only with a
    WebSocket whose hello was that of the node, with the control plane's secret. *)
Theorem control_plane_runs_as_its_parts `{Hyper} `{Axum} `{TokenEnv} `{Json relay_hello}
    `{Json (list device_record)} `{Json bootstrap_invite_response} `{Json register_node_request}
    `{Json service_certificate_request} `{Json service_certificate_response} `{Json session_open_grant}
    `{Json ssh_certificate_request} `{Json ssh_certificate_response}
    (authority_from_str : string -> option string)
    (signed_by : string -> string -> string -> list string -> result generated_cert)
    (ssh_keygen : list string -> files -> result bool * files)
    (control : control_state) (fs : files) (evs : list server_event) :
  let start := Server control fs acceptor_init in
  let sv := run_server authority_from_str signed_by ssh_keygen start evs in
  runs_as_parts (evs ≫= task_events) start sv /\
  pairs_authenticated (Some (cs_shared_secret control)) (evs ≫= task_events) (ac_relay (sv_acceptor sv)).
Proof.
  intros start sv.
  assert (forall sv0, runs_as_parts (evs ≫= task_events) sv0 (run_server authority_from_str signed_by ssh_keygen sv0 evs)) as Hruns.
  { clear. induction evs as [|ev evs IH]; intros sv0; [by apply runs_as_parts_same|].
    cbn [run_server fold_left]. rewrite bind_cons. eapply runs_as_parts_trans; [apply step_parts|apply IH]. }
  specialize (Hruns start). fold sv in Hruns. split; [done|]. destruct Hruns as (requests & aevs & Hc & Ha & Htasks).
  rewrite Ha. destruct (acceptor_pairs (relay_secret start) aevs) as [Hp Hnd].
  assert (forall time conn hello, HelloRead time conn hello ∈ aevs -> HelloRead time conn hello ∈ (evs ≫= task_events)) as Hin.
  { intros time conn hello Hh. rewrite <- Htasks. apply list_elem_of_In, List.filter_In.
    split; [by apply list_elem_of_In|done]. }
  split; [|done]. intros p Hpair. destruct (Hp p Hpair) as [(s & t & Hs & Hn & Ht) [time Hcl]]. split; eauto 10.
Qed.
