(* ===== verification/HttpSamples.v ===== *)
(** * Stand-ins for hyper, axum and the url crate in the witnesses

    Small servers and parsers with the laws of [Http.v] and [Server.v]: they show that the laws
    can hold, and let the witnesses run whole requests. *)

From S2P Require Import Prelude RustStd NetAddr Protocol Net PinnedHttp Http Crypto Samples Relay Registry ControlPlane Invites ClientApi Server.

(** ** hyper *)

Lemma lines_cons l rest : char_in lf l = false -> rest <> EmptyString -> lines (l +:+ crlf +:+ rest) = l :: lines rest.
Proof.
  intros Hl Hne. change (crlf +:+ rest) with (String cr EmptyString +:+ String lf rest).
  rewrite string_app_assoc. unfold lines. rewrite split_on_app by (by rewrite char_in_app, Hl).
  destruct (split_on lf rest) as [|p ps] eqn:E; [by apply split_on_ne in E|]. cbn [lines_of].
  by rewrite strip_cr_snoc.
Qed.
Lemma lines_join ls : Forall (fun l => l <> EmptyString /\ char_in lf l = false) ls -> lines (join crlf ls) = ls.
Proof.
  induction 1 as [|l ls [Hne Hl] Hall IH]; [done|]. destruct ls as [|l2 ls].
  - change (join crlf [l]) with l. unfold lines. rewrite split_on_none by done. cbn. unfold is_empty.
    by rewrite bool_decide_eq_false_2.
  - rewrite join_cons by done. rewrite lines_cons; [by rewrite IH|done|].
    apply list.Forall_cons in Hall as [[Hne2 _] _]. destruct ls as [|l3 ls]; [done|].
    rewrite join_cons by done. by destruct l2.
Qed.

Definition sample_field (line : string) : option (string * string) :=
  '(n, v) ← cut ":" line; v ← strip_prefix " " v; Some (n, v).
Definition sample_read (bs : list byte) : option http_request :=
  n ← position_of header_sep bs;
  h ← from_utf8 (take n bs);
  match lines h with
  | [] => None
  | first :: fields =>
      '(m, rest) ← cut " " first;
      '(t, _) ← cut " " rest;
      hs ← mapM sample_field fields;
      let '(path, query) := match cut "?" t with Some (p, q) => (p, Some q) | None => (t, None) end in
      Some (HttpRequest m path query hs (drop (n + 4) bs))
  end.
Definition sample_hyper : Hyper := {|
  http_read := sample_read;
  http_write r := bytes_of ("HTTP/1.1 " +:+ dec (hp_status r) +:+ " OK") ++ header_sep ++ hp_body r;
  http_reason _ := "OK"
|}.

Definition field_line (h : string * string) : string := h.1 +:+ ": " +:+ h.2.
Lemma header_lines_join first hs :
  first +:+ crlf +:+ header_lines hs = join crlf (first :: map field_line hs) +:+ crlf.
Proof.
  unfold header_lines. revert first; induction hs as [|h hs IH]; intros first; [done|].
  cbn [map].
  rewrite (join_cons crlf) by done. cbn [join String.concat] in IH.
  assert (join EmptyString ((h.1 +:+ ": " +:+ h.2 +:+ crlf) :: map (fun h => h.1 +:+ ": " +:+ h.2 +:+ crlf) hs)
          = (h.1 +:+ ": " +:+ h.2 +:+ crlf) +:+ join EmptyString (map (fun h => h.1 +:+ ": " +:+ h.2 +:+ crlf) hs)) as ->.
  { destruct (map _ hs) eqn:E; [cbn; by rewrite string_app_nil_r|]. by rewrite join_cons. }
  rewrite <- !string_app_assoc. f_equal. f_equal.
  specialize (IH (field_line h)). unfold field_line in IH at 1. rewrite <- !string_app_assoc in IH. exact IH.
Qed.
Lemma plain_field_line h : plain_field h = true ->
  sample_field (field_line h) = Some h /\ string_all text_char (field_line h) = true /\ field_line h <> EmptyString.
Proof.
  destruct h as [n v]. unfold plain_field, field_value, field_line. cbn [fst snd].
  intros [[[Hne Hn]%andb_true_iff Hv]%andb_true_iff _]%andb_true_iff.
  apply andb_true_iff in Hv as [[[_ Hv]%andb_true_iff _]%andb_true_iff _].
  split_and!.
  - unfold sample_field, cut. change (": " +:+ v) with (String ":" (" " +:+ v)).
    rewrite split_once_char by (by eapply string_all_char_in). cbn [mbind option_bind]. by rewrite strip_prefix_app.
  - rewrite !string_all_app, Hv, andb_true_r. eapply string_all_impl; [|exact Hn].
    intros c. assert (negb (token_char c) || text_char c = true) as Hc by (revert c; apply ascii_forallb; by vm_compute).
    by destruct (token_char c).
  - by destruct n.
Qed.
Lemma sample_fields hs : forallb plain_field hs = true -> mapM sample_field (map field_line hs) = Some hs.
Proof.
  induction hs as [|h hs IH]; [done|]. cbn [forallb map mapM]. intros [Hh Hhs]%andb_true_iff.
  destruct (plain_field_line h Hh) as [-> _]. cbn [mbind option_bind]. by rewrite IH.
Qed.
Lemma plain_path_chars p : plain_path p = true -> string_all path_char p = true.
Proof. unfold plain_path. intros [[_ H]%andb_true_iff _]%andb_true_iff. exact H. Qed.
Lemma target_chars p q : plain_path p = true -> plain_query q = true ->
  string_all (fun c => path_char c || query_char c || bool_decide (c = "?"%char)) (target p q) = true.
Proof.
  intros Hp%plain_path_chars Hq. assert (string_all (fun c => path_char c || query_char c || bool_decide (c = "?"%char)) p = true) as Hp'
    by (eapply string_all_impl; [|exact Hp]; by intros c ->).
  destruct q as [q|]; [|done]. cbn [target plain_query] in *. rewrite !string_all_app, Hp'. cbn [string_all].
  eapply string_all_impl; [|exact Hq]. intros c ->. by rewrite orb_true_r.
Qed.

#[global] Instance sample_hyper_ok : @HyperOk sample_hyper.
Proof.
  constructor.
  - intros m path query hs body Hm Hp Hq Hhs _ _ _ _.
    assert (string_all text_char m = true /\ m <> EmptyString /\ char_in " " m = false) as (Hmt & Hmne & Hmsp).
    { apply elem_of_cons in Hm as [->|Hm]; [done|]. by apply list_elem_of_singleton in Hm as ->. }
    pose proof (target_chars path query Hp Hq) as Ht.
    set (first := m +:+ " " +:+ target path query +:+ " HTTP/1.1").
    assert (http_head m path query hs = join crlf (first :: map field_line hs) +:+ crlf +:+ crlf) as Hhead.
    { transitivity ((join crlf (first :: map field_line hs) +:+ crlf) +:+ crlf); [|by rewrite <- string_app_assoc].
      rewrite <- header_lines_join. unfold http_head, first. by rewrite <- !string_app_assoc. }
    assert (Forall (fun l => string_all text_char l = true /\ l <> EmptyString) (first :: map field_line hs)) as Hlines.
    { constructor.
      - split; [|by unfold first; destruct m]. unfold first. rewrite !string_all_app, Hmt.
        assert (string_all text_char (target path query) = true) as ->; [|done].
        eapply string_all_impl; [|exact Ht]. cbv beta. intros c Hpc.
        assert (negb (path_char c || query_char c || bool_decide (c = "?"%char)) || text_char c = true) as Hc
          by (clear Hpc; revert c; apply ascii_forallb; by vm_compute).
        by rewrite Hpc in Hc.
      - apply list.Forall_forall. intros l (h & -> & Hin)%list_elem_of_fmap.
        rewrite forallb_forall in Hhs. apply list_elem_of_In, Hhs, plain_field_line in Hin. tauto. }
    cbn [http_read sample_hyper]. unfold sample_read. rewrite Hhead, !bytes_of_app, <- !app_assoc.
    change (bytes_of crlf ++ bytes_of crlf ++ body) with (header_sep ++ body).
    rewrite position_of_head; [|done|eapply list.Forall_impl; [exact Hlines|]; intros l [Hl ?]; split; [done|by apply text_no_break]].
    cbn [mbind option_bind]. rewrite take_app_eq by (by rewrite length_bytes_of).
    assert (from_utf8 (bytes_of (join crlf (first :: map field_line hs))) = Some (join crlf (first :: map field_line hs))) as ->.
    { unfold from_utf8. rewrite string_of_bytes_of. by destruct (text_lines_utf8 _ Hlines) as [l ->]. }
    cbn [mbind option_bind].
    rewrite lines_join by (eapply list.Forall_impl; [exact Hlines|]; intros l [Hl ?]; split; [done|by apply text_no_break]).
    assert (cut " " first = Some (m, target path query +:+ " HTTP/1.1")) as ->.
    { unfold cut, first. by apply split_once_char. }
    cbn [mbind option_bind].
    assert (cut " " (target path query +:+ " HTTP/1.1") = Some (target path query, "HTTP/1.1")) as ->.
    { unfold cut. apply split_once_char. by eapply string_all_char_in. }
    cbn [mbind option_bind]. rewrite sample_fields by done. cbn [mbind option_bind].
    assert (char_in "?" path = false) as Hpath by (eapply string_all_char_in; [by apply plain_path_chars|done]).
    assert (match cut "?" (target path query) with Some (p, q) => (p, Some q) | None => (target path query, None) end
            = (path, query)) as ->.
    { unfold cut. destruct query as [q|]; cbn [target].
      - change ("?" +:+ q) with (String "?" q). by rewrite split_once_char.
      - by rewrite split_once_char_none. }
    do 2 f_equal. rewrite app_assoc, drop_app_eq; [done|]. by rewrite length_app, length_bytes_of.
  - intros r Hr. exists []. split; [done|]. done.
  - done.
Qed.

(** ** axum *)

Definition sample_pairs (q : string) : list (string * string) :=
  map (fun piece => match cut "=" piece with
                    | Some (n, v) => (n, toy_decode v)
                    | None => (piece, EmptyString)
                    end) (split_on "&" q).
Definition sample_query (q : option string) : Z + session_open_request :=
  let fields : gmap string string := list_to_map (sample_pairs (default EmptyString q)) in
  match fields !! "service_id", fields !! "requester_device_id" with
  | Some sid, Some device => inr (SessionOpenRequest sid device (fields !! "node_id"))
  | _, _ => inl 400
  end.
Definition sample_axum : Axum := {|
  route_to rs meth p :=
    match head (filter (fun r => r.1 = p) rs) with
    | Some (_, (m, e)) => if method_str m =?s meth then Handler e else WrongMethod
    | None => NoRoute
    end;
  json_body rq :=
    if bool_decide (header "content-type" (hq_headers rq) = Some "application/json")
    then if Z.of_nat (length (hq_body rq)) <=? 2097152 then inr (hq_body rq) else inl 413
    else inl 415;
  json_refused _ := 422;
  query_open := sample_query;
  upgrade_refused rq := if bool_decide (is_Some (header "sec-websocket-key" (hq_headers rq))) then None else Some 400
|}.

Lemma find_route (rs : list (string * (method * endpoint))) p v : NoDup (map fst rs) -> (p, v) ∈ rs -> head (filter (fun r => r.1 = p) rs) = Some (p, v).
Proof.
  induction rs as [|[p0 v0] rs IH]; intros Hnd Hin; [by apply not_elem_of_nil in Hin|].
  cbn [map] in Hnd. apply list.NoDup_cons in Hnd as [Hno Hnd]. apply elem_of_cons in Hin as [[= -> ->]|Hin].
  - rewrite filter_cons_True by done. done.
  - rewrite filter_cons_False; [by apply IH|]. cbn. intros ->. apply Hno. apply list_elem_of_fmap. by exists (p, v).
Qed.
Lemma percent_decoded c rest : toy_decode ("%" +:+ hex2_upper (code c) +:+ rest) = String c (toy_decode rest).
Proof. by destruct c as [[] [] [] [] [] [] [] []]. Qed.
Lemma decode_unreserved c rest : is_unreserved c = true -> toy_decode (String c rest) = String c (toy_decode rest).
Proof. by destruct c as [[] [] [] [] [] [] [] []]. Qed.
Lemma decode_percent_encode v : toy_decode (percent_encode v) = v.
Proof.
  induction v as [|c v IH]; [done|]. cbn [percent_encode]. destruct (is_unreserved c) eqn:E.
  - by rewrite decode_unreserved, IH.
  - by rewrite percent_decoded, IH.
Qed.
Lemma no_separator c v : char_in c "&=" = true -> char_in c (percent_encode v) = false.
Proof.
  intros Hc. induction v as [|a v IH]; [done|]. cbn [percent_encode].
  assert (bool_decide (c = "&"%char) || bool_decide (c = "="%char) = true) as Hc'.
  { cbn in Hc. rewrite orb_false_r in Hc. apply orb_true_iff in Hc as [H|H]; apply bool_decide_eq_true in H as <-; done. }
  destruct (is_unreserved a) eqn:E.
  - cbn [char_in]. rewrite IH, orb_false_r. apply bool_decide_eq_false. intros ->. 
    apply orb_true_iff in Hc' as [H|H]; apply bool_decide_eq_true in H as ->; done.
  - rewrite !char_in_app, IH, orb_false_r. apply orb_true_iff in Hc' as [H|H]; apply bool_decide_eq_true in H as ->;
      by destruct a as [[] [] [] [] [] [] [] []].
Qed.
Lemma sample_pairs_query pairs : pairs <> [] -> Forall (fun p => char_in "=" p.1 = false /\ char_in "&" p.1 = false) pairs ->
  sample_pairs (query_of pairs) = pairs.
Proof.
  intros Hne Hall. unfold sample_pairs, query_of. rewrite split_on_join.
  - induction Hall as [|[n v] pairs [Hn _] Hall IH]; [done|]. cbn [map fst snd].
    change ("=" +:+ percent_encode v) with (String "=" (percent_encode v)). unfold cut.
    rewrite split_once_char by done. rewrite decode_percent_encode. f_equal. destruct pairs; [done|]. by apply IH.
  - by destruct pairs.
  - apply list.Forall_forall. intros piece ([n v] & -> & Hin)%list_elem_of_fmap. cbn [fst snd].
    rewrite list.Forall_forall in Hall. apply Hall in Hin as [_ Hamp]. cbn [fst] in Hamp.
    rewrite !char_in_app, Hamp, no_separator by done. done.
Qed.
#[global] Instance sample_axum_ok : @AxumOk sample_axum.
Proof.
  constructor; cbn [route_to json_body json_refused query_open upgrade_refused sample_axum].
  - intros rs m p e Hnd Hin. rewrite (find_route _ _ _ Hnd Hin). by rewrite bool_decide_eq_true_2.
  - intros rs meth p Hp. destruct (filter _ rs) as [|[p0 v0] l] eqn:E; [done|]. exfalso. apply Hp.
    assert ((p0, v0) ∈ filter (fun r => r.1 = p) rs) as Hin by (rewrite E; left).
    apply list_elem_of_filter in Hin as [Hp0 Hin]. apply list_elem_of_fmap. by exists (p0, v0).
  - intros rs m meth p e Hnd Hin Hne _. rewrite (find_route _ _ _ Hnd Hin). by rewrite bool_decide_eq_false_2.
  - intros rq Ht Hl. rewrite bool_decide_eq_true_2 by done. pose proof body_limit_Z. by rewrite (proj2 (Z.leb_le _ _)) by lia.
  - intros rq Ht. by rewrite Ht.
  - intros rq Ht Hl. rewrite bool_decide_eq_true_2 by done. pose proof body_limit_Z. by rewrite (proj2 (Z.leb_gt _ _)) by lia.
  - intros r pairs Hp _. unfold sample_query. change (default EmptyString (Some (query_of pairs))) with (query_of pairs).
    assert (Forall (fun p => char_in "=" p.1 = false /\ char_in "&" p.1 = false) pairs) as Hnames.
    { rewrite Hp. unfold open_fields. destruct (so_node_id r); repeat constructor. }
    rewrite sample_pairs_query; [|intros ->; by apply Permutation_nil in Hp|done].
    assert (NoDup (map fst (open_fields r))) as Hnd.
    { unfold open_fields. destruct (so_node_id r); apply (bool_decide_unpack _); by vm_compute. }
    rewrite (list_to_map_proper pairs (open_fields r)); [|by rewrite Hp|done].
    destruct r as [sid device [id|]]; reflexivity.
  - intros rq c. case_bool_decide; [destruct (_ <=? _)|]; intros [= <-]; unfold rejection; lia.
  - intros _. unfold rejection. lia.
  - intros q c. unfold sample_query. destruct (_ !! _); [destruct (_ !! _)|]; intros [= <-]; unfold rejection; lia.
  - intros rq c. case_bool_decide; intros [= <-]. unfold rejection. lia.
Qed.

(** ** The url crate *)

(** An https URL without a port; other schemes as in [Invites.v]. *)
Definition sample_https (rest : string) : option url :=
  let '(host, tail) := match cut "/" rest with Some (h, t) => (h, "/" +:+ t) | None => (rest, "/") end in
  if is_empty host || negb (string_all authority_char host) then None
  else
    let '(path, query) := match cut "?" tail with Some (p, q) => (p, Some q) | None => (tail, None) end in
    Some (Url "https" (Some host) None (Some 443) path query).
Definition sample_parse (s : string) : option url :=
  match strip_prefix "https://" s with
  | Some rest => sample_https rest
  | None => @url_parse toy_urls s
  end.
Definition sample_urls : Urls := {|
  url_parse := sample_parse;
  url_as_str u := url_scheme u +:+ "://" +:+ default EmptyString (url_host u) +:+ target (url_path u) (url_query u)
|}.
Lemma authority_no_slash a : plain_authority a -> char_in "/" a = false.
Proof. intros [_ Ha]. by eapply string_all_char_in. Qed.
Lemma sample_parse_origin a : plain_authority a -> sample_parse (origin a) = Some (Url "https" (Some a) None (Some 443) "/" None).
Proof.
  intros Ha. unfold sample_parse, origin. rewrite strip_prefix_app. unfold sample_https, cut.
  rewrite split_once_char_none by (by apply authority_no_slash). destruct Ha as [Hne Hall].
  unfold is_empty. by rewrite bool_decide_eq_false_2, Hall.
Qed.
#[global] Instance sample_urls_ok : @UrlPathsOk sample_urls.
Proof.
  constructor; cbn [url_parse sample_urls].
  - intros a u Ha. rewrite (sample_parse_origin a Ha). intros [= <-]. split_and!; [done| |done].
    intros h [= <-]. destruct Ha as [Hne Hall]. split; [done|]. eapply string_all_impl; [|exact Hall].
    intros c. assert (negb (authority_char c) || is_ascii_graphic c = true) as Hc by (revert c; apply ascii_forallb; by vm_compute).
    by destruct (authority_char c).
  - intros a u p q Ha Hu Hp Hq. rewrite (sample_parse_origin a Ha) in Hu. injection Hu as <-.
    assert (exists t, p = String "/" t) as [t ->].
    { unfold plain_path in Hp. apply andb_true_iff in Hp as [[Hp _]%andb_true_iff _].
      unfold starts_with in Hp. destruct (strip_prefix "/" p) as [t|] eqn:E; [|done]. apply strip_prefix_some in E as ->. by exists t. }
    assert (char_in "?" (String "/" t) = false) as Hno by (eapply string_all_char_in; [by apply plain_path_chars|done]).
    unfold sample_parse, origin. rewrite <- string_app_assoc, strip_prefix_app. unfold sample_https.
    assert (exists tail, target (String "/" t) q = String "/" tail) as [tail Htail] by (destruct q; by eexists).
    rewrite Htail. unfold cut. rewrite split_once_char by (by apply authority_no_slash).
    destruct Ha as [Hne Hall]. unfold is_empty. rewrite bool_decide_eq_false_2, Hall by done. cbn [negb orb].
    change ("/" +:+ tail) with (String "/" tail). rewrite <- Htail. destruct q as [q|]; cbn [target].
    + change ("?" +:+ q) with (String "?" q). by rewrite split_once_char.
    + by rewrite split_once_char_none.
Qed.
