(* ===== verification/EndToEnd.v ===== *)
(** * From a node's registration to a client's session

    The whole path over the control plane's HTTP API: the agent of [NodeLinks.v] registers
    its configuration, the client of [ClientApi.v] opens a session, both through the pinned
    requests of [PinnedHttp.v] and the server of [Server.v]; the session then reaches the
    service the node published ([NodeLinks.v]).  And a node's certificate request. *)

From S2P Require Import Prelude RustStd NetAddr Protocol PinnedHttp Http Crypto Samples Net Rendezvous UdpPacket UdpSession UdpListener Relay RelayServer Registry ControlPlane MediumSession HomeNode NodeLinks Invites ClientApi Server HttpSamples.

Section Node.
Context `{HyperOk} `{AxumOk} `{TokenEnv} `{UrlPathsOk} `{Sha256}.
Context `{Json (list device_record)} `{Json bootstrap_invite_response} `{JsonOk register_node_request}
  `{JsonOk service_certificate_request} `{JsonOk service_certificate_response} `{Json session_open_grant}
  `{Json ssh_certificate_request} `{Json ssh_certificate_response}.
Context (authority_from_str : string -> option string)
  (signed_by : string -> string -> string -> list string -> result generated_cert)
  (ssh_keygen : list string -> files -> result bool * files).
Context (server_name_ok reached : string -> bool) (tls : option tls_server) (authority pin : string).
Context (Hreach : reachable server_name_ok reached tls authority pin).
Context (su : surroundings).
Local Definition network := server_exchange authority_from_str signed_by ssh_keygen su reached tls.

(** A registration that arrives. *)
Lemma registration_served plain_post registration body sv r sv' :
  to_vec registration = Ok body -> (length body <= BODY_LIMIT)%nat ->
  register_node server_name_ok url_parse network plain_post (origin authority) (Some pin) registration sv = (r, sv') ->
  let '(stored, db) := Registry.register_node registration (cs_registry (sv_control sv)) in
  r = (if is_ok stored then Ok tt else Err (refused 500)) /\
  sv' = set_control (set_registry db (sv_control sv)) sv.
Proof.
  intros Hbody Hlen. unfold register_node, post_json_no_content_in, lift.
  rewrite trim_origin by apply Hreach.
  unfold mbind at 1, eff_bind at 1. rewrite Hbody.
  assert ("/api/nodes/register" = target "/api/nodes/register" None) as -> by done.
  destruct (request_served authority_from_str signed_by ssh_keygen server_name_ok reached tls authority pin Hreach su
    Post "/api/nodes/register" None body RegisterNode sv) as [host Hs]; [route|done|done|done|done|].
  unfold mbind, eff_bind. unfold network, Server.exchange in *. rewrite Hs. cbn [Server.routed_to handle].
  rewrite (json_extracted registration) by done.
  destruct (register_status registration (sv_control sv)) as (c & Hc & Hv).
  unfold register_node_route in *. destruct (Registry.register_node registration (cs_registry (sv_control sv))) as [stored db].
  cbn [fst] in *. rewrite Hc. unfold client_reads. cbn [hp_status empty_response]. subst c.
  destruct (is_ok stored); cbn; by intros [= <- <-].
Qed.

(** A node's certificate request that arrives. *)
Lemma certificate_served env cfg secret service_id hostname body sv :
  let request := ServiceCertificateRequest (nc_node_id cfg) [hostname] secret in
  first_of (nc_control_url cfg) (env "OVERLAY_CONTROL_URL") = Some (origin authority) ->
  first_of (nc_control_pin cfg) (env "MEDIUM_CONTROL_PIN") = Some pin ->
  to_vec request = Ok body -> (length body <= BODY_LIMIT)%nat ->
  request_service_tls_identity env url_parse server_name_ok (fun a n v b => (network a n v b sv).1)
    cfg secret service_id hostname
  = (response ← answer (issue_service_certificate signed_by request (sv_control sv));
     Ok (ServiceTlsIdentity (scr_cert_pem response) (scr_key_pem response))).
Proof.
  intros request Hurl Hpin Hbody Hlen. unfold request_service_tls_identity. rewrite Hurl, Hpin. unfold ok_or.
  rewrite !bind_Ok. rewrite trim_origin by apply Hreach. unfold post_json. fold request.
  rewrite Hbody, bind_Ok.
  destruct (pure_served authority_from_str signed_by ssh_keygen server_name_ok reached tls authority pin Hreach su
    Post "/api/nodes/service-certificate" None body ServiceCertificate sv) as [host Hs]; [route|done|done|done|done|].
  unfold Server.answers, Server.exchange in Hs. fold network in Hs. cbn [target] in Hs. rewrite Hs. cbn [Server.routed_to handle].
  rewrite (json_extracted request) by done. cbn [fst]. rewrite answer_read; [done|].
  intros c Hc%service_certificate_status. set_unfold. naive_solver.
Qed.
End Node.

(** ** Properties *)

(** C1. A service that a node publishes can be reached by the clients of its control plane.  The
    node registers its configuration over HTTP, and a client asks the same control plane,
    also over HTTP, for a session with one of the enabled services: with the grant it reads,
    every connection it gets to a candidate leads, for fifteen minutes, to that service of
    the node's configuration, which is given exactly the bytes the client writes after its
    hellos. *)
Theorem node_services_are_reachable_over_the_control_plane
    `{HyperOk} `{AxumOk} `{TokenOk} `{UrlPathsOk} `{Sha256} `{JsonOk session_hello} `{JsonOk relay_hello}
    `{JsonOk (list device_record)} `{Json bootstrap_invite_response} `{JsonOk register_node_request}
    `{Json service_certificate_request} `{Json service_certificate_response} `{JsonOk session_open_grant}
    `{JsonOk ssh_certificate_request} `{JsonOk ssh_certificate_response}
    (authority_from_str : string -> option string)
    (signed_by : string -> string -> string -> list string -> result generated_cert)
    (ssh_keygen : list string -> files -> result bool * files)
    (server_name_ok reached : string -> bool) (tls : option tls_server) (authority pin : string)
    (Hreach : reachable server_name_ok reached tls authority pin)
    (env : string -> option string) (server_config_ok : service_tls_identity -> result unit)
    (to_socket_addrs : string -> result (list socket_addr)) (getifaddrs : result (list ifaddrs))
    (plain_post : string -> register_node_request -> eff server unit)
    (plain_get_query : string -> session_open_request -> result (list byte))
    (cfg : node_config) (c : service_config) (client : app_state)
    (su1 su2 : surroundings) (sv sv1 : server) (services : gmap string proxy_service)
    (g : session_open_grant) (candidate : peer_candidate) (d d' : dialer) (stream : session_stream)
    (session_pin : option string) (now : Z) (data body payload : list byte)
    (Hregistration : to_vec (build_registration getifaddrs cfg) = Ok body /\ (length body <= BODY_LIMIT)%nat)
    (Hregistered : register_node server_name_ok url_parse
       (server_exchange authority_from_str signed_by ssh_keygen su1 reached tls) plain_post (origin authority) (Some pin)
       (build_registration getifaddrs cfg) sv = (Ok tt, sv1))
    (Hpublished : c ∈ nc_services cfg /\ sc_enabled c = true)
    (Hservices : proxy_services_from_config env signed_by url_parse server_name_ok
       (fun a n v b => (server_exchange authority_from_str signed_by ssh_keygen su1 reached tls a n v b sv1).1)
       server_config_ok cfg (cs_shared_secret (sv_control sv)) = Ok services)
    (Hclient : as_server_url client = origin authority /\ as_security client = "pinned-tls" /\ as_control_pin client = pin)
    (Hutf8 : Forall (fun f => is_Some (utf8_chars f.2))
       (open_fields (SessionOpenRequest (sc_id c) (as_device_name client) (Some (nc_node_id cfg)))))
    (Hquery : str_len (open_session_query client (Some (nc_node_id cfg)) (sc_id c)) <= 59000)
    (Hgrant : open_session_for_node server_name_ok
       (fun a n v b => (server_exchange authority_from_str signed_by ssh_keygen su2 reached tls a n v b sv1).1)
       plain_get_query client (Some (nc_node_id cfg)) (sc_id c) = Ok g)
    (Hconnected : connect_session_candidate to_socket_addrs url_parse g session_pin candidate d = (Ok stream, d'))
    (Hnow : now <= su_now su2 + minutes 15)
    (Hshort1 : forall p, to_vec (hello_of g) = Ok p -> (length p <= hello_limit)%nat)
    (Hshort2 : forall p, to_vec (RelayClient (sg_node_id g)) = Ok p -> (length p <= hello_limit)%nat)
    (Hpayload : to_vec (RelayNode (nc_node_id cfg) (cs_shared_secret (sv_control sv))) = Ok payload)
    (Hshort3 : (length payload <= hello_limit)%nat) :
  exists service,
    service_of_config env signed_by url_parse server_name_ok
      (fun a n v b => (server_exchange authority_from_str signed_by ssh_keygen su1 reached tls a n v b sv1).1)
      server_config_ok cfg (cs_shared_secret (sv_control sv)) c service /\
    session_reaches services cfg (cs_shared_secret (sv_control sv)) now candidate stream data service.
Proof.
  destruct Hregistration as [Hbody Hlen].
  pose proof (registration_served authority_from_str signed_by ssh_keygen server_name_ok reached tls authority pin
    Hreach su1 plain_post _ body sv _ _ Hbody Hlen Hregistered) as Hstored.
  destruct (Registry.register_node (build_registration getifaddrs cfg) (cs_registry (sv_control sv))) as [stored db] eqn:Hreg.
  destruct Hstored as [Hok ->]. assert (stored = Ok tt) as -> by (by destruct stored as [[]|]).
  assert (ControlPlane.open_session (su_now su2) (su_uuids su2)
    (SessionOpenRequest (sc_id c) (as_device_name client) (Some (nc_node_id cfg))) (set_registry db (sv_control sv)) = Reply g) as Hopen.
  { pose proof (open_session_served authority_from_str signed_by ssh_keygen server_name_ok reached tls authority pin
      Hreach su2 client Hclient plain_get_query (Some (nc_node_id cfg)) (sc_id c)
      (set_control (set_registry db (sv_control sv)) sv) Hutf8 Hquery) as Hserved.
    unfold Server.answers, Server.exchange in Hserved. rewrite Hserved in Hgrant. cbn [sv_control set_control] in Hgrant.
    revert Hgrant. destruct (ControlPlane.open_session _ _ _ _) as [g'|st]; cbn [answer]; [|done].
    destruct (to_vec g'); [|done]. by intros [= ->]. }
  unfold ControlPlane.open_session, or_status in Hopen.
  destruct (issue_session_grant _ _ _ _) as [g'|e] eqn:Hissue; [|done]. injection Hopen as ->.
  change (cs_shared_secret (sv_control sv)) with (cs_shared_secret (set_registry db (sv_control sv))) in *.
  eapply (published_services_are_reachable env signed_by url_parse server_name_ok _ server_config_ok to_socket_addrs
    getifaddrs (su_now su2) now (su_uuids su2) cfg c (cs_registry (sv_control sv)) (set_registry db (sv_control sv))
    (as_device_name client) g session_pin candidate d d' stream services data payload); first [assumption|done].
Qed.

(** C22. A pinned client's calls reach the handlers of the control plane.  When the control plane
    serves TLS with the certificate of the client's pin, the device catalogue is the
    registry's, the service CA is the configured one, a session grant is what the control
    plane grants for exactly that request, and an SSH certificate what it issues; what it
    refuses, the client reports with the status. *)
Theorem pinned_clients_are_answered `{HyperOk} `{AxumOk} `{TokenEnv} `{UrlPathsOk} `{Sha256}
    `{JsonOk (list device_record)} `{Json bootstrap_invite_response} `{Json register_node_request}
    `{Json service_certificate_request} `{Json service_certificate_response} `{JsonOk session_open_grant}
    `{JsonOk ssh_certificate_request} `{JsonOk ssh_certificate_response}
    (authority_from_str : string -> option string)
    (signed_by : string -> string -> string -> list string -> result generated_cert)
    (ssh_keygen : list string -> files -> result bool * files)
    (server_name_ok reached : string -> bool) (tls : option tls_server) (authority pin : string)
    (su : surroundings) (sv : server) (s : app_state)
    (plain_get : string -> result (list byte)) (plain_get_query : string -> session_open_request -> result (list byte))
    (plain_post : string -> list byte -> result (list byte))
    (Hreach : reachable server_name_ok reached tls authority pin)
    (Hs : as_server_url s = origin authority /\ as_security s = "pinned-tls" /\ as_control_pin s = pin) :
  let network addr name v bytes :=
    (server_exchange authority_from_str signed_by ssh_keygen su reached tls addr name v bytes sv).1 in
  let control := sv_control sv in
  fetch_devices server_name_ok network plain_get s = answer (list_devices_route control) /\
  (forall ca, cs_service_ca_cert_pem control = Some ca -> is_Some (utf8_chars ca) ->
     contains "BEGIN CERTIFICATE" ca = true -> fetch_medium_ca server_name_ok network plain_get s = Ok ca) /\
  (forall node_id service_id, let request := SessionOpenRequest service_id (as_device_name s) node_id in
     Forall (fun f => is_Some (utf8_chars f.2)) (open_fields request) ->
     str_len (open_session_query s node_id service_id) <= 59000 ->
     open_session_for_node server_name_ok network plain_get_query s node_id service_id
     = answer (ControlPlane.open_session (su_now su) (su_uuids su) request control)) /\
  (forall node_id service_id public_key body,
     let request := SshCertificateRequest service_id (Some node_id) (as_device_name s) public_key (as_client_secret s) in
     trim (as_client_secret s) <> EmptyString -> to_vec request = Ok body -> (length body <= BODY_LIMIT)%nat ->
     client_issue_ssh_certificate server_name_ok network plain_post s node_id service_id public_key
     = answer (issue_ssh_certificate ssh_keygen (su_temp_dir su) (su_file_uuid su) (su_key_uuid su) request
                 control (sv_files sv)).1).
Proof.
  intros network control. split_and!.
  - by eapply fetch_devices_served.
  - intros ca Hca [cs Hutf] Hpem. etransitivity; [by eapply fetch_medium_ca_served|]. fold control. rewrite Hca.
    unfold from_utf8. rewrite string_of_bytes_of, Hutf. cbn [ok_or]. by rewrite bind_Ok, Hpem.
  - intros. by eapply open_session_served.
  - intros. by eapply ssh_certificate_served.
Qed.

(** C25. The control plane asks for no secret where it matters.  Anyone who can send it a request is
    given the client secret, the one that SSH certificates ask for, in an invite; and anyone can
    register a node's identifier anew: from then on every session granted for a service of that
    node, with a valid token, sends its client to the address that was registered last. *)
Theorem anyone_gets_the_client_secret_and_takes_over_a_node
    `{Hyper} `{AxumOk} `{TokenOk}
    `{Json (list device_record)} `{JsonOk bootstrap_invite_response} `{JsonOk register_node_request}
    `{Json service_certificate_request} `{Json service_certificate_response} `{Json session_open_grant}
    `{Json ssh_certificate_request} `{Json ssh_certificate_response}
    (authority_from_str : string -> option string)
    (signed_by : string -> string -> string -> list string -> result generated_cert)
    (ssh_keygen : list string -> files -> result bool * files)
    (su : surroundings) (sv : server) (fields : list (string * string))
    (registration : register_node_request) (body : list byte) (s : published_service) (e : node_endpoint)
    (Htype : header "content-type" fields = Some "application/json")
    (Hbody : to_vec registration = Ok body /\ (length body <= BODY_LIMIT)%nat)
    (Hone : rn_services registration = [s] /\ rn_endpoints registration = [e])
    (Husable : ne_kind e = TcpProxy /\ ne_schema_version e = 1) :
  let control := dispatch authority_from_str signed_by ssh_keygen su in
  (exists invite prefix,
     control (HttpRequest "GET" "/api/bootstrap-code" None [] []) sv = (json_response (Reply invite), sv) /\
     bi_invite invite = prefix +:+ "&client_secret=" +:+ cs_client_secret (sv_control sv)) /\
  let '(r, sv1) := control (HttpRequest "POST" "/api/nodes/register" None fields body) sv in
  hp_status r = 204 /\
  forall now uuids device g,
    issue_session_grant now uuids (SessionOpenRequest (ps_id s) device (Some (rn_node_id registration))) (sv_control sv1) = Ok g ->
    is_ok (verify_session_token now (cs_shared_secret (sv_control sv)) (sa_token (sg_authorization g))) = true /\
    head (sa_candidates (sg_authorization g)) = Some (PeerCandidate DirectTcp (ne_addr e) 100).
Proof.
  intros control. destruct Hbody as [Hbody Hlen], Hone as [Hs He]. split.
  - unfold control, dispatch. cbn [hq_method hq_path].
    rewrite (route_found build_router Get "/api/bootstrap-code" BootstrapCode routes_distinct) by route.
    cbn [handle]. eexists _, _. split; [reflexivity|]. unfold create_bootstrap_code, issue_bootstrap_invite. cbn [bi_invite].
    rewrite !string_app_assoc. reflexivity.
  - unfold control, dispatch. cbn [hq_method hq_path].
    rewrite (route_found build_router Post "/api/nodes/register" RegisterNode routes_distinct) by route.
    cbn [handle]. unfold with_json. rewrite json_accepted by done. cbn [hq_body]. rewrite (json_roundtrip _ _ Hbody).
    unfold register_node_route.
    destruct (register_node_spec registration (cs_registry (sv_control sv))) as [[Hnd Heq]|[Hnd _]];
      [|exfalso; apply Hnd; rewrite Hs; apply NoDup_singleton].
    rewrite Heq. cbn. split; [done|]. intros now uuids device g Hg.
    pose proof (route_uses_the_best_endpoint registration (cs_registry (sv_control sv)) _ s Heq
      ltac:(rewrite Hs; left)) as Hroute. cbv zeta in Hroute.
    destruct (grant_token _ _ _ _ _ Hg) as [sid Htoken]. split.
    { cbn [cs_shared_secret set_registry] in Htoken. rewrite (verify_issued _ _ _ _ _ _ _ Htoken).
      by rewrite (proj2 (Z.leb_le _ _)) by (unfold minutes, secs; lia). }
    unfold issue_session_grant in Hg. destruct uuids as [[u1 u2] u3]. cbn [so_node_id so_service_id] in Hg.
    apply bind_ok in Hg as (r & Hr & Hg). apply bind_ok in Hg as (token & _ & Hg). apply bind_ok in Hg as (ice & _ & [= <-]).
    cbn [cs_registry set_registry] in Hr. rewrite Hr in Hroute.
    destruct Hroute as (_ & _ & i & e' & Hi & _ & Haddr & _). rewrite He in Hi.
    destruct i as [|i]; [|by destruct i]. injection Hi as <-. cbn. by rewrite Haddr.
Qed.

(** C24. A node that knows the shared secret gets the certificates of its services from the control
    plane: the one it reads was signed by the configured service CA for exactly the host name
    it asked for.  With any other secret it is refused. *)
Theorem nodes_get_their_certificates
    `{HyperOk} `{AxumOk} `{TokenEnv} `{UrlPathsOk} `{Sha256}
    `{Json (list device_record)} `{Json bootstrap_invite_response} `{JsonOk register_node_request}
    `{JsonOk service_certificate_request} `{JsonOk service_certificate_response} `{Json session_open_grant}
    `{Json ssh_certificate_request} `{Json ssh_certificate_response}
    (authority_from_str : string -> option string)
    (signed_by : string -> string -> string -> list string -> result generated_cert)
    (ssh_keygen : list string -> files -> result bool * files)
    (server_name_ok reached : string -> bool) (tls : option tls_server) (authority pin : string)
    (Hreach : reachable server_name_ok reached tls authority pin)
    (env : string -> option string) (su : surroundings) (sv : server)
    (cfg : node_config) (secret service_id hostname : string) (body : list byte) (r : result service_tls_identity)
    (Hurl : first_of (nc_control_url cfg) (env "OVERLAY_CONTROL_URL") = Some (origin authority))
    (Hpin : first_of (nc_control_pin cfg) (env "MEDIUM_CONTROL_PIN") = Some pin)
    (Hbody : to_vec (ServiceCertificateRequest (nc_node_id cfg) [hostname] secret) = Ok body)
    (Hlen : (length body <= BODY_LIMIT)%nat)
    (Hrequest : request_service_tls_identity env url_parse server_name_ok
       (fun a n v b => (server_exchange authority_from_str signed_by ssh_keygen su reached tls a n v b sv).1)
       cfg secret service_id hostname = r) :
  (secret <> cs_shared_secret (sv_control sv) -> r = Err (refused 403)) /\
  forall identity, r = Ok identity ->
    secret = cs_shared_secret (sv_control sv) /\
    exists ca key cert, cs_service_ca_cert_pem (sv_control sv) = Some ca /\ cs_service_ca_key_pem (sv_control sv) = Some key /\
      signed_by ca key hostname [hostname] = Ok cert /\ identity = ServiceTlsIdentity (gc_pem cert) (gc_key_pem cert).
Proof.
  pose proof (certificate_served authority_from_str signed_by ssh_keygen server_name_ok reached tls authority pin Hreach
    su env cfg secret service_id hostname body sv Hurl Hpin Hbody Hlen) as Hserved.
  unfold network in Hserved. rewrite Hserved in Hrequest. subst r. clear Hserved.
  unfold issue_service_certificate. cbn [sc_shared_secret sc_hostnames].
  case_bool_decide as Heq; cbn [negb answer]; [|by split].
  split; [by intros []|]. intros identity. unfold some_or_status.
  destruct (cs_service_ca_cert_pem (sv_control sv)) as [ca|]; [|done].
  destruct (cs_service_ca_key_pem (sv_control sv)) as [key|]; [|done].
  unfold issue_service_tls_identity. change (default _ (head [hostname])) with hostname. unfold mbind, result_bind.
  destruct (signed_by ca key hostname [hostname]) as [cert|e] eqn:Hsign; [|done].
  cbn [or_status answer st_cert_pem st_key_pem].
  destruct (to_vec (ServiceCertificateResponse _ _)); [|done]. intros [= <-]. eauto 10.
Qed.

(** ** Witnesses *)

Definition control_cert : list byte := [x63].
Definition control_pin : string := @sha256_pin toy_sha256 control_cert.
Definition control_tls : option tls_server := Some (TlsServer [control_cert] []).
Definition control_reached (addr : string) : bool := addr =?s "control.example:443".
Lemma control_reachable : @reachable sample_urls toy_sha256 (fun _ => true) control_reached control_tls "control.example" control_pin.
Proof.
  constructor.
  - split; [done|by vm_compute].
  - eexists _, _, _. split; [vm_compute; reflexivity|]. split_and!; try reflexivity; apply (bool_decide_unpack _); by vm_compute.
  - eexists _, _. split_and!; [reflexivity..|]. vm_compute. reflexivity.
Qed.
Definition empty_control : server :=
  Server (set_registry empty_database published_state) ∅ acceptor_init.
Definition control_now : surroundings := Surroundings 100 ("1", "2", "3") "t" "p" "/tmp" "f" "k".
Definition registering_json : Json register_node_request := single_json (build_registration (Ok []) toy_config).
Definition granting_json : Json session_open_grant := single_json published_grant.
Definition no_authority (_ : string) : option string := None.
Definition no_keygen (_ : list string) (fs : files) : result bool * files := (Err (EExt "ssh-keygen"), fs).
Definition control_network (sv : server) (addr name : string) (v : pinned_cert_verifier) (bytes : list byte)
    : result (list byte) * server :=
  @server_exchange sample_hyper sample_axum flat_token_env no_json no_json registering_json no_json no_json granting_json
    no_json no_json no_authority published_signer no_keygen toy_sha256 control_now control_reached control_tls
    addr name v bytes sv.
Definition no_post (_ : string) (_ : register_node_request) : eff server unit := throw (EExt "network").
Definition joined_device : app_state := AppState "https://control.example" "device" "" 1 "pinned-tls" control_pin "".
Definition registered_control : result unit * server :=
  @register_node registering_json (fun _ => true) sample_parse server
    (fun a n v b sv => control_network sv a n v b) no_post "https://control.example" (Some control_pin)
    (build_registration (Ok []) toy_config) empty_control.
Lemma node_services_are_reachable_over_the_control_plane_witness :
  @open_session_for_node sample_urls granting_json (fun _ => true)
    (fun a n v b => (control_network registered_control.2 a n v b).1) (fun _ _ => Err (EExt "network"))
    joined_device (Some "node-1") "svc_ssh" = Ok published_grant /\
  exists service,
    @session_reaches flat_token_env flat_hello flat_relay published_services toy_config "s" 200 linked_candidate
      published_stream toy_payload service.
Proof.
  assert (@open_session_for_node sample_urls granting_json (fun _ => true)
    (fun a n v b => (control_network registered_control.2 a n v b).1) (fun _ _ => Err (EExt "network"))
    joined_device (Some "node-1") "svc_ssh" = Ok published_grant) as Hgrant by (vm_compute; reflexivity).
  split; [exact Hgrant|].
  destruct (@node_services_are_reachable_over_the_control_plane sample_hyper sample_hyper_ok sample_axum sample_axum_ok
    flat_token_env flat_token_ok sample_urls sample_urls_ok toy_sha256 flat_hello flat_hello_ok flat_relay flat_relay_ok
    no_json no_json_ok no_json registering_json (single_json_ok _) no_json no_json granting_json (single_json_ok _)
    no_json no_json_ok no_json no_json_ok no_authority published_signer no_keygen (fun _ => true) control_reached
    control_tls "control.example" control_pin control_reachable (fun _ => None) (fun _ => Ok tt) linked_resolve (Ok [])
    no_post (fun _ _ => Err (EExt "network")) toy_config toy_ssh_config joined_device control_now control_now
    empty_control registered_control.2 published_services published_grant linked_candidate toy_dialer toy_dialed
    published_stream None 200 toy_payload [x5b] linked_hello) as (service & _ & Hreaches).
  - split; [vm_compute; reflexivity|]. pose proof body_limit_Z. cbn [length]. lia.
  - assert (registered_control = (Ok tt, registered_control.2)) as Hreg by (vm_compute; reflexivity). exact Hreg.
  - split; [left|done].
  - vm_compute. reflexivity.
  - repeat split.
  - repeat constructor; by eexists.
  - apply (bool_decide_unpack _). by vm_compute.
  - exact Hgrant.
  - vm_compute. reflexivity.
  - apply (bool_decide_unpack _). vm_compute. exact I.
  - intros p Hp. vm_compute in Hp. injection Hp as <-. apply (bool_decide_unpack _). vm_compute. exact I.
  - intros p Hp. vm_compute in Hp. injection Hp as <-. apply (bool_decide_unpack _). vm_compute. exact I.
  - vm_compute. reflexivity.
  - apply (bool_decide_unpack _). vm_compute. exact I.
  - exists service. exact Hreaches.
Defined.
Definition answered_su : surroundings := control_now.
Lemma pinned_clients_are_answered_witness :
  (@open_session_for_node sample_urls granting_json (fun _ => true)
    (fun a n v b => (control_network registered_control.2 a n v b).1) (fun _ _ => Err (EExt "network"))
    joined_device (Some "node-1") "svc_ssh"
  = @answer _ sample_hyper granting_json
      (@ControlPlane.open_session flat_token_env 100 ("1", "2", "3") published_open (sv_control registered_control.2))) /\
  @answer _ sample_hyper granting_json
      (@ControlPlane.open_session flat_token_env 100 ("1", "2", "3") published_open (sv_control registered_control.2))
  = Ok published_grant.
Proof.
  split; [|vm_compute; reflexivity].
  destruct (@pinned_clients_are_answered sample_hyper sample_hyper_ok sample_axum sample_axum_ok
    flat_token_env sample_urls sample_urls_ok toy_sha256
    no_json no_json_ok no_json registering_json no_json no_json granting_json (single_json_ok _)
    no_json no_json_ok no_json no_json_ok no_authority published_signer no_keygen (fun _ => true) control_reached
    control_tls "control.example" control_pin control_now registered_control.2 joined_device
    (fun _ => Err (EExt "network")) (fun _ _ => Err (EExt "network")) (fun _ _ => Err (EExt "network"))
    control_reachable ltac:(repeat split)) as (_ & _ & Hopen & _).
  apply Hopen; [repeat constructor; by eexists|]. apply (bool_decide_unpack _). by vm_compute.
Defined.

Definition attacker : register_node_request :=
  RegisterNodeRequest "node-1" "mine" [NodeEndpoint TcpProxy 1 "198.51.100.66:1" 0] [publish toy_ssh_config].
Definition attacker_json : Json register_node_request := single_json attacker.
Definition stolen : http_response * server :=
  @dispatch sample_axum flat_token_env no_json no_json attacker_json no_json no_json no_json no_json no_json
    no_authority published_signer no_keygen control_now
    (HttpRequest "POST" "/api/nodes/register" None [("content-type", "application/json")] [x5b]) registered_control.2.
Definition stolen_grant : session_open_grant :=
  match @issue_session_grant flat_token_env 100 ("1", "2", "3") published_open (sv_control stolen.2) with
  | Ok g => g
  | Err _ => published_grant
  end.
Lemma anyone_gets_the_client_secret_and_takes_over_a_node_witness :
  head (sa_candidates (sg_authorization published_grant)) = Some (PeerCandidate DirectTcp "203.0.113.9:17001" 100) /\
  head (sa_candidates (sg_authorization stolen_grant)) = Some (PeerCandidate DirectTcp "198.51.100.66:1" 100).
Proof.
  split; [vm_compute; reflexivity|].
  destruct (@anyone_gets_the_client_secret_and_takes_over_a_node sample_hyper sample_axum sample_axum_ok flat_token_env
    flat_token_ok no_json no_json no_json_ok attacker_json (single_json_ok _) no_json no_json no_json no_json no_json
    no_authority published_signer no_keygen control_now registered_control.2 [("content-type", "application/json")]
    attacker [x5b] (publish toy_ssh_config) (NodeEndpoint TcpProxy 1 "198.51.100.66:1" 0)) as [_ Hsteal].
  - reflexivity.
  - split; [vm_compute; reflexivity|]. pose proof body_limit_Z. cbn [length]. lia.
  - by split.
  - by split.
  - lazymatch type of Hsteal with let '(_, _) := ?run in _ =>
      replace run with stolen in Hsteal by (unfold stolen; reflexivity) end.
    rewrite (surjective_pairing stolen) in Hsteal. destruct Hsteal as [_ Hall].
    refine (proj2 (Hall 100 ("1", "2", "3") "device" stolen_grant _)). vm_compute. reflexivity.
Defined.

Definition certified_config : node_config :=
  NodeConfig "node-1" None "127.0.0.1:17001" "0.0.0.0:17002" None None [] (Some "https://control.example") (Some control_pin)
    None None None None None None [].
Definition certifying_control : server :=
  Server (ControlState empty_database "s" "client" control_pin (Some "CA") (Some "CAKEY") None None None None) ∅ acceptor_init.
Definition certificate_json : Json service_certificate_request :=
  single_json (ServiceCertificateRequest "node-1" ["web.medium"] "s").
Definition certified_json : Json service_certificate_response :=
  single_json (ServiceCertificateResponse "web.medium" "web.medium").
Lemma nodes_get_their_certificates_witness :
  @request_service_tls_identity certificate_json certified_json (fun _ => None) sample_parse (fun _ => true)
    (fun a n v b => (@server_exchange sample_hyper sample_axum flat_token_env no_json no_json no_json certificate_json
       certified_json no_json no_json no_json no_authority published_signer no_keygen toy_sha256 control_now control_reached
       control_tls a n v b certifying_control).1) certified_config "s" "web" "web.medium"
  = Ok (ServiceTlsIdentity "web.medium" "web.medium") /\
  exists ca key cert, Some "CA" = Some ca /\ Some "CAKEY" = Some key /\
    published_signer ca key "web.medium" ["web.medium"] = Ok cert.
Proof.
  assert (@request_service_tls_identity certificate_json certified_json (fun _ => None) sample_parse (fun _ => true)
    (fun a n v b => (@server_exchange sample_hyper sample_axum flat_token_env no_json no_json no_json certificate_json
       certified_json no_json no_json no_json no_authority published_signer no_keygen toy_sha256 control_now control_reached
       control_tls a n v b certifying_control).1) certified_config "s" "web" "web.medium"
    = Ok (ServiceTlsIdentity "web.medium" "web.medium")) as Hr by (vm_compute; reflexivity).
  split; [exact Hr|].
  destruct (@nodes_get_their_certificates sample_hyper sample_hyper_ok sample_axum sample_axum_ok flat_token_env
    sample_urls sample_urls_ok toy_sha256 no_json no_json no_json no_json_ok certificate_json (single_json_ok _)
    certified_json (single_json_ok _) no_json no_json no_json no_authority published_signer no_keygen (fun _ => true)
    control_reached control_tls "control.example" control_pin control_reachable (fun _ => None) control_now
    certifying_control certified_config "s" "web" "web.medium" [x5b] _ eq_refl eq_refl ltac:(vm_compute; reflexivity)
    ltac:(pose proof body_limit_Z; cbn [length]; lia) Hr) as [_ Hok].
  destruct (Hok _ eq_refl) as (_ & ca & key & cert & Hca & Hkey & Hsigned & _). eauto 10.
Defined.
