(* ===== verification/Install.v ===== *)
(** * Initialising a control-plane host and a node

    [apps/medium-cli/src/install.rs]: the addresses and URLs derived from the environment,
    the configuration files and systemd units, the keys and secrets, and the commands that
    start the services.

    The disk is the one of [Disk.v]; a command that is run is a parameter, as are the time,
    the generation of certificates ([Crypto.v]), the address of the default route and, in
    [macos], the platform. *)

From S2P Require Import Prelude RustStd NetAddr Net Disk Protocol PinnedHttp Crypto ControlPlane HomeNode Invites ClientApi.

(** ** Hosts and ports *)

Definition split_host_port (value : string) : option (string * string) :=
  match strip_prefix "[" value with
  | Some rest => split_once "]:" rest
  | None => rsplit_once ":" value
  end.
Definition is_unsuitable_public_host (host : string) : bool :=
  bool_decide (host ∈ ["0.0.0.0"; "::"; "127.0.0.1"; "::1"; "localhost"]).
Definition is_unsuitable_ip (ip : ip_addr) : bool := ip_is_unspecified ip || ip_is_loopback ip.
Definition is_unsuitable_certificate_host (host : string) : bool := bool_decide (host ∈ ["0.0.0.0"; "::"]).
Definition push_cert_name (names : list string) (host : string) : list string :=
  if is_unsuitable_certificate_host host then names
  else
    let host := trim_matches bracket host in
    if existsb (fun existing => existing =?s host) names then names else names ++ [host].

(** ** The environment *)

Section Environment.
Context `{Urls}.
(** [url_with] as in [HomeNode.v]. *)
Context (url_with : url -> string -> string -> string).
Context (env : string -> option string).
(** The address [UdpSocket::connect] to a public address gives the socket. *)
Context (route_ip : result ip_addr).

Definition env_string (name : string) : option string := env_filled env name.
Definition or_string (a b : option string) : option string := match a with Some _ => a | None => b end.

Definition DEFAULT_CONTROL_BIND_ADDR : string := "0.0.0.0:7777".
Definition DEFAULT_RELAY_BIND_ADDR : string := "0.0.0.0:7001".
Definition install_root : string := default "/" (env "MEDIUM_ROOT").
Definition control_bind_addr : string := default DEFAULT_CONTROL_BIND_ADDR (env "MEDIUM_CONTROL_BIND_ADDR").
Definition relay_bind_addr : string := default DEFAULT_RELAY_BIND_ADDR (env "MEDIUM_RELAY_BIND_ADDR").

Definition no_public_host : string :=
  "could not derive a usable public host; set MEDIUM_CONTROL_PUBLIC_URL or MEDIUM_NODE_PUBLIC_ADDR explicitly".
Definition default_public_host : result string :=
  ip ← route_ip;
  _ ← bail_if (is_unsuitable_ip ip) (EMsg no_public_host);
  Ok (show_ip ip).
Definition needs_host_port (name : string) : error := EMsg (name +:+ " must include host:port").
Definition control_public_url (bind_addr : string) : result string :=
  match or_string (env_string "OVERLAY_CONTROL_URL") (env_string "MEDIUM_CONTROL_PUBLIC_URL") with
  | Some url =>
      match format_join_invite url "control-key-placeholder" with
      | Ok _ => Ok url
      | Err _ => Err (EMsg "invalid public control URL")
      end
  | None =>
      '(host, port) ← ok_or (needs_host_port "MEDIUM_CONTROL_BIND_ADDR") (split_host_port bind_addr);
      if is_unsuitable_public_host host
      then public ← default_public_host; Ok ("https://" +:+ public +:+ ":" +:+ port)
      else Ok ("https://" +:+ bind_addr)
  end.
Definition relay_public_addr (bind_addr : string) : result string :=
  match or_string (env_string "MEDIUM_RELAY_ADDR") (env_string "MEDIUM_RELAY_PUBLIC_ADDR") with
  | Some addr => Ok addr
  | None =>
      '(host, port) ← ok_or (needs_host_port "MEDIUM_RELAY_BIND_ADDR") (split_host_port bind_addr);
      if is_unsuitable_public_host host
      then public ← default_public_host; Ok (public +:+ ":" +:+ port)
      else Ok bind_addr
  end.
Definition embedded_wss_relay_url (control_url : string) : result string :=
  url ← ok_or (EMsg ("invalid public control URL: " +:+ control_url)) (url_parse control_url);
  _ ← bail_if (negb (url_scheme url =?s "https")) (EMsg "embedded WSS relay requires https control URL");
  Ok (url_with url "wss" "/medium/v1/relay").

Record node_addrs := NodeAddrs { na_listen_addr : string; na_public_addr : string }.
Definition node_addrs_of : result node_addrs :=
  match or_string (env_string "MEDIUM_HOME_NODE_BIND_ADDR") (env_string "OVERLAY_HOME_NODE_BIND_ADDR") with
  | Some legacy_addr => Ok (NodeAddrs legacy_addr legacy_addr)
  | None =>
      let listen_addr := default "0.0.0.0:17001" (env_string "MEDIUM_NODE_LISTEN_ADDR") in
      public_addr ←
        match env_string "MEDIUM_NODE_PUBLIC_ADDR" with
        | Some public_addr => Ok public_addr
        | None =>
            '(host, port) ← ok_or (needs_host_port "MEDIUM_NODE_LISTEN_ADDR") (split_host_port listen_addr);
            if is_unsuitable_public_host host
            then public ← default_public_host; Ok (public +:+ ":" +:+ port)
            else Ok listen_addr
        end;
      Ok (NodeAddrs listen_addr public_addr)
  end.
Definition DEFAULT_NODE_ID : string := "node-1".
Definition node_id : string := default DEFAULT_NODE_ID (env_string "MEDIUM_NODE_ID").

Definition control_tls_names (bind_addr control_url : string) : result (list string) :=
  url ← ok_or (EMsg ("invalid public control URL: " +:+ control_url)) (url_parse control_url);
  _ ← bail_if (negb (url_scheme url =?s "https"))
        (EMsg "public control URL must use https for pinned-tls bootstrap");
  let names := match url_host url with Some host => push_cert_name [] host | None => [] end in
  let names := match split_host_port bind_addr with Some (host, _) => push_cert_name names host | None => names end in
  _ ← bail_if (bool_decide (names = [])) (EMsg "control TLS certificate needs at least one subject name");
  Ok names.
End Environment.

(** [{prefix}-{now:x}], the time in nanoseconds. *)
Definition make_token (prefix : string) (now : Z) : string := prefix +:+ "-" +:+ hex now.

(** ** Where things are *)

Record install_layout := InstallLayout {
  il_config_dir : string;
  il_state_dir : string;
  il_systemd_unit_dir : string;
  il_control_config_path : string;
  il_control_cert_path : string;
  il_control_key_path : string;
  il_service_ca_cert_path : string;
  il_service_ca_key_path : string;
  il_ssh_ca_key_path : string;
  il_ssh_ca_public_key_path : string;
  il_node_config_path : string;
  il_node_services_path : string;
  il_node_ssh_ca_public_key_path : string;
  il_sshd_config_path : string;
  il_database_path : string;
  il_control_unit_path : string;
  il_node_unit_path : string;
  il_relay_unit_path : string
}.

Section Layout.
(** [cfg!(target_os = "macos")] and [std::env::var_os]. *)
Context (macos : bool) (env : string -> option string).

Definition install_dirs (root : string) : string * string * string :=
  if (root =?s "/") && macos then
    let home := default "." (or_string (env "OVERLAY_HOME") (env "HOME")) in
    let app_root := join_all home ["Library"; "Application Support"; "Medium"] in
    (path_join app_root "config", path_join app_root "state", path_join app_root "launchd")
  else (join_all root ["etc"; "medium"], join_all root ["var"; "lib"; "medium"], join_all root ["etc"; "systemd"; "system"]).
Definition node_config_dir (root : string) : string :=
  match or_string (env "MEDIUM_HOME") (env "OVERLAY_HOME") with
  | Some home => path_join home ".medium"
  | None =>
      if negb (root =?s "/") then join_all root ["home"; ".medium"]
      else path_join (default "." (env "HOME")) ".medium"
  end.
Definition layout_new (root : string) : install_layout :=
  let '(config_dir, state_dir, systemd_unit_dir) := install_dirs root in
  let node_config_dir := node_config_dir root in
  InstallLayout config_dir state_dir systemd_unit_dir
    (path_join config_dir "control.toml") (path_join config_dir "control.crt") (path_join config_dir "control.key")
    (path_join config_dir "service-ca.crt") (path_join config_dir "service-ca.key")
    (path_join config_dir "ssh-ca") (path_join config_dir "ssh-ca.pub")
    (path_join node_config_dir "node.toml") (path_join node_config_dir "services.toml")
    (path_join config_dir "ssh-ca.pub") (join_all root ["etc"; "ssh"; "sshd_config.d"; "99-medium.conf"])
    (path_join state_dir "control-plane.db") (path_join systemd_unit_dir "medium-control-plane.service")
    (path_join systemd_unit_dir "medium-node-agent.service") (path_join systemd_unit_dir "medium-relay.service").
Definition legacy_node_config_path (l : install_layout) : string := path_join (il_config_dir l) "node.toml".
Definition is_bootstrapped (l : install_layout) (d : disk) : bool :=
  path_exists (il_control_config_path l) d || path_exists (il_database_path l) d
  || path_exists (il_config_dir l) d || path_exists (il_state_dir l) d.
Definition is_node_bootstrapped (l : install_layout) (d : disk) : bool :=
  path_exists (il_node_config_path l) d || path_exists (legacy_node_config_path l) d
  || path_exists (il_node_unit_path l) d.

Definition binary_path (name root : string) : string :=
  if root =?s "/" then (if macos then "/usr/local/bin/" +:+ name else "/usr/bin/" +:+ name)
  else join_all root ["usr"; "bin"; name].
Definition control_plane_binary_path : string -> string := binary_path "control-plane".
Definition node_agent_binary_path : string -> string := binary_path "node-agent".
Definition relay_binary_path : string -> string := binary_path "relay".
Definition uses_systemd (root : string) : bool :=
  match env_string env "MEDIUM_SYSTEMCTL_BIN" with
  | Some _ => true
  | None => (root =?s "/") && negb macos
  end.
Definition writes_systemd_units (root : string) : bool := negb (root =?s "/") || negb macos.
Definition systemctl_bin : string := default "systemctl" (env_string env "MEDIUM_SYSTEMCTL_BIN").
Definition default_node_config_path (root : string) (d : disk) : string :=
  let layout := layout_new root in
  if is_file (il_node_config_path layout) d then il_node_config_path layout
  else if is_file (legacy_node_config_path layout) d then legacy_node_config_path layout
  else il_node_config_path layout.
End Layout.

(** ** The files *)

Definition quoted (value : string) : string := dquote +:+ value +:+ dquote.
(** A line [key = "value"] of a configuration. *)
Definition toml_line (key value : string) : string := key +:+ " = " +:+ quoted value +:+ String lf EmptyString.
Definition optional_line (key value : string) : string :=
  if is_empty (trim value) then EmptyString else toml_line key value.

Definition control_config (l : install_layout)
    (bind_addr control_url shared_secret client_secret control_pin relay_addr wss_relay_url : string) : string :=
  "# Generated by medium init-control" +:+ String lf EmptyString
  +:+ toml_line "bind_addr" bind_addr
  +:+ toml_line "database_url" ("sqlite://" +:+ il_database_path l)
  +:+ toml_line "control_url" control_url
  +:+ toml_line "tls_cert_path" (il_control_cert_path l)
  +:+ toml_line "tls_key_path" (il_control_key_path l)
  +:+ toml_line "service_ca_cert_path" (il_service_ca_cert_path l)
  +:+ toml_line "service_ca_key_path" (il_service_ca_key_path l)
  +:+ toml_line "ssh_ca_key_path" (il_ssh_ca_key_path l)
  +:+ toml_line "ssh_ca_public_key_path" (il_ssh_ca_public_key_path l)
  +:+ toml_line "shared_secret" shared_secret
  +:+ toml_line "client_secret" client_secret
  +:+ toml_line "control_pin" control_pin
  +:+ toml_line "relay_addr" relay_addr
  +:+ optional_line "wss_relay_url" wss_relay_url.

(** A PEM as a multi-line string. *)
Definition pem_lines (key : string) (pem : option string) : string :=
  match pem with
  | Some pem =>
      let quotes := dquote +:+ dquote +:+ dquote in
      key +:+ " = " +:+ quotes +:+ String lf EmptyString +:+ pem +:+ quotes +:+ String lf EmptyString
  | None => EmptyString
  end.
Definition home_node_config (node_id bind_addr public_addr control_url shared_secret control_pin relay_addr
    wss_relay_url : string) (service_ca_cert_pem service_ca_key_pem : option string) : string :=
  toml_line "node_id" node_id +:+ toml_line "node_label" node_id +:+ toml_line "bind_addr" bind_addr
  +:+ toml_line "public_addr" public_addr +:+ toml_line "control_url" control_url
  +:+ toml_line "shared_secret" shared_secret +:+ toml_line "control_pin" control_pin
  +:+ optional_line "relay_addr" relay_addr +:+ optional_line "wss_relay_url" wss_relay_url
  +:+ pem_lines "service_ca_cert_pem" service_ca_cert_pem +:+ pem_lines "service_ca_key_pem" service_ca_key_pem.
Definition DEFAULT_SSH_SERVICE_ID : string := "svc_ssh".
Definition DEFAULT_SSH_TARGET : string := "127.0.0.1:22".
Definition DEFAULT_SSH_USER : string := "overlay".
Definition default_services_config : string :=
  "[[services]]" +:+ String lf EmptyString +:+ toml_line "id" DEFAULT_SSH_SERVICE_ID +:+ toml_line "kind" "ssh"
  +:+ toml_line "target" DEFAULT_SSH_TARGET +:+ toml_line "user_name" DEFAULT_SSH_USER
  +:+ "enabled = true" +:+ String lf EmptyString.

(** [str::replace] with a non-empty pattern: every round cuts the text at an occurrence, so
    its length bounds the rounds. *)
Fixpoint replace_loop (fuel : nat) (from to s : string) : string :=
  match fuel with
  | O => s
  | S f => match split_once from s with
           | Some (before, after) => before +:+ to +:+ replace_loop f from to after
           | None => s
           end
  end.
Definition str_replace (from to s : string) : string := replace_loop (String.length s) from to s.
Definition render_unit (template : string) (replacements : list (string * string)) : string :=
  fold_left (fun rendered '(needle, replacement) => str_replace needle replacement rendered) replacements template.

(** The templates of [packaging/systemd]. *)
Definition text_lines (l : list string) : string := join (String lf EmptyString) l +:+ String lf EmptyString.
Definition CONTROL_PLANE_UNIT_TEMPLATE : string := text_lines
  ["[Unit]"; "Description=Medium Control Plane"; "After=network-online.target"; "Wants=network-online.target"; "";
   "[Service]"; "Type=simple"; "WorkingDirectory={{STATE_DIR}}";
   "Environment=OVERLAY_CONTROL_BIND_ADDR={{CONTROL_BIND_ADDR}}";
   "Environment=OVERLAY_CONTROL_DATABASE_URL={{DATABASE_URL}}";
   "Environment=OVERLAY_SHARED_SECRET={{SHARED_SECRET}}";
   "Environment=MEDIUM_CLIENT_SECRET={{CLIENT_SECRET}}";
   "Environment=MEDIUM_CONTROL_PIN={{CONTROL_PIN}}";
   "Environment=MEDIUM_CONTROL_TLS_CERT_PATH={{TLS_CERT_PATH}}";
   "Environment=MEDIUM_CONTROL_TLS_KEY_PATH={{TLS_KEY_PATH}}";
   "Environment=MEDIUM_SERVICE_CA_CERT_PATH={{SERVICE_CA_CERT_PATH}}";
   "Environment=MEDIUM_SERVICE_CA_KEY_PATH={{SERVICE_CA_KEY_PATH}}";
   "Environment=MEDIUM_SSH_CA_KEY_PATH={{SSH_CA_KEY_PATH}}";
   "Environment=MEDIUM_RELAY_ADDR={{RELAY_ADDR}}";
   "Environment=MEDIUM_ICE_RELAY_ADDR={{RELAY_ADDR}}";
   "{{WSS_RELAY_ENV}}"; "ExecStart={{CONTROL_PLANE_BIN}}"; "Restart=on-failure"; "RestartSec=5"; "";
   "[Install]"; "WantedBy=multi-user.target"].
Definition NODE_AGENT_UNIT_TEMPLATE : string := text_lines
  ["[Unit]"; "Description=Medium Node Agent"; "After=network-online.target"; "Wants=network-online.target"; "";
   "[Service]"; "Type=simple"; "Environment=OVERLAY_CONTROL_URL={{CONTROL_URL}}";
   "Environment=OVERLAY_SHARED_SECRET={{SHARED_SECRET}}"; "Environment=MEDIUM_CONTROL_PIN={{CONTROL_PIN}}";
   "Environment=MEDIUM_RELAY_ADDR={{RELAY_ADDR}}"; "{{WSS_RELAY_ENV}}";
   "ExecStart={{NODE_AGENT_BIN}} --config {{NODE_CONFIG_PATH}}"; "Restart=on-failure"; "RestartSec=5"; "";
   "[Install]"; "WantedBy=multi-user.target"].
Definition RELAY_UNIT_TEMPLATE : string := text_lines
  ["[Unit]"; "Description=Medium Relay"; "After=network-online.target"; "Wants=network-online.target"; "";
   "[Service]"; "Type=simple"; "Environment=MEDIUM_RELAY_BIND_ADDR={{RELAY_BIND_ADDR}}";
   "Environment=MEDIUM_RELAY_SHARED_SECRET={{SHARED_SECRET}}"; "{{RELAY_MODE_ENV}}";
   "ExecStart={{RELAY_BIN}}"; "Restart=on-failure"; "RestartSec=5"; ""; "[Install]"; "WantedBy=multi-user.target"].
Definition wss_relay_env (wss_relay_url : string) : string :=
  if is_empty (trim wss_relay_url) then EmptyString else "Environment=MEDIUM_WSS_RELAY_URL=" +:+ wss_relay_url.

Section Units.
Context (macos : bool).
Definition render_control_plane_unit (root : string) (l : install_layout)
    (bind_addr shared_secret client_secret control_pin relay_addr wss_relay_url : string) : string :=
  render_unit CONTROL_PLANE_UNIT_TEMPLATE
    [("{{CONTROL_PLANE_BIN}}", control_plane_binary_path macos root);
     ("{{CONTROL_BIND_ADDR}}", bind_addr);
     ("{{DATABASE_URL}}", "sqlite://" +:+ il_database_path l);
     ("{{SHARED_SECRET}}", shared_secret);
     ("{{CLIENT_SECRET}}", client_secret);
     ("{{CONTROL_PIN}}", control_pin);
     ("{{SERVICE_CA_CERT_PATH}}", il_service_ca_cert_path l);
     ("{{SERVICE_CA_KEY_PATH}}", il_service_ca_key_path l);
     ("{{SSH_CA_KEY_PATH}}", il_ssh_ca_key_path l);
     ("{{RELAY_ADDR}}", relay_addr);
     ("{{WSS_RELAY_ENV}}", wss_relay_env wss_relay_url);
     ("{{TLS_CERT_PATH}}", il_control_cert_path l);
     ("{{TLS_KEY_PATH}}", il_control_key_path l);
     ("{{STATE_DIR}}", il_state_dir l)].
Definition render_node_agent_unit (root : string) (l : install_layout)
    (control_url shared_secret control_pin relay_addr wss_relay_url : string) : string :=
  render_unit NODE_AGENT_UNIT_TEMPLATE
    [("{{NODE_AGENT_BIN}}", node_agent_binary_path macos root);
     ("{{NODE_CONFIG_PATH}}", il_node_config_path l);
     ("{{CONTROL_URL}}", control_url);
     ("{{SHARED_SECRET}}", shared_secret);
     ("{{CONTROL_PIN}}", control_pin);
     ("{{RELAY_ADDR}}", relay_addr);
     ("{{WSS_RELAY_ENV}}", wss_relay_env wss_relay_url)].
Definition render_relay_unit (root relay_bind_addr shared_secret : string) (wss_mode : bool) : string :=
  render_unit RELAY_UNIT_TEMPLATE
    [("{{RELAY_BIN}}", relay_binary_path macos root);
     ("{{RELAY_BIND_ADDR}}", relay_bind_addr);
     ("{{SHARED_SECRET}}", shared_secret);
     ("{{RELAY_MODE_ENV}}", if wss_mode then "Environment=MEDIUM_RELAY_MODE=wss" else EmptyString)].
End Units.

(** ** The installation *)

Record init_control_report := InitControlReport {
  ir_control_config_path : string;
  ir_database_path : string;
  ir_invite : string;
  ir_node_invite : string
}.
(** What [Command::output] gives. *)
Record command_output := CommandOutput {
  co_success : bool; co_status : string; co_stdout : string; co_stderr : string
}.

Definition write_text_file (p contents : string) : eff disk unit :=
  with_context ("write " +:+ p) (write_file p contents).
Definition write_private_file (p contents : string) : eff disk unit :=
  _ ← with_context ("write " +:+ p) (write_file p contents);
  with_context ("chmod 0600 " +:+ p) (set_mode p private_mode).
Definition make_dir (p : string) : eff disk unit := with_context ("create " +:+ p) (create_dir_all p).
Definition make_parent (p : string) : eff disk unit :=
  match path_parent p with Some parent => make_dir parent | None => mret tt end.
Definition touch_file (p : string) : eff disk unit :=
  d ← gets id; if path_exists p d then mret tt else write_text_file p EmptyString.
(** [Path::with_extension("pub")] of a name without an extension. *)
Definition public_key_of (key_path : string) : string := key_path +:+ ".pub".
Definition write_default_services_config (p : string) : eff disk unit :=
  d ← gets id; if path_exists p d then mret tt else write_text_file p default_services_config.
Definition write_node_ssh_ca_config (ca_public_key_path sshd_config_path ca_public_key : string) : eff disk unit :=
  _ ← make_parent ca_public_key_path;
  _ ← write_text_file ca_public_key_path ca_public_key;
  _ ← make_parent sshd_config_path;
  write_text_file sshd_config_path
    ("# Generated by medium init-node" +:+ String lf EmptyString +:+ "TrustedUserCAKeys " +:+ ca_public_key_path
     +:+ String lf EmptyString).

Section Init.
Context `{Urls} `{FormUrlencoded} `{Sha256}.
Context (macos : bool) (env : string -> option string).
(** [Command::new(name).args(args).output()]. *)
Context (command : string -> list string -> eff disk command_output).
(** rcgen: a self-signed certificate, and a CA. *)
Context (self_signed : string -> list string -> result generated_cert) (service_ca : result generated_cert).

Definition command_failed (name : string) (args : list string) (output : command_output) : error :=
  let stderr := trim (co_stderr output) in
  let stdout := trim (co_stdout output) in
  let nl := String lf EmptyString in
  EMsg ("command failed: " +:+ name +:+ " " +:+ join " " args +:+ " (status " +:+ co_status output +:+ ")"
        +:+ (if is_empty stderr then EmptyString else nl +:+ "stderr:" +:+ nl +:+ stderr)
        +:+ (if is_empty stdout then EmptyString else nl +:+ "stdout:" +:+ nl +:+ stdout)).
Definition run_command (name : string) (args : list string) : eff disk unit :=
  output ← with_context ("run " +:+ name +:+ " " +:+ join " " args) (command name args);
  if co_success output then mret tt else throw (command_failed name args output).
Fixpoint enable_services (systemctl : string) (services : list string) (restart : bool) : eff disk unit :=
  match services with
  | [] => mret tt
  | service :: rest =>
      _ ← with_context ("systemd enable/start failed for " +:+ service)
            (run_command systemctl ["enable"; "--now"; service]);
      _ ← (if restart
           then with_context ("systemd restart failed for " +:+ service) (run_command systemctl ["restart"; service])
           else mret tt);
      enable_services systemctl rest restart
  end.
Definition maybe_enable_systemd_services (root : string) (services : list string) (restart : bool) : eff disk unit :=
  if negb (uses_systemd macos env root) then mret tt
  else
    let systemctl := systemctl_bin env in
    _ ← with_context "systemd daemon-reload failed" (run_command systemctl ["daemon-reload"]);
    enable_services systemctl services restart.
Definition sshd_not_reloaded (ssh sshd : command_output) : error :=
  EMsg ("failed to reload SSH daemon after installing Medium SSH CA; tried ssh.service ("
        +:+ trim (co_stderr ssh) +:+ ") and sshd.service (" +:+ trim (co_stderr sshd) +:+ ")").
Definition maybe_reload_sshd (root : string) : eff disk unit :=
  if negb (uses_systemd macos env root) then mret tt
  else
    let systemctl := systemctl_bin env in
    ssh ← with_context "run systemctl reload ssh.service" (command systemctl ["reload"; "ssh.service"]);
    if co_success ssh then mret tt
    else
      sshd ← with_context "run systemctl reload sshd.service" (command systemctl ["reload"; "sshd.service"]);
      if co_success sshd then mret tt else throw (sshd_not_reloaded ssh sshd).
Fixpoint restart_services (systemctl : string) (services : list string) : eff disk unit :=
  match services with
  | [] => mret tt
  | service :: rest =>
      _ ← with_context ("systemd restart failed for " +:+ service) (run_command systemctl ["restart"; service]);
      restart_services systemctl rest
  end.
Definition RELAY_SERVICE : string := "medium-relay.service".
Definition CONTROL_SERVICE : string := "medium-control-plane.service".
Definition NODE_SERVICE : string := "medium-node-agent.service".
Definition restart_control_services : eff disk (list string) :=
  let root := install_root env in
  if negb (uses_systemd macos env root) then throw (EMsg "control restart requires systemd")
  else
    let services := [RELAY_SERVICE; CONTROL_SERVICE] in
    _ ← restart_services (systemctl_bin env) services; mret services.
Definition restart_node_service : eff disk string :=
  let root := install_root env in
  if negb (uses_systemd macos env root) then throw (EMsg "node restart requires systemd")
  else _ ← restart_services (systemctl_bin env) [NODE_SERVICE]; mret NODE_SERVICE.

Definition ensure_ssh_ca_identity (key_path : string) : eff disk unit :=
  d ← gets id;
  if is_file key_path d && is_file (public_key_of key_path) d then mret tt
  else
    _ ← make_parent key_path;
    output ← with_context "run ssh-keygen to generate Medium SSH CA"
               (command "ssh-keygen" ["-q"; "-t"; "ed25519"; "-N"; ""; "-C"; "medium-ssh-ca"; "-f"; key_path]);
    if co_success output then mret tt
    else throw (EMsg ("ssh-keygen failed to generate Medium SSH CA: " +:+ trim (co_stderr output))).

Definition write_control_systemd_unit (l : install_layout) (root bind_addr shared_secret client_secret control_pin
    relay_addr wss_relay_url : string) : eff disk unit :=
  _ ← make_dir (il_systemd_unit_dir l);
  write_text_file (il_control_unit_path l)
    (render_control_plane_unit macos root l bind_addr shared_secret client_secret control_pin relay_addr wss_relay_url).
Definition write_relay_systemd_unit (l : install_layout) (root relay_bind_addr shared_secret : string)
    (wss_mode : bool) : eff disk unit :=
  _ ← make_dir (il_systemd_unit_dir l);
  write_text_file (il_relay_unit_path l) (render_relay_unit macos root relay_bind_addr shared_secret wss_mode).
Definition write_node_systemd_unit (l : install_layout) (root control_url shared_secret control_pin relay_addr
    wss_relay_url : string) : eff disk unit :=
  _ ← make_dir (il_systemd_unit_dir l);
  write_text_file (il_node_unit_path l)
    (render_node_agent_unit macos root l control_url shared_secret control_pin relay_addr wss_relay_url).

Definition already_initialized : string :=
  "Medium control is already initialized; rerun with --reconfigure to rewrite bootstrap files".
(** [secret_time] and [client_time] are the clock at the two calls of [make_token]. *)
Definition init_control_at (secret_time client_time : Z)
    (root bind_addr control_url relay_bind_addr relay_addr wss_relay_url : string)
    (wss_relay_is_external reconfigure : bool) : eff disk init_control_report :=
  let layout := layout_new macos env root in
  bootstrapped ← gets (is_bootstrapped layout);
  if bootstrapped && negb reconfigure then throw (EMsg already_initialized)
  else
    _ ← make_dir (il_config_dir layout);
    _ ← make_dir (il_state_dir layout);
    names ← lift (control_tls_names bind_addr control_url);
    tls_identity ← lift (issue_control_tls_identity self_signed names);
    service_ca ← lift service_ca;
    _ ← write_text_file (il_control_cert_path layout) (ct_cert_pem tls_identity);
    _ ← write_private_file (il_control_key_path layout) (ct_key_pem tls_identity);
    _ ← write_text_file (il_service_ca_cert_path layout) (gc_pem service_ca);
    _ ← write_private_file (il_service_ca_key_path layout) (gc_key_pem service_ca);
    _ ← ensure_ssh_ca_identity (il_ssh_ca_key_path layout);
    let shared_secret := make_token "medium-shared-secret" secret_time in
    let client_secret := make_token "medium-client-secret" client_time in
    let control_pin := ct_control_pin tls_identity in
    invite ← lift (format_secret_invite control_url control_pin client_secret);
    node_invite ← lift (format_node_invite control_url control_pin shared_secret relay_addr wss_relay_url);
    _ ← write_text_file (il_control_config_path layout)
          (control_config layout bind_addr control_url shared_secret client_secret control_pin relay_addr wss_relay_url);
    _ ← touch_file (il_database_path layout);
    _ ← (if writes_systemd_units macos root then
           _ ← write_control_systemd_unit layout root bind_addr shared_secret client_secret control_pin relay_addr
                 wss_relay_url;
           write_relay_systemd_unit layout root relay_bind_addr shared_secret wss_relay_is_external
         else mret tt);
    _ ← with_context "systemd setup failed"
          (maybe_enable_systemd_services root [RELAY_SERVICE; CONTROL_SERVICE] reconfigure);
    mret (InitControlReport (il_control_config_path layout) (il_database_path layout) invite node_invite).

(** Collects the errors of both derivations before giving up. *)
Definition config_errors (show_error : error -> string) (a b : result string) : list string :=
  (match a with Ok _ => [] | Err e => [show_error e] end) ++ (match b with Ok _ => [] | Err e => [show_error e] end).
Definition init_control (show_error : error -> string) (url_with : url -> string -> string -> string) (route_ip : result ip_addr)
    (secret_time client_time : Z) (reconfigure : bool) : eff disk init_control_report :=
  let root := install_root env in
  let bind_addr := control_bind_addr env in
  let relay_bind_addr := relay_bind_addr env in
  let configured_wss_relay_url := env_string env "MEDIUM_WSS_RELAY_URL" in
  let control_url := control_public_url env route_ip bind_addr in
  let relay_addr := relay_public_addr env route_ip relay_bind_addr in
  match control_url, relay_addr with
  | Ok control_url, Ok relay_addr =>
      wss_relay_url ← lift match configured_wss_relay_url with
                           | Some value => _ ← validate_wss_relay_url value; Ok value
                           | None => embedded_wss_relay_url url_with control_url
                           end;
      init_control_at secret_time client_time root bind_addr control_url relay_bind_addr relay_addr wss_relay_url
        (match configured_wss_relay_url with Some _ => true | None => false end) reconfigure
  | _, _ => throw (EMsg (join "; " (config_errors show_error control_url relay_addr)))
  end.

(** [fetch_ssh_ca_public_key] asks the control plane when the invite has no key. *)
Context (fetch_ssh_ca : string -> string -> result string).
Definition resolve_node_ssh_ca_public_key (profile : node_invite) : result string :=
  match ni_ssh_ca_public_key profile with
  | Some key =>
      if is_empty (trim key) then fetch_ssh_ca (ni_control_url profile) (ni_control_pin profile) else Ok key
  | None => fetch_ssh_ca (ni_control_url profile) (ni_control_pin profile)
  end.
Definition node_already_initialized : string :=
  "Medium node is already initialized; rerun with --reconfigure to rewrite node files".
Definition init_node_at (root : string) (profile : node_invite) (addrs : node_addrs) (reconfigure : bool)
    : eff disk string :=
  let layout := layout_new macos env root in
  bootstrapped ← gets (is_node_bootstrapped layout);
  if bootstrapped && negb reconfigure then throw (EMsg node_already_initialized)
  else
    _ ← make_parent (il_node_config_path layout);
    _ ← (if writes_systemd_units macos root then make_dir (il_systemd_unit_dir layout) else mret tt);
    let relay_addr := default EmptyString (ni_relay_addr profile) in
    let wss_relay_url := default EmptyString (ni_wss_relay_url profile) in
    _ ← write_text_file (il_node_config_path layout)
          (home_node_config (node_id env) (na_listen_addr addrs) (na_public_addr addrs) (ni_control_url profile)
             (ni_shared_secret profile) (ni_control_pin profile) relay_addr wss_relay_url
             (ni_service_ca_cert_pem profile) (ni_service_ca_key_pem profile));
    _ ← write_default_services_config (il_node_services_path layout);
    _ ← (if writes_systemd_units macos root then
           ssh_ca_public_key ← lift (resolve_node_ssh_ca_public_key profile);
           _ ← write_node_ssh_ca_config (il_node_ssh_ca_public_key_path layout) (il_sshd_config_path layout)
                 ssh_ca_public_key;
           maybe_reload_sshd root
         else mret tt);
    _ ← (if writes_systemd_units macos root then
           write_node_systemd_unit layout root (ni_control_url profile) (ni_shared_secret profile)
             (ni_control_pin profile) relay_addr wss_relay_url
         else mret tt);
    _ ← with_context "systemd setup failed" (maybe_enable_systemd_services root [NODE_SERVICE] reconfigure);
    mret (il_node_config_path layout).
Definition init_node (route_ip : result ip_addr) (invite : string) (reconfigure : bool) : eff disk string :=
  let root := install_root env in
  profile ← lift (parse_node_invite invite);
  addrs ← lift (node_addrs_of env route_ip);
  init_node_at root profile addrs reconfigure.
End Init.

(** ** Templates as pieces *)

Inductive piece := Lit (s : string) | Hole (name : string).
Definition placeholder (name : string) : string := "{{" +:+ name +:+ "}}".
Definition piece_text (p : piece) : string := match p with Lit s => s | Hole name => placeholder name end.
Fixpoint text (ps : list piece) : string :=
  match ps with [] => EmptyString | p :: rest => piece_text p +:+ text rest end.
Definition piece_ok (p : piece) : Prop :=
  match p with
  | Lit s => char_in "{" s = false
  | Hole name => char_in "{" name = false /\ char_in "}" name = false
  end.
Definition fill (name value : string) (p : piece) : piece :=
  match p with Hole m => if m =?s name then Lit value else p | Lit _ => p end.
(** The specification: every placeholder gets its own value, at once. *)
Definition value_of (name : string) (values : list (string * string)) : option string :=
  snd <$> List.find (fun v => fst v =?s name) values.
Definition substitute (values : list (string * string)) (p : piece) : piece :=
  match p with
  | Hole name => match value_of name values with Some v => Lit v | None => p end
  | Lit _ => p
  end.

Lemma text_app a b : text (a ++ b) = text a +:+ text b.
Proof. induction a as [|p a IH]; [done|]. cbn. by rewrite IH, string_app_assoc. Qed.

Lemma split_skip_lit pat s t :
  char_in "{" s = false ->
  split_once (String "{" pat) (s +:+ t)
  = match split_once (String "{" pat) t with Some (a, b) => Some (s +:+ a, b) | None => None end.
Proof.
  induction s as [|c s IH]; cbn [char_in]; intros Hs.
  - cbn [String.append]. by destruct (split_once _ t) as [[a b]|].
  - apply orb_false_iff in Hs as [Hc Hs]. apply bool_decide_eq_false in Hc. rewrite string_app_cons, split_once_skip.
    + rewrite IH by done. by destruct (split_once _ t) as [[a b]|].
    + cbn. by rewrite bool_decide_eq_false_2.
Qed.
Lemma placeholder_prefix n m t :
  char_in "}" n = false -> char_in "}" m = false -> n <> m ->
  strip_prefix (placeholder n) (placeholder m +:+ t) = None.
Proof.
  intros Hn Hm Hne. destruct (strip_prefix _ _) as [r|] eqn:E; [|done]. apply strip_prefix_some in E. destruct Hne.
  unfold placeholder in E. rewrite <- !string_app_assoc in E. cbn in E. injection E as E.
  pose proof (split_once_char "}" n (String "}" r) Hn) as H1. pose proof (split_once_char "}" m (String "}" t) Hm) as H2.
  rewrite E in H2. rewrite H1 in H2. by injection H2.
Qed.
Lemma split_skip_hole n m t :
  piece_ok (Hole n) -> piece_ok (Hole m) -> n <> m ->
  split_once (placeholder n) (placeholder m +:+ t)
  = match split_once (placeholder n) t with Some (a, b) => Some (placeholder m +:+ a, b) | None => None end.
Proof.
  intros [Hn1 Hn2] [Hm1 Hm2] Hne. pose proof (placeholder_prefix n m t Hn2 Hm2 Hne) as Hp.
  unfold placeholder at 2. unfold placeholder at 2 in Hp.
  change ("{{" +:+ m +:+ "}}") with (String "{" (String "{" (m +:+ "}}"))) in *. rewrite !string_app_cons in *.
  rewrite split_once_skip by done. rewrite split_once_skip.
  - change (placeholder n) with (String "{" (String "{" (n +:+ "}}"))).
    rewrite <- string_app_assoc, split_skip_lit by done.
    change ("}}" +:+ t) with (String "}" (String "}" t)). rewrite !split_once_skip by done.
    destruct (split_once _ t) as [[a b]|]; [|done]. unfold placeholder. by rewrite <- !string_app_assoc.
  - destruct m as [|c m]; [done|]. cbn in Hm1. apply orb_false_iff in Hm1 as [Hc _]. apply bool_decide_eq_false in Hc.
    unfold placeholder. cbn. rewrite bool_decide_eq_true_2, bool_decide_eq_false_2 by done. done.
Qed.

#[global] Instance piece_eq_dec : EqDecision piece.
Proof. solve_decision. Defined.
Lemma fill_absent name value ps : Hole name ∉ ps -> map (fill name value) ps = ps.
Proof.
  induction ps as [|p ps IH]; [done|]. intros [Hne Hnin]%not_elem_of_cons. cbn. rewrite IH by done. f_equal.
  destruct p as [s|m]; [done|]. cbn. rewrite bool_decide_eq_false_2 by congruence. done.
Qed.
(** The text up to and after the first placeholder [name]. *)
Lemma split_once_text name ps :
  piece_ok (Hole name) -> Forall piece_ok ps ->
  (Hole name ∉ ps -> split_once (placeholder name) (text ps) = None) /\
  (forall before after, ps = before ++ Hole name :: after -> Hole name ∉ before ->
     split_once (placeholder name) (text ps) = Some (text before, text after)).
Proof.
  intros Hn Hps. induction Hps as [|p ps Hp Hps [IHnone IHsome]].
  { split; [done|]. intros [|? ?]; done. }
  assert (Hole name <> p -> split_once (placeholder name) (text (p :: ps))
    = match split_once (placeholder name) (text ps) with Some (a, b) => Some (piece_text p +:+ a, b) | None => None end)
    as Hskip.
  { intros Hne. cbn [text]. destruct p as [s|m]; cbn [piece_text].
    - by apply (split_skip_lit ("{" +:+ name +:+ "}}")).
    - apply split_skip_hole; [done..|]. congruence. }
  split.
  - intros Hnin. apply not_elem_of_cons in Hnin as [Hne Hnin]. by rewrite Hskip, IHnone.
  - intros [|q before] after [= -> ->] Hnin.
    + apply split_once_here.
    + apply not_elem_of_cons in Hnin as [Hne Hnin]. rewrite Hskip by done. by rewrite (IHsome before after).
Qed.

Definition is_hole (p : piece) : bool := match p with Hole _ => true | Lit _ => false end.
Lemma holes_length ps : (length (List.filter is_hole ps) <= String.length (text ps))%nat.
Proof.
  induction ps as [|p ps IH]; [done|]. cbn [List.filter text]. rewrite string_length_app.
  destruct p as [s|m]; cbn; lia.
Qed.
Lemma no_holes name ps : length (List.filter is_hole ps) = O -> Hole name ∉ ps.
Proof.
  induction ps as [|p ps IH]; [intros _; apply not_elem_of_nil|]. intros Hl. apply not_elem_of_cons.
  destruct p as [s|m]; cbn in Hl; [|done]. split; [done|by apply IH].
Qed.
Lemma replace_loop_text fuel name value ps :
  piece_ok (Hole name) -> Forall piece_ok ps -> (length (List.filter is_hole ps) <= fuel)%nat ->
  replace_loop fuel (placeholder name) value (text ps) = text (map (fill name value) ps).
Proof.
  intros Hn. revert ps. induction fuel as [|fuel IH]; intros ps Hps Hlen.
  { rewrite fill_absent; [done|]. apply no_holes. lia. }
  destruct (split_once_text name ps Hn Hps) as [Hnone Hsome]. cbn [replace_loop].
  destruct (decide (Hole name ∈ ps)) as [Hin|Hnin].
  - apply list_elem_of_split_l in Hin as (before & after & -> & Hbefore).
    rewrite (Hsome before after eq_refl Hbefore).
    rewrite List.filter_app, length_app in Hlen. cbn in Hlen.
    apply list.Forall_app in Hps as [_ Hafter]. inversion Hafter; subst.
    rewrite IH by (done || lia). rewrite map_app, text_app. cbn [map text fill]. rewrite bool_decide_eq_true_2 by done.
    cbn [piece_text]. f_equal. by rewrite fill_absent.
  - rewrite Hnone by done. by rewrite fill_absent.
Qed.
Lemma str_replace_text name value ps :
  piece_ok (Hole name) -> Forall piece_ok ps ->
  str_replace (placeholder name) value (text ps) = text (map (fill name value) ps).
Proof. intros Hn Hps. apply replace_loop_text; [done..|apply holes_length]. Qed.

Lemma fill_ok name value p : char_in "{" value = false -> piece_ok p -> piece_ok (fill name value p).
Proof. intros Hv. destruct p as [s|m]; cbn; [done|]. by case_bool_decide. Qed.
Lemma substitute_fill name value values p :
  substitute values (fill name value p) = substitute ((name, value) :: values) p.
Proof.
  destruct p as [s|m]; [done|]. cbn. unfold value_of. cbn.
  destruct (decide (m = name)) as [->|Hne].
  - by rewrite !bool_decide_eq_true_2.
  - rewrite (bool_decide_eq_false_2 (m = name)), (bool_decide_eq_false_2 (name = m)) by congruence. done.
Qed.

(** Replacing the placeholders one after the other puts each value in its place. *)
Lemma render_unit_text values ps :
  Forall piece_ok ps -> Forall (fun v => piece_ok (Hole v.1) /\ char_in "{" v.2 = false) values ->
  render_unit (text ps) (map (fun v => (placeholder v.1, v.2)) values) = text (map (substitute values) ps).
Proof.
  intros Hps Hvalues. unfold render_unit. revert ps Hps.
  induction Hvalues as [|[name value] values [Hn Hv] _ IH]; intros ps Hps; cbn [map fold_left fst snd] in *.
  - f_equal. symmetry. rewrite <- (map_id ps) at 2. apply map_ext. by intros [s|m].
  - rewrite str_replace_text by done. rewrite IH.
    + f_equal. rewrite map_map. apply map_ext. intros p. apply substitute_fill.
    + apply list.Forall_fmap. eapply list.Forall_impl; [exact Hps|]. intros p Hp. by apply fill_ok.
Qed.

(** ** The environment a unit gives its service *)

(** systemd's reading of the lines [Environment=NAME=value], the last one of a name, for
    values that need no quoting. *)
Definition unit_env (unit name : string) : option string :=
  list.last (omap (strip_prefix ("Environment=" +:+ name +:+ "=")) (lines unit)).
(** Graphic characters that neither systemd nor the templates interpret. *)
Definition plain_char (c : ascii) : bool :=
  is_ascii_graphic c && negb (char_in c ("{}%$\'" +:+ dquote)).
Definition plain (v : string) : bool := string_all plain_char v.
Lemma plain_no v d : plain v = true -> plain_char d = false -> char_in d v = false.
Proof. apply string_all_char_in. Qed.

Definition line_pieces (ls : list (list piece)) : list piece := l ← ls; l ++ [Lit (String lf EmptyString)].
Lemma text_line_pieces ls : ls <> [] -> text (line_pieces ls) = text_lines (map text ls).
Proof.
  induction ls as [|l ls IH]; [done|]. intros _. unfold line_pieces. cbn [mbind list_bind]. rewrite !text_app.
  change (mbind (fun l => l ++ [Lit (String lf EmptyString)]) ls) with (line_pieces ls).
  cbn [text piece_text]. rewrite string_app_nil_r. unfold text_lines. cbn [map].
  destruct ls as [|l' ls]; [by rewrite string_app_nil_r|].
  rewrite IH by done. unfold text_lines. cbn [map]. rewrite (join_cons _ (text l)) by done.
  by rewrite <- !string_app_assoc.
Qed.
Lemma strip_cr_plain s : char_in cr s = false -> strip_cr s = s.
Proof.
  intros Hs. unfold strip_cr. destruct (string_rev s) as [|c r] eqn:E; [done|].
  rewrite bool_decide_eq_false_2; [done|]. intros ->.
  assert (s = string_rev r +:+ String cr EmptyString) as He.
  { rewrite <- (string_rev_involutive s), E. apply string_rev_cons. }
  rewrite He, char_in_app in Hs. cbn in Hs. rewrite bool_decide_eq_true_2 in Hs by done. by rewrite orb_true_r in Hs.
Qed.
Lemma lines_text_lines l :
  l <> [] -> Forall (fun s => char_in lf s = false /\ char_in cr s = false) l -> lines (text_lines l) = l.
Proof.
  intros Hne Hl. unfold lines, text_lines.
  assert (join (String lf EmptyString) l +:+ String lf EmptyString = join (String lf EmptyString) (l ++ [EmptyString])) as ->.
  { by rewrite join_snoc, string_app_nil_r. }
  rewrite split_on_join.
  - clear Hne. induction Hl as [|s l [_ Hs] Hl IH]; [done|]. cbn [app lines_of].
    destruct (l ++ [EmptyString]) as [|s' l'] eqn:E; [by destruct l|]. by rewrite IH, strip_cr_plain.
  - by destruct l.
  - apply list.Forall_app. split; [|by repeat constructor]. eapply list.Forall_impl; [exact Hl|]. by intros s [Hs _].
Qed.

Definition env_line (name hole : string) : list piece := [Lit ("Environment=" +:+ name +:+ "="); Hole hole].
Definition control_plane_lines : list (list piece) :=
  [[Lit "[Unit]"]; [Lit "Description=Medium Control Plane"]; [Lit "After=network-online.target"];
   [Lit "Wants=network-online.target"]; []; [Lit "[Service]"]; [Lit "Type=simple"];
   [Lit "WorkingDirectory="; Hole "STATE_DIR"];
   env_line "OVERLAY_CONTROL_BIND_ADDR" "CONTROL_BIND_ADDR"; env_line "OVERLAY_CONTROL_DATABASE_URL" "DATABASE_URL";
   env_line "OVERLAY_SHARED_SECRET" "SHARED_SECRET"; env_line "MEDIUM_CLIENT_SECRET" "CLIENT_SECRET";
   env_line "MEDIUM_CONTROL_PIN" "CONTROL_PIN"; env_line "MEDIUM_CONTROL_TLS_CERT_PATH" "TLS_CERT_PATH";
   env_line "MEDIUM_CONTROL_TLS_KEY_PATH" "TLS_KEY_PATH"; env_line "MEDIUM_SERVICE_CA_CERT_PATH" "SERVICE_CA_CERT_PATH";
   env_line "MEDIUM_SERVICE_CA_KEY_PATH" "SERVICE_CA_KEY_PATH"; env_line "MEDIUM_SSH_CA_KEY_PATH" "SSH_CA_KEY_PATH";
   env_line "MEDIUM_RELAY_ADDR" "RELAY_ADDR"; env_line "MEDIUM_ICE_RELAY_ADDR" "RELAY_ADDR";
   [Hole "WSS_RELAY_ENV"]; [Lit "ExecStart="; Hole "CONTROL_PLANE_BIN"]; [Lit "Restart=on-failure"];
   [Lit "RestartSec=5"]; []; [Lit "[Install]"]; [Lit "WantedBy=multi-user.target"]].
Lemma control_plane_pieces : text (line_pieces control_plane_lines) = CONTROL_PLANE_UNIT_TEMPLATE.
Proof. vm_compute. reflexivity. Qed.

Lemma substitute_lines values ls :
  map (substitute values) (line_pieces ls) = line_pieces (map (map (substitute values)) ls).
Proof.
  induction ls as [|l ls IH]; [done|]. unfold line_pieces. cbn [mbind list_bind map]. rewrite map_app. cbn [map app].
  f_equal. rewrite map_app. cbn [map substitute]. f_equal. exact IH.
Qed.
Lemma text_no d ps : Forall (fun p => char_in d (piece_text p) = false) ps -> char_in d (text ps) = false.
Proof. induction 1 as [|p ps Hp _ IH]; [done|]. cbn [text]. by rewrite char_in_app, Hp, IH. Qed.
Lemma value_of_in name values v : value_of name values = Some v -> exists n, (n, v) ∈ values.
Proof.
  unfold value_of. intros Hv. apply fmap_Some in Hv as ([n v'] & Hf & ->). apply List.find_some in Hf as [Hin _].
  exists n. by apply list_elem_of_In.
Qed.
(** The lines of a rendered unit: those of its template, each with the values in their places. *)
Definition literals_ok (ls : list (list piece)) : Prop :=
  Forall (Forall (fun p => piece_ok p /\ char_in lf (piece_text p) = false /\ char_in cr (piece_text p) = false)) ls.
Lemma line_pieces_ok ls : literals_ok ls -> Forall piece_ok (line_pieces ls).
Proof.
  intros Hls. induction Hls as [|l ls Hl _ IH]; [constructor|]. unfold line_pieces. cbn [mbind list_bind].
  apply list.Forall_app. split; [|exact IH]. apply list.Forall_app. split; [|by repeat constructor].
  eapply list.Forall_impl; [exact Hl|]. by intros p [? _].
Qed.
Lemma unit_lines values ls :
  ls <> [] -> literals_ok ls -> Forall (fun v => piece_ok (Hole v.1)) values -> Forall (fun v => plain v.2 = true) values ->
  lines (render_unit (text (line_pieces ls)) (map (fun v => (placeholder v.1, v.2)) values))
  = map (fun line => text (map (substitute values) line)) ls.
Proof.
  intros Hne Hls Hholes Hplain.
  assert (Forall (fun v => piece_ok (Hole v.1) /\ char_in "{" v.2 = false) values) as Hvalues.
  { eapply list.Forall_and; split; [exact Hholes|].
    eapply list.Forall_impl; [exact Hplain|]. intros v Hv. by eapply plain_no. }
  rewrite render_unit_text by (done || by apply line_pieces_ok).
  rewrite substitute_lines, text_line_pieces by (by destruct ls). rewrite map_map. apply lines_text_lines; [by destruct ls|].
  apply list.Forall_fmap, list.Forall_forall. intros line Hline.
  pose proof (proj1 (list.Forall_forall _ _) Hls line Hline) as Hlits.
  assert (forall d, plain_char d = false -> Forall (fun p => char_in d (piece_text p) = false) line ->
    char_in d (text (map (substitute values) line)) = false) as Hno.
  { intros d Hd Hline_no. apply text_no, list.Forall_fmap. eapply list.Forall_impl; [exact Hline_no|].
    intros [s|name] Hp; [exact Hp|]. unfold compose. cbn [substitute]. destruct (value_of name values) as [v|] eqn:Hv; [|exact Hp].
    apply value_of_in in Hv as [n Hv]. pose proof (proj1 (list.Forall_forall _ _) Hplain _ Hv) as Hpv.
    by eapply plain_no. }
  split; apply Hno; try reflexivity; (eapply list.Forall_impl; [exact Hlits|]); by intros p (? & ? & ?).
Qed.
Lemma wss_env_or_empty wss_relay_url :
  wss_relay_env wss_relay_url = EmptyString \/
  exists u, wss_relay_env wss_relay_url = "Environment=MEDIUM_WSS_RELAY_URL=" +:+ u.
Proof. unfold wss_relay_env. destruct (is_empty (trim wss_relay_url)); [by left|right; by eexists]. Qed.

Section UnitEnvironment.
Context (macos : bool) (root : string) (l : install_layout)
  (bind_addr shared_secret client_secret control_pin relay_addr wss_relay_url : string).
Definition control_values : list (string * string) :=
  [("CONTROL_PLANE_BIN", control_plane_binary_path macos root); ("CONTROL_BIND_ADDR", bind_addr);
   ("DATABASE_URL", "sqlite://" +:+ il_database_path l); ("SHARED_SECRET", shared_secret);
   ("CLIENT_SECRET", client_secret); ("CONTROL_PIN", control_pin);
   ("SERVICE_CA_CERT_PATH", il_service_ca_cert_path l); ("SERVICE_CA_KEY_PATH", il_service_ca_key_path l);
   ("SSH_CA_KEY_PATH", il_ssh_ca_key_path l); ("RELAY_ADDR", relay_addr);
   ("WSS_RELAY_ENV", wss_relay_env wss_relay_url); ("TLS_CERT_PATH", il_control_cert_path l);
   ("TLS_KEY_PATH", il_control_key_path l); ("STATE_DIR", il_state_dir l)].
Context (Hplain : Forall (fun v => plain v.2 = true) control_values).

Lemma control_unit_lines :
  lines (render_control_plane_unit macos root l bind_addr shared_secret client_secret control_pin relay_addr wss_relay_url)
  = map (fun line => text (map (substitute control_values) line)) control_plane_lines.
Proof.
  unfold render_control_plane_unit. rewrite <- control_plane_pieces.
  apply (unit_lines control_values); [done|by repeat constructor..|done].
Qed.

(** What the control plane reads from the environment its unit sets. *)
Lemma control_unit_env :
  let env := unit_env (render_control_plane_unit macos root l bind_addr shared_secret client_secret control_pin
                         relay_addr wss_relay_url) in
  env "OVERLAY_SHARED_SECRET" = Some shared_secret /\ env "MEDIUM_CLIENT_SECRET" = Some client_secret /\
  env "MEDIUM_CONTROL_PIN" = Some control_pin /\ env "MEDIUM_RELAY_ADDR" = Some relay_addr /\
  env "OVERLAY_CONTROL_BIND_ADDR" = Some bind_addr /\
  env "MEDIUM_CONTROL_TLS_CERT_PATH" = Some (il_control_cert_path l) /\
  env "MEDIUM_CONTROL_TLS_KEY_PATH" = Some (il_control_key_path l).
Proof.
  cbv zeta. unfold unit_env. rewrite control_unit_lines.
  unfold control_values.
  destruct (wss_env_or_empty wss_relay_url) as [->|[u ->]]; split_and!;
    match goal with |- _ = Some ?v => transitivity (Some (v +:+ EmptyString)); [reflexivity|by rewrite string_app_nil_r] end.
Qed.
End UnitEnvironment.

(** The relay's unit and the node's. *)
Definition relay_lines : list (list piece) :=
  [[Lit "[Unit]"]; [Lit "Description=Medium Relay"]; [Lit "After=network-online.target"];
   [Lit "Wants=network-online.target"]; []; [Lit "[Service]"]; [Lit "Type=simple"];
   env_line "MEDIUM_RELAY_BIND_ADDR" "RELAY_BIND_ADDR"; env_line "MEDIUM_RELAY_SHARED_SECRET" "SHARED_SECRET";
   [Hole "RELAY_MODE_ENV"]; [Lit "ExecStart="; Hole "RELAY_BIN"]; [Lit "Restart=on-failure"]; [Lit "RestartSec=5"]; [];
   [Lit "[Install]"]; [Lit "WantedBy=multi-user.target"]].
Definition node_lines : list (list piece) :=
  [[Lit "[Unit]"]; [Lit "Description=Medium Node Agent"]; [Lit "After=network-online.target"];
   [Lit "Wants=network-online.target"]; []; [Lit "[Service]"]; [Lit "Type=simple"];
   env_line "OVERLAY_CONTROL_URL" "CONTROL_URL"; env_line "OVERLAY_SHARED_SECRET" "SHARED_SECRET";
   env_line "MEDIUM_CONTROL_PIN" "CONTROL_PIN"; env_line "MEDIUM_RELAY_ADDR" "RELAY_ADDR"; [Hole "WSS_RELAY_ENV"];
   [Lit "ExecStart="; Hole "NODE_AGENT_BIN"; Lit " --config "; Hole "NODE_CONFIG_PATH"]; [Lit "Restart=on-failure"];
   [Lit "RestartSec=5"]; []; [Lit "[Install]"]; [Lit "WantedBy=multi-user.target"]].
Lemma relay_pieces : text (line_pieces relay_lines) = RELAY_UNIT_TEMPLATE.
Proof. vm_compute. reflexivity. Qed.
Lemma node_pieces : text (line_pieces node_lines) = NODE_AGENT_UNIT_TEMPLATE.
Proof. vm_compute. reflexivity. Qed.
(** What the relay reads from the environment its unit sets. *)
Lemma relay_unit_env macos root relay_bind_addr shared_secret wss_mode :
  Forall (fun v => plain v = true) [relay_binary_path macos root; relay_bind_addr; shared_secret] ->
  let env := unit_env (render_relay_unit macos root relay_bind_addr shared_secret wss_mode) in
  env "MEDIUM_RELAY_BIND_ADDR" = Some relay_bind_addr /\ env "MEDIUM_RELAY_SHARED_SECRET" = Some shared_secret /\
  env "MEDIUM_RELAY_MODE" = (if wss_mode then Some "wss" else None).
Proof.
  intros Hplain. rewrite !list.Forall_cons in Hplain. destruct_and!. cbv zeta. unfold unit_env, render_relay_unit. rewrite <- relay_pieces.
  set (values := [("RELAY_BIN", relay_binary_path macos root); ("RELAY_BIND_ADDR", relay_bind_addr);
    ("SHARED_SECRET", shared_secret);
    ("RELAY_MODE_ENV", if wss_mode then "Environment=MEDIUM_RELAY_MODE=wss" else EmptyString)]).
  change (render_unit (text (line_pieces relay_lines)) _)
    with (render_unit (text (line_pieces relay_lines)) (map (fun v => (placeholder v.1, v.2)) values)).
  rewrite (unit_lines values); [|done|by repeat constructor..|by repeat constructor; destruct wss_mode].
  unfold values. destruct wss_mode; split_and!; try reflexivity;
    match goal with |- _ = Some ?v => transitivity (Some (v +:+ EmptyString)); [reflexivity|by rewrite string_app_nil_r] end.
Qed.
(** What the agent of a node reads from the environment its unit sets. *)
Lemma node_unit_env macos root l control_url shared_secret control_pin relay_addr wss_relay_url :
  Forall (fun v => plain v = true)
    [node_agent_binary_path macos root; il_node_config_path l; control_url; shared_secret; control_pin; relay_addr;
     wss_relay_url] ->
  let env := unit_env (render_node_agent_unit macos root l control_url shared_secret control_pin relay_addr wss_relay_url) in
  env "OVERLAY_CONTROL_URL" = Some control_url /\ env "OVERLAY_SHARED_SECRET" = Some shared_secret /\
  env "MEDIUM_CONTROL_PIN" = Some control_pin /\ env "MEDIUM_RELAY_ADDR" = Some relay_addr.
Proof.
  intros Hplain. rewrite !list.Forall_cons in Hplain. destruct_and!.
  cbv zeta. unfold unit_env, render_node_agent_unit. rewrite <- node_pieces.
  set (values := [("NODE_AGENT_BIN", node_agent_binary_path macos root); ("NODE_CONFIG_PATH", il_node_config_path l);
    ("CONTROL_URL", control_url); ("SHARED_SECRET", shared_secret); ("CONTROL_PIN", control_pin);
    ("RELAY_ADDR", relay_addr); ("WSS_RELAY_ENV", wss_relay_env wss_relay_url)]).
  change (render_unit (text (line_pieces node_lines)) _)
    with (render_unit (text (line_pieces node_lines)) (map (fun v => (placeholder v.1, v.2)) values)).
  rewrite (unit_lines values); [|done|by repeat constructor..|].
  2: { repeat constructor; cbn [snd]; try done. unfold wss_relay_env, plain in *. destruct (is_empty _); [done|].
       by rewrite string_all_app. }
  unfold values. destruct (wss_env_or_empty wss_relay_url) as [->|[u ->]]; split_and!;
    match goal with |- _ = Some ?v => transitivity (Some (v +:+ EmptyString)); [reflexivity|by rewrite string_app_nil_r] end.
Qed.

(** ** What an installation leaves on the disk *)

Definition file_name (p : string) : string := match rsplit_once "/" p with Some (_, name) => name | None => p end.
Lemma file_name_join p name : char_in "/" name = false -> file_name (path_join p name) = name.
Proof.
  intros Hn. unfold file_name, path_join. destruct (is_empty p || ends_with "/" p) eqn:E.
  - apply orb_true_iff in E as [E|E].
    + apply bool_decide_eq_true in E as ->. cbn. by rewrite (proj2 (rsplit_once_none _ _) Hn).
    + unfold ends_with, starts_with in E. destruct (strip_prefix (string_rev "/") (string_rev p)) as [r|] eqn:Hr; [|done].
      apply strip_prefix_some in Hr. assert (p = string_rev r +:+ String "/" EmptyString) as ->.
      { rewrite <- (string_rev_involutive p), Hr. apply string_rev_cons. }
      rewrite <- string_app_assoc. cbn. by rewrite rsplit_once_char.
  - change (p +:+ "/" +:+ name) with (p +:+ String "/" name). by rewrite rsplit_once_char.
Qed.
Lemma join_ne p q a b : char_in "/" a = false -> char_in "/" b = false -> a <> b -> path_join p a <> path_join q b.
Proof. intros Ha Hb Hne He. apply Hne. by rewrite <- (file_name_join p a), He, file_name_join. Qed.

(** The file at [p] stays as it is. *)
Definition kept {A} (p : string) (n : node) (m : eff disk A) : Prop := preserves (fun d => dk_nodes d !! p = Some n) m.
Lemma kept_write p n q c : p <> q -> kept p n (write_file q c).
Proof.
  intros Hne d r d' Hd. unfold write_file. destruct (dk_denied d q); [by intros [= _ <-]|].
  destruct (dk_nodes d !! q) as [[|? mode]|]; [by intros [= _ <-]|intros [= _ <-]; cbn; by rewrite lookup_insert_ne|].
  destruct (dk_nodes d !! default EmptyString (path_parent q)) as [[|]|]; intros [= _ <-]; cbn; by rewrite ?lookup_insert_ne.
Qed.
Lemma kept_set_mode p n q mode : p <> q -> kept p n (set_mode q mode).
Proof.
  intros Hne d r d' Hd. unfold set_mode. destruct (dk_nodes d !! q) as [[|]|]; intros [= _ <-]; cbn; by rewrite ?lookup_insert_ne.
Qed.
Lemma kept_create_dirs p n paths : kept p n (create_dirs paths).
Proof.
  induction paths as [|q paths IH]; [apply preserves_ret|]. apply preserves_bind; [|done].
  intros d r d' Hd. unfold create_dir. destruct (dk_nodes d !! q) as [[|]|] eqn:Hq; [by intros [= _ <-]..|].
  destruct (dk_denied d q); intros [= _ <-]; [done|]. cbn. rewrite lookup_insert_ne; [done|congruence].
Qed.
Lemma preserves_context {S A} (P : S -> Prop) m (x : eff S A) : preserves P x -> preserves P (with_context m x).
Proof.
  intros Hx s r s' Hs. unfold with_context. destruct (x s) as [[a|e] s1] eqn:E; intros [= _ <-]; eauto.
Qed.
Lemma kept_text p n q c : p <> q -> kept p n (write_text_file q c).
Proof. intros Hne. by apply preserves_context, kept_write. Qed.
Lemma kept_private p n q c : p <> q -> kept p n (write_private_file q c).
Proof. intros Hne. apply preserves_bind; [|intros _]; apply preserves_context; [by apply kept_write|by apply kept_set_mode]. Qed.
Lemma kept_make_dir p n q : kept p n (make_dir q).
Proof. apply preserves_context, kept_create_dirs. Qed.
Lemma kept_make_parent p n q : kept p n (make_parent q).
Proof. unfold make_parent. destruct (path_parent q); [apply kept_make_dir|apply preserves_ret]. Qed.
Lemma kept_touch p n q : kept p n (touch_file q).
Proof.
  intros d r d' Hd. unfold touch_file, gets, mbind, eff_bind, id. destruct (path_exists q d) eqn:Hq; [by intros [= _ <-]|].
  eapply kept_text; [|done]. intros <-. unfold path_exists in Hq. apply bool_decide_eq_false in Hq. rewrite Hd in Hq. by destruct Hq.
Qed.
Lemma kept_context {A} p n m (x : eff disk A) : kept p n x -> kept p n (with_context m x).
Proof. apply preserves_context. Qed.
Lemma kept_bind {A B} p n (m : eff disk A) (f : A -> eff disk B) :
  kept p n m -> (forall a, kept p n (f a)) -> kept p n (mbind f m).
Proof. apply preserves_bind. Qed.
Lemma kept_pure {A} p n (a : A) : kept p n (mret a).
Proof. apply preserves_ret. Qed.
Lemma kept_throw {A} p n e : kept p n (throw (A:=A) e).
Proof. apply preserves_throw. Qed.
Lemma kept_lift {A} p n (r : result A) : kept p n (lift r).
Proof. apply preserves_lift. Qed.
Lemma kept_gets {A} p n (f : disk -> A) : kept p n (gets f).
Proof. apply preserves_gets. Qed.
Create HintDb kept discriminated.
#[export] Hint Resolve kept_text kept_private kept_make_dir kept_make_parent kept_touch kept_context
  kept_pure kept_throw kept_lift kept_gets : kept.
#[export] Hint Constants Opaque : kept.
(** Goes through a command. *)
Ltac keep :=
  cbv zeta;
  repeat match goal with
  | |- kept _ _ (mbind _ _) => apply kept_bind; [|intros ?]
  | |- kept _ _ (if ?b then _ else _) => destruct b
  end;
  eauto with kept.

Lemma kept_control_unit p n macos l root a b c e f g :
  p <> il_control_unit_path l -> kept p n (write_control_systemd_unit macos l root a b c e f g).
Proof. intros Hp. unfold write_control_systemd_unit. keep. Qed.
Lemma kept_relay_unit p n macos l root a b c :
  p <> il_relay_unit_path l -> kept p n (write_relay_systemd_unit macos l root a b c).
Proof. intros Hp. unfold write_relay_systemd_unit. keep. Qed.
Lemma kept_node_unit p n macos l root a b c e f :
  p <> il_node_unit_path l -> kept p n (write_node_systemd_unit macos l root a b c e f).
Proof. intros Hp. unfold write_node_systemd_unit. keep. Qed.
Lemma kept_services p n q : p <> q -> kept p n (write_default_services_config q).
Proof. intros Hne. unfold write_default_services_config. keep. Qed.
Lemma kept_ssh_config p n key config text :
  p <> key -> p <> config -> kept p n (write_node_ssh_ca_config key config text).
Proof. intros Hk Hc. unfold write_node_ssh_ca_config. keep. Qed.
#[export] Hint Resolve kept_control_unit kept_relay_unit kept_node_unit kept_services kept_ssh_config : kept.

Section InitFacts.
Context `{Urls} `{FormUrlencoded} `{Sha256}.
Context (macos : bool) (env : string -> option string) (command : string -> list string -> eff disk command_output)
  (self_signed : string -> list string -> result generated_cert) (service_ca : result generated_cert) (root : string).

(** The commands the installer runs, systemctl and ssh-keygen, change no file but the SSH
    CA's keys. *)
Definition commands_ok : Prop :=
  forall name args p n,
    p <> il_ssh_ca_key_path (layout_new macos env root) ->
    p <> public_key_of (il_ssh_ca_key_path (layout_new macos env root)) -> kept p n (command name args).
Context (Hcommands : commands_ok).

Definition not_ssh_key (p : string) : Prop :=
  p <> il_ssh_ca_key_path (layout_new macos env root) /\
  p <> public_key_of (il_ssh_ca_key_path (layout_new macos env root)).
Lemma kept_run p n name args : not_ssh_key p -> kept p n (run_command command name args).
Proof. intros [Hk Hpub]. pose proof (Hcommands name args p n Hk Hpub) as Hc. unfold run_command. keep. Qed.
Lemma kept_enable p n systemctl services restart :
  not_ssh_key p -> kept p n (enable_services command systemctl services restart).
Proof.
  intros Hp. pose proof kept_run. induction services as [|service rest IH]; cbn [enable_services]; keep.
Qed.
Lemma kept_systemd p n services restart :
  not_ssh_key p -> kept p n (maybe_enable_systemd_services macos env command root services restart).
Proof.
  intros Hp. pose proof kept_run. pose proof kept_enable. unfold maybe_enable_systemd_services. keep.
Qed.
Lemma kept_reload p n : not_ssh_key p -> kept p n (maybe_reload_sshd macos env command root).
Proof.
  intros [Hk Hpub]. pose proof (fun name args => Hcommands name args p n Hk Hpub) as Hc. unfold maybe_reload_sshd. keep.
Qed.
Lemma kept_ssh_ca p n :
  not_ssh_key p -> kept p n (ensure_ssh_ca_identity command (il_ssh_ca_key_path (layout_new macos env root))).
Proof.
  intros [Hk Hpub]. unfold ensure_ssh_ca_identity.
  pose proof (fun args => Hcommands "ssh-keygen" args p n Hk Hpub) as Hc. keep.
Qed.

Lemma not_ssh_file p : file_name p <> "ssh-ca" -> file_name p <> "ssh-ca.pub" -> not_ssh_key p.
Proof.
  intros Hk Hpub. unfold not_ssh_key, layout_new. destruct (install_dirs macos env root) as [[config state] unit].
  cbn [il_ssh_ca_key_path].
  assert (public_key_of (path_join config "ssh-ca") = path_join config "ssh-ca.pub") as ->.
  { unfold public_key_of, path_join. destruct (_ || _); by rewrite <- !string_app_assoc. }
  split; intros ->; rewrite file_name_join in *; done.
Qed.
Lemma text_written p c d d' : write_text_file p c d = (Ok tt, d') -> exists mode, dk_nodes d' !! p = Some (File c mode).
Proof.
  intros (Hw & _)%with_context_ok%written_contents. unfold contents_of in Hw.
  destruct (dk_nodes d' !! p) as [[|c' mode]|]; try done. injection Hw as ->. eauto.
Qed.
Lemma private_written p c d d' : write_private_file p c d = (Ok tt, d') -> dk_nodes d' !! p = Some (File c private_mode).
Proof.
  unfold write_private_file. intros ([] & d1 & Hw & Hm)%eff_bind_ok.
  apply with_context_ok, written_contents in Hw as (Hw & _). apply with_context_ok in Hm.
  unfold contents_of in Hw. unfold set_mode in Hm. destruct (dk_nodes d1 !! p) as [[|c' mode]|]; try done.
  injection Hw as ->. injection Hm as <-. cbn. by rewrite lookup_insert_eq.
Qed.
Lemma kept_then {A} p n (m : eff disk A) d a d' :
  dk_nodes d !! p = Some n -> m d = (Ok a, d') -> kept p n m -> dk_nodes d' !! p = Some n.
Proof. intros Hd Hm Hk. by eapply Hk. Qed.
End InitFacts.
#[export] Hint Resolve kept_systemd kept_ssh_ca kept_reload : kept.
(** Two files of the layout are told apart by their names. *)
Lemma by_names p q : file_name p <> file_name q -> p <> q.
Proof. congruence. Qed.
Ltac layout_names :=
  unfold layout_new;
  match goal with |- context [install_dirs ?m ?e ?r] => destruct (install_dirs m e r) as [[? ?] ?] end;
  cbn [il_config_dir il_state_dir il_systemd_unit_dir il_control_config_path il_control_cert_path il_control_key_path
       il_service_ca_cert_path il_service_ca_key_path il_ssh_ca_key_path il_ssh_ca_public_key_path il_database_path
       il_control_unit_path il_node_unit_path il_relay_unit_path il_node_config_path il_node_services_path
       il_node_ssh_ca_public_key_path il_sshd_config_path];
  unfold join_all; cbn [fold_left]; rewrite ?file_name_join by reflexivity; discriminate.
#[export] Hint Extern 1 (not_ssh_key _ _ _ _) => solve [apply not_ssh_file; layout_names] : kept.
#[export] Hint Extern 1 (il_control_cert_path _ <> _) => solve [apply by_names; layout_names] : kept.
#[export] Hint Extern 1 (il_control_key_path _ <> _) => solve [apply by_names; layout_names] : kept.
#[export] Hint Extern 1 (il_service_ca_key_path _ <> _) => solve [apply by_names; layout_names] : kept.
#[export] Hint Extern 1 (il_control_config_path _ <> _) => solve [apply by_names; layout_names] : kept.
#[export] Hint Extern 1 (il_control_unit_path _ <> _) => solve [apply by_names; layout_names] : kept.
#[export] Hint Extern 1 (il_relay_unit_path _ <> _) => solve [apply by_names; layout_names] : kept.
#[export] Hint Extern 1 (il_node_unit_path _ <> _) => solve [apply by_names; layout_names] : kept.
#[export] Hint Extern 1 (il_node_config_path _ <> _) => solve [apply by_names; layout_names] : kept.

Section InitControl.
Context `{Urls} `{FormUrlencoded} `{Sha256}.
Context (macos : bool) (env : string -> option string) (command : string -> list string -> eff disk command_output)
  (self_signed : string -> list string -> result generated_cert) (service_ca : result generated_cert) (root : string).
Context (Hcommands : commands_ok macos env command root).

Lemma init_control_result st ct bind control_url relay_bind relay wss ext reconfigure d report d' :
  let l := layout_new macos env root in
  init_control_at macos env command self_signed service_ca st ct root bind control_url relay_bind relay wss ext
    reconfigure d = (Ok report, d') ->
  writes_systemd_units macos root = true ->
  exists names id sca,
    control_tls_names bind control_url = Ok names /\ issue_control_tls_identity self_signed names = Ok id /\
    service_ca = Ok sca /\
    format_secret_invite control_url (ct_control_pin id) (make_token "medium-client-secret" ct) = Ok (ir_invite report) /\
    format_node_invite control_url (ct_control_pin id) (make_token "medium-shared-secret" st) relay wss
      = Ok (ir_node_invite report) /\
    contents_of (il_control_cert_path l) d' = Some (ct_cert_pem id) /\
    dk_nodes d' !! il_control_key_path l = Some (File (ct_key_pem id) private_mode) /\
    dk_nodes d' !! il_service_ca_key_path l = Some (File (gc_key_pem sca) private_mode) /\
    contents_of (il_control_config_path l) d'
      = Some (control_config l bind control_url (make_token "medium-shared-secret" st)
                (make_token "medium-client-secret" ct) (ct_control_pin id) relay wss) /\
    contents_of (il_control_unit_path l) d'
      = Some (render_control_plane_unit macos root l bind (make_token "medium-shared-secret" st)
                (make_token "medium-client-secret" ct) (ct_control_pin id) relay wss) /\
    contents_of (il_relay_unit_path l) d'
      = Some (render_relay_unit macos root relay_bind (make_token "medium-shared-secret" st) ext).
Proof.
  intros l Hrun Hunits. subst l. unfold init_control_at in Hrun. cbv zeta in Hrun. rewrite Hunits in Hrun.
  apply eff_bind_ok in Hrun as (booted & d0 & _ & Hrun). destruct (booted && negb reconfigure); [done|].
  do 2 apply eff_bind_ok in Hrun as ([] & ? & _ & Hrun).
  apply eff_bind_ok in Hrun as (names & d3 & Hnames & Hrun). unfold lift in Hnames. injection Hnames as Hnames ->.
  apply eff_bind_ok in Hrun as (id & d4 & Hid & Hrun). unfold lift in Hid. injection Hid as Hid ->.
  apply eff_bind_ok in Hrun as (sca & d5 & Hsca & Hrun). unfold lift in Hsca. injection Hsca as Hsca ->.
  exists names, id, sca. split; [done|]. split; [done|]. split; [done|].
  apply eff_bind_ok in Hrun as ([] & d6 & Hcert & Hrun). apply text_written in Hcert as [m0 Hcert].
  eapply kept_then in Hcert as Hcert'; [|exact Hrun|keep]. apply eff_bind_ok in Hrun as ([] & d7 & Hkey & Hrun).
  apply private_written in Hkey. eapply kept_then in Hkey as Hkey'; [|exact Hrun|keep].
  apply eff_bind_ok in Hrun as ([] & d8 & _ & Hrun). apply eff_bind_ok in Hrun as ([] & d9 & Hca & Hrun).
  apply private_written in Hca. eapply kept_then in Hca as Hca'; [|exact Hrun|keep].
  apply eff_bind_ok in Hrun as ([] & d10 & _ & Hrun).
  apply eff_bind_ok in Hrun as (invite & d11 & Hinvite & Hrun). unfold lift in Hinvite. injection Hinvite as Hinvite ->.
  apply eff_bind_ok in Hrun as (ninvite & d12 & Hninvite & Hrun). unfold lift in Hninvite. injection Hninvite as Hninvite ->.
  apply eff_bind_ok in Hrun as ([] & d13 & Hcfg & Hrun).
  apply text_written in Hcfg as [m1 Hcfg]. eapply kept_then in Hcfg as Hcfg'; [|exact Hrun|keep].
  apply eff_bind_ok in Hrun as ([] & d14 & _ & Hrun). apply eff_bind_ok in Hrun as ([] & d15 & Hunit & Hrun).
  apply eff_bind_ok in Hunit as ([] & d16 & Hunit & Hrelay).
  unfold write_control_systemd_unit in Hunit. apply eff_bind_ok in Hunit as ([] & d17 & _ & Hunit).
  apply text_written in Hunit as [m2 Hunit].
  eapply kept_then in Hunit; [|exact Hrelay|keep].
  unfold write_relay_systemd_unit in Hrelay. apply eff_bind_ok in Hrelay as ([] & d17' & _ & Hrelay).
  apply text_written in Hrelay as [m3 Hrelay]. eapply kept_then in Hrelay as Hrelay'; [|exact Hrun|keep].
  eapply kept_then in Hunit as Hunit'; [|exact Hrun|keep].
  apply eff_bind_ok in Hrun as ([] & d18 & _ & Hrun). injection Hrun as <- <-.
  cbn [ir_invite ir_node_invite]. unfold contents_of. by rewrite Hcert', Hkey', Hca', Hcfg', Hunit', Hrelay'.
Qed.

(** What [init_node] leaves for the agent. *)
Lemma init_node_result fetch_ssh_ca profile addrs reconfigure d path d' :
  let l := layout_new macos env root in
  init_node_at macos env command fetch_ssh_ca root profile addrs reconfigure d = (Ok path, d') ->
  writes_systemd_units macos root = true ->
  path = il_node_config_path l /\
  contents_of (il_node_config_path l) d'
    = Some (home_node_config (node_id env) (na_listen_addr addrs) (na_public_addr addrs) (ni_control_url profile)
              (ni_shared_secret profile) (ni_control_pin profile) (default EmptyString (ni_relay_addr profile))
              (default EmptyString (ni_wss_relay_url profile)) (ni_service_ca_cert_pem profile)
              (ni_service_ca_key_pem profile)) /\
  contents_of (il_node_unit_path l) d'
    = Some (render_node_agent_unit macos root l (ni_control_url profile) (ni_shared_secret profile)
              (ni_control_pin profile) (default EmptyString (ni_relay_addr profile))
              (default EmptyString (ni_wss_relay_url profile))).
Proof.
  intros l Hrun Hunits. subst l. unfold init_node_at in Hrun. cbv zeta in Hrun. rewrite Hunits in Hrun.
  apply eff_bind_ok in Hrun as (booted & d0 & _ & Hrun). destruct (booted && negb reconfigure); [done|].
  do 2 apply eff_bind_ok in Hrun as ([] & ? & _ & Hrun).
  apply eff_bind_ok in Hrun as ([] & d1 & Hcfg & Hrun). apply text_written in Hcfg as [m1 Hcfg].
  eapply kept_then in Hcfg as Hcfg'; [|exact Hrun|keep].
  apply eff_bind_ok in Hrun as ([] & d2 & _ & Hrun). apply eff_bind_ok in Hrun as ([] & d3 & _ & Hrun).
  apply eff_bind_ok in Hrun as ([] & d4 & Hunit & Hrun).
  unfold write_node_systemd_unit in Hunit. apply eff_bind_ok in Hunit as ([] & d5 & _ & Hunit).
  apply text_written in Hunit as [m2 Hunit]. eapply kept_then in Hunit as Hunit'; [|exact Hrun|keep].
  apply eff_bind_ok in Hrun as ([] & d6 & _ & Hrun). injection Hrun as <- <-.
  unfold contents_of. by rewrite Hcfg', Hunit'.
Qed.

(** The directory of the configuration is there once the installer has started. *)
Lemma exists_kept_bootstrapped d :
  path_exists (il_config_dir (layout_new macos env root)) d = true -> is_bootstrapped (layout_new macos env root) d = true.
Proof. intros Hd. unfold is_bootstrapped. by rewrite Hd, !orb_true_r. Qed.
End InitControl.

Lemma make_token_plain p prefix now :
  (forall c, is_ascii_lower c || is_ascii_digit c = true -> p c = true) ->
  string_all p prefix = true -> p "-"%char = true -> 0 <= now -> string_all p (make_token prefix now) = true.
Proof.
  intros Hp Hprefix Hdash Hnow. unfold make_token. rewrite !string_all_app, Hprefix. cbn. rewrite Hdash. cbn.
  eapply string_all_impl; [exact Hp|by apply hex_digits].
Qed.
Lemma lower_or_digit (p : ascii -> bool) :
  forallb (fun c => negb (is_ascii_lower c || is_ascii_digit c) || p c) all_ascii = true ->
  forall c, is_ascii_lower c || is_ascii_digit c = true -> p c = true.
Proof. intros Hall c Hc. pose proof (ascii_forallb _ Hall c) as H. cbn in H. by rewrite Hc in H. Qed.
Lemma ascii_form_safe s :
  string_all (fun c => (code c <? 128) && negb (char_in c "&+%")) s = true -> form_safe s.
Proof.
  intros Hs. split; [|split_and!; by eapply string_all_char_in].
  apply ascii_utf8. eapply string_all_impl; [|exact Hs]. by intros c [? _]%andb_true_iff.
Qed.

Lemma control_state_secrets env read_file connect st shared client pin :
  env "OVERLAY_SHARED_SECRET" = Some shared -> env "MEDIUM_CLIENT_SECRET" = Some client ->
  env "MEDIUM_CONTROL_PIN" = Some pin ->
  control_state_from_env env read_file connect = Ok st ->
  cs_shared_secret st = shared /\ cs_client_secret st = client /\ cs_control_pin st = pin.
Proof. intros H1 H2 H3. unfold control_state_from_env. intros Hs. inv_result. cbn. by rewrite H1, H2, H3. Qed.

Section Accepts.
Context `{Urls} `{FormUrlencodedOk} `{Sha256}.
Lemma secret_ok prefix now : string_all (fun c => is_ascii_lower c || bool_decide (c = "-"%char)) prefix = true ->
  prefix <> EmptyString -> 0 <= now ->
  plain (make_token prefix now) = true /\ string_all form_plain (make_token prefix now) = true /\
  form_safe (make_token prefix now) /\ make_token prefix now <> EmptyString.
Proof.
  intros Hp Hne Hnow.
  assert (forall p : ascii -> bool, forallb (fun c => negb (is_ascii_lower c || is_ascii_digit c) || p c) all_ascii = true ->
    p "-"%char = true -> string_all p (make_token prefix now) = true) as Hall.
  { intros p Hchars Hdash. pose proof (lower_or_digit p Hchars) as Hl. apply make_token_plain; [done| |done|done].
    eapply string_all_impl; [|exact Hp]. intros c [Hc|Hc]%orb_true_iff.
    - apply Hl. by rewrite Hc.
    - apply bool_decide_eq_true in Hc as ->. done. }
  split; [by apply Hall; vm_compute|]. split; [by apply Hall; vm_compute|].
  split; [by apply ascii_form_safe, Hall; vm_compute|]. unfold make_token. by destruct prefix.
Qed.
Lemma pin_ok self_signed names id : issue_control_tls_identity self_signed names = Ok id ->
  plain (ct_control_pin id) = true /\ form_safe (ct_control_pin id) /\ ct_control_pin id <> EmptyString.
Proof.
  unfold issue_control_tls_identity. intros Hid. inv_result. cbn [ct_control_pin]. rewrite hex_lower_same.
  assert (forall p : ascii -> bool, forallb (fun c => negb (is_ascii_lower c || is_ascii_digit c) || p c) all_ascii = true ->
    forall bs, string_all p (PinnedHttp.hex_lower bs) = true) as Hall.
  { intros p Hchars bs. eapply string_all_impl; [by apply lower_or_digit|apply hex_lower_chars]. }
  split; [|split; [|done]].
  - refine (Hall plain_char _ _). by vm_compute.
  - apply ascii_form_safe. refine (Hall (fun c => (code c <? 128) && negb (char_in c "&+%")) _ _). by vm_compute.
Qed.
End Accepts.

(** The values of the unit's environment are plain when what they are made of is. *)
Lemma control_values_plain macos root l bind_addr shared client pin relay_addr wss_relay_url :
  Forall (fun v => plain v = true)
    [control_plane_binary_path macos root; il_database_path l; il_service_ca_cert_path l; il_service_ca_key_path l;
     il_ssh_ca_key_path l; il_control_cert_path l; il_control_key_path l; il_state_dir l;
     bind_addr; relay_addr; wss_relay_url] ->
  plain shared = true -> plain client = true -> plain pin = true ->
  Forall (fun v => plain v.2 = true) (control_values macos root l bind_addr shared client pin relay_addr wss_relay_url).
Proof.
  intros Hplain H1 H2 H3. rewrite !list.Forall_cons in Hplain. destruct_and!.
  unfold control_values, plain in *. repeat constructor; cbn [snd]; try done.
  unfold wss_relay_env. destruct (is_empty _); [done|]. by rewrite string_all_app.
Qed.

(** ** Properties *)

(** The pieces of an installed control plane agree.  When [init_control] ends well, the
    client's invite and the node's invite it prints can be read, and the control plane that
    systemd starts from the unit it wrote, with the unit's environment, has the pin and the
    client secret of the first and the pin and the shared secret of the second. *)
Theorem initialised_control_accepts_its_invites `{Urls} `{FormUrlencodedOk} `{Sha256}
    (macos : bool) (env : string -> option string) (command : string -> list string -> eff disk command_output)
    (self_signed : string -> list string -> result generated_cert) (service_ca : result generated_cert)
    (root bind_addr control_url relay_bind_addr relay_addr wss_relay_url : string) (external reconfigure : bool)
    (secret_time client_time : Z) (d d' : disk) (report : init_control_report)
    (Hcommands : commands_ok macos env command root)
    (Hunits : writes_systemd_units macos root = true)
    (Hplain : let l := layout_new macos env root in
       Forall (fun v => plain v = true)
         [control_plane_binary_path macos root; il_database_path l; il_service_ca_cert_path l; il_service_ca_key_path l;
          il_ssh_ca_key_path l; il_control_cert_path l; il_control_key_path l; il_state_dir l;
          bind_addr; relay_addr; wss_relay_url])
    (Hurl : control_url_ok control_url /\ form_safe control_url) (Hrelay : form_safe relay_addr)
    (Hwss : is_Some (utf8_chars wss_relay_url) /\ validate_wss_relay_url wss_relay_url = Ok tt)
    (Htimes : 0 <= secret_time /\ 0 <= client_time)
    (Hrun : init_control_at macos env command self_signed service_ca secret_time client_time root bind_addr control_url
              relay_bind_addr relay_addr wss_relay_url external reconfigure d = (Ok report, d')) :
  exists i ni unit,
    parse_invite (ir_invite report) = Ok i /\ in_control_url i = control_url /\
    parse_node_invite (ir_node_invite report) = Ok ni /\
    ni = NodeInvite control_url (in_control_pin i) (make_token "medium-shared-secret" secret_time)
           (if is_empty relay_addr then None else Some relay_addr)
           (if is_empty wss_relay_url then None else Some wss_relay_url) None None None /\
    contents_of (il_control_unit_path (layout_new macos env root)) d' = Some unit /\
    forall read_file connect st, control_state_from_env (unit_env unit) read_file connect = Ok st ->
      in_control_pin i = cs_control_pin st /\ in_client_secret i = Some (cs_client_secret st) /\
      ni_control_pin ni = cs_control_pin st /\ ni_shared_secret ni = cs_shared_secret st.
Proof.
  apply init_control_result in Hrun as (names & id & sca & _ & Hid & _ & Hinvite & Hninvite & _ & _ & _ & _ & Hunit & _); [|done..].
  destruct Htimes as [Hst Hct], Hurl as [Hok Hsafe], Hwss as [Hwutf Hwok].
  destruct (secret_ok "medium-client-secret" client_time) as (Hp1 & Hf1 & Hs1 & Hne1); [done..|].
  destruct (secret_ok "medium-shared-secret" secret_time) as (Hp2 & Hf2 & Hs2 & Hne2); [done..|].
  destruct (pin_ok _ _ _ Hid) as (Hpp & Hps & Hpne).
  rewrite format_secret_link in Hinvite by done. injection Hinvite as <-.
  rewrite format_node_link in Hninvite by done. injection Hninvite as <-.
  unfold url_query_value at 1. rewrite (byte_serialize_plain _ Hf1).
  eexists _, _, _. split; [apply parse_join_link; [apply Hok|exact Hpne|exact Hne1|apply Hok|apply Hps|apply Hs1]|].
  split; [done|].
  split; [by apply parse_node_link|]. split; [done|]. split; [exact Hunit|].
  intros read_file connect st Hstate.
  destruct (control_unit_env macos root (layout_new macos env root) bind_addr (make_token "medium-shared-secret" secret_time)
    (make_token "medium-client-secret" client_time) (ct_control_pin id) relay_addr wss_relay_url) as (H1' & H2' & H3' & _).
  { by apply control_values_plain. }
  destruct (control_state_secrets _ _ _ _ _ _ _ H1' H2' H3' Hstate) as (-> & -> & ->). by split_and!.
Qed.

(** ** Witnesses *)

Definition toy_env (name : string) : option string := None.
Definition toy_command (name : string) (args : list string) : eff disk command_output :=
  mret (CommandOutput true "exit status: 0" EmptyString EmptyString).
Definition toy_self_signed (name : string) (names : list string) : result generated_cert :=
  Ok (GeneratedCert [x63] "CERT" "KEY").
Definition toy_root_disk : disk := Disk (<["/" := Directory]> ∅) (fun _ => false).
Definition toy_init : result init_control_report * disk :=
  @init_control_at toy_urls toy_form toy_digest false toy_env toy_command toy_self_signed
    (Ok (GeneratedCert [x64] "CA" "CAKEY")) 31 255 "/srv" "0.0.0.0:7777" "https://control.example:7777"
    "0.0.0.0:7001" "relay.example:7001" "wss://control.example:7777/medium/v1/relay" false false toy_root_disk.
Definition toy_report : init_control_report :=
  default (InitControlReport EmptyString EmptyString EmptyString EmptyString) (result_ok toy_init.1).
Lemma toy_url_ok : @control_url_ok toy_urls "https://control.example:7777".
Proof.
  split; [discriminate|]. split; [reflexivity|]. eexists. split; [reflexivity|]. split; [by right|].
  split; [by eexists|]. vm_compute. reflexivity.
Qed.
Lemma initialised_control_accepts_its_invites_witness :
  ir_invite toy_report = "medium://join?v=1&control=https://control.example:7777&security=pinned-tls&control_pin="
    +:+ ("sha256:" +:+ PinnedHttp.hex_lower (@sha256 toy_digest [x63])) +:+ "&client_secret=medium-client-secret-ff" /\
  exists i unit, parse_invite (ir_invite toy_report) = Ok i /\
    contents_of "/srv/etc/systemd/system/medium-control-plane.service" toy_init.2 = Some unit /\
    forall read_file connect st, control_state_from_env (unit_env unit) read_file connect = Ok st ->
      in_client_secret i = Some (cs_client_secret st).
Proof.
  split; [vm_compute; reflexivity|].
  assert (toy_init = (Ok toy_report, toy_init.2)) as Hrun by (vm_compute; reflexivity).
  destruct (@initialised_control_accepts_its_invites toy_urls toy_form toy_form_ok toy_digest false toy_env toy_command
    toy_self_signed (Ok (GeneratedCert [x64] "CA" "CAKEY")) "/srv" "0.0.0.0:7777" "https://control.example:7777"
    "0.0.0.0:7001" "relay.example:7001" "wss://control.example:7777/medium/v1/relay" false false 31 255
    toy_root_disk toy_init.2 toy_report) as (i & ni & unit & Hi & _ & _ & _ & Hunit & Hst).
  - intros name args p n _ _ d r d' Hd [= _ <-]. exact Hd.
  - reflexivity.
  - cbv zeta. repeat constructor; vm_compute; reflexivity.
  - split; [exact toy_url_ok|]. repeat split; [by eexists|..]; reflexivity.
  - repeat split; [by eexists|..]; reflexivity.
  - split; [by eexists|vm_compute; reflexivity].
  - split; discriminate.
  - exact Hrun.
  - exists i, unit. split; [exact Hi|]. split; [exact Hunit|]. intros rf c st Hs. by destruct (Hst rf c st Hs) as (_ & H & _).
Defined.
