(* ===== verification/Doctor.v ===== *)
(** * The doctor

    [apps/medium-cli/src/doctor.rs], and the readers of the node's configuration files in
    [services/home-node/src/config.rs]: what [medium doctor] says of the configuration, the
    client state, the SSH configuration and the services.

    The toml crate is a parameter, as in [Install.v] is systemctl. *)

From S2P Require Import Prelude RustStd Net PinnedHttp Crypto Disk HomeNode Invites ClientApi Install.

(** ** The node's configuration files *)

Section NodeFiles.
(** [toml::from_str] on a node configuration and on a list of services. *)
Context (toml_node : string -> result node_config) (toml_services : string -> result (list service_config)).

Definition load_services_from_path (p : string) : eff disk (list service_config) :=
  raw ← with_context ("read services config " +:+ p) (read_to_string p);
  with_context ("parse services config " +:+ p) (lift (toml_services raw)).
Definition services_path_for_node_config (p : string) : option string :=
  parent ← path_parent p; Some (path_join parent "services.toml").
Definition set_services (services : list service_config) (cfg : node_config) : node_config :=
  NodeConfig (nc_node_id cfg) (nc_node_label cfg) (nc_bind_addr cfg) (nc_ice_bind_addr cfg) (nc_public_addr cfg)
    (nc_ice_public_addr cfg) (nc_ice_host_addrs cfg) (nc_control_url cfg) (nc_control_pin cfg) (nc_shared_secret cfg)
    (nc_relay_addr cfg) (nc_wss_relay_url cfg) (nc_ice_relay_addr cfg) (nc_service_ca_cert_pem cfg)
    (nc_service_ca_key_pem cfg) services.
Definition load_from_path (p : string) : eff disk node_config :=
  raw ← with_context ("read node config " +:+ p) (read_to_string p);
  cfg ← with_context ("parse node config " +:+ p) (lift (toml_node raw));
  d ← gets id;
  match services_path_for_node_config p with
  | Some services_path =>
      if is_file services_path d
      then services ← load_services_from_path services_path; mret (set_services services cfg)
      else mret cfg
  | None => mret cfg
  end.

(** ** Configuration lines *)

Definition path_line (label p : string) (d : disk) : string :=
  label +:+ ": " +:+ (if path_exists p d then "ok" else "missing") +:+ " (" +:+ p +:+ ")".
Context (show_error : error -> string).
Definition services_config_line (p : string) : eff disk string :=
  d ← gets id;
  if negb (is_file p d) then mret "services-config-valid: missing"
  else
    loaded ← attempt (load_services_from_path p);
    match loaded with
    | Ok _ => mret "services-config-valid: ok"
    | Err error => mret ("services-config-valid: invalid (" +:+ show_error error +:+ ")")
    end.
Definition node_config_line (p : string) : eff disk string :=
  d ← gets id;
  if negb (is_file p d) then mret "node-config-valid: missing"
  else
    loaded ← attempt (load_from_path p);
    match loaded with
    | Ok cfg =>
        if negb (is_empty (trim (nc_node_id cfg))) && negb (is_empty (trim (nc_bind_addr cfg)))
        then mret "node-config-valid: ok" else mret "node-config-valid: invalid (missing node_id or bind_addr)"
    | Err error => mret ("node-config-valid: invalid (" +:+ show_error error +:+ ")")
    end.
End NodeFiles.

(** The part of a line before a hash, trimmed. *)
Definition uncommented (line : string) : string :=
  trim match split_once "#" line with Some (before, _) => before | None => line end.
(** [value[1..len - 1]] of a quoted value. *)
Definition unquote (value : string) : option string :=
  if starts_with dquote value && ends_with dquote value && (2 <=? str_len value)
  then Some (String.substring 1 (String.length value - 2) value) else None.
Definition parse_simple_toml_string_line (line : string) : option (string * string) :=
  let line := uncommented line in
  if is_empty line || starts_with "[" line then None
  else
    '(key, value) ← split_once "=" line;
    let key := trim key in
    if is_empty key then None else v ← unquote (trim value); Some (key, v).
(** Collected into a map: the last line of a key counts. *)
Definition parse_simple_toml_strings (raw : string) : gmap string string :=
  fold_left (fun m '(k, v) => <[k := v]> m) (omap parse_simple_toml_string_line (lines raw)) ∅.
Definition required_fields : list string := ["bind_addr"; "database_url"; "control_url"; "shared_secret"; "control_pin"].
Definition missing_fields (values : gmap string string) : list string :=
  List.filter (fun field => match values !! field with Some value => is_empty (trim value) | None => true end)
    required_fields.
Definition control_config_line (p : string) : eff disk string :=
  d ← gets id;
  if negb (is_file p d) then mret "control-config-valid: missing"
  else
    raw ← read_to_string p;
    match missing_fields (parse_simple_toml_strings raw) with
    | [] => mret "control-config-valid: ok"
    | missing => mret ("control-config-valid: invalid (missing " +:+ join ", " missing +:+ ")")
    end.

(** ** The client state *)

Section StateLine.
Context `{StateJson} (show_error : error -> string) (paths : app_paths).
Definition doctor_legacy_state_path : string :=
  join_all (ap_home_dir paths) [".config"; "overlay"; "state.json"].
Definition display_state_path (p : string) : string := if p =?s ap_state_path paths then ap_state_path paths else p.
Definition read_state (p : string) : eff disk (option app_state) :=
  read ← attempt (read_to_string p);
  match read with
  | Ok raw =>
      match state_from_str raw with
      | Ok state => mret (Some state)
      | Err error => throw (EMsg ("invalid state at " +:+ display_state_path p +:+ ": " +:+ show_error error))
      end
  | Err e => if bool_decide (e = not_found) then mret None else throw e
  end.
Definition state_line : eff disk string :=
  state ← read_state (ap_state_path paths);
  match state with
  | Some state => mret ("join-state: ok (device " +:+ as_device_name state +:+ " via " +:+ as_server_url state +:+ ")")
  | None =>
      let legacy_path := doctor_legacy_state_path in
      legacy ← read_state legacy_path;
      match legacy with
      | Some state =>
          mret ("join-state: ok (device " +:+ as_device_name state +:+ " via " +:+ as_server_url state
                +:+ " from legacy state " +:+ legacy_path +:+ ")")
      | None => mret ("join-state: missing (" +:+ ap_state_path paths +:+ ")")
      end
  end.
End StateLine.

(** ** The SSH configuration *)

Definition MAIN_INCLUDE_LINE : string := "Include ~/.ssh/config.d/medium.conf".
Definition LEGACY_MAIN_INCLUDE_LINE : string := "Include ~/.ssh/config.d/overlay.conf".
Definition LEGACY_MANAGED_HEADER : string := "# Managed by overlay.".
Definition LEGACY_PROXY_COMMAND : string := "ProxyCommand overlay proxy ssh --device ".
Inductive ssh_status := SshMissing | SshOk | SshLegacy (note : string).
Definition ssh_status_render (s : ssh_status) : string :=
  match s with SshMissing => "missing" | SshOk => "ok" | SshLegacy note => "ok (" +:+ note +:+ ")" end.
Record ssh_inspection := SshInspection { si_include_status : ssh_status; si_managed_status : ssh_status }.
Definition include_line (s : ssh_inspection) : string := "ssh-include: " +:+ ssh_status_render (si_include_status s).
Definition managed_line (s : ssh_inspection) : string :=
  "ssh-managed-config: " +:+ ssh_status_render (si_managed_status s).

Section Ssh.
Context (paths : app_paths).
Definition legacy_overlay_config_is_managed : eff disk bool :=
  read ← attempt (read_to_string (path_join (ap_ssh_config_dir paths) "overlay.conf"));
  match read with
  | Ok raw => mret (contains LEGACY_MANAGED_HEADER raw || contains LEGACY_PROXY_COMMAND raw)
  | Err e => if bool_decide (e = not_found) then mret false else throw e
  end.
Definition managed_ssh_status (legacy_overlay_is_managed : bool) (d : disk) : ssh_status :=
  if path_exists (ap_overlay_ssh_config_path paths) d then SshOk
  else if legacy_overlay_is_managed && path_exists (path_join (ap_ssh_config_dir paths) "overlay.conf") d
       then SshLegacy "legacy overlay.conf" else SshMissing.
Definition has_line (wanted raw : string) : bool := existsb (fun line => trim line =?s wanted) (lines raw).
Definition inspect_ssh : eff disk ssh_inspection :=
  legacy_overlay_is_managed ← legacy_overlay_config_is_managed;
  managed ← gets (managed_ssh_status legacy_overlay_is_managed);
  read ← attempt (read_to_string (ap_ssh_config_path paths));
  match read with
  | Err e => if bool_decide (e = not_found) then mret (SshInspection SshMissing managed) else throw e
  | Ok raw =>
      mret (SshInspection
              (if has_line MAIN_INCLUDE_LINE raw then SshOk
               else if has_line LEGACY_MAIN_INCLUDE_LINE raw && legacy_overlay_is_managed
                    then SshLegacy "legacy overlay.conf" else SshMissing) managed)
  end.
End Ssh.

(** ** The report *)

Section Inspect.
Context `{StateJson} (macos : bool) (env : string -> option string)
  (command : string -> list string -> eff disk command_output)
  (toml_node : string -> result node_config) (toml_services : string -> result (list service_config))
  (show_error : error -> string).
Definition service_status (systemctl : string) (args : list string) : eff disk (option string) :=
  output ← attempt (command systemctl args);
  match output with
  | Err _ => mret None
  | Ok output =>
      let status := trim (co_stdout output) in
      if negb (is_empty status) then mret (Some status)
      else if negb (co_success output) then mret None else mret (Some "ok")
  end.
Definition service_line (service : string) : eff disk string :=
  let systemctl := systemctl_bin env in
  enabled ← service_status systemctl ["is-enabled"; service];
  active ← service_status systemctl ["is-active"; service];
  match enabled, active with
  | Some enabled, Some active => mret ("service " +:+ service +:+ ": " +:+ enabled +:+ ", " +:+ active)
  | _, _ => mret ("service " +:+ service +:+ ": unavailable")
  end.
Definition doctor_inspect (paths : app_paths) : eff disk (list string) :=
  let root := install_root env in
  let layout := layout_new macos env root in
  let node_config_path := default_node_config_path macos env root in
  ssh ← inspect_ssh paths;
  d ← gets id;
  state ← state_line show_error paths;
  control_config ← control_config_line (il_control_config_path layout);
  node_config ← node_config_line toml_node toml_services show_error (node_config_path d);
  services_config ← services_config_line toml_services show_error (il_node_services_path layout);
  control_service ← service_line CONTROL_SERVICE;
  node_service ← service_line NODE_SERVICE;
  mret [path_line "config-dir" (ap_app_config_dir paths) d;
        path_line "state-dir" (ap_state_dir paths) d;
        state;
        path_line "control-config" (il_control_config_path layout) d;
        control_config;
        path_line "node-config" (node_config_path d) d;
        node_config;
        path_line "services-config" (il_node_services_path layout) d;
        services_config;
        path_line "control-db" (il_database_path layout) d;
        path_line "control-plane-bin" (control_plane_binary_path macos root) d;
        path_line "node-agent-bin" (node_agent_binary_path macos root) d;
        include_line ssh; managed_line ssh; control_service; node_service].
Definition doctor_render (report : list string) : string := join (String lf EmptyString) report.
End Inspect.

(** ** Lemmas *)

(** Trimming keeps a text that starts and ends with characters no white space starts or
    ends with. *)
Lemma trim_keeps a s b :
  starts_none white_space a = true -> starts_none (map string_rev white_space) b = true ->
  trim (String a (s +:+ String b EmptyString)) = String a (s +:+ String b EmptyString).
Proof.
  intros Ha Hb. unfold trim, trim_start. rewrite strip_many_none by done. unfold trim_end.
  change (String a (s +:+ String b EmptyString)) with (String a s +:+ String b EmptyString).
  rewrite string_rev_snoc, strip_many_none by done. rewrite string_rev_cons. by rewrite string_rev_involutive.
Qed.
Lemma quoted_ends v : quoted v = String (Ascii.ascii_of_nat 34) (v +:+ String (Ascii.ascii_of_nat 34) EmptyString).
Proof. done. Qed.
Lemma trim_spaced_quoted v : trim (String " " (quoted v)) = quoted v.
Proof.
  assert (trim_start (String " " (quoted v)) = quoted v) as Hs.
  { unfold trim_start. cbn [String.length strip_many].
    change (strip_any white_space (String " " (quoted v))) with (Some (quoted v)). cbv iota.
    rewrite quoted_ends. by apply strip_many_none. }
  assert (trim_start (quoted v) = quoted v) as Hq by (rewrite quoted_ends; by apply strip_many_none).
  pose proof (trim_keeps (Ascii.ascii_of_nat 34) v (Ascii.ascii_of_nat 34) eq_refl eq_refl) as Hk.
  rewrite <- quoted_ends in Hk. unfold trim in *. rewrite Hq in Hk. by rewrite Hs.
Qed.
Lemma substring_all s : String.substring 0 (String.length s) s = s.
Proof. induction s as [|c s IH]; [done|]. cbn. by rewrite IH. Qed.
Lemma substring_prefix s t : String.substring 0 (String.length s) (s +:+ t) = s.
Proof. induction s as [|c s IH]; cbn; [by destruct t|by rewrite IH]. Qed.
Lemma unquote_quoted v : unquote (quoted v) = Some v.
Proof.
  unfold unquote. rewrite quoted_ends.
  assert (ends_with dquote (String (Ascii.ascii_of_nat 34) (v +:+ String (Ascii.ascii_of_nat 34) EmptyString)) = true) as ->.
  { unfold ends_with, starts_with.
    change (String (Ascii.ascii_of_nat 34) (v +:+ String (Ascii.ascii_of_nat 34) EmptyString))
      with (String (Ascii.ascii_of_nat 34) v +:+ String (Ascii.ascii_of_nat 34) EmptyString).
    by rewrite string_rev_snoc. }
  assert ((2 <=? str_len (String (Ascii.ascii_of_nat 34) (v +:+ String (Ascii.ascii_of_nat 34) EmptyString))) = true) as ->.
  { apply Z.leb_le. unfold str_len. cbn [String.length]. rewrite string_length_app. cbn [String.length]. lia. }
  cbn [String.length]. rewrite string_length_app. cbn [String.length].
  replace (S (String.length v + 1) - 2)%nat with (String.length v) by lia. cbn [String.substring].
  by rewrite substring_prefix.
Qed.

(** A line [key = "value"] is read back. *)
Definition key_ok (key : string) : Prop :=
  match key with
  | String a _ => starts_none white_space a = true /\ a <> "["%char
  | EmptyString => False
  end /\ char_in "=" key = false /\ char_in "#" key = false /\ trim (key +:+ " ") = key.
Lemma read_line key v : key_ok key -> char_in "#" v = false ->
  parse_simple_toml_string_line (key +:+ " = " +:+ quoted v) = Some (key, v).
Proof.
  intros (Hkey & He & Hh & Ht) Hv. unfold parse_simple_toml_string_line, uncommented.
  destruct key as [|a key]; [done|]. destruct Hkey as [Hws Hb].
  assert (String a key +:+ " = " +:+ quoted v = String a ((key +:+ " = " +:+ dquote +:+ v) +:+ dquote)) as Hline.
  { unfold quoted. cbn [String.append]. f_equal. by rewrite <- !string_app_assoc. }
  rewrite split_once_char_none.
  2: { unfold quoted. by rewrite !char_in_app, Hh, Hv. }
  assert (trim (String a key +:+ " = " +:+ quoted v) = String a key +:+ " = " +:+ quoted v) as ->.
  { rewrite Hline. by apply trim_keeps. }
  cbv zeta. rewrite not_empty by done.
  assert (starts_with "[" (String a key +:+ " = " +:+ quoted v) = false) as ->.
  { unfold starts_with. cbn. by rewrite bool_decide_eq_false_2 by congruence. }
  cbn [orb]. change (String a key +:+ " = " +:+ quoted v) with (String a key +:+ " " +:+ String "=" (String " " (quoted v))).
  rewrite string_app_assoc. rewrite split_once_char.
  2: { by rewrite char_in_app, He. }
  unfold mbind, option_bind. cbv beta iota zeta. rewrite Ht, not_empty by done.
  by rewrite trim_spaced_quoted, unquote_quoted.
Qed.

(** ** The control plane's configuration is read back *)

Definition entry_line (e : string * string) : string := e.1 +:+ " = " +:+ quoted e.2.
(** The values that may stand in a line: no hash, no quote, no line end, and ASCII. *)
Definition toml_char (c : ascii) : bool :=
  (code c <? 128) && negb (char_in c ("#" +:+ dquote +:+ String lf (String cr EmptyString))).
Definition toml_value (v : string) : bool := string_all toml_char v.
Definition control_entries (l : install_layout)
    (bind_addr control_url shared_secret client_secret control_pin relay_addr wss_relay_url : string)
    : list (string * string) :=
  [("bind_addr", bind_addr); ("database_url", "sqlite://" +:+ il_database_path l); ("control_url", control_url);
   ("tls_cert_path", il_control_cert_path l); ("tls_key_path", il_control_key_path l);
   ("service_ca_cert_path", il_service_ca_cert_path l); ("service_ca_key_path", il_service_ca_key_path l);
   ("ssh_ca_key_path", il_ssh_ca_key_path l); ("ssh_ca_public_key_path", il_ssh_ca_public_key_path l);
   ("shared_secret", shared_secret); ("client_secret", client_secret); ("control_pin", control_pin);
   ("relay_addr", relay_addr)]
  ++ (if is_empty (trim wss_relay_url) then [] else [("wss_relay_url", wss_relay_url)]).

Lemma text_lines_cons x l : l <> [] -> text_lines (x :: l) = x +:+ String lf EmptyString +:+ text_lines l.
Proof. intros Hl. unfold text_lines. rewrite join_cons by done. by rewrite <- !string_app_assoc. Qed.
Lemma toml_line_entry k v : toml_line k v = entry_line (k, v) +:+ String lf EmptyString.
Proof. unfold toml_line, entry_line. cbn [fst snd]. by rewrite <- !string_app_assoc. Qed.
Lemma control_config_text l a b c d e f g :
  control_config l a b c d e f g
  = text_lines ("# Generated by medium init-control" :: map entry_line (control_entries l a b c d e f g)).
Proof.
  unfold control_config, control_entries, optional_line. rewrite !toml_line_entry, map_app.
  destruct (is_empty (trim g)); cbn [map app]; rewrite !text_lines_cons by done; unfold text_lines; cbn [join String.concat];
    by rewrite ?string_app_nil_r, <- ?string_app_assoc.
Qed.

Definition entry_ok (e : string * string) : Prop := key_ok e.1 /\ toml_value e.2 = true.
Lemma toml_no v c : toml_value v = true -> toml_char c = false -> char_in c v = false.
Proof. apply string_all_char_in. Qed.
Lemma read_entry_line e : entry_ok e -> parse_simple_toml_string_line (entry_line e) = Some e.
Proof.
  intros [Hk Hv]. destruct e as [k v]. cbn in *. unfold entry_line. cbn [fst snd]. apply read_line; [done|].
  by apply (toml_no v).
Qed.
(** No line of the file has a line end in it. *)
Definition one_line (s : string) : Prop := char_in lf s = false /\ char_in cr s = false.
Lemma entry_one_line e : one_line e.1 -> toml_value e.2 = true -> one_line (entry_line e).
Proof.
  intros [Hl Hc] Hv. unfold one_line, entry_line, quoted. rewrite !char_in_app, Hl, Hc.
  by rewrite !(toml_no e.2) by done.
Qed.

Lemma key_lookup {A} (l : list (string * A)) (m : gmap string A) k v :
  NoDup l.*1 -> (k, v) ∈ l -> fold_left (fun m '(k, v) => <[k := v]> m) l m !! k = Some v.
Proof.
  assert (forall l (m : gmap string A), k ∉ l.*1 ->
    fold_left (fun m '(k, v) => <[k := v]> m) l m !! k = m !! k) as Hskip.
  { clear. induction l as [|[k' v'] l IH]; intros m; [done|]. cbn. intros [Hne Hnin]%not_elem_of_cons.
    rewrite IH by done. by rewrite lookup_insert_ne. }
  revert m. induction l as [|[k' v'] l IH]; intros m; cbn; [by intros _ ?%not_elem_of_nil|].
  intros [Hnin Hnd]%list.NoDup_cons [[= -> ->]|Hin]%elem_of_cons; [|by apply IH].
  rewrite Hskip by done. by rewrite lookup_insert_eq.
Qed.

Definition is_ascii (c : ascii) : bool := code c <? 128.
Lemma text_lines_ascii l : Forall (fun s => string_all is_ascii s = true) l -> string_all is_ascii (text_lines l) = true.
Proof.
  intros Hl. unfold text_lines. rewrite string_all_app. apply andb_true_iff. split; [|done].
  induction Hl as [|s l Hs Hl IH]; [done|]. destruct l as [|s' l]; [done|].
  by rewrite join_cons, !string_all_app, Hs, IH by done.
Qed.
Lemma entry_ascii e : string_all is_ascii e.1 = true -> toml_value e.2 = true -> string_all is_ascii (entry_line e) = true.
Proof.
  intros Hk Hv. unfold entry_line, quoted. rewrite !string_all_app, Hk.
  rewrite (string_all_impl toml_char is_ascii e.2); [done| |done]. by intros c [? _]%andb_true_iff.
Qed.

Section WrittenConfig.
Context (l : install_layout)
  (bind_addr control_url shared_secret client_secret control_pin relay_addr wss_relay_url : string).
Let entries := control_entries l bind_addr control_url shared_secret client_secret control_pin relay_addr wss_relay_url.
Let raw := control_config l bind_addr control_url shared_secret client_secret control_pin relay_addr wss_relay_url.
Context (Hvalues : Forall (fun e => toml_value e.2 = true) entries).

Lemma entries_ok :
  Forall entry_ok entries /\ Forall (fun e => one_line e.1 /\ string_all is_ascii e.1 = true) entries /\ NoDup entries.*1.
Proof.
  assert (Forall (fun e => key_ok e.1) entries) as Hk.
  { unfold entries, control_entries. destruct (is_empty (trim wss_relay_url)); repeat constructor; cbn; discriminate. }
  split; [eapply list.Forall_and; by split|]. unfold entries, control_entries.
  destruct (is_empty (trim wss_relay_url)); (split; [by repeat constructor|by apply (bool_decide_unpack _); vm_compute]).
Qed.
Lemma config_lines : lines raw = "# Generated by medium init-control" :: map entry_line entries.
Proof.
  destruct entries_ok as (_ & Hl & _). unfold raw. rewrite control_config_text. apply lines_text_lines; [done|].
  constructor; [done|]. apply list.Forall_fmap. eapply list.Forall_impl; [eapply list.Forall_and; split; [exact Hl|exact Hvalues]|].
  intros e [[H1 _] H2]. by apply entry_one_line.
Qed.
Lemma config_values : omap parse_simple_toml_string_line (lines raw) = entries.
Proof.
  destruct entries_ok as (He & _). rewrite config_lines. cbn [omap list_omap].
  change (parse_simple_toml_string_line "# Generated by medium init-control") with (@None (string * string)). cbv iota.
  clear Hvalues. induction He as [|e es He _ IH]; [done|]. cbn [map omap list_omap]. by rewrite read_entry_line, IH.
Qed.
Lemma config_lookup k v : (k, v) ∈ entries -> parse_simple_toml_strings raw !! k = Some v.
Proof. intros Hin. unfold parse_simple_toml_strings. rewrite config_values. apply key_lookup; [apply entries_ok|done]. Qed.
Lemma config_utf8 : is_Some (utf8_chars raw).
Proof.
  destruct entries_ok as (_ & Hl & _). apply ascii_utf8. unfold raw. rewrite control_config_text. apply text_lines_ascii.
  constructor; [done|]. apply list.Forall_fmap. eapply list.Forall_impl; [eapply list.Forall_and; split; [exact Hl|exact Hvalues]|].
  intros e [[_ H1] H2]. by apply entry_ascii.
Qed.
Lemma config_complete :
  Forall (fun v => is_empty (trim v) = false)
    [bind_addr; "sqlite://" +:+ il_database_path l; control_url; shared_secret; control_pin] ->
  missing_fields (parse_simple_toml_strings raw) = [].
Proof.
  intros Hfilled. rewrite !list.Forall_cons in Hfilled. destruct Hfilled as (H1 & H2 & H3 & H4 & H5 & _).
  assert (forall k v, (k, v) ∈ control_entries l bind_addr control_url shared_secret client_secret control_pin relay_addr
    wss_relay_url -> parse_simple_toml_strings raw !! k = Some v) as Hget by apply config_lookup.
  unfold missing_fields, required_fields. cbn [List.filter].
  rewrite (Hget "bind_addr" bind_addr), (Hget "database_url" ("sqlite://" +:+ il_database_path l)),
    (Hget "control_url" control_url), (Hget "shared_secret" shared_secret), (Hget "control_pin" control_pin)
    by (unfold control_entries; cbn [app]; repeat first [apply list_elem_of_here | apply list_elem_of_further]).
  by rewrite H1, H2, H3, H4, H5.
Qed.
End WrittenConfig.

(** Graphic characters are not trimmed. *)
Lemma graphic_not_trimmed v :
  string_all is_ascii_graphic v = true -> v <> EmptyString -> is_empty (trim v) = false.
Proof.
  assert (forall a, is_ascii_graphic a = true ->
    starts_none white_space a = true /\ starts_none (map string_rev white_space) a = true) as Hg.
  { intros a Ha. pose proof (ascii_forallb (fun a => negb (is_ascii_graphic a)
      || starts_none white_space a && starts_none (map string_rev white_space) a) eq_refl a) as H.
    cbv beta in H. rewrite Ha in H. by apply andb_true_iff in H. }
  destruct v as [|a v]; [done|]. cbn [string_all]. intros [Ha Hv]%andb_true_iff _.
  destruct (string_rev v) as [|b r] eqn:E.
  - assert (v = EmptyString) as ->. { by rewrite <- (string_rev_involutive v), E. }
    unfold trim, trim_start, trim_end. rewrite strip_many_none by apply (Hg a Ha).
    change (string_rev (String a EmptyString)) with (String a EmptyString).
    rewrite strip_many_none by apply (Hg a Ha). done.
  - assert (v = string_rev r +:+ String b EmptyString) as Hs.
    { rewrite <- (string_rev_involutive v), E. apply string_rev_cons. }
    rewrite Hs, string_all_app in Hv. apply andb_true_iff in Hv as [_ Hb]. cbn in Hb. rewrite andb_true_r in Hb.
    rewrite Hs, trim_keeps; [done|apply (Hg a Ha)|apply (Hg b Hb)].
Qed.
Lemma plain_filled v : plain v = true -> v <> EmptyString -> is_empty (trim v) = false.
Proof. intros Hv. apply graphic_not_trimmed. eapply string_all_impl; [|exact Hv]. by intros c [? _]%andb_true_iff. Qed.

Lemma token_value prefix now :
  string_all (fun c => is_ascii_lower c || bool_decide (c = "-"%char)) prefix = true -> prefix <> EmptyString ->
  0 <= now -> toml_value (make_token prefix now) = true /\ is_empty (trim (make_token prefix now)) = false.
Proof.
  intros Hp Hne Hnow. destruct (secret_ok prefix now Hp Hne Hnow) as (Hpl & Hf & _ & Hn). split; [|by apply plain_filled].
  eapply string_all_impl; [|exact Hf]. intros c Hc.
  pose proof (ascii_forallb (fun c => negb (form_plain c) || toml_char c) eq_refl c) as H. cbv beta in H. by rewrite Hc in H.
Qed.
Lemma pin_value `{Sha256} self_signed names id : issue_control_tls_identity self_signed names = Ok id ->
  toml_value (ct_control_pin id) = true /\ is_empty (trim (ct_control_pin id)) = false.
Proof.
  intros Hid. destruct (pin_ok _ _ _ Hid) as (Hpl & _ & Hne). split; [|by apply plain_filled].
  unfold issue_control_tls_identity in Hid. inv_result. cbn [ct_control_pin]. rewrite hex_lower_same.
  change (string_all toml_char (PinnedHttp.hex_lower (sha256 (gc_der x))) = true).
  eapply string_all_impl; [|apply hex_lower_chars]. apply lower_or_digit. by vm_compute.
Qed.
Lemma database_filled macos env root :
  is_empty (trim ("sqlite://" +:+ il_database_path (layout_new macos env root))) = false.
Proof.
  unfold layout_new. destruct (install_dirs macos env root) as [[config state] unit]. cbn [il_database_path].
  assert (exists s, path_join state "control-plane.db" = s +:+ "b") as [s ->].
  { unfold path_join. destruct (_ || _).
    - exists (state +:+ "control-plane.d"). by rewrite <- string_app_assoc.
    - exists (state +:+ "/control-plane.d"). by rewrite <- string_app_assoc. }
  change ("sqlite://" +:+ s +:+ "b") with (String "s" ("qlite://" +:+ s +:+ "b")). rewrite string_app_assoc.
  by rewrite trim_keeps.
Qed.

(** The values an installation is given may stand in lines of its configuration. *)
Definition installable (macos : bool) (env : string -> option string)
    (root bind_addr control_url relay_addr wss_relay_url : string) : Prop :=
  let l := layout_new macos env root in
  Forall (fun v => toml_value v = true)
    [il_database_path l; il_control_cert_path l; il_control_key_path l; il_service_ca_cert_path l;
     il_service_ca_key_path l; il_ssh_ca_key_path l; il_ssh_ca_public_key_path l;
     bind_addr; control_url; relay_addr; wss_relay_url] /\
  is_empty (trim bind_addr) = false /\ is_empty (trim control_url) = false.

Section Installed.
Context `{Urls} `{FormUrlencoded} `{Sha256}.
Context (macos : bool) (env : string -> option string) (command : string -> list string -> eff disk command_output)
  (self_signed : string -> list string -> result generated_cert) (service_ca : result generated_cert)
  (root bind_addr control_url relay_bind_addr relay_addr wss_relay_url : string) (external reconfigure : bool)
  (secret_time client_time : Z) (d d' : disk) (report : init_control_report).
Context (Hcommands : commands_ok macos env command root) (Hunits : writes_systemd_units macos root = true)
  (Hvalues : installable macos env root bind_addr control_url relay_addr wss_relay_url)
  (Htimes : 0 <= secret_time /\ 0 <= client_time)
  (Hrun : init_control_at macos env command self_signed service_ca secret_time client_time root bind_addr control_url
            relay_bind_addr relay_addr wss_relay_url external reconfigure d = (Ok report, d')).
Let l := layout_new macos env root.
Let shared_secret := make_token "medium-shared-secret" secret_time.
Let client_secret := make_token "medium-client-secret" client_time.

Lemma installed_config : exists pin,
  contents_of (il_control_config_path l) d'
    = Some (control_config l bind_addr control_url shared_secret client_secret pin relay_addr wss_relay_url) /\
  Forall (fun e => toml_value e.2 = true)
    (control_entries l bind_addr control_url shared_secret client_secret pin relay_addr wss_relay_url) /\
  Forall (fun v => is_empty (trim v) = false)
    [bind_addr; "sqlite://" +:+ il_database_path l; control_url; shared_secret; pin].
Proof.
  apply init_control_result in Hrun as (names & tls & sca & _ & Hid & _ & _ & _ & _ & _ & _ & Hconfig & _); [|done..].
  destruct Htimes as [Hst Hct], Hvalues as (Hv & Hb & Hu).
  destruct (token_value "medium-client-secret" client_time) as [Hc _]; [done..|].
  destruct (token_value "medium-shared-secret" secret_time) as [Hs Hsf]; [done..|].
  destruct (pin_value _ _ _ Hid) as [Hp Hpf].
  exists (ct_control_pin tls). split; [exact Hconfig|]. split.
  - cbv zeta in Hv. rewrite !list.Forall_cons in Hv.
    destruct Hv as (? & ? & ? & ? & ? & ? & ? & ? & ? & ? & ? & _).
    unfold control_entries. apply list.Forall_app. split; [by repeat constructor|].
    destruct (is_empty (trim wss_relay_url)); by repeat constructor.
  - rewrite !list.Forall_cons. split_and!; try assumption; [apply database_filled|apply list.Forall_nil_2].
Qed.
Lemma installed_config_read raw :
  dk_denied d' (il_control_config_path l) = false -> contents_of (il_control_config_path l) d' = Some raw ->
  is_Some (utf8_chars raw) ->
  is_file (il_control_config_path l) d' = true /\ read_to_string (il_control_config_path l) d' = (Ok raw, d').
Proof.
  intros Hd Hc [cs Hutf]. unfold contents_of in Hc. unfold is_file, read_to_string. rewrite Hd.
  destruct (dk_nodes d' !! il_control_config_path l) as [[|c mode]|]; try done. injection Hc as ->. by rewrite Hutf.
Qed.

(** After [init_control] has returned, [medium doctor] finds the configuration it wrote
    complete, and reads every value back as the installer chose it: the addresses, the paths
    of the layout, and the secrets and the pin that the invites carry. *)
Theorem doctor_accepts_the_installed_control
    (Hallowed : dk_denied d' (il_control_config_path (layout_new macos env root)) = false) :
  control_config_line (il_control_config_path (layout_new macos env root)) d' = (Ok "control-config-valid: ok", d') /\
  exists pin raw, contents_of (il_control_config_path (layout_new macos env root)) d' = Some raw /\
    forall k v, (k, v) ∈ control_entries (layout_new macos env root) bind_addr control_url
                          (make_token "medium-shared-secret" secret_time)
                          (make_token "medium-client-secret" client_time) pin relay_addr wss_relay_url ->
      parse_simple_toml_strings raw !! k = Some v.
Proof.
  destruct installed_config as (pin & Hconfig & Hentries & Hfilled).
  destruct (installed_config_read _ Hallowed Hconfig (config_utf8 _ _ _ _ _ _ _ _ Hentries)) as [Hfile Hread].
  split; [|exists pin; eexists; split; [exact Hconfig|]; intros k v; by apply config_lookup].
  unfold control_config_line, gets, mbind, eff_bind, id. cbv beta iota. fold l. rewrite Hfile. cbn [negb].
  rewrite Hread. cbv beta iota. by rewrite config_complete.
Qed.
End Installed.
Lemma doctor_accepts_the_installed_control_witness :
  control_config_line "/srv/etc/medium/control.toml" toy_init.2 = (Ok "control-config-valid: ok", toy_init.2).
Proof.
  assert (toy_init = (Ok toy_report, toy_init.2)) as Hrun by (vm_compute; reflexivity).
  destruct (@doctor_accepts_the_installed_control toy_urls toy_form toy_digest false toy_env toy_command
    toy_self_signed (Ok (GeneratedCert [x64] "CA" "CAKEY")) "/srv" "0.0.0.0:7777" "https://control.example:7777"
    "0.0.0.0:7001" "relay.example:7001" "wss://control.example:7777/medium/v1/relay" false false 31 255
    toy_root_disk toy_init.2 toy_report) as [Hline _].
  - intros name args p n _ _ d r d' Hd [= _ <-]. exact Hd.
  - reflexivity.
  - unfold installable. cbv zeta. split; [repeat constructor; vm_compute; reflexivity|split; vm_compute; reflexivity].
  - split; discriminate.
  - exact Hrun.
  - vm_compute. reflexivity.
  - exact Hline.
Defined.
