(* ===== verification/NodeAgent.v ===== *)
(** * The node's agent as a process

    [services/home-node/src/main.rs], [agent.rs] from its configuration file on, and the start
    of the servers in [proxy.rs]: the TCP listener, the services' certificates, the UDP
    listener and the thread that keeps the node registered for UDP rendezvous.  What the
    servers then do is in [HomeNode.v], [NodeLinks.v] and [UdpBridge.v].

    [home-node] and [medium run] start the same agent; [Cli.v] has the second. *)

From S2P Require Import Prelude RustStd NetAddr Protocol PinnedHttp Crypto Net Rendezvous UdpListener Disk HomeNode NodeLinks Install Doctor.

(** ** UDP sessions *)

(** What the blocking task of [spawn_udp_session_listener] runs with. *)
Record udp_start := UdpStart {
  us_udp_bind_addr : string;
  us_tcp_proxy_addr : string;
  us_node_id : string;
  us_shared_secret : string;
  us_rendezvous_addr : option string
}.
Definition spawn_udp_session_listener (env : string -> option string) (cfg : node_config) (shared_secret : string)
    : udp_start :=
  UdpStart (nc_ice_bind_addr cfg) (loopback_tcp_proxy_addr (nc_bind_addr cfg)) (nc_node_id cfg) shared_secret
    (effective_udp_rendezvous_addr env cfg).

(** [run_udp_session_listener] up to its loop: the listener, and the relay that the thread
    registers with.  [bind] is [UdpSocket::bind], [try_clone] that of the socket. *)
Definition start_udp_session_listener (bind : string -> result net) (try_clone : net -> result unit) (u : udp_start)
    : result (node_udp * option socket_addr) :=
  socket ← bind (us_udp_bind_addr u);
  let socket := (set_read_timeout (millis 250) socket).2 in
  rendezvous ← match us_rendezvous_addr u with
               | Some rendezvous_addr =>
                   _ ← try_clone socket;
                   addr ← parse_peer_addr rendezvous_addr;
                   Ok (Some addr)
               | None => Ok None
               end;
  Ok (udp_started socket, rendezvous).
(** That thread; [rounds] are those it begins before it is told to stop. *)
Fixpoint registration_thread `{Json udp_rendezvous_message} (rounds : nat) (rendezvous_addr : socket_addr)
    (node_id shared_secret : string) : eff net unit :=
  match rounds with
  | O => mret tt
  | S n =>
      _ ← attempt (send_node_register rendezvous_addr node_id shared_secret);
      _ ← sleep (secs 1);
      registration_thread n rendezvous_addr node_id shared_secret
  end.

(** ** The agent *)

Record node_process := NodeProcess {
  np_serving : serving;
  np_services : gmap string proxy_service;
  np_udp : result (node_udp * option socket_addr)   (* an error is only logged *)
}.
Record prepared_node := PreparedNode { pn_cfg : node_config; pn_registration : register_node_request }.
Definition prepare_agent (getifaddrs : result (list ifaddrs)) (cfg : node_config) : prepared_node :=
  PreparedNode cfg (build_registration getifaddrs cfg).

Section Agent.
Context `{Json register_node_request} `{Json service_certificate_request} `{Json service_certificate_response}.
Context (env : string -> option string) (server_name_ok : string -> bool).
Context (url_parse : string -> option url) (url_with : url -> string -> string -> string).
Context (signed_by : string -> string -> string -> list string -> result generated_cert).
(** rustls and rustls_pemfile. *)
Context (pem_certs : string -> result (list (list byte))) (pem_private_key : string -> result (option (list byte))).
Context (with_single_cert : list (list byte) -> list byte -> result unit).
(** [TcpListener::bind] and [UdpSocket::bind]. *)
Context (tcp_bind : string -> result unit) (udp_bind : string -> result net) (try_clone : net -> result unit).
Context {W : Type} (time_sleep : Z -> eff W unit).
Context (exchange : string -> string -> pinned_cert_verifier -> list byte -> eff W (list byte)).
Context (plain_post : string -> register_node_request -> eff W unit).

Definition server_tls_config_from_pem (identity : service_tls_identity) : result unit :=
  certs ← pem_certs (st_cert_pem identity);
  key ← pem_private_key (st_key_pem identity);
  key ← ok_or (EMsg "missing service TLS private key") key;
  with_single_cert certs key.

(** [run_tcp_proxy_with_shutdown] up to its loop ([run_tcp_proxy] of [NodeLinks.v]).  A request
    for a certificate leaves the control plane as it is. *)
Definition run_tcp_proxy_with_shutdown (cfg : node_config) (shared_secret : string)
    : eff W (gmap string proxy_service * result (node_udp * option socket_addr)) := fun w =>
  (_ ← tcp_bind (nc_bind_addr cfg);
   services ← proxy_services_from_config env signed_by url_parse server_name_ok (fun a n v b => (exchange a n v b w).1)
                server_tls_config_from_pem cfg shared_secret;
   Ok (services, start_udp_session_listener udp_bind try_clone (spawn_udp_session_listener env cfg shared_secret)), w).

(** [run_until_shutdown]: the line it prints, and the process. *)
Definition run_until_shutdown (agent : prepared_node) : string * eff W node_process :=
  (startup_summary (pn_registration agent),
   serving ← run_with_shutdown env server_name_ok url_parse url_with time_sleep exchange plain_post (pn_cfg agent)
               (pn_registration agent);
   '(services, udp) ← run_tcp_proxy_with_shutdown (pn_cfg agent) (sw_shared_secret serving);
   mret (NodeProcess serving services udp)).

(** [main]: the arguments, the configuration, the agent.  Without [--config] it exits with
    1; a configuration that cannot be loaded, or an agent that fails, is a panic. *)
Definition config_argument (args : list string) : option string :=
  match args with "--config" :: path :: _ => Some path | _ => None end.
Inductive main_outcome := Usage | Panic (e : error) | Agent (summary : string) (run : eff W node_process).
Definition node_main (toml_node : string -> result node_config)
    (toml_services : string -> result (list service_config)) (getifaddrs : result (list ifaddrs)) (args : list string) (d : disk)
    : main_outcome :=
  match config_argument args with
  | None => Usage
  | Some config_path =>
      match (load_from_path toml_node toml_services config_path d).1 with
      | Ok cfg => let '(summary, run) := run_until_shutdown (prepare_agent getifaddrs cfg) in Agent summary run
      | Err e => Panic e
      end
  end.
End Agent.
Arguments Usage {W}.
Arguments Panic {W} e.

(** [connect_wss_relay_once]: with the services of its own. *)
Definition connect_wss_relay_once `{TokenEnv} `{Json session_hello} `{Json relay_hello}
    (services_of : node_config -> string -> result (gmap string proxy_service))
    (ws_connect : string -> option pinned_cert_verifier -> result MediumSession.websocket) (now : Z) (hello_after : option Z)
    (cfg : node_config) (shared_secret relay_url : string)
    : result (list MediumSession.frame * result (proxy_service * list byte * result unit)) :=
  services ← services_of cfg shared_secret;
  connect_wss_relay_once_with_services services ws_connect now hello_after cfg shared_secret relay_url.

(** ** The configuration file of an installed node *)

(** The entries that [home_node_config] writes. *)
Definition node_entries (node_id bind_addr public_addr control_url shared_secret control_pin relay_addr
    wss_relay_url : string) : list (string * string) :=
  [("node_id", node_id); ("node_label", node_id); ("bind_addr", bind_addr); ("public_addr", public_addr);
   ("control_url", control_url); ("shared_secret", shared_secret); ("control_pin", control_pin)]
  ++ (if is_empty (trim relay_addr) then [] else [("relay_addr", relay_addr)])
  ++ (if is_empty (trim wss_relay_url) then [] else [("wss_relay_url", wss_relay_url)]).
(** The configuration of text entries, with serde's defaults. *)
Definition config_of (entries : list (string * string)) : node_config :=
  let field key := value_of key entries in
  NodeConfig (default EmptyString (field "node_id")) (field "node_label") (default default_bind_addr (field "bind_addr"))
    (default default_ice_bind_addr (field "ice_bind_addr")) (field "public_addr") (field "ice_public_addr") []
    (field "control_url") (field "control_pin") (field "shared_secret") (field "relay_addr") (field "wss_relay_url")
    (field "ice_relay_addr") (field "service_ca_cert_pem") (field "service_ca_key_pem") [].
(** A value that stands in a basic string of TOML as it is. *)
Definition toml_plain (v : string) : bool := plain v && negb (char_in "#" v).
(** What the toml crate makes of a document of text entries. *)
Class NodeTomlOk (toml_node : string -> result node_config) : Prop := {
  toml_node_entries entries :
    NoDup entries.*1 -> Forall (fun e => e.1 ∈ ["node_id"; "node_label"; "bind_addr"; "public_addr"; "control_url";
      "shared_secret"; "control_pin"; "relay_addr"; "wss_relay_url"]) entries ->
    Forall (fun e => toml_plain e.2 = true) entries -> "node_id" ∈ entries.*1 ->
    toml_node (text_lines (map entry_line entries)) = Ok (config_of entries)
}.

(** ** Lemmas *)

Lemma node_config_text a b c d e f g h :
  home_node_config a b c d e f g h None None = text_lines (map entry_line (node_entries a b c d e f g h)).
Proof.
  unfold home_node_config, node_entries, optional_line, pem_lines. rewrite !toml_line_entry, !map_app.
  destruct (is_empty (trim g)), (is_empty (trim h)); cbn [map app]; rewrite ?text_lines_cons by done;
    unfold text_lines; cbn [join String.concat]; by rewrite ?string_app_nil_r, <- ?string_app_assoc.
Qed.
Lemma node_config_read toml_node `{!NodeTomlOk toml_node} a b c d e f g h :
  Forall (fun v => toml_plain v = true) [a; b; c; d; e; f; g; h] ->
  toml_node (home_node_config a b c d e f g h None None) = Ok (config_of (node_entries a b c d e f g h)).
Proof.
  intros Hplain. rewrite !list.Forall_cons in Hplain. destruct_and!. rewrite node_config_text. unfold node_entries.
  apply toml_node_entries; destruct (is_empty (trim g)), (is_empty (trim h)); cbn [app].
  1-4, 13-16: by apply (bool_decide_unpack _); vm_compute.
  1-4: repeat (apply list.Forall_cons; split; [by apply (bool_decide_unpack _); vm_compute|]); by constructor.
  all: repeat (apply list.Forall_cons; split; [done|]); by constructor.
Qed.
Lemma optional_value key v rest :
  value_of key (if is_empty (trim v) then rest else (key, v) :: rest) = if is_empty (trim v) then value_of key rest else Some v.
Proof. destruct (is_empty (trim v)); [done|]. unfold value_of. cbn. by rewrite bool_decide_eq_true_2. Qed.

(** The settings that a node has from its installation. *)
Lemma node_config_settings a b c d e f g h :
  let cfg := config_of (node_entries a b c d e f g h) in
  nc_node_id cfg = a /\ nc_bind_addr cfg = b /\ nc_public_addr cfg = Some c /\ nc_control_url cfg = Some d /\
  nc_shared_secret cfg = Some e /\ nc_control_pin cfg = Some f /\
  nc_relay_addr cfg = (if is_empty (trim g) then None else Some g) /\
  nc_wss_relay_url cfg = (if is_empty (trim h) then None else Some h).
Proof. cbv zeta. unfold node_entries. destruct (is_empty (trim g)), (is_empty (trim h)); by split_and!. Qed.

Lemma toml_plain_value v : toml_plain v = true -> plain v = true /\ toml_value v = true.
Proof.
  unfold toml_plain. intros [Hp Hh]%andb_true_iff. split; [exact Hp|]. apply negb_true_iff in Hh. revert Hp Hh.
  induction v as [|c v IH]; [done|]. cbn. intros [Hc Hv]%andb_true_iff [Hn Hh]%orb_false_iff.
  apply andb_true_iff. split; [|by apply IH].
  pose proof (ascii_forallb (fun c => negb (plain_char c) || bool_decide ("#"%char = c) || toml_char c) eq_refl c) as H.
  cbv beta in H. rewrite Hc in H. cbn [negb orb] in H. apply orb_true_iff in H as [H|H]; [|exact H].
  apply bool_decide_eq_true in H as <-. done.
Qed.
Lemma value_toml_plain v : plain v = true -> toml_value v = true -> toml_plain v = true.
Proof. intros Hp Hv. unfold toml_plain. by rewrite Hp, (toml_no v). Qed.
(** A node's configuration is text. *)
Lemma node_config_utf8 a b c d e f g h :
  Forall (fun v => toml_plain v = true) [a; b; c; d; e; f; g; h] ->
  is_Some (utf8_chars (home_node_config a b c d e f g h None None)).
Proof.
  intros Hplain. rewrite node_config_text. apply ascii_utf8, text_lines_ascii, list.Forall_fmap.
  assert (Forall (fun v => toml_value v = true) [a; b; c; d; e; f; g; h]) as Hvalues.
  { eapply list.Forall_impl; [exact Hplain|]. by intros v [_ ?]%toml_plain_value. }
  rewrite !list.Forall_cons in Hvalues. destruct_and!. unfold node_entries.
  destruct (is_empty (trim g)), (is_empty (trim h)); repeat constructor; by apply entry_ascii.
Qed.

Lemma config_parent dir : path_parent (path_join (path_join dir ".medium") "node.toml") = Some (path_join dir ".medium").
Proof.
  assert (exists s, path_join dir ".medium" = s +:+ ".medium") as [s Hs].
  { unfold path_join. destruct (is_empty dir || ends_with "/" dir); [by eexists|]. exists (dir +:+ "/"). by rewrite <- string_app_assoc. }
  rewrite Hs.
  assert (path_join (s +:+ ".medium") "node.toml" = (s +:+ ".medium") +:+ String "/" "node.toml") as ->.
  { unfold path_join, ends_with, is_empty. rewrite bool_decide_eq_false_2 by (by destruct s).
    change (s +:+ ".medium") with (s +:+ ".mediu" +:+ String "m" EmptyString). rewrite string_app_assoc, string_rev_snoc. done. }
  unfold path_parent. rewrite rsplit_once_char by done. by destruct s.
Qed.
(** The services of a node are read from the file beside its configuration. *)
Lemma services_beside macos env root :
  services_path_for_node_config (il_node_config_path (layout_new macos env root))
  = Some (il_node_services_path (layout_new macos env root)).
Proof.
  assert (exists dir, node_config_dir env root = path_join dir ".medium") as [dir Hdir].
  { unfold node_config_dir. destruct (or_string _ _); [by eexists|]. destruct (negb _); [|by eexists].
    exists (path_join root "home"). done. }
  unfold services_path_for_node_config, layout_new. destruct (install_dirs macos env root) as [[a b] c].
  cbn [il_node_config_path il_node_services_path]. rewrite Hdir, config_parent. done.
Qed.

(** ** Properties *)

(** While the agent runs its node stays registered for UDP rendezvous: each second the thread
    sends the relay the node's registration, and a failure to send does not end it. *)
Theorem nodes_stay_registered `{Json udp_rendezvous_message} (rounds : nat) (relay : socket_addr)
    (node_id shared_secret : string) (payload : list byte) (n : net) :
  to_vec (RvNode node_id shared_secret) = Ok payload ->
  (registration_thread rounds relay node_id shared_secret n).1 = Ok tt /\
  (sends_ok n -> (registration_thread rounds relay node_id shared_secret n).2
                 = sent_more (replicate rounds (relay, payload)) (Z.of_nat rounds * secs 1) n).
Proof.
  intros Hp. split.
  - revert n; induction rounds as [|rounds IH]; intros n; [done|]. cbn [registration_thread].
    unfold mbind, eff_bind, attempt. destruct (send_node_register _ _ _ n) as [r n1]. apply IH.
  - revert n; induction rounds as [|rounds IH]; intros n Hn.
    { unfold sent_more, sends_ok in *. destruct n; cbn in *. rewrite Hn, app_nil_r, Z.add_0_r. done. }
    cbn [registration_thread]. unfold send_node_register. rewrite (eff_bind_eq _ _ _ _ _ (attempt_eq _ _ _ _ (send_message_ok _ _ _ _ Hp Hn))).
    rewrite (eff_bind_eq _ _ _ _ _ (sleep_more _ _ _ _)), IH by done. rewrite sent_more_more.
    cbn [replicate]. f_equal. lia.
Qed.

(** A relay that a node's configuration names by its host name, as the README does, stops the
    UDP sessions of the node: the same address that the four TCP connections to the relay are
    made to has to be an IP address for the rendezvous, and the listener is not started
    otherwise.  With an IP address it is started, and registers with that relay. *)
Theorem relays_by_name_stop_udp_sessions (env : string -> option string) (url_parse : string -> option url)
    (url_with : url -> string -> string -> string) (cfg : node_config) (shared_secret relay_addr : string)
    (bind : string -> result net) (try_clone : net -> result unit) :
  nc_relay_addr cfg = Some relay_addr -> nc_ice_relay_addr cfg = None ->
  env_filled env "MEDIUM_ICE_RENDEZVOUS_ADDR" = None ->
  let started := start_udp_session_listener bind try_clone (spawn_udp_session_listener env cfg shared_secret) in
  take 4 (configured_connectors env url_parse url_with cfg) = replicate 4 (TcpConnector relay_addr) /\
  match parse_sock relay_addr with
  | None => is_ok started = false
  | Some addr =>
      forall socket, bind (nc_ice_bind_addr cfg) = Ok socket -> (forall s, try_clone s = Ok tt) ->
        exists u, started = Ok (u, Some addr) /\ nu_reading u = true /\ nu_ended u = None
  end.
Proof.
  intros Hrelay Hice Henv. cbv zeta. split.
  { unfold configured_connectors. rewrite Hrelay. done. }
  unfold start_udp_session_listener, spawn_udp_session_listener, effective_udp_rendezvous_addr, parse_peer_addr.
  cbn [us_udp_bind_addr us_rendezvous_addr]. rewrite Hice, Henv, Hrelay. cbn [first_of].
  destruct (parse_sock relay_addr) as [addr|].
  - intros socket Hb Hc. rewrite Hb, bind_Ok. cbv zeta. rewrite Hc. cbn. eauto.
  - destruct (bind _) as [socket|e]; [|done]. rewrite bind_Ok. cbv zeta. by destruct (try_clone _).
Qed.

(** The README's relay. *)
Definition named_config : node_config :=
  NodeConfig "node-1" None "0.0.0.0:17001" default_ice_bind_addr None None [] (Some "https://control.example") None None
    (Some "relay.example.com:7001") None None None None [].
Lemma relays_by_name_stop_udp_sessions_witness :
  is_ok (start_udp_session_listener (fun _ => Ok (quiet [])) (fun _ => Ok tt)
           (spawn_udp_session_listener (fun _ => None) named_config "s")) = false.
Proof.
  exact (proj2 (relays_by_name_stop_udp_sessions (fun _ => None) (fun _ => None) (fun _ _ _ => EmptyString) named_config
    "s" "relay.example.com:7001" (fun _ => Ok (quiet [])) (fun _ => Ok tt) eq_refl eq_refl eq_refl)).
Defined.
