(* ===== verification/Deployment.v ===== *)
(** * An installed control plane, its clients and its nodes

    What [medium init-control] leaves on a host ([Install.v]), started by systemd from the units
    it wrote ([control_main] of [Server.v], [relay_main] of [RelayServer.v]), is the control
    plane that the invites it printed lead to ([Invites.v], [ClientApi.v]), and what
    [medium init-node] leaves on another host makes its agent ([NodeAgent.v]) a node of it. *)

From S2P Require Import Prelude RustStd Net Disk Protocol PinnedHttp Http Crypto Registry ControlPlane Relay RelayServer HomeNode NodeLinks Invites ClientApi Server HttpSamples Install Doctor NodeAgent.

(** [std::fs] on a disk. *)
Definition reads (d : disk) (path : string) : result string := ok_or not_found (contents_of path d).

(** The network leads to the control plane of a URL. *)
Definition listening `{Urls} (server_name_ok reached : string -> bool) (authority : string) : Prop :=
  plain_authority authority /\
  exists u host port, url_parse (origin authority) = Some u /\ url_host u = Some host /\ url_known_port u = Some port /\
    server_name_ok host = true /\ (String.length host <= 900)%nat /\ reached (host +:+ ":" +:+ dec port) = true.

Lemma control_main_tls env read_file pem_certs pem_private_key with_single_cert connect bind srv cert_path key_path certs :
  control_main env read_file pem_certs pem_private_key with_single_cert connect bind = Ok srv ->
  env "MEDIUM_CONTROL_TLS_CERT_PATH" = Some cert_path -> env "MEDIUM_CONTROL_TLS_KEY_PATH" = Some key_path ->
  load_certs read_file pem_certs cert_path = Ok certs ->
  control_state_from_env env read_file connect = Ok (cv_state srv) /\
  cv_bind_addr srv = default "0.0.0.0:8080" (env "OVERLAY_CONTROL_BIND_ADDR") /\
  exists key, cv_tls srv = Some (TlsServer certs key).
Proof.
  unfold control_main, tls_config_from_env. intros Hmain Hcert Hkey Hload. rewrite Hcert, Hkey in Hmain.
  apply bind_ok in Hmain as (state & Hstate & Hmain). apply bind_ok in Hmain as ([] & _ & Hmain).
  cbn [ok_or] in Hmain. rewrite bind_Ok, Hload in Hmain. inv_result. cbn. eauto.
Qed.

(** ** The host of the control plane *)

Section ControlHost.
Context `{Urls} `{FormUrlencodedOk} `{Sha256Ok}.
Context (macos : bool) (env : string -> option string) (command : string -> list string -> eff disk command_output)
  (self_signed : string -> list string -> result generated_cert) (service_ca : result generated_cert)
  (root bind_addr control_url relay_bind_addr relay_addr wss_relay_url : string) (external reconfigure : bool)
  (secret_time client_time : Z) (d d' : disk) (report : init_control_report).
Context (pem_certs : string -> result (list (list byte))) (pem_private_key : string -> result (option (list byte)))
  (with_single_cert : list (list byte) -> list byte -> result unit).

(** What the installer is given: values that systemd and TOML take as they are, a URL of the
    control plane, and times after the epoch; its commands do what they should. *)
Record installable : Prop := {
  in_pem name names cert : self_signed name names = Ok cert -> pem_certs (gc_pem cert) = Ok [gc_der cert];
  in_commands : commands_ok macos env command root;
  in_units : writes_systemd_units macos root = true;
  in_plain : let l := layout_new macos env root in
    Forall (fun v => plain v = true)
      [control_plane_binary_path macos root; il_database_path l; il_service_ca_cert_path l; il_service_ca_key_path l;
       il_ssh_ca_key_path l; il_control_cert_path l; il_control_key_path l; il_state_dir l;
       bind_addr; relay_addr; wss_relay_url];
  in_relay_plain : Forall (fun v => plain v = true) [relay_binary_path macos root; relay_bind_addr];
  in_url : control_url_ok control_url /\ form_safe control_url;
  in_relay : form_safe relay_addr;
  in_wss : is_Some (utf8_chars wss_relay_url) /\ validate_wss_relay_url wss_relay_url = Ok tt;
  in_times : 0 <= secret_time /\ 0 <= client_time
}.
Definition control_installed : Prop :=
  init_control_at macos env command self_signed service_ca secret_time client_time root bind_addr control_url
    relay_bind_addr relay_addr wss_relay_url external reconfigure d = (Ok report, d').
(** The control plane that a unit starts. *)
Definition started_by (unit : string) (srv : control_server) : Prop :=
  exists connect bind,
    control_main (unit_env unit) (reads d') pem_certs pem_private_key with_single_cert connect bind = Ok srv.

(** What the parts of an installation agree on. *)
Lemma installed_control (Hin : installable) (Hrun : control_installed) :
  exists i ni unit relay_unit,
    parse_invite (ir_invite report) = Ok i /\ parse_node_invite (ir_node_invite report) = Ok ni /\
    ni = NodeInvite control_url (in_control_pin i) (make_token "medium-shared-secret" secret_time)
           (if is_empty relay_addr then None else Some relay_addr)
           (if is_empty wss_relay_url then None else Some wss_relay_url) None None None /\
    toml_plain (in_control_pin i) = true /\ toml_plain (make_token "medium-shared-secret" secret_time) = true /\
    is_empty (trim (make_token "medium-shared-secret" secret_time)) = false /\
    contents_of (il_control_unit_path (layout_new macos env root)) d' = Some unit /\
    contents_of (il_relay_unit_path (layout_new macos env root)) d' = Some relay_unit /\
    relay_unit = render_relay_unit macos root relay_bind_addr (make_token "medium-shared-secret" secret_time) external /\
    forall srv, started_by unit srv ->
      cv_bind_addr srv = bind_addr /\
      in_client_secret i = Some (cs_client_secret (cv_state srv)) /\ ni_shared_secret ni = cs_shared_secret (cv_state srv) /\
      exists t cert, cv_tls srv = Some t /\ ts_certs t = [cert] /\ parse_sha256_pin (in_control_pin i) = Ok (sha256 cert).
Proof.
  destruct Hin as [Hpem Hcommands Hunits Hplain Hrelay_plain Hurl Hrelay Hwss Htimes].
  destruct (initialised_control_accepts_its_invites macos env command self_signed service_ca root bind_addr control_url
    relay_bind_addr relay_addr wss_relay_url external reconfigure secret_time client_time d d' report
    Hcommands Hunits Hplain Hurl Hrelay Hwss Htimes Hrun) as (i & ni & unit & Hi & _ & Hni & Heq & Hunit & Hstates).
  unfold control_installed in Hrun.
  apply init_control_result in Hrun as (names & id & sca & _ & Hid & _ & Hinvite & _ & Hcert & _ & _ & _ & Hunit' & Hrelay_unit); [|done..].
  rewrite Hunit' in Hunit. injection Hunit as <-.
  assert (Forall (fun v => plain v = true) [make_token "medium-shared-secret" secret_time;
    make_token "medium-client-secret" client_time; ct_control_pin id]) as Hsecrets.
  { repeat constructor.
    - by destruct (secret_ok "medium-shared-secret" secret_time) as (? & _); [done..|apply Htimes|].
    - by destruct (secret_ok "medium-client-secret" client_time) as (? & _); [done..|apply Htimes|].
    - by destruct (pin_ok _ _ _ Hid). }
  rewrite !list.Forall_cons in Hsecrets. destruct Hsecrets as (Hs1 & Hs2 & Hs3 & _).
  assert (in_control_pin i = ct_control_pin id) as Hpin.
  { destruct Htimes as [Hst Hct], (secret_ok "medium-client-secret" client_time) as (_ & Hf1 & Hsafe & Hne); [done..|].
    destruct (pin_ok _ _ _ Hid) as (_ & Hps & Hpne).
    rewrite format_secret_link in Hinvite by first [done|apply Hurl]. injection Hinvite as Hinvite.
    rewrite <- Hinvite in Hi. unfold url_query_value in Hi. rewrite (byte_serialize_plain _ Hf1) in Hi.
    rewrite parse_join_link in Hi by first [done | apply Hurl | apply Hps | apply Hsafe]. by injection Hi as <-. }
  exists i, ni. do 2 eexists. split; [exact Hi|]. split; [exact Hni|]. split; [exact Heq|].
  destruct (token_value "medium-shared-secret" secret_time) as [Hsv Hsf]; [done..|apply Htimes|].
  split; [rewrite Hpin; apply value_toml_plain; [done|by eapply pin_value]|].
  split; [by apply value_toml_plain|]. split; [exact Hsf|].
  split; [exact Hunit'|]. split; [exact Hrelay_unit|]. split; [done|]. intros srv (connect & bind & Hmain).
  destruct (control_unit_env macos root (layout_new macos env root) bind_addr (make_token "medium-shared-secret" secret_time)
    (make_token "medium-client-secret" client_time) (ct_control_pin id) relay_addr wss_relay_url)
    as (Henv1 & Henv2 & Henv3 & _ & Hbind & Hcertpath & Hkeypath); [by apply control_values_plain|].
  unfold issue_control_tls_identity in Hid. apply bind_ok in Hid as (cert & Hsigned & [= <-]).
  cbn [ct_cert_pem] in Hcert.
  destruct (control_main_tls _ _ _ _ _ _ _ _ _ _ [gc_der cert] Hmain Hcertpath Hkeypath) as (Hstate & Hb & key & Htls).
  { unfold load_certs, reads. rewrite Hcert. cbn [ok_or]. rewrite bind_Ok. by eapply Hpem. }
  destruct (Hstates _ _ _ Hstate) as (_ & Hsecret & _ & Hnsecret).
  rewrite Hbind in Hb. split; [exact Hb|]. split; [exact Hsecret|]. split; [exact Hnsecret|].
  eexists _, _. split; [exact Htls|]. split; [done|]. rewrite Hpin. cbn [ct_control_pin]. rewrite hex_lower_same.
  apply parse_pin_hex_lower, sha256_length.
Qed.

(** Whoever has the pin reaches the control plane, when the network leads to it. *)
Lemma pin_reaches pin srv authority server_name_ok reached :
  listening server_name_ok reached authority ->
  (exists t cert, cv_tls srv = Some t /\ ts_certs t = [cert] /\ parse_sha256_pin pin = Ok (sha256 cert)) ->
  reachable server_name_ok reached (cv_tls srv) authority pin.
Proof.
  intros [Hauth Hnet] (t & cert & Htls & Hcerts & Hpin). constructor; [done|exact Hnet|].
  exists t, cert. rewrite Hcerts. by split.
Qed.
End ControlHost.

(** ** The host of a node *)

Section NodeHost.
Context (macos : bool) (env : string -> option string) (command : string -> list string -> eff disk command_output)
  (fetch_ssh_ca : string -> string -> result string) (root : string) (addrs : node_addrs) (reconfigure : bool) (n' : disk).
Context (toml_node : string -> result node_config) (toml_services : string -> result (list service_config)).

(** The installer of a node is given values that systemd and TOML take as they are; the agent
    may open its configuration, and [services] is what is beside it. *)
Record node_host (services : list service_config) (control_url relay_addr wss_relay_url : string) : Prop := {
  nh_toml : NodeTomlOk toml_node;
  nh_commands : commands_ok macos env command root;
  nh_units : writes_systemd_units macos root = true;
  nh_plain : Forall (fun v => toml_plain v = true)
    [node_id env; na_listen_addr addrs; na_public_addr addrs; control_url; relay_addr; wss_relay_url];
  nh_paths : let l := layout_new macos env root in
    Forall (fun v => plain v = true) [node_agent_binary_path macos root; il_node_config_path l];
  nh_reads : dk_denied n' (il_node_config_path (layout_new macos env root)) = false;
  nh_services : let p := il_node_services_path (layout_new macos env root) in
    is_file p n' = true /\ (load_services_from_path toml_services p n').1 = Ok services
}.

(** The agent's configuration and environment are those of the invite. *)
Lemma installed_node services control_url pin secret relay_addr wss_relay_url profile path n :
  node_host services control_url relay_addr wss_relay_url ->
  profile = NodeInvite control_url pin secret (if is_empty relay_addr then None else Some relay_addr)
              (if is_empty wss_relay_url then None else Some wss_relay_url) None None None ->
  toml_plain secret = true -> toml_plain pin = true ->
  init_node_at macos env command fetch_ssh_ca root profile addrs reconfigure n = (Ok path, n') ->
  exists unit,
    path = il_node_config_path (layout_new macos env root) /\
    contents_of (il_node_unit_path (layout_new macos env root)) n' = Some unit /\
    (load_from_path toml_node toml_services path n').1
      = Ok (set_services services (config_of (node_entries (node_id env) (na_listen_addr addrs) (na_public_addr addrs)
              control_url secret pin relay_addr wss_relay_url))) /\
    unit_env unit "OVERLAY_SHARED_SECRET" = Some secret /\ unit_env unit "MEDIUM_CONTROL_PIN" = Some pin.
Proof.
  intros [Htoml Hcommands Hunits Hplain Hpaths Hreads [Hfile Hservices]] -> Hsecret Hpin Hrun. cbv zeta in *.
  rewrite !list.Forall_cons in Hplain. rewrite !list.Forall_cons in Hpaths. destruct_and!.
  apply init_node_result in Hrun as (Hpath & Hconfig & Hunit); [|done..].
  cbn [ni_control_url ni_shared_secret ni_control_pin ni_relay_addr ni_wss_relay_url ni_service_ca_cert_pem
    ni_service_ca_key_pem] in Hconfig, Hunit.
  assert (forall s, default EmptyString (if is_empty s then None else Some s) = s) as Hd.
  { intros s. destruct (is_empty s) eqn:E; [|done]. by apply bool_decide_eq_true in E. }
  rewrite !Hd in Hconfig, Hunit. eexists. split; [exact Hpath|]. split; [exact Hunit|]. split.
  - assert (Forall (fun v => toml_plain v = true) [node_id env; na_listen_addr addrs; na_public_addr addrs; control_url;
      secret; pin; relay_addr; wss_relay_url]) as Hvalues by (repeat constructor; assumption).
    rewrite Hpath. unfold load_from_path, with_context, mbind, eff_bind, read_to_string, gets, lift, mret, eff_ret, id.
    rewrite Hreads. unfold contents_of in Hconfig.
    destruct (dk_nodes n' !! il_node_config_path _) as [[|c mode]|]; [done| |done]. injection Hconfig as ->.
    destruct (node_config_utf8 _ _ _ _ _ _ _ _ Hvalues) as [chars ->].
    rewrite (node_config_read toml_node _ _ _ _ _ _ _ _ Hvalues), services_beside, Hfile.
    destruct (load_services_from_path _ _ n') as [r n2]. cbn in Hservices. by subst r.
  - destruct (node_unit_env macos root (layout_new macos env root) control_url secret pin relay_addr wss_relay_url)
      as (_ & Hes & Hep & _); [|done]. repeat constructor; first [assumption | by apply toml_plain_value].
Qed.
End NodeHost.

(** ** Properties *)

(** C20. An installed control plane serves the clients it invites.  When [init_control] ends well,
    the invite it prints can be read; and the control plane that systemd starts from the unit
    it wrote, on the disk it left, listens on the configured address, has the client secret
    of the invite and serves TLS with the certificate of its pin: a client that joins with
    it, at a URL that leads to the host, is connected to it and no other server. *)
Theorem installed_control_plane_serves_its_clients `{Urls} `{FormUrlencodedOk} `{Sha256Ok}
    (macos : bool) (env : string -> option string) (command : string -> list string -> eff disk command_output)
    (self_signed : string -> list string -> result generated_cert) (service_ca : result generated_cert)
    (root bind_addr control_url relay_bind_addr relay_addr wss_relay_url : string) (external reconfigure : bool)
    (secret_time client_time : Z) (d d' : disk) (report : init_control_report)
    (pem_certs : string -> result (list (list byte))) (pem_private_key : string -> result (option (list byte)))
    (with_single_cert : list (list byte) -> list byte -> result unit)
    (Hin : installable macos env command self_signed root bind_addr control_url relay_bind_addr relay_addr wss_relay_url
             secret_time client_time pem_certs)
    (Hrun : control_installed macos env command self_signed service_ca root bind_addr control_url relay_bind_addr
              relay_addr wss_relay_url external reconfigure secret_time client_time d d' report) :
  exists i unit,
    parse_invite (ir_invite report) = Ok i /\
    contents_of (il_control_unit_path (layout_new macos env root)) d' = Some unit /\
    forall srv, started_by d' pem_certs pem_private_key with_single_cert unit srv ->
      cv_bind_addr srv = bind_addr /\
      forall client_env s authority server_name_ok reached,
        join_network client_env i = Ok s -> as_server_url s = origin authority ->
        listening server_name_ok reached authority ->
        pinned s = true /\ as_client_secret s = cs_client_secret (cv_state srv) /\
        reachable server_name_ok reached (cv_tls srv) authority (as_control_pin s).
Proof.
  destruct (installed_control macos env command self_signed service_ca root bind_addr control_url relay_bind_addr
    relay_addr wss_relay_url external reconfigure secret_time client_time d d' report pem_certs pem_private_key
    with_single_cert Hin Hrun) as (i & ni & unit & _ & Hi & _ & _ & _ & _ & _ & Hunit & _ & _ & Hserves).
  exists i, unit. split; [exact Hi|]. split; [exact Hunit|]. intros srv Hstarted.
  destruct (Hserves srv Hstarted) as (Hbind & Hsecret & _ & Htls). split; [exact Hbind|].
  intros client_env s authority server_name_ok reached Hjoin Horigin Hnet.
  destruct (parse_invite_pinned _ _ Hi) as [_ Hsec].
  unfold join_network in Hjoin. apply bind_ok in Hjoin as (url' & _ & [= <-]).
  cbn [as_control_pin as_client_secret as_security]. unfold pinned. cbn [as_security]. rewrite Hsec, Hsecret.
  split; [by rewrite bool_decide_eq_true_2|]. split; [done|]. by apply pin_reaches.
Qed.

(** C21. A node installed with the invite of a control plane joins it.  The agent that systemd starts
    from what [init_node] left has, in its configuration and its environment, the shared
    secret that the control plane accepts registrations with, and the pin of the certificate
    it is served with: where the network leads to the control plane, a registration reaches
    it and no other server.  The relay that the control plane's host runs has the same
    secret, so it accepts the node's hellos; and the agent keeps four TCP connections to the
    relay's address, also when an external WSS relay was configured and the relay that
    listens there was set to WSS. *)
Theorem installed_nodes_join_their_control_plane `{Urls} `{FormUrlencodedOk} `{Sha256Ok}
    (macos : bool) (env : string -> option string) (command : string -> list string -> eff disk command_output)
    (self_signed : string -> list string -> result generated_cert) (service_ca : result generated_cert)
    (root bind_addr control_url relay_bind_addr relay_addr wss_relay_url : string) (external reconfigure : bool)
    (secret_time client_time : Z) (d d' : disk) (report : init_control_report)
    (pem_certs : string -> result (list (list byte))) (pem_private_key : string -> result (option (list byte)))
    (with_single_cert : list (list byte) -> list byte -> result unit)
    (node_macos : bool) (node_env : string -> option string)
    (node_command : string -> list string -> eff disk command_output) (fetch_ssh_ca : string -> string -> result string)
    (node_root : string) (addrs : node_addrs) (node_reconfigure : bool) (profile : node_invite) (path : string)
    (n n' : disk) (toml_node : string -> result node_config) (toml_services : string -> result (list service_config))
    (services : list service_config) (url_of : string -> option url) (url_with : url -> string -> string -> string)
    (Hin : installable macos env command self_signed root bind_addr control_url relay_bind_addr relay_addr wss_relay_url
             secret_time client_time pem_certs)
    (Hrun : control_installed macos env command self_signed service_ca root bind_addr control_url relay_bind_addr
              relay_addr wss_relay_url external reconfigure secret_time client_time d d' report)
    (Hhost : node_host node_macos node_env node_command node_root addrs n' toml_node toml_services services control_url
               relay_addr wss_relay_url)
    (Hprofile : parse_node_invite (ir_node_invite report) = Ok profile)
    (Hnode : init_node_at node_macos node_env node_command fetch_ssh_ca node_root profile addrs node_reconfigure n
             = (Ok path, n')) :
  exists unit relay_unit node_unit cfg,
    contents_of (il_control_unit_path (layout_new macos env root)) d' = Some unit /\
    contents_of (il_relay_unit_path (layout_new macos env root)) d' = Some relay_unit /\
    contents_of (il_node_unit_path (layout_new node_macos node_env node_root)) n' = Some node_unit /\
    (load_from_path toml_node toml_services path n').1 = Ok cfg /\
    nc_node_id cfg = node_id node_env /\ nc_services cfg = services /\ nc_control_url cfg = Some control_url /\
    (relay_addr <> EmptyString ->
     take 4 (configured_connectors (unit_env node_unit) url_of url_with cfg) = replicate 4 (TcpConnector relay_addr)) /\
    forall srv, started_by d' pem_certs pem_private_key with_single_cert unit srv ->
      agent_shared_secret (unit_env node_unit) cfg = cs_shared_secret (cv_state srv) /\
      relay_main (unit_env relay_unit)
        = Ok (if external then WssMode else TcpMode, relay_bind_addr, cs_shared_secret (cv_state srv)) /\
      forall authority server_name_ok reached,
        control_url = origin authority -> listening server_name_ok reached authority ->
        exists pin, first_of (nc_control_pin cfg) (unit_env node_unit "MEDIUM_CONTROL_PIN") = Some pin /\
          reachable server_name_ok reached (cv_tls srv) authority pin.
Proof.
  destruct (installed_control macos env command self_signed service_ca root bind_addr control_url relay_bind_addr
    relay_addr wss_relay_url external reconfigure secret_time client_time d d' report pem_certs pem_private_key
    with_single_cert Hin Hrun) as (i & ni & unit & relay_unit & _ & Hni & Hprof & Hpin & Hsecret & Hfilled & Hunit &
    Hrelay & Hrelay_text & Hserves).
  rewrite Hprofile in Hni. injection Hni as <-.
  destruct (installed_node _ _ _ _ _ _ _ _ _ _ _ _ _ _ _ _ _ _ _ Hhost Hprof Hsecret Hpin Hnode)
    as (node_unit & _ & Hnode_unit & Hload & _).
  destruct (node_config_settings (node_id node_env) (na_listen_addr addrs) (na_public_addr addrs) control_url
    (make_token "medium-shared-secret" secret_time) (in_control_pin i) relay_addr wss_relay_url)
    as (Hid & _ & _ & Hcurl & Hcsecret & Hcpin & Hcrelay & _).
  exists unit, relay_unit, node_unit. eexists. do 3 (split; [eassumption|]). split; [exact Hload|].
  split; [exact Hid|]. split; [done|]. split; [exact Hcurl|]. split.
  { intros Hne. unfold configured_connectors, set_services. cbn [nc_relay_addr]. rewrite Hcrelay.
    rewrite plain_filled; [done| |done]. pose proof (in_plain _ _ _ _ _ _ _ _ _ _ _ _ _ Hin) as Hplain.
    cbv zeta in Hplain. rewrite !list.Forall_cons in Hplain. by destruct_and!. }
  intros srv Hstarted. destruct (Hserves srv Hstarted) as (_ & _ & Hshared & Htls).
  rewrite <- Hshared, Hprof. cbn [ni_shared_secret]. split; [|split].
  - unfold agent_shared_secret, set_services. cbn [nc_shared_secret]. by rewrite Hcsecret.
  - pose proof (in_relay_plain _ _ _ _ _ _ _ _ _ _ _ _ _ Hin) as Hplain. rewrite !list.Forall_cons in Hplain. destruct_and!.
    destruct (relay_unit_env macos root relay_bind_addr (make_token "medium-shared-secret" secret_time) external)
      as (Hb & Hs & Hm). { repeat constructor; first [assumption | by apply toml_plain_value]. }
    unfold relay_main, relay_config_default. rewrite Hrelay_text, Hb, Hs, Hm. cbn [rc_shared_secret rc_bind_addr default].
    rewrite Hfilled. by destruct external.
  - intros authority server_name_ok reached -> Hnet. exists (in_control_pin i). split.
    + unfold set_services. cbn [nc_control_pin]. by rewrite Hcpin.
    + by apply pin_reaches.
Qed.

(** ** Witnesses *)

Definition deployed : result init_control_report * disk :=
  @init_control_at sample_urls toy_form toy_sha256 false toy_env toy_command toy_self_signed
    (Ok (GeneratedCert [x64] "CA" "CAKEY")) 31 255 "/srv" "0.0.0.0:443" "https://control.example"
    "0.0.0.0:7001" "relay.example:7001" "wss://control.example/medium/v1/relay" false false toy_root_disk.
Definition deployed_report : init_control_report :=
  default (InitControlReport EmptyString EmptyString EmptyString EmptyString) (result_ok deployed.1).
Definition deployed_unit : string :=
  default EmptyString (contents_of "/srv/etc/systemd/system/medium-control-plane.service" deployed.2).
Definition deployed_certs (pem : string) : result (list (list byte)) :=
  if pem =?s "CERT" then Ok [[x63]] else Err (EExt "pem").
Definition deployed_control : result control_server :=
  control_main (unit_env deployed_unit) (reads deployed.2) deployed_certs (fun _ => Ok (Some [x6b])) (fun _ _ => Ok tt)
    (fun _ => Ok empty_database) (fun _ => Ok tt).
Definition deployed_server : control_server :=
  default (ControlServer EmptyString (ControlState empty_database "" "" "" None None None None None None) None)
    (result_ok deployed_control).
Definition deployed_invite : invite :=
  default (Invite 0 EmptyString EmptyString EmptyString None) (result_ok (@parse_invite (ir_invite deployed_report))).
Definition deployed_client : app_state :=
  default (AppState EmptyString EmptyString EmptyString 0 EmptyString EmptyString EmptyString)
    (result_ok (@join_network sample_urls (fun _ => None) deployed_invite)).
Definition deployed_reached (addr : string) : bool := addr =?s "control.example:443".
Lemma deployed_installable :
  @installable sample_urls false toy_env toy_command toy_self_signed "/srv" "0.0.0.0:443"
    "https://control.example" "0.0.0.0:7001" "relay.example:7001" "wss://control.example/medium/v1/relay" 31 255
    deployed_certs.
Proof.
  constructor.
  - by intros name names cert [= <-].
  - intros name args p n _ _ d r d' Hd [= _ <-]. exact Hd.
  - reflexivity.
  - cbv zeta. repeat constructor; vm_compute; reflexivity.
  - repeat constructor; vm_compute; reflexivity.
  - split; [|repeat split; [by eexists|..]; reflexivity].
    split; [discriminate|]. split; [reflexivity|]. eexists. split; [reflexivity|]. split; [by right|].
    split; [by eexists|]. vm_compute. reflexivity.
  - repeat split; [by eexists|..]; reflexivity.
  - split; [by eexists|vm_compute; reflexivity].
  - split; discriminate.
Qed.
Lemma installed_control_plane_serves_its_clients_witness :
  deployed_control = Ok deployed_server /\ cv_bind_addr deployed_server = "0.0.0.0:443" /\
  as_client_secret deployed_client = cs_client_secret (cv_state deployed_server) /\
  as_client_secret deployed_client = "medium-client-secret-ff" /\
  @reachable sample_urls toy_sha256 (fun _ => true) deployed_reached (cv_tls deployed_server) "control.example"
    (as_control_pin deployed_client).
Proof.
  assert (deployed_control = Ok deployed_server) as Hmain by (vm_compute; reflexivity). split; [exact Hmain|].
  assert (deployed = (Ok deployed_report, deployed.2)) as Hrun by (vm_compute; reflexivity).
  destruct (@installed_control_plane_serves_its_clients sample_urls toy_form toy_form_ok toy_sha256 toy_sha256_ok false
    toy_env toy_command toy_self_signed (Ok (GeneratedCert [x64] "CA" "CAKEY")) "/srv" "0.0.0.0:443"
    "https://control.example" "0.0.0.0:7001" "relay.example:7001" "wss://control.example/medium/v1/relay" false false
    31 255 toy_root_disk deployed.2 deployed_report deployed_certs (fun _ => Ok (Some [x6b])) (fun _ _ => Ok tt)
    deployed_installable Hrun) as (i & unit & Hi & Hunit & Hserves).
  - assert (i = deployed_invite) as -> by (unfold deployed_invite; by rewrite Hi).
    assert (unit = deployed_unit) as ->.
    { change (contents_of "/srv/etc/systemd/system/medium-control-plane.service" deployed.2 = Some unit) in Hunit.
      unfold deployed_unit. by rewrite Hunit. }
    destruct (Hserves deployed_server) as [Hbind Hclients].
    { exists (fun _ => Ok empty_database), (fun _ => Ok tt). exact Hmain. }
    split; [exact Hbind|].
    destruct (Hclients (fun _ => None) deployed_client "control.example" (fun _ => true) deployed_reached)
      as (_ & Hsecret & Hreach).
    + vm_compute. reflexivity.
    + vm_compute. reflexivity.
    + split; [split; [done|by vm_compute]|]. eexists _, _, _. split; [vm_compute; reflexivity|].
      split_and!; try reflexivity. apply (bool_decide_unpack _). by vm_compute.
    + split; [exact Hsecret|]. split; [vm_compute; reflexivity|exact Hreach].
Defined.

(** A TOML parser that reads the installer's files, and a node installed with the invite. *)
Definition simple_toml_node (raw : string) : result node_config :=
  let values := parse_simple_toml_strings raw in
  let field key := values !! key in
  Ok (NodeConfig (default EmptyString (field "node_id")) (field "node_label") (default default_bind_addr (field "bind_addr"))
    (default default_ice_bind_addr (field "ice_bind_addr")) (field "public_addr") (field "ice_public_addr") []
    (field "control_url") (field "control_pin") (field "shared_secret") (field "relay_addr") (field "wss_relay_url")
    (field "ice_relay_addr") (field "service_ca_cert_pem") (field "service_ca_key_pem") []).
Lemma fold_insert_value (l : list (string * string)) (m : gmap string string) key :
  NoDup l.*1 -> fold_left (fun m '(k, v) => <[k := v]> m) l m !! key = first_of (value_of key l) (m !! key).
Proof.
  revert m; induction l as [|[k v] l IH]; intros m; [done|]. cbn. intros [Hk Hnd]%list.NoDup_cons.
  rewrite IH by done. unfold value_of. cbn [List.find fst]. destruct (decide (k = key)) as [->|Hne].
  - rewrite bool_decide_eq_true_2 by done. rewrite lookup_insert_eq.
    destruct (List.find _ l) as [[k' v']|] eqn:E; [|done]. exfalso. apply List.find_some in E as [Hin Hk'].
    apply bool_decide_eq_true in Hk'. cbn in Hk'. subst k'. apply Hk. apply list_elem_of_fmap. exists (key, v').
    split; [done|]. by apply list_elem_of_In.
  - rewrite bool_decide_eq_false_2 by done. by rewrite lookup_insert_ne.
Qed.
Lemma simple_toml_ok : NodeTomlOk simple_toml_node.
Proof.
  constructor. intros entries Hnd Hkeys Hvalues Hid.
  assert (Forall (fun e => entry_ok e /\ one_line e.1) entries) as Hok.
  { apply list.Forall_forall. intros e He. rewrite list.Forall_forall in Hkeys, Hvalues.
    destruct (toml_plain_value _ (Hvalues e He)) as [_ Hv]. specialize (Hkeys e He).
    destruct e as [k v]. cbn [fst snd] in *. rewrite !elem_of_cons in Hkeys.
    repeat match goal with H : _ \/ _ |- _ => destruct H as [->|H] end; try by apply elem_of_nil in Hkeys.
    all: by repeat split. }
  assert (forall key, parse_simple_toml_strings (text_lines (map entry_line entries)) !! key = value_of key entries) as Hget.
  { intros key. unfold parse_simple_toml_strings. rewrite lines_text_lines.
    - replace (omap parse_simple_toml_string_line (map entry_line entries)) with entries.
      + rewrite fold_insert_value by done. by destruct (value_of key entries).
      + clear -Hok. induction Hok as [|e es [He _] _ IH]; [done|]. cbn [map omap list_omap].
        rewrite read_entry_line by done. by rewrite <- IH.
    - destruct entries; [by apply elem_of_nil in Hid|done].
    - apply list.Forall_fmap. eapply list.Forall_impl; [exact Hok|]. intros e [[_ Hv] Hl]. by apply entry_one_line. }
  unfold simple_toml_node, config_of. by rewrite !Hget.
Qed.

Definition deployed_profile : node_invite :=
  default (NodeInvite EmptyString EmptyString EmptyString None None None None None)
    (result_ok (@parse_node_invite sample_urls toy_form (ir_node_invite deployed_report))).
Definition deployed_addrs : node_addrs := NodeAddrs "0.0.0.0:17001" "192.0.2.7:17001".
Definition deployed_node : result string * disk :=
  init_node_at false toy_env toy_command (fun _ _ => Ok "ssh-ed25519 CA") "/srv" deployed_profile deployed_addrs false
    toy_root_disk.
Definition deployed_node_env : string -> option string :=
  unit_env (default EmptyString (contents_of "/srv/etc/systemd/system/medium-node-agent.service" deployed_node.2)).
Lemma deployed_node_host :
  node_host false toy_env toy_command "/srv" deployed_addrs deployed_node.2 simple_toml_node (fun _ => Ok []) []
    "https://control.example" "relay.example:7001" "wss://control.example/medium/v1/relay".
Proof.
  constructor.
  - exact simple_toml_ok.
  - intros name args p n _ _ d r d' Hd [= _ <-]. exact Hd.
  - reflexivity.
  - repeat constructor; vm_compute; reflexivity.
  - repeat constructor; vm_compute; reflexivity.
  - vm_compute. reflexivity.
  - split; vm_compute; reflexivity.
Qed.
Lemma installed_nodes_join_their_control_plane_witness :
  exists cfg, (load_from_path simple_toml_node (fun _ => Ok []) "/srv/home/.medium/node.toml" deployed_node.2).1 = Ok cfg /\
    agent_shared_secret deployed_node_env cfg = cs_shared_secret (cv_state deployed_server) /\
    exists pin, first_of (nc_control_pin cfg) (deployed_node_env "MEDIUM_CONTROL_PIN") = Some pin /\
      @reachable sample_urls toy_sha256 (fun _ => true) deployed_reached (cv_tls deployed_server) "control.example" pin.
Proof.
  assert (deployed_control = Ok deployed_server) as Hmain by (vm_compute; reflexivity).
  assert (deployed = (Ok deployed_report, deployed.2)) as Hrun by (vm_compute; reflexivity).
  assert (@parse_node_invite sample_urls toy_form (ir_node_invite deployed_report) = Ok deployed_profile) as Hprofile by (vm_compute; reflexivity).
  assert (deployed_node = (Ok "/srv/home/.medium/node.toml", deployed_node.2)) as Hnode by (vm_compute; reflexivity).
  destruct (@installed_nodes_join_their_control_plane sample_urls toy_form toy_form_ok toy_sha256 toy_sha256_ok false
    toy_env toy_command toy_self_signed (Ok (GeneratedCert [x64] "CA" "CAKEY")) "/srv" "0.0.0.0:443"
    "https://control.example" "0.0.0.0:7001" "relay.example:7001" "wss://control.example/medium/v1/relay" false false
    31 255 toy_root_disk deployed.2 deployed_report deployed_certs (fun _ => Ok (Some [x6b])) (fun _ _ => Ok tt)
    false toy_env toy_command (fun _ _ => Ok "ssh-ed25519 CA") "/srv" deployed_addrs false deployed_profile
    "/srv/home/.medium/node.toml" toy_root_disk deployed_node.2 simple_toml_node (fun _ => Ok []) []
    (fun _ => None) (fun _ _ _ => EmptyString)
    deployed_installable Hrun deployed_node_host Hprofile Hnode)
    as (unit & relay_unit & node_unit & cfg & Hunit & _ & Hnode_unit & Hload & _ & _ & _ & _ & Hserves).
  change (contents_of "/srv/etc/systemd/system/medium-control-plane.service" deployed.2 = Some unit) in Hunit.
  change (contents_of "/srv/etc/systemd/system/medium-node-agent.service" deployed_node.2 = Some node_unit) in Hnode_unit.
  exists cfg. split; [exact Hload|]. unfold deployed_node_env. rewrite Hnode_unit. cbn [default].
  destruct (Hserves deployed_server) as (Hsecret & _ & Hreach).
  { exists (fun _ => Ok empty_database), (fun _ => Ok tt). unfold deployed_control, deployed_unit in Hmain.
    rewrite Hunit in Hmain. exact Hmain. }
  split; [exact Hsecret|]. apply Hreach; [vm_compute; reflexivity|].
  split; [split; [done|by vm_compute]|]. eexists _, _, _. split; [vm_compute; reflexivity|].
  split_and!; try reflexivity. apply (bool_decide_unpack _). by vm_compute.
Defined.
