(* ===== verification/CliArgs.v ===== *)
(** * The command line and the SSH command

    The first half of [apps/medium-cli/src/cli.rs]: the commands, their parsing, and the
    arguments [medium ssh] gives to OpenSSH, whose [ProxyCommand] runs [medium] again.  The
    shell that runs the command is specified here, so that what the second [medium] is told
    is a theorem. *)

From S2P Require Import Prelude RustStd Install.

(** ** Commands *)

Inductive command :=
  | InitControl (reconfigure : bool)
  | InitNode (invite : string) (reconfigure : bool)
  | Run (config_path : string)
  | Join (invite : string)
  | Pair (server_url device_name : string)
  | Devices
  | Services
  | Ssh (device_name : string) (verbose force_relay : bool)
  | ControlDevices
  | ControlRestart
  | NodeRestart
  | Help
  | ProxySsh (device_name : string) (verbose force_relay : bool)
  | ProxyService (node_name service_id : string) (verbose force_relay : bool)
  | Doctor
  | Info
  | NormalizeLabel (value : string).
#[global] Instance command_eq_dec : EqDecision command.
Proof. solve_decision. Defined.

(** ** Options *)

Record ssh_options := SshOptions { so_device_name : string; so_verbose : bool; so_force_relay : bool }.
Record proxy_service_options := ProxyServiceOptions {
  po_node_name : string;
  po_service_id : string;
  po_verbose : bool;
  po_force_relay : bool
}.

Definition ssh_sync_removed : error := EMsg "medium ssh sync was removed; use `medium ssh <device>`".
Fixpoint ssh_options_loop (args : list string) (device_name : option string) (verbose force_relay : bool)
    : result ssh_options :=
  match args with
  | [] => device_name ← ok_or (EMsg "medium ssh requires a device") device_name;
          Ok (SshOptions device_name verbose force_relay)
  | arg :: rest =>
      if (arg =?s "-v") || (arg =?s "--verbose") then ssh_options_loop rest device_name true force_relay
      else if arg =?s "--relay" then ssh_options_loop rest device_name verbose true
      else if (arg =?s "sync") && bool_decide (device_name = None) then Err ssh_sync_removed
      else if starts_with "-" arg then Err (EMsg ("unknown medium ssh option: " +:+ arg))
      else match device_name with
           | Some _ => Err (EMsg "medium ssh accepts exactly one device")
           | None => ssh_options_loop rest (Some arg) verbose force_relay
           end
  end.
Definition parse_ssh_options (args : list string) : result ssh_options := ssh_options_loop args None false false.

Fixpoint proxy_ssh_options_loop (args : list string) (device_name : option string) (verbose force_relay : bool)
    : result ssh_options :=
  match args with
  | [] => device_name ← ok_or (EMsg "medium proxy ssh requires --device <name>") device_name;
          Ok (SshOptions device_name verbose force_relay)
  | arg :: rest =>
      if arg =?s "--device" then
        match rest with
        | [] => Err (EMsg "medium proxy ssh --device requires a value")
        | value :: rest =>
            match device_name with
            | Some _ => Err (EMsg "medium proxy ssh accepts one --device value")
            | None => proxy_ssh_options_loop rest (Some value) verbose force_relay
            end
        end
      else if arg =?s "--verbose" then proxy_ssh_options_loop rest device_name true force_relay
      else if arg =?s "--relay" then proxy_ssh_options_loop rest device_name verbose true
      else Err (EMsg ("unknown medium proxy ssh option: " +:+ arg))
  end.
Definition parse_proxy_ssh_options (args : list string) : result ssh_options :=
  proxy_ssh_options_loop args None false false.

Fixpoint proxy_service_options_loop (args : list string) (node_name service_id : option string)
    (verbose force_relay : bool) : result proxy_service_options :=
  match args with
  | [] => node_name ← ok_or (EMsg "medium proxy service requires --node <name>") node_name;
          service_id ← ok_or (EMsg "medium proxy service requires --service <id>") service_id;
          Ok (ProxyServiceOptions node_name service_id verbose force_relay)
  | arg :: rest =>
      if arg =?s "--node" then
        match rest with
        | [] => Err (EMsg "medium proxy service --node requires a value")
        | value :: rest =>
            match node_name with
            | Some _ => Err (EMsg "medium proxy service accepts one --node value")
            | None => proxy_service_options_loop rest (Some value) service_id verbose force_relay
            end
        end
      else if arg =?s "--service" then
        match rest with
        | [] => Err (EMsg "medium proxy service --service requires a value")
        | value :: rest =>
            match service_id with
            | Some _ => Err (EMsg "medium proxy service accepts one --service value")
            | None => proxy_service_options_loop rest node_name (Some value) verbose force_relay
            end
        end
      else if (arg =?s "-v") || (arg =?s "--verbose")
           then proxy_service_options_loop rest node_name service_id true force_relay
      else if arg =?s "--relay" then proxy_service_options_loop rest node_name service_id verbose true
      else Err (EMsg ("unknown medium proxy service option: " +:+ arg))
  end.
Definition parse_proxy_service_options (args : list string) : result proxy_service_options :=
  proxy_service_options_loop args None None false false.

(** ** [parse] *)

Section Parse.
(** [default_node_config_path(&install_root())]. *)
Context (default_config_path : string).
Definition ssh_command (rest : list string) : result command :=
  o ← parse_ssh_options rest; Ok (Ssh (so_device_name o) (so_verbose o) (so_force_relay o)).
Definition proxy_command (second : string) (rest : list string) (unknown : result command) : result command :=
  if second =?s "ssh" then
    o ← parse_proxy_ssh_options rest; Ok (ProxySsh (so_device_name o) (so_verbose o) (so_force_relay o))
  else if second =?s "service" then
    o ← parse_proxy_service_options rest;
    Ok (ProxyService (po_node_name o) (po_service_id o) (po_verbose o) (po_force_relay o))
  else unknown.
(** The arms of [parse], grouped by their first word. *)
Definition parse (args : list string) : result command :=
  match args with
  | [] => Err (EMsg ("missing argv[0]" +:+ String lf (String lf "Run: medium help")))
  | [_] => Ok Help
  | _ :: first :: rest =>
      let unknown := Err (EMsg ("unknown command: " +:+ first +:+ String lf (String lf "Run: medium help"))) in
      if (first =?s "help") || (first =?s "--help") || (first =?s "-h")
      then match rest with [] => Ok Help | _ => unknown end
      else if first =?s "init-control" then
        match rest with
        | [] => Ok (InitControl false)
        | [flag] => if flag =?s "--reconfigure" then Ok (InitControl true) else unknown
        | _ => unknown
        end
      else if first =?s "init-node" then
        match rest with
        | [invite] => Ok (InitNode invite false)
        | [invite; flag] => if flag =?s "--reconfigure" then Ok (InitNode invite true) else unknown
        | _ => unknown
        end
      else if first =?s "join" then match rest with [invite] => Ok (Join invite) | _ => unknown end
      else if first =?s "pair" then
        match rest with
        | [flag; server_url; device_flag; device_name] =>
            if (flag =?s "--server") && (device_flag =?s "--device") then Ok (Pair server_url device_name) else unknown
        | _ => unknown
        end
      else if first =?s "devices" then match rest with [] => Ok Devices | _ => unknown end
      else if first =?s "services" then match rest with [] => Ok Services | _ => unknown end
      else if first =?s "control" then
        match rest with
        | [second] => if second =?s "devices" then Ok ControlDevices
                      else if second =?s "restart" then Ok ControlRestart else unknown
        | _ => unknown
        end
      else if first =?s "node" then
        match rest with [second] => if second =?s "restart" then Ok NodeRestart else unknown | _ => unknown end
      else if first =?s "ssh" then
        match rest with
        | [second] => if second =?s "sync" then Err ssh_sync_removed else ssh_command rest
        | _ => ssh_command rest
        end
      else if first =?s "proxy" then
        match rest with second :: rest => proxy_command second rest unknown | [] => unknown end
      else if first =?s "doctor" then match rest with [] => Ok Doctor | _ => unknown end
      else if first =?s "run" then
        match rest with
        | [] => Ok (Run default_config_path)
        | [flag; path] => if flag =?s "--config" then Ok (Run path) else unknown
        | _ => unknown
        end
      else if first =?s "info" then match rest with [] => Ok Info | _ => unknown end
      else if first =?s "normalize-label" then match rest with [value] => Ok (NormalizeLabel value) | _ => unknown end
      else unknown
  end.
End Parse.

(** ** The arguments of OpenSSH *)

(** A quote in the value is closed, escaped and opened again. *)
Definition shell_quote (value : string) : string := "'" +:+ str_replace "'" "'\''" value +:+ "'".
Definition proxy_command_line (medium_exe_path device_name : string) (verbose force_relay : bool) : string :=
  shell_quote medium_exe_path +:+ " proxy ssh --device " +:+ shell_quote device_name
  +:+ (if verbose then " --verbose" else EmptyString) +:+ (if force_relay then " --relay" else EmptyString).
Definition ssh_command_args (device_name user_name private_key_path certificate_path medium_exe_path : string)
    (verbose force_relay : bool) : list string :=
  ["-l"; user_name; "-i"; private_key_path; "-o"; "IdentitiesOnly=yes";
   "-o"; "CertificateFile=" +:+ certificate_path; "-o"; "BatchMode=yes"; "-o"; "NumberOfPasswordPrompts=0";
   "-o"; "PreferredAuthentications=publickey"; "-o"; "StrictHostKeyChecking=no";
   "-o"; "UserKnownHostsFile=/dev/null"; "-o"; "GlobalKnownHostsFile=/dev/null";
   "-o"; "ConnectTimeout=45"; "-o"; "ConnectionAttempts=1";
   "-o"; "ProxyCommand=" +:+ proxy_command_line medium_exe_path device_name verbose force_relay;
   device_name].

(** ** The shell's and OpenSSH's reading of a command *)

(** The words of a simple command by the POSIX rules for blanks, single quotes and
    backslashes.  A character the shell could interpret otherwise, or a quote left open,
    gives [None]. *)
Inductive sh_mode := Between | InWord (cur : string) | InQuote (cur : string).
Definition sh_safe (c : ascii) : bool := is_ascii_alphanumeric c || char_in c "-_./,:=@+%".
Definition sh_blank (c : ascii) : bool := bool_decide (c = " "%char) || bool_decide (c = Ascii.ascii_of_nat 9).
Definition word_so_far (m : sh_mode) : string := match m with InWord cur | InQuote cur => cur | Between => EmptyString end.
Definition end_word (m : sh_mode) : list string := match m with InWord cur => [cur] | _ => [] end.
Definition snoc (s : string) (c : ascii) : string := s +:+ String c EmptyString.
Fixpoint sh_words (m : sh_mode) (s : string) : option (list string) :=
  match s with
  | EmptyString => match m with InQuote _ => None | _ => Some (end_word m) end
  | String c rest =>
      match m with
      | InQuote cur => if bool_decide (c = "'"%char) then sh_words (InWord cur) rest else sh_words (InQuote (snoc cur c)) rest
      | _ =>
          if sh_blank c then app (end_word m) <$> sh_words Between rest
          else if bool_decide (c = "'"%char) then sh_words (InQuote (word_so_far m)) rest
          else if bool_decide (c = "\"%char) then
            match rest with
            | String d rest => sh_words (InWord (snoc (word_so_far m) d)) rest
            | EmptyString => None
            end
          else if sh_safe c then sh_words (InWord (snoc (word_so_far m) c)) rest else None
      end
  end.
(** OpenSSH's expansion of the tokens of a [ProxyCommand]; an unknown token is an error. *)
Fixpoint ssh_expand (token : ascii -> option string) (s : string) : option string :=
  match s with
  | EmptyString => Some EmptyString
  | String "%" (String c rest) => t ← token c; r ← ssh_expand token rest; Some (t +:+ r)
  | String "%" EmptyString => None
  | String c rest => String c <$> ssh_expand token rest
  end.

Lemma ssh_expand_plain token s : char_in "%" s = false -> ssh_expand token s = Some s.
Proof.
  induction s as [|c s IH]; [done|]. cbn [char_in]. intros [Hc Hs]%orb_false_iff. apply bool_decide_eq_false in Hc.
  specialize (IH Hs). cbn [ssh_expand]. rewrite IH.
  destruct c as [[|] [|] [|] [|] [|] [|] [|] [|]]; try reflexivity. by destruct Hc.
Qed.
Lemma replace_loop_char fuel d r s :
  (String.length s <= fuel)%nat -> replace_loop fuel (String d EmptyString) r s = replace_char d r s.
Proof.
  revert fuel. induction s as [|c s IH]; intros fuel Hfuel; [by destruct fuel|].
  cbn [String.length] in Hfuel. destruct fuel as [|fuel]; [lia|]. cbn [replace_char].
  destruct (decide (c = d)) as [->|Hne].
  - rewrite bool_decide_eq_true_2 by done. cbn [replace_loop]. rewrite (split_once_here (String d EmptyString) s : split_once _ (String d s) = _).
    cbn [String.append]. by rewrite IH by lia.
  - rewrite bool_decide_eq_false_2 by done. specialize (IH (S fuel)). cbn [replace_loop] in *.
    rewrite split_once_skip by (cbn; by rewrite bool_decide_eq_false_2 by congruence).
    rewrite <- IH by lia. by destruct (split_once (String d EmptyString) s) as [[a b]|].
Qed.
Lemma shell_quote_chars v : shell_quote v = "'" +:+ replace_char "'" "'\''" v +:+ "'".
Proof. unfold shell_quote, str_replace. by rewrite replace_loop_char. Qed.

(** Whatever the value, the shell reads its quoted form back. *)
Lemma sh_quoted_chars v cur rest :
  sh_words (InQuote cur) (replace_char "'" "'\''" v +:+ String "'" rest) = sh_words (InWord (cur +:+ v)) rest.
Proof.
  revert cur. induction v as [|c v IH]; intros cur.
  - cbn. by rewrite string_app_nil_r.
  - assert (cur +:+ String c v = snoc cur c +:+ v) as -> by (unfold snoc; by rewrite <- string_app_assoc).
    cbn [replace_char]. rewrite <- string_app_assoc. case_bool_decide as Hc.
    + subst c. cbn [String.append]. rewrite <- IH. reflexivity.
    + cbn [String.append]. rewrite <- IH. cbn [sh_words]. by rewrite bool_decide_eq_false_2.
Qed.
Lemma sh_quoted m v rest :
  (m = Between \/ exists cur, m = InWord cur) ->
  sh_words m (shell_quote v +:+ rest) = sh_words (InWord (word_so_far m +:+ v)) rest.
Proof.
  intros Hm. rewrite shell_quote_chars, <- !string_app_assoc. rewrite <- sh_quoted_chars.
  by destruct Hm as [->|[cur ->]].
Qed.
Lemma sh_safe_word m w rest :
  (m = Between \/ exists cur, m = InWord cur) -> string_all sh_safe w = true -> w <> EmptyString ->
  sh_words m (w +:+ rest) = sh_words (InWord (word_so_far m +:+ w)) rest.
Proof.
  revert m. induction w as [|c w IH]; intros m Hm Hw Hne; [done|]. cbn [string_all] in Hw. apply andb_true_iff in Hw as [Hc Hw].
  pose proof (ascii_forallb (fun c => negb (sh_safe c) || negb (sh_blank c || bool_decide (c = "'"%char)
    || bool_decide (c = "\"%char))) eq_refl c) as Hs. cbv beta in Hs. rewrite Hc in Hs. cbn [negb orb] in Hs.
  apply negb_true_iff, orb_false_iff in Hs as [[Hb Hq]%orb_false_iff Hbs].
  assert (sh_words m (String c (w +:+ rest)) = sh_words (InWord (snoc (word_so_far m) c)) (w +:+ rest)) as Hstep.
  { destruct Hm as [->|[cur ->]]; cbn [sh_words]; by rewrite Hb, Hq, Hbs, Hc. }
  cbn [String.append]. rewrite Hstep. destruct w as [|c' w]; [done|].
  rewrite IH by (done || (right; by eexists)). cbn [word_so_far]. unfold snoc. by rewrite <- string_app_assoc.
Qed.
Lemma sh_next_word cur w rest :
  string_all sh_safe w = true -> w <> EmptyString ->
  sh_words (InWord cur) (" " +:+ w +:+ rest) = cons cur <$> sh_words (InWord w) rest.
Proof.
  intros Hw Hne. change (sh_words (InWord cur) (" " +:+ w +:+ rest)) with (app [cur] <$> sh_words Between (w +:+ rest)).
  by rewrite sh_safe_word by (done || by left).
Qed.
Lemma sh_proxy_command exe device verbose force_relay :
  sh_words Between (proxy_command_line exe device verbose force_relay)
  = Some ([exe; "proxy"; "ssh"; "--device"; device] ++ (if verbose then ["--verbose"] else [])
          ++ (if force_relay then ["--relay"] else [])).
Proof.
  unfold proxy_command_line. rewrite sh_quoted by by left. cbn [word_so_far].
  set (rest := shell_quote device +:+ _).
  change (" proxy ssh --device " +:+ rest) with (" " +:+ "proxy" +:+ " " +:+ "ssh" +:+ " " +:+ "--device" +:+ " " +:+ rest).
  rewrite !sh_next_word by done. change (sh_words (InWord "--device") (" " +:+ rest)) with (app ["--device"] <$> sh_words Between rest).
  unfold rest. rewrite sh_quoted by by left. cbn [word_so_far].
  destruct verbose, force_relay; cbn [String.append app].
  - change " --verbose --relay" with (" " +:+ "--verbose" +:+ " " +:+ "--relay" +:+ EmptyString). by rewrite !sh_next_word.
  - change " --verbose" with (" " +:+ "--verbose" +:+ EmptyString). by rewrite !sh_next_word.
  - change " --relay" with (" " +:+ "--relay" +:+ EmptyString). by rewrite !sh_next_word.
  - done.
Qed.
Lemma char_in_replace d r v c : char_in c r = false -> char_in c v = false -> char_in c (replace_char d r v) = false.
Proof.
  intros Hr. induction v as [|x v IH]; [done|]. cbn [char_in replace_char]. intros [Hx Hv]%orb_false_iff.
  rewrite char_in_app, (IH Hv), orb_false_r. destruct (bool_decide (x = d)); [done|]. cbn [char_in]. by rewrite Hx.
Qed.
Lemma shell_quote_no_percent v : char_in "%" v = false -> char_in "%" (shell_quote v) = false.
Proof. intros Hv. rewrite shell_quote_chars, !char_in_app. by rewrite char_in_replace. Qed.

(** The device of an accepted [medium ssh] command line never looks like an option. *)
Lemma ssh_options_device args device verbose force_relay o :
  ssh_options_loop args device verbose force_relay = Ok o ->
  (forall d, device = Some d -> starts_with "-" d = false) -> starts_with "-" (so_device_name o) = false.
Proof.
  revert device verbose force_relay. induction args as [|arg args IH]; intros device verbose force_relay; cbn [ssh_options_loop].
  - destruct device as [d|]; [|done]. intros [= <-] Hd. by apply Hd.
  - destruct (_ || _); [by apply IH|]. destruct (arg =?s "--relay"); [by apply IH|].
    destruct (_ && _); [done|]. destruct (starts_with "-" arg) eqn:E; [done|].
    destruct device; [done|]. intros Hl _. eapply IH; [exact Hl|]. by intros d [= <-].
Qed.

(** ** The proxy of an SSH session *)

(** C28. [medium ssh] has OpenSSH run [medium proxy ssh] on the device it was asked for: with the
    options it accepted, the words the shell makes of the [ProxyCommand] parse as the proxy
    command for the same device and flags, whatever quotes and blanks the device's name and
    the program's path hold, as long as neither holds a percent sign.  The device, last on
    OpenSSH's command line, is not taken for an option. *)
Theorem ssh_proxies_the_named_device (args : list string) (o : ssh_options)
    (user_name key certificate exe config_path : string) (token : ascii -> option string)
    (Hparse : parse_ssh_options args = Ok o)
    (Hpercent : char_in "%" exe = false /\ char_in "%" (so_device_name o) = false) :
  exists line expanded words,
    ("ProxyCommand=" +:+ line) ∈ ssh_command_args (so_device_name o) user_name key certificate exe
                                   (so_verbose o) (so_force_relay o) /\
    ssh_expand token line = Some expanded /\ sh_words Between expanded = Some words /\
    head words = Some exe /\
    parse config_path words = Ok (ProxySsh (so_device_name o) (so_verbose o) (so_force_relay o)) /\
    list.last (ssh_command_args (so_device_name o) user_name key certificate exe (so_verbose o) (so_force_relay o))
      = Some (so_device_name o) /\
    starts_with "-" (so_device_name o) = false.
Proof.
  destruct Hpercent as [He Hd]. eexists _, _, _. split.
  { unfold ssh_command_args. do 25 apply list_elem_of_further. apply list_elem_of_here. }
  split; [|split; [apply sh_proxy_command|]].
  - apply ssh_expand_plain. unfold proxy_command_line. rewrite !char_in_app, !shell_quote_no_percent by done.
    by destruct (so_verbose o), (so_force_relay o).
  - split; [done|]. split; [by destruct (so_verbose o), (so_force_relay o)|]. split; [done|].
    by eapply ssh_options_device.
Qed.
Lemma ssh_proxies_the_named_device_witness :
  parse_ssh_options ["--relay"; "bob's mac"] = Ok (SshOptions "bob's mac" false true) /\
  exists words, parse "node.toml" words = Ok (ProxySsh "bob's mac" false true).
Proof.
  split; [reflexivity|].
  destruct (ssh_proxies_the_named_device ["--relay"; "bob's mac"] (SshOptions "bob's mac" false true) "overlay" "key"
    "cert" "/opt/it's/medium" "node.toml" (fun _ => None)) as (_ & _ & words & _ & _ & _ & _ & Hp & _).
  - reflexivity.
  - split; reflexivity.
  - by exists words.
Defined.
