(* ===== verification/Cli.v ===== *)
(** * The commands of the client

    The second half of [apps/medium-cli/src/cli.rs]: the reports on devices, services and
    the registry, the SSH and service proxies with the loop between the terminal and the
    session, the ephemeral key of [medium ssh], and [run_main], which runs a command.

    OpenSSH, ssh-keygen, sqlx, reqwest, rustls and the toml crate are parameters, as in the
    files this one requires. *)

From stdpp Require Import sorting.
From S2P Require Import Prelude RustStd Order NetAddr Net Rendezvous UdpListener Disk Protocol PinnedHttp Crypto Registry MediumSession Netstack HomeNode Invites ClientApi Install Doctor CliArgs.

(** ** Reports for a client *)

Definition render_devices (devices : list device_record) : string :=
  join (String lf EmptyString)
    (map (fun device =>
            match dr_ssh device with
            | Some ssh => dr_name device +:+ " ssh " +:+ se_user ssh +:+ "@" +:+ se_host ssh +:+ ":" +:+ dec (se_port ssh)
            | None => dr_name device +:+ " no-ssh"
            end) devices).
Definition published_endpoint (device : device_record) (service : published_service) : string :=
  match ps_kind service with
  | KHttp | KHttps => "https://" +:+ ps_id service +:+ ".medium/"
  | KSsh => "ssh://" +:+ default "overlay" (ps_user_name service) +:+ "@" +:+ dr_name device
  end.
Definition render_published_service (device : device_record) (service : published_service) : string :=
  let label := match ps_label service with
               | Some label => if label =?s ps_id service then EmptyString else " " +:+ dquote +:+ label +:+ dquote
               | None => EmptyString
               end in
  ps_id service +:+ " " +:+ service_kind_str (ps_kind service) +:+ label +:+ " "
  +:+ published_endpoint device service +:+ " -> " +:+ ps_target service.
(** The loop: the lines, and the number of services seen. *)
Definition render_device_services (st : list string * Z) (device : device_record) : list string * Z :=
  match dr_services device with
  | [] => st
  | services =>
      fold_left (fun '(output, services_seen) service =>
                   (output ++ ["  " +:+ render_published_service device service], services_seen + 1))
        services (st.1 ++ [dr_name device +:+ " (" +:+ dr_id device +:+ ")"], st.2)
  end.
Definition render_services (devices : list device_record) : string :=
  let '(output, services_seen) := fold_left render_device_services devices ([], 0) in
  if services_seen =? 0 then "no published services" else join (String lf EmptyString) output.

(** ** The report on the registry *)

(** A row of the left join: the node with its label and time stamp, and a service. *)
Record control_row := ControlRow {
  cr_node_id : string;
  cr_node_label : string;
  cr_last_seen_at : string;
  cr_service : option service_row
}.
(** [nodes n left join node_services ns on ns.node_id = n.id order by n.id, ns.id]; the time
    stamps, which [Registry.v] leaves out, are given. *)
Definition services_of_node (db : database) (node_id : string) : list service_row :=
  merge_sort service_le (filter (fun r => sv_node_id r = node_id) (db_services db)).
Definition node_control_rows (last_seen : string -> string) (db : database) (node : string * string) : list control_row :=
  match services_of_node db node.1 with
  | [] => [ControlRow node.1 node.2 (last_seen node.1) None]
  | services => map (fun r => ControlRow node.1 node.2 (last_seen node.1) (Some r)) services
  end.
Definition control_rows (last_seen : string -> string) (db : database) : list control_row :=
  merge_sort node_le (map_to_list (db_nodes db)) ≫= node_control_rows last_seen db.

Definition no_services_line : string := "  no published services".
Definition node_line (row : control_row) : string :=
  cr_node_label row +:+ " (" +:+ cr_node_id row +:+ ") last_seen=" +:+ cr_last_seen_at row.
Definition service_report_line (r : service_row) : string :=
  match sv_label r with
  | Some label =>
      if label =?s sv_id r then "  " +:+ sv_id r +:+ " " +:+ sv_kind r +:+ " -> " +:+ sv_target r
      else "  " +:+ sv_id r +:+ " " +:+ sv_kind r +:+ " " +:+ dquote +:+ label +:+ dquote +:+ " -> " +:+ sv_target r
  | None => "  " +:+ sv_id r +:+ " " +:+ sv_kind r +:+ " -> " +:+ sv_target r
  end.
(** The loop over the rows: the lines, the node they are under and its services so far. *)
Fixpoint render_rows (rows : list control_row) (output : list string) (current_node : string) (service_count : Z)
    : list string :=
  match rows with
  | [] => if service_count =? 0 then output ++ [no_services_line] else output
  | row :: rest =>
      let '(output, current_node, service_count) :=
        if cr_node_id row =?s current_node then (output, current_node, service_count)
        else (output ++ (if negb (is_empty current_node) && (service_count =? 0) then [no_services_line] else [])
                ++ [node_line row], cr_node_id row, 0) in
      match cr_service row with
      | Some r => render_rows rest (output ++ [service_report_line r]) current_node (service_count + 1)
      | None => render_rows rest output current_node service_count
      end
  end.

(** [find_map] stops at the first line that is the key's; a line without an equals sign or
    with another key is passed over, and so is one whose value has no quotes. *)
Definition toml_string_of (wanted_key line : string) : option string :=
  '(key, value) ← split_once "=" (uncommented line);
  if trim key =?s wanted_key then unquote (trim value) else None.
Definition parse_simple_toml_string (raw wanted_key : string) : option string :=
  head (omap (toml_string_of wanted_key) (lines raw)).

Section ControlDevices.
Context (macos : bool) (env : string -> option string) (show_error : error -> string).
(** sqlx: connecting to a URL, and then the answer to the query. *)
Context (connect : string -> result (result (list control_row))).
Definition render_control_devices : eff disk string :=
  let control_config_path := il_control_config_path (layout_new macos env (install_root env)) in
  read ← attempt (read_to_string control_config_path);
  match read with
  | Err error =>
      throw (EMsg ("control config not found at " +:+ control_config_path +:+ ": " +:+ show_error error))
  | Ok raw =>
      database_url ← lift (ok_or (EMsg "control config is missing database_url")
                             (parse_simple_toml_string raw "database_url"));
      fetched ← lift (connect database_url);
      match fetched with
      | Ok [] => mret "no registered nodes"
      | Ok rows => mret (join (String lf EmptyString) (render_rows rows [] EmptyString 0))
      | Err error =>
          if contains "no such table" (show_error error)
          then mret "control registry is not initialized; start medium-control-plane first"
          else throw error
      end
  end.
End ControlDevices.

(** ** Proxies *)

(** [normalize_hostname_label] is the function of the same name in the node's [proxy.rs],
    modelled in [HomeNode.v]: the loop, then the dashes popped from the end. *)
Definition cli_hostname_label (value : string) : string :=
  let output := hostname_loop (chars value ≫= char_to_lowercase) EmptyString false in
  let output := pop_dashes (String.length output) output in
  if is_empty output then "service" else output.
Definition service_medium_hostname (service : option published_service) (service_id : string) : string :=
  let label := default service_id (service ← service; ps_label service) in
  cli_hostname_label label +:+ ".medium".
Definition find_device (devices : list device_record) (name_or_id : string) : result device_record :=
  ok_or (EMsg ("unknown node " +:+ name_or_id))
    (List.find (fun device => (dr_name device =?s name_or_id) || (dr_id device =?s name_or_id)) devices).

(** *** The terminal *)

(** A round of the loop: the inputs of the terminal that have arrived, and what reading the
    stream then gives. *)
Record stdio_round := StdioRound { rd_inputs : list (result (list byte)); rd_read : result (list byte) }.
(** The rounds to come, the answers to the writes to the stream and to the terminal, and what
    was written. *)
Record stdio := Stdio {
  io_rounds : list stdio_round;
  io_writes : list (option error);
  io_shows : list (option error);
  io_sent : list byte;
  io_stdout : list byte
}.
(** The thread at standard input: a message for each read, up to the first that is empty or
    fails. *)
Fixpoint stdin_messages (reads : list (result (list byte))) : list (result (list byte)) :=
  match reads with
  | [] => []
  | Ok [] :: _ => [Ok []]
  | Ok bytes :: rest => Ok bytes :: stdin_messages rest
  | Err error :: _ => [Err error]
  end.
Definition stream_write_all (bytes : list byte) : eff stdio unit := fun s =>
  match io_writes s with
  | Some e :: rest => (Err e, Stdio (io_rounds s) rest (io_shows s) (io_sent s) (io_stdout s))
  | w => (Ok tt, Stdio (io_rounds s) (tail w) (io_shows s) (io_sent s ++ bytes) (io_stdout s))
  end.
Definition stdout_write_all (bytes : list byte) : eff stdio unit := fun s =>
  match io_shows s with
  | Some e :: rest => (Err e, Stdio (io_rounds s) (io_writes s) rest (io_sent s) (io_stdout s))
  | w => (Ok tt, Stdio (io_rounds s) (io_writes s) (tail w) (io_sent s) (io_stdout s ++ bytes))
  end.
Definition is_stdio_proxy_timeout (e : error) : bool :=
  match e with EIo WouldBlock | EIo TimedOut | EIo Interrupted => true | _ => false end.
Fixpoint send_inputs (inputs : list (result (list byte))) : eff stdio unit :=
  match inputs with
  | [] => mret tt
  | input :: rest =>
      input ← lift input;
      _ ← (match input with [] => mret tt | _ => stream_write_all input end);
      send_inputs rest
  end.
(** When the rounds end the proxy still runs: [out_of_fuel]. *)
Fixpoint pipe_loop (rounds : list stdio_round) : eff stdio unit :=
  match rounds with
  | [] => throw out_of_fuel
  | round :: rest =>
      _ ← send_inputs (rd_inputs round);
      match rd_read round with
      | Ok [] => mret tt
      | Ok bytes => _ ← stdout_write_all bytes; pipe_loop rest
      | Err error => if is_stdio_proxy_timeout error then pipe_loop rest else throw error
      end
  end.
Definition pipe_stdio_blocking : eff stdio unit := fun s => pipe_loop (io_rounds s) s.

(** *** The session *)

(** The process: its disk, its network, its terminal. *)
Record process := Process { p_disk : disk; p_dialer : dialer; p_stdio : stdio }.
Definition on_disk {A} : eff disk A -> eff process A :=
  zoom p_disk (fun d p => Process d (p_dialer p) (p_stdio p)).
Definition on_dialer {A} : eff dialer A -> eff process A :=
  zoom p_dialer (fun d p => Process (p_disk p) d (p_stdio p)).
Definition on_stdio {A} : eff stdio A -> eff process A :=
  zoom p_stdio (fun s p => Process (p_disk p) (p_dialer p) s).

Section Proxies.
Context `{Json udp_rendezvous_message} `{Json session_hello} `{Json relay_hello} `{Sha256} `{Urls}
  `{Json (list device_record)} `{Json session_open_grant}.
(** As in [MediumSession.v] and [ClientApi.v]. *)
Context (to_socket_addrs : string -> result (list socket_addr)) (show_error : error -> string)
  (pem_certs : string -> result (list (list byte))) (root_add : list byte -> result unit)
  (server_name_ok : string -> bool) (client_connection : string -> result unit)
  (exchange : string -> string -> pinned_cert_verifier -> list byte -> result (list byte))
  (plain_get : string -> result (list byte))
  (plain_get_query : string -> session_open_request -> result (list byte)).

Definition proxy_via_medium_session (grant : session_open_grant) (service_ca service_hostname : string)
    (control_pin : option string) (force_relay : bool) : eff process unit :=
  let mode := if force_relay then RelayOnly else Auto in
  let attempts := if force_relay then 2%nat else 1%nat in
  connected ← on_dialer (connect_session_service_tls to_socket_addrs url_parse show_error pem_certs root_add
                           server_name_ok client_connection grant (ConnectOptions mode control_pin None)
                           service_hostname service_ca attempts (millis 250));
  on_stdio pipe_stdio_blocking.
Definition run_proxy_device_service (state : app_state) (device : device_record) (service_id : string)
    (force_relay : bool) : eff process unit :=
  service ← lift (ok_or (EMsg ("node " +:+ dr_name device +:+ " has no service " +:+ service_id))
                    (List.find (fun service => ps_id service =?s service_id) (dr_services device)));
  let service_hostname := service_medium_hostname (Some service) service_id in
  service_ca ← lift (fetch_medium_ca server_name_ok exchange plain_get state);
  grant ← lift (open_session_for_node server_name_ok exchange plain_get_query state (Some (dr_id device)) service_id);
  let control_pin := if as_security state =?s "pinned-tls" then Some (as_control_pin state) else None in
  proxy_via_medium_session grant service_ca service_hostname control_pin force_relay.
Definition run_proxy_ssh (state : app_state) (devices : list device_record) (device_name : string)
    (force_relay : bool) : eff process unit :=
  device ← lift (find_device devices device_name);
  ssh ← lift (ok_or (EMsg ("device " +:+ device_name +:+ " has no SSH endpoint")) (dr_ssh device));
  run_proxy_device_service state device (se_service_id ssh) force_relay.
Definition run_proxy_service (state : app_state) (devices : list device_record) (node_name service_id : string)
    (force_relay : bool) : eff process unit :=
  device ← lift (find_device devices node_name);
  run_proxy_device_service state device service_id force_relay.
End Proxies.

(** ** [medium ssh] *)

(** [remove_dir_all]. *)
Definition under (dir p : string) : bool := (p =?s dir) || starts_with (path_join dir EmptyString) p.
Definition remove_dir_all (dir : string) : eff disk unit := fun d =>
  match dk_nodes d !! dir with
  | Some Directory => (Ok tt, set_nodes (filter (fun '(p, _) => under dir p = false) (dk_nodes d)) d)
  | _ => (Err not_found, d)
  end.

Record ephemeral_ssh_key := EphemeralSshKey {
  ek_dir : string;
  ek_private_key_path : string;
  ek_public_key_path : string;
  ek_certificate_path : string
}.
(** The error is dropped. *)
Definition cleanup (key : ephemeral_ssh_key) : eff disk unit := _ ← attempt (remove_dir_all (ek_dir key)); mret tt.

Section SshCommand.
(** [Command::new(name).args(args)]: what it prints and how it ends. *)
Context (program : string -> list string -> eff disk command_output).
(** [std::env::temp_dir], the time in nanoseconds, [std::env::current_exe]. *)
Context (temp_dir : string) (timestamp : Z) (current_exe : result string).

Definition ssh_key_in (dir : string) : ephemeral_ssh_key :=
  EphemeralSshKey dir (path_join dir "id_ed25519") (path_join dir "id_ed25519.pub") (path_join dir "id_ed25519-cert.pub").
Definition ssh_key_dir (device_name : string) : string :=
  path_join temp_dir ("medium-ssh-" +:+ replace_char "/" "_" (normalize_device_label device_name) +:+ "-" +:+ dec timestamp).
Definition generate_ephemeral_ssh_key (device_name : string) : eff disk ephemeral_ssh_key :=
  let key := ssh_key_in (ssh_key_dir device_name) in
  _ ← create_dir_all (ek_dir key);
  output ← program "ssh-keygen"
             ["-q"; "-t"; "ed25519"; "-N"; ""; "-C"; "medium-ephemeral"; "-f"; ek_private_key_path key];
  if co_success output then mret key
  else throw (EMsg ("ssh-keygen failed to generate ephemeral SSH key: " +:+ trim (co_stderr output))).
Definition current_medium_exe : string := match current_exe with Ok exe => exe | Err _ => "medium" end.

Context `{Sha256} `{Urls} `{StateJson} `{Json (list device_record)} `{Json ssh_certificate_request}
  `{Json ssh_certificate_response}.
Context (macos : bool) (env : string -> option string) (show_error : error -> string)
  (server_name_ok : string -> bool)
  (exchange : string -> string -> pinned_cert_verifier -> list byte -> result (list byte))
  (plain_get : string -> result (list byte)) (plain_post : string -> list byte -> result (list byte)).

Definition run_ssh_command (device_name : string) (verbose force_relay : bool) : eff disk unit :=
  paths ← lift (from_env macos env);
  state ← state_load paths;
  devices ← lift (fetch_devices server_name_ok exchange plain_get state);
  device ← lift (ok_or (EMsg ("unknown device " +:+ device_name))
                   (List.find (fun device => dr_name device =?s device_name) devices));
  ssh ← lift (ok_or (EMsg ("device " +:+ device_name +:+ " has no SSH endpoint")) (dr_ssh device));
  key ← generate_ephemeral_ssh_key device_name;
  public_key ← with_context ("read ephemeral SSH public key " +:+ ek_public_key_path key)
                 (read_to_string (ek_public_key_path key));
  certificate ← lift (client_issue_ssh_certificate server_name_ok exchange plain_post state (dr_id device)
                        (se_service_id ssh) public_key);
  _ ← with_context ("write ephemeral SSH certificate " +:+ ek_certificate_path key)
        (write_file (ek_certificate_path key) (srr_certificate certificate));
  status ← with_context "run ssh"
             (program "ssh" (ssh_command_args device_name (srr_user_name certificate) (ek_private_key_path key)
                               (ek_certificate_path key) current_medium_exe verbose force_relay));
  _ ← cleanup key;
  if co_success status then mret tt else throw (EMsg ("ssh exited with " +:+ co_status status)).
End SshCommand.

(** ** [run] and [run_main] *)

(** What a command ends with: its output, or, for [medium run], the agent that is then
    served until it is shut down ([HomeNode.v] has the parts of that). *)
Inductive outcome :=
  | Finished (output : option string)
  | Serving (cfg : node_config) (registration : register_node_request).

Definition HELP : string := text_lines
  ["Medium CLI";
   "";
   "Usage:";
   "  medium <command> [options]";
   "";
   "Bootstrap:";
   "  medium init-control [--reconfigure]";
   "      Initialize a control-plane host.";
   "  medium init-node <node-invite> [--reconfigure]";
   "      Initialize a node that publishes services.";
   "  medium join <invite>";
   "      Join this client to a Medium network.";
   "";
   "Client:";
   "  medium devices";
   "      List devices and SSH endpoints visible to this joined client.";
   "  medium services";
   "      List published services visible to this joined client.";
   "  medium ssh [-v|--verbose] [--relay] <device>";
   "      Open SSH to a device through Medium with an ephemeral certified key.";
   "      Use --relay to skip direct TCP candidates and force relay transport.";
   "";
   "Control-plane diagnostics:";
   "  medium control devices";
   "      Read the control-plane registry and show registered nodes and services.";
   "      Run this on a control-plane host, usually with sudo.";
   "  medium control restart";
   "      Restart the local systemd relay and control-plane services.";
   "  medium doctor";
   "      Inspect local config, state, binaries, and service status.";
   "";
   "Node runtime:";
   "  medium run [--config <path>]";
   "      Run node-agent using ~/.medium/node.toml by default.";
   "  medium node restart";
   "      Restart the local systemd node-agent service.";
   "";
   "SSH and proxy:";
   "  medium proxy ssh --device <name> [--verbose] [--relay]";
   "      Internal SSH TCP proxy used by `medium ssh`.";
   "";
   "Maintenance:";
   "  medium info";
   "      Print product information.";
   "  medium normalize-label <value>";
   "      Normalize a node or device label.";
   "";
   "Run `medium help <command>` is not supported yet."].
Definition summary : string := "Medium CLI".
Definition client_hint (command where_else : string) : string :=
  "; `medium " +:+ command +:+ "` is a client command, run `medium join <invite>` first" +:+ where_else.

Section Main.
Context `{Json udp_rendezvous_message} `{Json session_hello} `{Json relay_hello} `{Sha256} `{Urls} `{FormUrlencoded}
  `{StateJson} `{Json (list device_record)} `{Json bootstrap_code_response} `{Json session_open_grant}
  `{Json ssh_certificate_request} `{Json ssh_certificate_response}.
Context (macos : bool) (env : string -> option string) (show_error : error -> string).
Context (program : string -> list string -> eff disk command_output)
  (temp_dir : string) (timestamp : Z) (current_exe : result string) (getifaddrs : result (list ifaddrs)) (route_ip : result ip_addr)
  (self_signed : string -> list string -> result generated_cert) (service_ca : result generated_cert)
  (url_with : url -> string -> string -> string) (secret_time client_time : Z)
  (toml_node : string -> result node_config) (toml_services : string -> result (list service_config))
  (connect : string -> result (result (list control_row)))
  (to_socket_addrs : string -> result (list socket_addr))
  (pem_certs : string -> result (list (list byte))) (root_add : list byte -> result unit)
  (server_name_ok : string -> bool) (client_connection : string -> result unit)
  (exchange : string -> string -> pinned_cert_verifier -> list byte -> result (list byte))
  (plain_get : string -> result (list byte))
  (plain_get_query : string -> session_open_request -> result (list byte))
  (plain_post : string -> list byte -> result (list byte)).

(** [prepare_agent_from_path] of the node's [agent.rs]. *)
Definition prepare_agent_from_path (p : string) : eff disk (node_config * register_node_request) :=
  cfg ← load_from_path toml_node toml_services p;
  mret (cfg, build_registration getifaddrs cfg).
Definition prepared_agent (config_path : string) : eff disk (node_config * register_node_request) :=
  d ← gets id;
  if negb (is_file config_path d) then throw (EMsg ("node config not found at " +:+ config_path))
  else prepare_agent_from_path config_path.
Definition default_config (d : disk) : string := default_node_config_path macos env (install_root env) d.

Definition run (args : list string) : eff disk string := fun d =>
  match parse (default_config d) args with
  | Err e => (Err e, d)
  | Ok (Run config_path) => (agent ← prepared_agent config_path; mret (startup_summary agent.2)) d
  | Ok Info => (Ok summary, d)
  | Ok Help => (Ok HELP, d)
  | Ok (NormalizeLabel value) => (Ok (normalize_device_label value), d)
  | Ok _ => (Err (EMsg "command requires runtime context; use run_main"), d)
  end.

(** The state, with the hint of a client command when there is none. *)
Definition loaded_state (hint : string) : eff disk app_state :=
  paths ← lift (from_env macos env);
  loaded ← attempt (state_load paths);
  match loaded with
  | Ok state => mret state
  | Err error => throw (EMsg (show_error error +:+ hint))
  end.
Definition proxied_state : eff disk (app_state * list device_record) :=
  paths ← lift (from_env macos env);
  state ← state_load paths;
  devices ← lift (fetch_devices server_name_ok exchange plain_get state);
  mret (state, devices).
Definition printed (s : string) : outcome := Finished (Some s).

Definition run_command (c : command) : eff process outcome :=
  match c with
  | InitControl reconfigure =>
      report ← on_disk (init_control macos env program self_signed service_ca show_error url_with route_ip
                          secret_time client_time reconfigure);
      mret (printed ("initialized Medium control at " +:+ ir_control_config_path report +:+ " and generated invite "
                     +:+ ir_invite report +:+ String lf "generated node invite " +:+ ir_node_invite report))
  | InitNode invite reconfigure =>
      node_config_path ← on_disk (init_node macos env program (fetch_ssh_ca_public_key server_name_ok exchange)
                                    route_ip invite reconfigure);
      mret (printed ("initialized Medium node at " +:+ node_config_path))
  | Run config_path =>
      agent ← on_disk (prepared_agent config_path); mret (Serving agent.1 agent.2)
  | Join invite =>
      paths ← lift (from_env macos env);
      invite ← lift (parse_invite invite);
      state ← lift (join_network env invite);
      _ ← on_disk (state_save state paths);
      mret (printed ("joined " +:+ as_device_name state +:+ " via " +:+ as_server_url state +:+ " using invite v"
                     +:+ dec (as_invite_version state)))
  | Pair server_url device_name =>
      paths ← lift (from_env macos env);
      state ← lift (pair_device plain_get server_url device_name);
      _ ← on_disk (state_save state paths);
      mret (printed ("paired " +:+ as_device_name state +:+ " with " +:+ as_server_url state
                     +:+ " using bootstrap code " +:+ as_bootstrap_code state))
  | Devices =>
      state ← on_disk (loaded_state (client_hint "devices" " or use `medium control devices` on a control-plane host"));
      devices ← lift (fetch_devices server_name_ok exchange plain_get state);
      mret (printed (render_devices devices))
  | Services =>
      state ← on_disk (loaded_state (client_hint "services" EmptyString));
      devices ← lift (fetch_devices server_name_ok exchange plain_get state);
      mret (printed (render_services devices))
  | ControlDevices =>
      report ← on_disk (render_control_devices macos env show_error connect); mret (printed report)
  | ControlRestart =>
      services ← on_disk (restart_control_services macos env program);
      mret (printed ("restarted " +:+ join ", " services))
  | NodeRestart =>
      service ← on_disk (restart_node_service macos env program); mret (printed ("restarted " +:+ service))
  | Ssh device_name verbose force_relay =>
      _ ← on_disk (run_ssh_command program temp_dir timestamp current_exe macos env server_name_ok exchange plain_get
                     plain_post device_name verbose force_relay);
      mret (Finished None)
  | ProxySsh device_name _ force_relay =>
      s ← on_disk proxied_state;
      _ ← run_proxy_ssh to_socket_addrs show_error pem_certs root_add server_name_ok client_connection exchange
            plain_get plain_get_query s.1 s.2 device_name force_relay;
      mret (Finished None)
  | ProxyService node_name service_id _ force_relay =>
      s ← on_disk proxied_state;
      _ ← run_proxy_service to_socket_addrs show_error pem_certs root_add server_name_ok client_connection exchange
            plain_get plain_get_query s.1 s.2 node_name service_id force_relay;
      mret (Finished None)
  | CliArgs.Doctor =>
      paths ← lift (from_env macos env);
      report ← on_disk (doctor_inspect macos env program toml_node toml_services show_error paths);
      mret (printed (doctor_render report))
  | Info => mret (printed summary)
  | Help => mret (printed HELP)
  | NormalizeLabel value => mret (printed (normalize_device_label value))
  end.
Definition run_main (args : list string) : eff process outcome := fun p =>
  match parse (default_config (p_disk p)) args with
  | Err e => (Err e, p)
  | Ok c => run_command c p
  end.

(** The program's [main]: the lines it prints on its two outputs and its exit code, once it ends. *)
Definition main (args : list string) (p : process) : option (list string * list string * Z) :=
  match (run_main args p).1 with
  | Ok (Finished (Some output)) => Some ([output], [], 0)
  | Ok (Finished None) => Some ([], [], 0)
  | Ok (Serving _ _) => None
  | Err error => Some ([], [show_error error], 1)
  end.
End Main.

(** ** The registry's report *)

(** The specification: each node's line, then its services or the line that there are
    none. *)
Definition node_report (last_seen : string -> string) (db : database) (node : string * string) : list string :=
  (node.2 +:+ " (" +:+ node.1 +:+ ") last_seen=" +:+ last_seen node.1)
  :: match services_of_node db node.1 with
     | [] => [no_services_line]
     | services => map service_report_line services
     end.
Definition nodes_in_order (db : database) : list (string * string) := merge_sort node_le (map_to_list (db_nodes db)).

Section RenderRows.
Context (last_seen : string -> string) (db : database).
Lemma render_services_of node services rest output count :
  render_rows (map (fun r => ControlRow node.1 node.2 (last_seen node.1) (Some r)) services ++ rest) output node.1 count
  = render_rows rest (output ++ map service_report_line services) node.1 (count + Z.of_nat (length services)).
Proof.
  revert output count. induction services as [|r services IH]; intros output count; cbn [map app length].
  - by rewrite app_nil_r, Z.add_0_r.
  - cbn [render_rows cr_node_id cr_service]. rewrite bool_decide_eq_true_2 by done. rewrite IH.
    rewrite <- app_assoc. cbn [app]. f_equal. lia.
Qed.
(** What the lines of a node still lack when the next node, or the end, comes. *)
Definition pending (count : Z) : list string := if count =? 0 then [no_services_line] else [].
Lemma render_node node rest output current count :
  node.1 <> current ->
  render_rows (node_control_rows last_seen db node ++ rest) output current count
  = render_rows rest
      (output ++ (if negb (is_empty current) then pending count else [])
       ++ (node.2 +:+ " (" +:+ node.1 +:+ ") last_seen=" +:+ last_seen node.1)
       :: map service_report_line (services_of_node db node.1))
      node.1 (Z.of_nat (length (services_of_node db node.1))).
Proof.
  intros Hne. unfold node_control_rows, pending.
  destruct (services_of_node db node.1) as [|r services]; cbn [map app render_rows cr_node_id cr_service];
    rewrite bool_decide_eq_false_2 by done; (destruct (negb (is_empty current)); [destruct (count =? 0)|]); cbn [andb app];
    try done; rewrite render_services_of, <- !app_assoc; cbn [app]; f_equal; cbn [length]; lia.
Qed.
Lemma render_nodes nodes output current count :
  NoDup nodes.*1 -> EmptyString ∉ nodes.*1 -> current ∉ nodes.*1 -> current <> EmptyString ->
  render_rows (nodes ≫= node_control_rows last_seen db) output current count
  = output ++ pending count ++ (nodes ≫= node_report last_seen db).
Proof.
  revert output current count. induction nodes as [|node nodes IH]; intros output current count; cbn [mbind list_bind fmap list_fmap].
  - intros _ _ _ _. cbn [render_rows]. unfold pending. by destruct (count =? 0); rewrite ?app_nil_r.
  - intros [Hnin Hnd]%list.NoDup_cons [He He']%not_elem_of_cons [Hc Hc']%not_elem_of_cons Hcurrent.
    rewrite render_node by congruence.
    change (is_empty current) with (current =?s EmptyString). rewrite (bool_decide_eq_false_2 _ Hcurrent). cbn [negb].
    change (list_bind _ _ _ nodes) with (nodes ≫= node_control_rows last_seen db).
    rewrite IH by congruence. unfold node_report, pending at 2.
    destruct (services_of_node db node.1) as [|r services]; cbn [length map app Z.of_nat Z.eqb]; by rewrite <- !app_assoc.
Qed.
Lemma control_rows_report :
  (db_nodes db !! EmptyString = None) -> db_nodes db <> ∅ ->
  control_rows last_seen db <> [] /\
  render_rows (control_rows last_seen db) [] EmptyString 0 = nodes_in_order db ≫= node_report last_seen db.
Proof.
  intros Hempty Hne. unfold control_rows. fold (nodes_in_order db).
  assert (nodes_in_order db ≡ₚ map_to_list (db_nodes db)) as Hperm by apply merge_sort_Permutation.
  assert (NoDup (nodes_in_order db).*1) as Hnd. { rewrite Hperm. apply NoDup_fst_map_to_list. }
  assert (EmptyString ∉ (nodes_in_order db).*1) as He.
  { rewrite Hperm. intros ([? label] & Hk & Hin)%list_elem_of_fmap. cbn in Hk. subst.
    apply elem_of_map_to_list in Hin. congruence. }
  destruct (nodes_in_order db) as [|node nodes] eqn:E.
  { destruct Hne. symmetry in Hperm. apply Permutation_nil_r, map_to_list_empty_iff in Hperm. done. }
  cbn [fmap list_fmap] in Hnd, He. apply list.NoDup_cons in Hnd as [Hnin Hnd]. apply not_elem_of_cons in He as [He He'].
  cbn [mbind list_bind]. change (list_bind _ _ _ nodes) with (nodes ≫= node_control_rows last_seen db). split.
  { unfold node_control_rows. by destruct (services_of_node db node.1). }
  rewrite render_node by congruence. cbn [negb is_empty app].
  change (negb (is_empty EmptyString)) with false. cbv iota. rewrite render_nodes by congruence.
  unfold node_report, pending. destruct (services_of_node db node.1) as [|r services]; cbn [length map app Z.of_nat Z.eqb]; done.
Qed.
End RenderRows.

(** The two readers of a configuration agree on a line. *)
Lemma toml_string_line wanted line k v :
  parse_simple_toml_string_line line = Some (k, v) ->
  toml_string_of wanted line = if k =?s wanted then Some v else None.
Proof.
  unfold parse_simple_toml_string_line, toml_string_of. cbv zeta. destruct (_ || _); [done|].
  destruct (split_once "=" (uncommented line)) as [[key value]|]; [|done]. cbn [mbind option_bind].
  destruct (is_empty (trim key)); [done|]. destruct (unquote (trim value)) as [u|]; [|done].
  cbn [mbind option_bind]. by intros [= -> ->].
Qed.
Lemma installed_database l bind url ss cs pin relay wss :
  Forall (fun e => toml_value e.2 = true) (control_entries l bind url ss cs pin relay wss) ->
  parse_simple_toml_string (control_config l bind url ss cs pin relay wss) "database_url"
  = Some ("sqlite://" +:+ il_database_path l).
Proof.
  intros Hvalues. unfold parse_simple_toml_string. rewrite config_lines by done.
  assert (forall es, Forall entry_ok es -> omap (toml_string_of "database_url") (map entry_line es)
    = omap (fun e => if e.1 =?s "database_url" then Some e.2 else None) es) as Hes.
  { induction 1 as [|[k v] es He _ IH]; [done|]. cbn [map omap list_omap].
    rewrite (toml_string_line _ _ k v), IH by (by apply read_entry_line). done. }
  cbn [omap list_omap]. change (toml_string_of "database_url" "# Generated by medium init-control") with (@None string).
  cbv iota. rewrite Hes by (by apply entries_ok). done.
Qed.

(** On a control-plane host, [medium control devices] opens the database [init_control] set
    up, and reports the nodes registered in it in the order of their ids, each with its
    services in the order of theirs, whatever the join's rows repeat. *)
Theorem control_devices_shows_the_registry `{Urls} `{FormUrlencoded} `{Sha256}
    (macos : bool) (env : string -> option string) (program : string -> list string -> eff disk command_output)
    (self_signed : string -> list string -> result generated_cert) (service_ca : result generated_cert)
    (bind_addr control_url relay_bind_addr relay_addr wss_relay_url : string) (external reconfigure : bool)
    (secret_time client_time : Z) (d d' : disk) (report : init_control_report)
    (show_error : error -> string) (connect : string -> result (result (list control_row)))
    (last_seen : string -> string) (db : database)
    (Hcommands : commands_ok macos env program (install_root env))
    (Hunits : writes_systemd_units macos (install_root env) = true)
    (Hvalues : installable macos env (install_root env) bind_addr control_url relay_addr wss_relay_url)
    (Htimes : 0 <= secret_time /\ 0 <= client_time)
    (Hrun : init_control_at macos env program self_signed service_ca secret_time client_time (install_root env) bind_addr
              control_url relay_bind_addr relay_addr wss_relay_url external reconfigure d = (Ok report, d'))
    (Hallowed : dk_denied d' (il_control_config_path (layout_new macos env (install_root env))) = false)
    (Hconnect : connect ("sqlite://" +:+ il_database_path (layout_new macos env (install_root env)))
                = Ok (Ok (control_rows last_seen db)))
    (Hnodes : db_nodes db <> ∅ /\ db_nodes db !! EmptyString = None) :
  render_control_devices macos env show_error connect d'
  = (Ok (join (String lf EmptyString) (nodes_in_order db ≫= node_report last_seen db)), d').
Proof.
  edestruct installed_config as (pin & Hconfig & Hentries & _); [exact Hcommands|exact Hunits|exact Hvalues|exact Htimes|exact Hrun|].
  destruct (installed_config_read macos env (install_root env) d' _ Hallowed Hconfig (config_utf8 _ _ _ _ _ _ _ _ Hentries))
    as [_ Hread].
  destruct (control_rows_report last_seen db) as [Hne Hreport]; [apply Hnodes..|].
  rewrite <- Hreport. unfold render_control_devices, mbind, eff_bind. rewrite (attempt_eq _ _ _ _ Hread). cbv beta iota.
  rewrite (installed_database _ _ _ _ _ _ _ _ Hentries). unfold ok_or, lift. rewrite Hconnect.
  by destruct (control_rows last_seen db) as [|row rows].
Qed.

Definition toy_control_db : database :=
  Database {["node-1" := "Home"; "node-2" := "Lab"]} [] 1
    [ServiceRow "web" "node-2" "https" 1 "127.0.0.1:80" None (Some "Wiki"); ServiceRow "ssh" "node-2" "ssh" 1 "127.0.0.1:22" None None].
Definition toy_srv (name : string) : option string := if name =?s "MEDIUM_ROOT" then Some "/srv" else None.
Definition toy_srv_init : result init_control_report * disk :=
  @init_control_at toy_urls toy_form toy_digest false toy_srv toy_command toy_self_signed
    (Ok (GeneratedCert [x64] "CA" "CAKEY")) 31 255 "/srv" "0.0.0.0:7777" "https://control.example:7777"
    "0.0.0.0:7001" "relay.example:7001" "wss://control.example:7777/medium/v1/relay" false false toy_root_disk.
Lemma control_devices_shows_the_registry_witness :
  (render_control_devices false toy_srv (fun _ => EmptyString)
     (fun url => if url =?s "sqlite:///srv/var/lib/medium/control-plane.db"
                 then Ok (Ok (control_rows (fun _ => "now") toy_control_db)) else Err (EExt "sqlx")) toy_srv_init.2).1
  = Ok (join (String lf EmptyString)
         ["Home (node-1) last_seen=now"; "  no published services"; "Lab (node-2) last_seen=now";
          "  ssh ssh -> 127.0.0.1:22"; "  web https " +:+ dquote +:+ "Wiki" +:+ dquote +:+ " -> 127.0.0.1:80"]).
Proof.
  assert (exists report, toy_srv_init = (Ok report, toy_srv_init.2)) as [report Hrun] by (eexists; vm_compute; reflexivity).
  rewrite (@control_devices_shows_the_registry toy_urls toy_form toy_digest false toy_srv toy_command
    toy_self_signed (Ok (GeneratedCert [x64] "CA" "CAKEY")) "0.0.0.0:7777" "https://control.example:7777"
    "0.0.0.0:7001" "relay.example:7001" "wss://control.example:7777/medium/v1/relay" false false 31 255
    toy_root_disk toy_srv_init.2 report (fun _ => EmptyString) _ (fun _ => "now") toy_control_db).
  - vm_compute. reflexivity.
  - intros name args p n _ _ d r d' Hd [= _ <-]. exact Hd.
  - reflexivity.
  - unfold installable. cbv zeta. split; [repeat constructor; vm_compute; reflexivity|split; vm_compute; reflexivity].
  - split; discriminate.
  - exact Hrun.
  - vm_compute. reflexivity.
  - vm_compute. reflexivity.
  - split; [by apply (bool_decide_unpack _); vm_compute|reflexivity].
Defined.

(** ** The terminal's loop *)

(** The bytes a round brought from the terminal, and those it read from the stream. *)
Definition ok_bytes (r : result (list byte)) : list byte := match r with Ok bytes => bytes | Err _ => [] end.
Definition round_inputs (round : stdio_round) : list byte := rd_inputs round ≫= ok_bytes.

Lemma send_inputs_ok inputs s s' : send_inputs inputs s = (Ok tt, s') ->
  Forall (fun i => is_ok i = true) inputs /\ io_sent s' = io_sent s ++ (inputs ≫= ok_bytes) /\ io_stdout s' = io_stdout s.
Proof.
  revert s. induction inputs as [|i inputs IH]; intros s; cbn [send_inputs].
  - intros [= <-]. cbn. by rewrite app_nil_r.
  - intros (bytes & s1 & Hi & Hs)%eff_bind_ok. unfold lift in Hi. injection Hi as -> <-.
    apply eff_bind_ok in Hs as ([] & s2 & Hw & Hs). apply IH in Hs as (Hf & Hsent & Hshown).
    assert (io_sent s2 = io_sent s ++ bytes /\ io_stdout s2 = io_stdout s) as [Hx1 Hx2].
    { destruct bytes as [|b bytes].
      - unfold mret, eff_ret in Hw. injection Hw as <-. by rewrite app_nil_r.
      - unfold stream_write_all in Hw. destruct (io_writes s) as [|[e|] rest]; by simplify_eq. }
    rewrite Hsent, Hshown, Hx1, Hx2. cbn [mbind list_bind ok_bytes]. rewrite <- app_assoc. by repeat split; [constructor|..].
Qed.
(** A round the loop goes on from. *)
Definition goes_on (round : stdio_round) : Prop :=
  match rd_read round with
  | Ok [] => False
  | Ok _ => True
  | Err e => is_stdio_proxy_timeout e = true
  end.
Lemma pipe_loop_ok rounds s s' : pipe_loop rounds s = (Ok tt, s') ->
  exists before round after, rounds = before ++ round :: after /\ Forall goes_on before /\ rd_read round = Ok [] /\
    io_sent s' = io_sent s ++ ((before ++ [round]) ≫= round_inputs) /\
    io_stdout s' = io_stdout s ++ (before ≫= fun r => ok_bytes (rd_read r)).
Proof.
  revert s. induction rounds as [|r rounds IH]; intros s; cbn [pipe_loop]; [done|].
  intros ([] & s1 & Hi & Hr)%eff_bind_ok. apply send_inputs_ok in Hi as (_ & Hsent & Hshown).
  fold (round_inputs r) in Hsent.
  destruct (decide (rd_read r = Ok [])) as [Heof|Hgo].
  { rewrite Heof in Hr. injection Hr as <-. exists [], r, rounds. cbn. by rewrite !app_nil_r. }
  assert (goes_on r /\ exists s2, pipe_loop rounds s2 = (Ok tt, s') /\ io_sent s2 = io_sent s1 /\
            io_stdout s2 = io_stdout s1 ++ ok_bytes (rd_read r)) as (Hon & s2 & Hloop & H1 & H2).
  { unfold goes_on. destruct (rd_read r) as [[|b bytes]|e]; [done| |].
    - apply eff_bind_ok in Hr as ([] & s2 & Hw & Hr). split; [done|]. exists s2. split; [done|].
      unfold stdout_write_all in Hw. destruct (io_shows s1) as [|[e|] rest]; by simplify_eq.
    - destruct (is_stdio_proxy_timeout e) eqn:E; [|done]. split; [done|]. exists s1. cbn. by rewrite app_nil_r. }
  apply IH in Hloop as (before & round & after & -> & Hf & Heof & Hs1 & Hs2).
  exists (r :: before), round, after. split; [done|]. split; [by constructor|]. split; [done|].
  rewrite Hs1, Hs2, H1, H2, Hsent, Hshown. cbn [app mbind list_bind]. by rewrite <- !app_assoc.
Qed.

(** The proxy ends without an error only where the stream ends, at the first read that
    yields nothing: what was written to the stream is then what the terminal had given
    until that round, whole and in order, and the terminal shows what the stream gave, whole
    and in order.  The end of the terminal's input, an empty message, sends nothing and does
    not end the loop; reads that time out lose nothing. *)
Theorem the_proxy_relays_in_order (s s' : stdio)
    (Hrun : pipe_stdio_blocking s = (Ok tt, s')) :
  exists before round after, io_rounds s = before ++ round :: after /\ Forall goes_on before /\ rd_read round = Ok [] /\
    io_sent s' = io_sent s ++ ((before ++ [round]) ≫= round_inputs) /\
    io_stdout s' = io_stdout s ++ (before ≫= fun r => ok_bytes (rd_read r)).
Proof. by apply pipe_loop_ok. Qed.
Definition toy_stdio : stdio :=
  Stdio [StdioRound (stdin_messages [Ok [x61; x62]; Ok [x63]; Ok []]) (Err (EIo WouldBlock));
         StdioRound [] (Ok [x64]); StdioRound [] (Ok []); StdioRound [Ok [x65]] (Ok [x66])] [] [] [] [].
Lemma the_proxy_relays_in_order_witness :
  exists s', pipe_stdio_blocking toy_stdio = (Ok tt, s') /\ io_sent s' = [x61; x62; x63] /\ io_stdout s' = [x64].
Proof.
  assert (pipe_stdio_blocking toy_stdio = (Ok tt, (pipe_stdio_blocking toy_stdio).2)) as Hrun by (vm_compute; reflexivity).
  destruct (the_proxy_relays_in_order toy_stdio _ Hrun) as (before & round & after & _ & _ & _ & _ & _).
  eexists. split; [exact Hrun|]. split; vm_compute; reflexivity.
Defined.

(** ** The named service *)

Lemma cli_hostname_label_eq value : cli_hostname_label value = hostname_label value.
Proof. unfold cli_hostname_label, hostname_label. by rewrite pop_dashes_trim. Qed.
Lemma zoom_ok {S T A} (get : S -> T) (set : T -> S -> S) (m : eff T A) s a s' :
  zoom get set m s = (Ok a, s') <-> exists t, m (get s) = (Ok a, t) /\ s' = set t s.
Proof. unfold zoom. destruct (m (get s)) as [r t]. naive_solver. Qed.

Section NamedService.
Context `{Json Rendezvous.udp_rendezvous_message} `{Json session_hello} `{Json relay_hello} `{Sha256} `{Urls}
  `{Json (list device_record)} `{Json session_open_grant}.
Context (to_socket_addrs : string -> result (list socket_addr)) (show_error : error -> string)
  (pem_certs : string -> result (list (list byte))) (root_add : list byte -> result unit)
  (server_name_ok : string -> bool) (client_connection : string -> result unit)
  (exchange : string -> string -> pinned_cert_verifier -> list byte -> result (list byte))
  (plain_get : string -> result (list byte))
  (plain_get_query : string -> session_open_request -> result (list byte)).

(** C27. A proxied service is the one named on the command line: the device has the name, or the
    id, it publishes the service, the grant is the control plane's for that node and that
    service, and the TLS session the terminal is piped through was accepted for the host
    name of the service's label under the CA the control plane gave.  That name is the one
    the node that published the service has its certificate for. *)
Theorem proxies_connect_to_the_named_service (state : app_state) (devices : list device_record)
    (node_name service_id : string) (force_relay : bool) (p p' : process)
    (Hrun : run_proxy_service to_socket_addrs show_error pem_certs root_add server_name_ok client_connection exchange
              plain_get plain_get_query state devices node_name service_id force_relay p = (Ok tt, p')) :
  exists device service grant ca hostname session,
    device ∈ devices /\ (dr_name device = node_name \/ dr_id device = node_name) /\
    service ∈ dr_services device /\ ps_id service = service_id /\
    fetch_medium_ca server_name_ok exchange plain_get state = Ok ca /\
    open_session_for_node server_name_ok exchange plain_get_query state (Some (dr_id device)) service_id = Ok grant /\
    hostname = service_hostname (default service_id (ps_label service)) /\
    (forall c, publish c = service -> config_hostname c = hostname) /\
    connect_session_service_tls to_socket_addrs url_parse show_error pem_certs root_add server_name_ok client_connection
      grant (ConnectOptions (if force_relay then RelayOnly else Auto)
               (if as_security state =?s "pinned-tls" then Some (as_control_pin state) else None) None)
      hostname ca (if force_relay then 2 else 1) (millis 250) (p_dialer p) = (Ok session, p_dialer p') /\
    pipe_stdio_blocking (p_stdio p) = (Ok tt, p_stdio p') /\ p_disk p' = p_disk p.
Proof.
  unfold run_proxy_service in Hrun. apply eff_bind_ok in Hrun as (device & p1 & Hdevice & Hrun).
  unfold lift in Hdevice. injection Hdevice as Hdevice <-. unfold find_device in Hdevice. apply ok_or_ok in Hdevice.
  apply List.find_some in Hdevice as [Hin Hname]. unfold run_proxy_device_service in Hrun.
  apply eff_bind_ok in Hrun as (service & p1 & Hservice & Hrun). unfold lift in Hservice. injection Hservice as Hservice <-.
  apply ok_or_ok, List.find_some in Hservice as [Hsin Hsid]. cbv zeta in Hrun.
  apply eff_bind_ok in Hrun as (ca & p1 & Hca & Hrun). unfold lift in Hca. injection Hca as Hca <-.
  apply eff_bind_ok in Hrun as (grant & p1 & Hgrant & Hrun). unfold lift in Hgrant. injection Hgrant as Hgrant <-.
  unfold proxy_via_medium_session in Hrun. cbv zeta in Hrun.
  apply eff_bind_ok in Hrun as (session & p1 & Hconnect & Hpipe).
  apply zoom_ok in Hconnect as (dl & Hconnect & ->). apply zoom_ok in Hpipe as (io & Hpipe & ->). cbn [p_stdio p_dialer p_disk] in *.
  unfold service_medium_hostname in Hconnect. rewrite cli_hostname_label_eq in Hconnect. cbn [mbind option_bind] in Hconnect.
  apply bool_decide_eq_true in Hsid.
  exists device, service, grant, ca, (service_hostname (default service_id (ps_label service))), session.
  split; [by apply list_elem_of_In|]. split.
  { apply orb_true_iff in Hname as [Hn|Hn]; apply bool_decide_eq_true in Hn; auto. }
  split; [by apply list_elem_of_In|]. repeat (split; [done|]). split.
  { intros c <-. unfold config_hostname, service_hostname. rewrite normalize_is_hostname_label. cbn in Hsid. by rewrite <- Hsid. }
  by destruct force_relay.
Qed.
End NamedService.

Definition toy_published : published_service := publish (ServiceConfig "svc_ssh" "ssh" (Some "My SSH") "127.0.0.1:22" None true).
Definition toy_device : device_record :=
  DeviceRecord "node-1" "home" (Some (SshEndpoint "svc_ssh" "10.0.0.9" 22 "root")) [toy_published].
Definition toy_open_grants : Json session_open_grant := {| to_vec _ := Ok []; from_slice _ := Ok toy_session_grant |}.
Definition toy_plain_state : app_state := AppState "http://control" "laptop" EmptyString 1 "none" EmptyString EmptyString.
Definition toy_ca_get (url : string) : result (list byte) := Ok (bytes_of "BEGIN CERTIFICATE").
Definition toy_process : process := Process toy_root_disk toy_dialer toy_stdio.
Definition toy_proxied_run : result unit * process :=
  @run_proxy_service toy_rv_json toy_hello_json toy_relay_json toy_digest toy_urls toy_open_grants toy_resolve
    (fun _ => EmptyString) (fun _ => Ok [[x30]]) (fun _ => Ok tt) (fun _ => true) (fun _ => Ok tt) toy_exchange toy_ca_get
    (fun _ _ => Ok []) toy_plain_state [toy_device] "home" "svc_ssh" true toy_process.
Lemma proxies_connect_to_the_named_service_witness :
  service_hostname "My SSH" = "my-ssh.medium" /\
  exists grant ca session,
    @fetch_medium_ca toy_urls (fun _ => true) toy_exchange toy_ca_get toy_plain_state = Ok ca /\
    (@connect_session_service_tls toy_rv_json toy_hello_json toy_relay_json toy_digest toy_resolve url_parse
      (fun _ => EmptyString) (fun _ => Ok [[x30]]) (fun _ => Ok tt) (fun _ => true) (fun _ => Ok tt) grant
      (ConnectOptions RelayOnly None None) "my-ssh.medium" ca 2 (millis 250) toy_dialer).1 = Ok session.
Proof.
  split; [vm_compute; reflexivity|].
  assert (toy_proxied_run = (Ok tt, toy_proxied_run.2)) as Hrun by (vm_compute; reflexivity).
  destruct (@proxies_connect_to_the_named_service toy_rv_json toy_hello_json toy_relay_json toy_digest toy_urls
    toy_open_grants toy_resolve (fun _ => EmptyString) (fun _ => Ok [[x30]]) (fun _ => Ok tt) (fun _ => true)
    (fun _ => Ok tt) toy_exchange toy_ca_get (fun _ _ => Ok []) toy_plain_state [toy_device] "home" "svc_ssh" true
    toy_process toy_proxied_run.2 Hrun)
    as (device & service & grant & ca & hostname & session & Hd & _ & Hs & _ & Hca & _ & Hh & _ & Hconnect & _).
  apply list_elem_of_singleton in Hd as ->. apply list_elem_of_singleton in Hs as ->.
  exists grant, ca, session. split; [exact Hca|]. subst hostname.
  assert (service_hostname (default "svc_ssh" (ps_label toy_published)) = "my-ssh.medium") as Hname by (vm_compute; reflexivity).
  rewrite Hname in Hconnect. exact (f_equal fst Hconnect).
Defined.

(** ** The ephemeral key *)

Lemma ancestors_step acc x p :
  ancestors acc (String x p)
  = (if bool_decide (x = "/"%char) then (if is_empty acc then ["/"] else [string_rev acc]) else []) ++ ancestors (String x acc) p.
Proof.
  destruct (decide (x = "/"%char)) as [->|Hne]; [by rewrite bool_decide_eq_true_2|]. rewrite bool_decide_eq_false_2 by done.
  destruct x as [[|] [|] [|] [|] [|] [|] [|] [|]]; try reflexivity. by destruct Hne.
Qed.
Lemma ancestors_self acc p c : c <> "/"%char -> string_rev acc +:+ p +:+ String c EmptyString ∈ ancestors acc (p +:+ String c EmptyString).
Proof.
  intros Hc. revert acc. induction p as [|x p IH]; intros acc; cbn [String.append].
  - rewrite ancestors_step, bool_decide_eq_false_2 by done. cbn [app ancestors]. apply list_elem_of_singleton.
    by rewrite string_rev_cons.
  - rewrite ancestors_step. apply elem_of_app. right. specialize (IH (String x acc)). rewrite string_rev_cons in IH.
    by rewrite <- string_app_assoc in IH.
Qed.
Lemma create_dirs_made paths d d' p :
  create_dirs paths d = (Ok tt, d') -> p ∈ paths -> dk_nodes d' !! p = Some Directory.
Proof.
  revert d. induction paths as [|q paths IH]; intros d; [by intros _ ?%not_elem_of_nil|]. cbn [create_dirs].
  intros ([] & d1 & Hq & Hr)%eff_bind_ok [->|Hin]%elem_of_cons; [|by eapply IH].
  eapply kept_create_dirs; [|exact Hr]. unfold create_dir in Hq.
  destruct (dk_nodes d !! q) as [[|]|] eqn:E; [by simplify_eq|done|]. destruct (dk_denied d q); [done|].
  injection Hq as <-. cbn. by rewrite lookup_insert_eq.
Qed.
Lemma ssh_key_dir_made temp_dir timestamp device d d' : 0 <= timestamp ->
  create_dir_all (ssh_key_dir temp_dir timestamp device) d = (Ok tt, d') ->
  dk_nodes d' !! ssh_key_dir temp_dir timestamp device = Some Directory.
Proof.
  intros Ht Hc. eapply create_dirs_made; [exact Hc|].
  assert (exists s c, ssh_key_dir temp_dir timestamp device = s +:+ String c EmptyString /\ c <> "/"%char) as (s & c & -> & Hc').
  { destruct (string_rev (dec timestamp)) as [|c r] eqn:E.
    - exfalso. pose proof (dec_not_empty timestamp Ht) as Hne. rewrite <- (string_rev_involutive (dec timestamp)), E in Hne. done.
    - assert (dec timestamp = string_rev r +:+ String c EmptyString) as Hd.
      { rewrite <- (string_rev_involutive (dec timestamp)), E. apply string_rev_cons. }
      exists ((if is_empty temp_dir || ends_with "/" temp_dir then temp_dir else temp_dir +:+ "/")
        +:+ "medium-ssh-" +:+ replace_char "/" "_" (normalize_device_label device) +:+ "-" +:+ string_rev r), c.
      split.
      + unfold ssh_key_dir, path_join. rewrite Hd. destruct (_ || _); by rewrite <- !string_app_assoc.
      + intros ->. pose proof (dec_digits timestamp Ht) as Hdig. rewrite Hd, string_all_app in Hdig.
        by apply andb_true_iff in Hdig as [_ Hdig]. }
  exact (ancestors_self EmptyString s c Hc').
Qed.
Lemma join_inside dir name : name <> EmptyString -> dir <> path_join dir name.
Proof.
  intros Hn He. apply (f_equal String.length) in He. unfold path_join in He.
  destruct (_ || _); rewrite !string_length_app in He; destruct name; cbn in He; lia || done.
Qed.
Lemma kept_read p n q : kept p n (read_to_string q).
Proof. intros d r d' Hd. by intros [= _ <-]. Qed.

Section EphemeralKey.
Context (program : string -> list string -> eff disk command_output) (temp_dir : string) (timestamp : Z)
  (current_exe : result string).
Context `{Sha256} `{Urls} `{StateJson} `{Json (list device_record)} `{Json ssh_certificate_request}
  `{Json ssh_certificate_response}.
Context (macos : bool) (env : string -> option string) (server_name_ok : string -> bool)
  (exchange : string -> string -> pinned_cert_verifier -> list byte -> result (list byte))
  (plain_get : string -> result (list byte)) (plain_post : string -> list byte -> result (list byte)).
Context (Htime : 0 <= timestamp).

(** After [medium ssh] has succeeded, nothing is left of its key: the directory it made for
    the key is gone with all it held, when the programs it ran have not removed
    directories themselves. *)
Theorem ssh_sessions_leave_no_key (device_name : string) (verbose force_relay : bool) (d d' : disk)
    (Hprograms : forall name args p, kept p Directory (program name args))
    (Hrun : run_ssh_command program temp_dir timestamp current_exe macos env server_name_ok exchange plain_get plain_post
              device_name verbose force_relay d = (Ok tt, d')) :
  forall p, under (ssh_key_dir temp_dir timestamp device_name) p = true -> dk_nodes d' !! p = None.
Proof.
  intros p Hp. set (dir := ssh_key_dir temp_dir timestamp device_name) in *. unfold run_ssh_command in Hrun.
  apply eff_bind_ok in Hrun as (paths & d1 & _ & Hrun). apply eff_bind_ok in Hrun as (state & d2 & _ & Hrun).
  apply eff_bind_ok in Hrun as (devices & d3 & _ & Hrun). apply eff_bind_ok in Hrun as (device & d4 & _ & Hrun).
  apply eff_bind_ok in Hrun as (ssh & d5 & _ & Hrun). apply eff_bind_ok in Hrun as (key & d6 & Hkey & Hrun).
  unfold generate_ephemeral_ssh_key in Hkey. cbv zeta in Hkey.
  apply eff_bind_ok in Hkey as ([] & e1 & Hdir & Hkey). apply ssh_key_dir_made in Hdir; [|done].
  apply eff_bind_ok in Hkey as (output & e2 & Hgen & Hkey). fold dir in Hkey, Hdir.
  apply (Hprograms _ _ _ _ _ _ Hdir) in Hgen. clear Hdir. rename Hgen into Hdir.
  destruct (co_success output); [|done]. injection Hkey as <- <-.
  apply eff_bind_ok in Hrun as (public_key & d7 & Hread & Hrun).
  apply (kept_context _ _ _ _ (kept_read dir Directory _) _ _ _ Hdir) in Hread as Hdir'. clear Hdir Hread.
  apply eff_bind_ok in Hrun as (certificate & d8 & Hcert & Hrun). unfold lift in Hcert. injection Hcert as _ <-.
  apply eff_bind_ok in Hrun as ([] & d9 & Hwrite & Hrun).
  assert (kept dir Directory (write_file (ek_certificate_path (ssh_key_in dir)) (srr_certificate certificate))) as Hk
    by (by apply kept_write, join_inside).
  apply (kept_context _ _ _ _ Hk _ _ _ Hdir') in Hwrite as Hdir. clear Hdir' Hwrite Hk.
  apply eff_bind_ok in Hrun as (status & d10 & Hssh & Hrun).
  apply (kept_context _ _ _ _ (Hprograms _ _ dir) _ _ _ Hdir) in Hssh as Hdir'. clear Hdir Hssh.
  apply eff_bind_ok in Hrun as ([] & d11 & Hclean & Hrun).
  assert (d' = d11) as -> by (destruct (co_success status); unfold mret, eff_ret, throw in Hrun; congruence).
  unfold cleanup, remove_dir_all, attempt, mbind, eff_bind in Hclean. cbn [ek_dir ssh_key_in] in Hclean. rewrite Hdir' in Hclean.
  injection Hclean as <-. cbn [dk_nodes set_nodes]. apply map_lookup_filter_None. right. intros n _. by rewrite Hp.
Qed.

(** But when the control plane refuses the certificate, [medium ssh] fails with the private
    key it has generated still in the temporary directory: only the way through OpenSSH
    ends in the clean-up. *)
Theorem a_refused_certificate_leaves_the_key (device_name : string) (verbose force_relay : bool)
    (d d1 d2 d3 : disk) (paths : app_paths) (state : app_state) (devices : list device_record) (device : device_record)
    (ssh : ssh_endpoint) (output : command_output) (private_key public_key : string) (e : error)
    (Hpaths : from_env macos env = Ok paths)
    (Hstate : state_load paths d = (Ok state, d1))
    (Hdevices : fetch_devices server_name_ok exchange plain_get state = Ok devices)
    (Hdevice : List.find (fun device => dr_name device =?s device_name) devices = Some device /\ dr_ssh device = Some ssh)
    (Hdir : create_dir_all (ssh_key_dir temp_dir timestamp device_name) d1 = (Ok tt, d2))
    (Hkeygen : let key := ssh_key_in (ssh_key_dir temp_dir timestamp device_name) in
       program "ssh-keygen" ["-q"; "-t"; "ed25519"; "-N"; ""; "-C"; "medium-ephemeral"; "-f"; ek_private_key_path key] d2
         = (Ok output, d3) /\ co_success output = true /\ contents_of (ek_private_key_path key) d3 = Some private_key /\
       read_to_string (ek_public_key_path key) d3 = (Ok public_key, d3))
    (Hrefused : client_issue_ssh_certificate server_name_ok exchange plain_post state (dr_id device) (se_service_id ssh)
                  public_key = Err e) :
  exists d', run_ssh_command program temp_dir timestamp current_exe macos env server_name_ok exchange plain_get plain_post
               device_name verbose force_relay d = (Err e, d') /\
    contents_of (path_join (ssh_key_dir temp_dir timestamp device_name) "id_ed25519") d' = Some private_key.
Proof.
  destruct Hkeygen as (Hgen & Hok & Hprivate & Hpublic), Hdevice as [Hfind Hssh]. exists d3. split; [|exact Hprivate].
  unfold run_ssh_command, lift. rewrite Hpaths. rewrite (eff_bind_eq _ _ d paths d) by done.
  rewrite (eff_bind_eq _ _ _ _ _ Hstate), Hdevices. rewrite (eff_bind_eq _ _ d1 devices d1) by done.
  rewrite Hfind. rewrite (eff_bind_eq _ _ d1 device d1) by done. rewrite Hssh. rewrite (eff_bind_eq _ _ d1 ssh d1) by done.
  rewrite (eff_bind_eq _ _ d1 (ssh_key_in (ssh_key_dir temp_dir timestamp device_name)) d3).
  2: { unfold generate_ephemeral_ssh_key. cbv zeta. rewrite (eff_bind_eq _ _ _ _ _ Hdir), (eff_bind_eq _ _ _ _ _ Hgen). by rewrite Hok. }
  rewrite (eff_bind_eq _ _ d3 public_key d3) by (by apply with_context_ok).
  rewrite Hrefused. by apply eff_bind_err.
Qed.
End EphemeralKey.

Definition toy_key_program (name : string) (args : list string) : eff disk command_output :=
  _ ← (match args with
       | [_; _; _; _; _; _; _; _; key] =>
           if name =?s "ssh-keygen" then _ ← write_file key "PRIVATE"; write_file (key +:+ ".pub") "ssh-ed25519 AAAA" else mret tt
       | _ => mret tt
       end);
  mret (CommandOutput true "exit status: 0" EmptyString EmptyString).
Lemma toy_key_program_keeps name args p : kept p Directory (toy_key_program name args).
Proof.
  assert (forall q c, kept p Directory (write_file q c)) as Hw.
  { intros q c. destruct (decide (p = q)) as [->|Hne]; [|by apply kept_write].
    intros d r d' Hd. unfold write_file. destruct (dk_denied d q); [by intros [= _ <-]|]. rewrite Hd. by intros [= _ <-]. }
  apply kept_bind; [|intros; apply kept_pure].
  repeat (destruct args as [|? args]; try apply kept_pure).
  destruct (name =?s "ssh-keygen"); [|apply kept_pure]. apply kept_bind; [apply Hw|intros; apply Hw].
Qed.
Definition toy_secret_state : app_state := AppState "http://control" "laptop" EmptyString 1 "none" EmptyString "secret".
Definition toy_secret_json : StateJson := {| state_from_str _ := Ok toy_secret_state; state_to_pretty _ := Ok EmptyString |}.
Definition toy_home (name : string) : option string := if name =?s "HOME" then Some "/home/u" else None.
Definition toy_state_path : string :=
  match from_env false toy_home with Ok paths => ap_state_path paths | Err _ => EmptyString end.
Definition toy_key_disk : disk :=
  Disk {["/" := Directory; "/tmp" := Directory; toy_state_path := File "{}" 420]} (fun _ => false).
Definition toy_device_json : Json (list device_record) := {| to_vec _ := Ok []; from_slice _ := Ok [toy_device] |}.
Definition toy_certificate_json : Json ssh_certificate_response :=
  {| to_vec _ := Ok []; from_slice _ := Ok (SshCertificateResponse "ssh-cert" "root" 300) |}.
Definition toy_ssh_run (post : string -> list byte -> result (list byte)) : result unit * disk :=
  @run_ssh_command toy_key_program "/tmp" 7 (Ok "/usr/bin/medium") toy_urls toy_secret_json toy_device_json toy_requests
    toy_certificate_json false toy_home (fun _ => true) toy_exchange (fun _ => Ok []) post "home" false false toy_key_disk.
Lemma ssh_sessions_leave_no_key_witness :
  dk_nodes (toy_ssh_run (fun _ _ => Ok [])).2 !! "/tmp/medium-ssh-home-7/id_ed25519" = None.
Proof.
  assert (toy_ssh_run (fun _ _ => Ok []) = (Ok tt, (toy_ssh_run (fun _ _ => Ok [])).2)) as Hrun by (vm_compute; reflexivity).
  refine (ssh_sessions_leave_no_key toy_key_program "/tmp" 7 (Ok "/usr/bin/medium") false toy_home (fun _ => true)
    toy_exchange (fun _ => Ok []) (fun _ _ => Ok []) _ "home" false false toy_key_disk _ _ Hrun _ _).
  - discriminate.
  - exact toy_key_program_keeps.
  - vm_compute. reflexivity.
Defined.
Definition toy_key_dir : string := ssh_key_dir "/tmp" 7 "home".
Definition toy_made_disk : disk := (create_dir_all toy_key_dir toy_key_disk).2.
Definition toy_keyed_disk : disk := (toy_key_program "ssh-keygen" ["-q"; "-t"; "ed25519"; "-N"; ""; "-C"; "medium-ephemeral"; "-f";
  ek_private_key_path (ssh_key_in toy_key_dir)] toy_made_disk).2.
Lemma a_refused_certificate_leaves_the_key_witness :
  exists d', toy_ssh_run (fun _ _ => Err (EExt "403")) = (Err (EExt "403"), d') /\
    contents_of (path_join toy_key_dir "id_ed25519") d' = Some "PRIVATE".
Proof.
  refine (@a_refused_certificate_leaves_the_key toy_key_program "/tmp" 7 (Ok "/usr/bin/medium") toy_urls toy_secret_json
    toy_device_json toy_requests toy_certificate_json false toy_home (fun _ => true) toy_exchange (fun _ => Ok [])
    (fun _ _ => Err (EExt "403")) "home" false false toy_key_disk toy_key_disk toy_made_disk toy_keyed_disk
    (default (AppPaths EmptyString EmptyString EmptyString EmptyString EmptyString EmptyString EmptyString EmptyString)
       (result_ok (from_env false toy_home)))
    toy_secret_state [toy_device] toy_device (SshEndpoint "svc_ssh" "10.0.0.9" 22 "root")
    (CommandOutput true "exit status: 0" EmptyString EmptyString) "PRIVATE" "ssh-ed25519 AAAA" (EExt "403") _ _ _ _ _ _ _).
  - reflexivity.
  - vm_compute. reflexivity.
  - reflexivity.
  - split; reflexivity.
  - vm_compute. reflexivity.
  - cbv zeta. repeat split; vm_compute; reflexivity.
  - reflexivity.
Defined.
